(* ===== verification/_CoqProject ===== *)
-Q . S2P
Prelude.v
GoStrings.v
GoTime.v
Json.v
JsonFacts.v
Net.v
Base64.v
Security.v
BackupFormat.v
Config.v
Host.v
Templates.v
Detect.v
StoreTypes.v
Executor.v
Views.v
Hub.v
Html.v
PanelPages.v
ApplicationPages.v
OperationPages.v
Components.v
Proxy.v
BlueGreen.v
Engine.v
BlueGreenFacts.v
NoDowntime.v
Release.v
ReleaseFacts.v
StoreSettings.v
DevWatch.v
BackupCommand.v
RestoreFacts.v
StoreApplications.v
StoreAccess.v
AccessFacts.v
Schema.v
StoreDeployments.v
StoreQueueFacts.v
JobSpec.v
Agent.v
Startup.v
AgentFacts.v
Session.v
SessionFacts.v
UnlockFacts.v
Preflight.v
Operations.v
Pages.v
CICD.v
Handlers.v
Cloudflare.v
Connector.v
CloudflareHandlers.v
Repositories.v
PageHandlers.v
Server.v
Process.v
WebhookFacts.v
EvidenceFacts.v
JobFacts.v
ServingFacts.v
CloudflareFacts.v
ConnectorFacts.v
OperationsFacts.v
ReadOnly.v
ServerFacts.v
ReadFacts.v
PreviewFacts.v
PagesFacts.v
FormFacts.v
ApplicationFacts.v
SystemFacts.v
