(* ===== verification/Prelude.v ===== *)
(** * MiniDock: a verified model

    MiniDock is a self-hosted deployment panel: one process that keeps its state in SQLite,
    clones, builds and starts applications with Docker, switches the routes of Caddy between
    two colours of a container, and is driven by a browser, by GitHub webhooks and by agents.
    This library models the Go program under [src/] and proves what makes it correct.

    ** How the program is put together, and what models it

    - The machine.  Commands, HTTP requests and files are the class [Host] (Host.v); nothing
      is assumed of it in general.  Engine.v states as laws ([Engine], [Observation]) what the
      Docker engine and Caddy's admin API promise to the executor, and gives a machine that
      keeps them.
    - The store (internal/store/store.go).  StoreTypes.v has the tables as one record
      [database]; StoreSettings.v (settings, secrets, configuration), StoreApplications.v
      (applications, health evidence, alerts), StoreAccess.v (webhook deliveries, rate limits,
      lockouts, nodes, identities, the Cloudflare row) and StoreDeployments.v (the job queue)
      have one definition for each method; Schema.v has [migrate] with its ten versions, one
      step for each SQL statement.
    - The executor (internal/deploy/executor.go).  Executor.v (types, validation, digests,
      environments), Proxy.v (Caddy: apply, verify, probe), BlueGreen.v (Docker: staging, switch,
      retirement, reconciliation, status), Release.v (source, build, start, rollback).  Build
      files are internal/runtime: Templates.v and Detect.v.
    - The process (internal/app).  Config.v is config.go; Hub.v is the state of [App] with its
      replies; Session.v (setup, unlocking, sessions, CSRF), Preflight.v, Handlers.v,
      Repositories.v, Pages.v and PageHandlers.v are server.go, operations.go and
      repositories.go; CICD.v is cicd.go (webhook, queue, worker, rollback); Operations.v has
      collection, retention and backups; Cloudflare.v, Connector.v and CloudflareHandlers.v are
      cloudflare.go, cloudflare_connector.go and their handlers; Server.v is [Handler], every
      route behind the CSRF check.
    - The pages (internal/app/views).  Views.v has the data of every component; Html.v says what a
      generated component writes (markup, values, links, classes), reads it back with a lexer and
      checks it; PanelPages.v, ApplicationPages.v and OperationPages.v are the components, one
      definition for each part of the generated Go code; Components.v joins them with the replies
      and the security headers.
    - Around it.  Security.v is internal/security, BackupFormat.v is internal/backup, Agent.v is
      internal/agent with the messages of cmd/minidock-agent, BackupCommand.v is
      cmd/minidock/backup.go.  Startup.v has the mutual TLS of panel and agent, their listeners
      and the flags of the agent; Process.v is cmd/minidock/main.go, the life of the panel: its
      start, its end, requests, agent streams and the rounds of the queue, cleanup, backup and
      collection loops.  DevWatch.v is cmd/devwatch, which rebuilds the program when a source
      changes.
    - What Go's library does for it: GoStrings.v, GoTime.v, Json.v, Base64.v, Net.v.

    Effectful code is a state monad with errors ([M] below).  Its world has the state, a clock
    and a list of faults: every statement, query, commit, command, request and file operation
    takes the next fault and may fail before it acts or after it has acted; a transaction is
    atomic.  The end of a context is such a fault.  A theorem that quantifies over worlds holds
    for every place where the program can be interrupted by an error, and for every clock.
    [evolves], [hoare], [errors], [escapes], [arrives] and [faultless] are the ways the proofs
    traverse such code.

    ** What is shown

    - The whole process.  [SystemFacts.system_invariant]: in every life of the panel, under every
      fault, the queue is consistent, no name is both a secret and a public value, and every
      registered application is well formed.  The store's writes promise this through the class
      [Preserved]; the handlers, jobs and loops are traversed once for any such invariant.
      [ServerFacts.changes_need_credentials], [ReadFacts.strangers_see_nothing] and
      [ReadFacts.reading_changes_nothing]: who can change the process, what a stranger can
      learn, and that a GET changes nothing (ReadOnly.v traverses its routes).
    - The pages.  [Components.pages_are_documents], [Components.values_keep_the_structure]: every
      page is well formed HTML whatever its data, its forms carry the token (but before there is a
      session), and no value can change its structure; [FormFacts.rendered_forms_are_accepted]: a form that is shown is
      accepted.  [inline_scripts_blocked]: two pages have scripts that the policy blocks.
    - The queue.  [JobSpec.queue_implements_jobs] refines an abstract machine of jobs;
      StoreQueueFacts.v has its invariant, exclusive claims and durable cancellation; JobFacts.v
      how a job ends and when a rollback follows; ServingFacts.v joins the worker, the executor
      and Caddy: a job that ends well serves what it records.  EvidenceFacts.v: the manifest of a
      release reads back.
    - Releases.  BlueGreenFacts.v (isolation, reconciliation, the health loop and its time),
      NoDowntime.v (the application stays served, also when a switch or its verification fails),
      ReleaseFacts.v (containment, harmless failed builds, serving), Proxy.v (confirmed routes, no
      second write after a refusal, the probe ends), Templates.v, Executor.v.
    - Keys and data.  SessionFacts.v (the password of the setup unlocks), BackupFormat.v and
      OperationsFacts.v (backups open; cleanup spares what it must), PreviewFacts.v (a cleanup
      deletes only what its preview announced), RestoreFacts.v (a restore writes only what it
      authenticated), AccessFacts.v (throttling, private secrets, deliveries claimed once),
      UnlockFacts.v (guesses of the password are limited), Schema.v (migrations resume after any
      interruption), CloudflareFacts.v (zones and routes), ConnectorFacts.v (the tunnel token stays
      out of the messages), WebhookFacts.v, AgentFacts.v, PagesFacts.v.

    Theorems whose comment begins with C and a number are the claims of the development; the
    others serve them or were shown on the way.

    ** Bounds and fuel

    Machine integers are Z; where Go wraps ([wrap64], sizes and durations) the wrap is written.
    Loops with a deadline have fuel: the probe of a route ([probe_fuel]) and the health check
    ([health_fuel]) get a round for each interval up to their deadline and two or three more, and
    [probe_returns] and [health_check_ends] show that the clock ends them first.  The JSON parser
    has twice the length of its text (JsonFacts.v), a duration as many units as characters.
    A client that follows a log stays for [patience] ticks; everything is shown for any number.

    ** Abstractions

    Handlers, jobs and loops run one after the other; only a running job has other activity
    inside (the heartbeat, cancellations, other requests), as a list.  The tracker and the
    release log are lists that reach the store when the executor returns.  A float64 percentage
    is an exact fraction; [float_div] and [fixed] are the quotients that are printed.
    Bodies of HTTP requests and answers are JSON trees; invalid UTF-8 and U+2028 are not
    escaped, and only ASCII letters fold their case.  Cryptography is the class [Crypto] with
    laws, its random bytes arguments; erasing memory is not represented.  The purge in newSession
    reads the clock once.  The upload of a backup reads its pipe to the end.  A reply has its
    code, its body or page and its redirect, not its other headers; paths that net/http would
    redirect to a clean one do not occur.  The embedded scripts, the SQLite driver (opening,
    VACUUM INTO, serialising, the integrity pragma), the S3 client, the parsing and signing of
    RSA keys and the loading of certificates are parameters, as is what templ does for its
    generated code: the escaping of a value (which promises to give no angle bracket and no
    quote) and the text of a list of classes.

    ** Not modelled

    The waits of a graceful end (a request or a job that is still running when the panel stops is
    cut short, or ends, before the end), the gRPC plumbing of internal/agent/protocol.go, which
    hands streams to the library, the browser scripts, and Close of the store, a single call of
    the driver. *)

From stdpp Require Export base list strings gmap sorting.
From Stdlib Require Export ZArith Lia.

#[global] Open Scope string_scope.
#[global] Open Scope list_scope.
#[global] Open Scope Z_scope.

(** ** Record update

    [r <| f := v |>] replaces one field of a record.  A record type takes part by
    declaring an [Eta] instance that rebuilds it from its projections; the setter of
    a field is computed from it by abstracting the projection. *)

Class Eta (R : Type) := eta_expand : R -> R.

Class Setter {R T : Type} (proj : R -> T) := set_field : T -> R -> R.

Ltac build_setter proj :=
  lazymatch type of proj with
  | ?R -> ?T =>
    let e := constr:(@eta_expand R _) in
    let e := eval red in e in
    let e := eval unfold eta_expand in e in
    let body := eval hnf in e in
    let f := eval pattern proj in body in
    lazymatch f with
    | ?g _ => let r := eval cbv beta in (fun (v : T) => g (fun _ => v)) in exact r
    end
  end.

#[export] Hint Extern 1 (Setter ?proj) => build_setter proj : typeclass_instances.

Declare Scope record_scope.
Delimit Scope record_scope with rec.
Notation "r <| f := v |>" := (set_field (proj := f) v r)
  (at level 1, left associativity, f at level 9, v at level 200) : record_scope.
#[global] Open Scope record_scope.

(** ** Go values the whole program shares *)

(** [time.Time] and [time.Duration] are nanoseconds.  Time counts from Go's zero
    time, so [Time.IsZero] is a comparison with 0. *)
Abbreviation Time := Z (only parsing).
Abbreviation Duration := Z (only parsing).
Definition Millisecond : Z := 1000000.
Definition Second : Z := 1000 * Millisecond.
Definition Minute : Z := 60 * Second.
Definition Hour : Z := 60 * Minute.
(** [t.Unix()]. *)
Definition unix (t : Time) : Z := t / Second - 62135596800.
(** [t.UnixNano()]. *)
Definition unix_nano (t : Time) : Z := t - 62135596800 * Second.
Definition IsZero (t : Time) : bool := t =? 0.

(** Errors: the two sentinels of package store, SQLite constraint failures, a fault
    of the environment (I/O, a cancelled context, a failed command), a panic of the
    runtime, and every other error the code builds with its message.  [ErrFailure]
    is [deploy.Failure]: a classified error with its stage and code. *)
Inductive error :=
  | ErrNotFound
  | ErrDeploymentCancelled
  | ErrConstraint (constraint : string)
  | ErrEnv (message : string)
  | ErrMsg (message : string)
  | ErrWrap (message : string) (cause : error)
  | ErrPanic (message : string)
  | ErrFailure (stage code : string) (cause : error).

#[export] Instance error_eq_dec : EqDecision error.
Proof. solve_decision. Defined.

Inductive result (A : Type) :=
  | Ok (value : A)
  | Err (cause : error).
Arguments Ok {A} _.
Arguments Err {A} _.

#[export] Instance result_eq_dec `{EqDecision A} : EqDecision (result A).
Proof. solve_decision. Defined.

Lemma Ok_inj {A} (a b : A) : Ok a = Ok b -> a = b.
Proof. congruence. Qed.

Definition is_ok {A} (r : result A) : bool :=
  match r with Ok _ => true | Err _ => false end.

(** Go's [value, err := ...; if err != nil { return err }] on pure code. *)
#[export] Instance result_ret : MRet result := fun A a => Ok a.
#[export] Instance result_bind : MBind result :=
  fun A B f r => match r with Ok a => f a | Err e => Err e end.

(** ** Effectful code

    [M S A] threads a state [S] (the database, the Docker host), a script of faults
    and a script of clock readings.  Every statement or command consumes one fault;
    an exhausted script means no fault.  [FailAfter] is a command whose effect took
    place although it reported an error. *)
Inductive fault :=
  | NoFault
  | FailBefore (message : string)
  | FailAfter (message : string).

Record world (S : Type) := World {
  w_state : S;
  w_faults : list fault;
  w_clock : Time;
  w_ticks : list Duration }.
Arguments World {S} _ _ _ _.
Arguments w_state {S} _.
Arguments w_faults {S} _.
Arguments w_clock {S} _.
Arguments w_ticks {S} _.

Definition set_state {S} (s : S) (w : world S) : world S :=
  World s (w_faults w) (w_clock w) (w_ticks w).

Definition M (S A : Type) : Type := world S -> result A * world S.

#[export] Instance M_ret {S} : MRet (M S) := fun A a w => (Ok a, w).
#[export] Instance M_bind {S} : MBind (M S) := fun A B f m w =>
  match m w with
  | (Ok a, w') => f a w'
  | (Err e, w') => (Err e, w')
  end.

Section effects.
Context {S : Type}.

Definition fail {A} (e : error) : M S A := fun w => (Err e, w).

(** [if err := m; err != nil { return h(err) }]. *)
Definition catch {A} (m : M S A) (h : error -> M S A) : M S A := fun w =>
  match m w with
  | (Ok a, w') => (Ok a, w')
  | (Err e, w') => h e w'
  end.

(** [a, err := m] with the error kept as a value. *)
Definition attempt {A} (m : M S A) : M S (result A) := fun w =>
  let '(r, w') := m w in (Ok r, w').

(** [_ = m]. *)
Definition ignore {A} (m : M S A) : M S unit := fun w =>
  let '(_, w') := m w in (Ok tt, w').

(** [defer c()] around a body. *)
Definition finally {A} (m : M S A) (c : M S unit) : M S A := fun w =>
  let '(r, w1) := m w in let '(_, w2) := c w1 in (r, w2).

Definition lift {A} (r : result A) : M S A := fun w => (r, w).

(** [time.Now()]: the clock moves by the next tick of the script. *)
Definition now : M S Time := fun w =>
  match w_ticks w with
  | [] => (Ok (w_clock w), w)
  | t :: ts => (Ok (w_clock w + t), World (w_state w) (w_faults w) (w_clock w + t) ts)
  end.

Definition next_fault (w : world S) : fault * world S :=
  match w_faults w with
  | [] => (NoFault, w)
  | f :: fs => (f, World (w_state w) fs (w_clock w) (w_ticks w))
  end.

(** One atomic statement or command: [f] computes its result and the new state;
    [partial] is what a command that fails half way leaves behind. *)
Definition step_with {A} (partial : S -> S) (f : S -> result A * S) : M S A := fun w =>
  match next_fault w with
  | (NoFault, w') => let '(r, s) := f (w_state w') in (r, set_state s w')
  | (FailBefore m, w') => (Err (ErrEnv m), w')
  | (FailAfter m, w') => (Err (ErrEnv m), set_state (partial (w_state w')) w')
  end.

Definition step {A} (f : S -> result A * S) : M S A := step_with (fun s => snd (f s)) f.

(** [select { case <-ctx.Done(): return ctx.Err(); case <-time.After(d): }]: a fault is
    the cancellation of the context. *)
Definition sleep (d : Duration) : M S unit := fun w =>
  match next_fault w with
  | (NoFault, w') => (Ok tt, World (w_state w') (w_faults w') (w_clock w' + d) (w_ticks w'))
  | (FailBefore m, w') | (FailAfter m, w') => (Err (ErrEnv m), w')
  end.

(** A statement that only reads. *)
Definition query {A} (f : S -> result A) : M S A := step (fun s => (f s, s)).

(** A statement that always succeeds when the environment does not fail. *)
Definition update (f : S -> S) : M S unit := step (fun s => (Ok tt, f s)).

(** [tx := BeginTx(); defer tx.Rollback(); ...; return tx.Commit()]: an error of
    the body or of the commit restores the state.  A commit reported as failed
    after it took effect keeps the new state. *)
Definition transaction {A} (body : M S A) : M S A := fun w0 =>
  match next_fault w0 with
  | (FailBefore m, w) | (FailAfter m, w) => (Err (ErrEnv m), w)
  | (NoFault, w) =>
    match body w with
    | (Err e, w') => (Err e, set_state (w_state w) w')
    | (Ok a, w') =>
      match next_fault w' with
      | (NoFault, w'') => (Ok a, w'')
      | (FailBefore m, w'') => (Err (ErrEnv m), set_state (w_state w) w'')
      | (FailAfter m, w'') => (Err (ErrEnv m), w'')
      end
    end
  end.

Fixpoint for_each {A} (xs : list A) (f : A -> M S unit) : M S unit :=
  match xs with
  | [] => mret tt
  | x :: xs => f x ;; for_each xs f
  end.
End effects.

(** A world where nothing fails and the clock stands still. *)
Definition calm {S} (s : S) (t : Time) : world S := World s [] t [].

(** The state a computation ends in, and its result. *)
Definition exec {S A} (m : M S A) (w : world S) : S := w_state (snd (m w)).
Definition eval {S A} (m : M S A) (w : world S) : result A := fst (m w).

(** ** Reasoning about effectful code

    [evolves R m]: whatever the faults and the clock, the state [m] leaves is related
    by the preorder [R] to the one it started from.  An invariant is the preorder
    [keeps I].  The rules follow the combinators, so a proof is a traversal of the
    code that stops at its statements ([evolve]). *)
Definition evolves {S A} (R : relation S) (m : M S A) : Prop :=
  forall w, R (w_state w) (w_state (snd (m w))).

Definition keeps {S} (I : S -> Prop) : relation S := fun s s' => I s -> I s'.

#[export] Instance keeps_preorder {S} (I : S -> Prop) : PreOrder (keeps I).
Proof. split; unfold keeps; red; auto. Qed.

Lemma next_fault_state {S} (w : world S) : w_state (snd (next_fault w)) = w_state w.
Proof. unfold next_fault. by destruct (w_faults w). Qed.

Section evolves.
Context {S : Type} (R : relation S) `{!PreOrder R}.

Lemma evolves_ret {A} (a : A) : evolves R (mret a).
Proof. intros w. reflexivity. Qed.

Lemma evolves_fail {A} (e : error) : evolves R (A := A) (fail e).
Proof. intros w. reflexivity. Qed.

Lemma evolves_lift {A} (r : result A) : evolves R (lift r).
Proof. intros w. reflexivity. Qed.

Lemma evolves_bind {A B} (m : M S A) (f : A -> M S B) :
  evolves R m -> (forall a, evolves R (f a)) -> evolves R (m ≫= f).
Proof.
  intros Hm Hf w. specialize (Hm w). unfold mbind, M_bind.
  destruct (m w) as [[a|e] w']; simpl in *; [|done].
  etrans; [exact Hm | apply Hf].
Qed.

Lemma evolves_catch {A} (m : M S A) (h : error -> M S A) :
  evolves R m -> (forall e, evolves R (h e)) -> evolves R (catch m h).
Proof.
  intros Hm Hf w. specialize (Hm w). unfold catch.
  destruct (m w) as [[a|e] w']; simpl in *; [done|].
  etrans; [exact Hm | apply Hf].
Qed.

Lemma evolves_attempt {A} (m : M S A) : evolves R m -> evolves R (attempt m).
Proof. intros Hm w. specialize (Hm w). unfold attempt. by destruct (m w). Qed.

Lemma evolves_ignore {A} (m : M S A) : evolves R m -> evolves R (ignore m).
Proof. intros Hm w. specialize (Hm w). unfold ignore. by destruct (m w). Qed.

Lemma evolves_finally {A} (m : M S A) (c : M S unit) :
  evolves R m -> evolves R c -> evolves R (finally m c).
Proof.
  intros Hm Hc w. specialize (Hm w). unfold finally. destruct (m w) as [r w1]. simpl in Hm.
  specialize (Hc w1). destruct (c w1). simpl in *. by etrans.
Qed.

Lemma evolves_now : evolves R now.
Proof. intros w. unfold now. destruct (w_ticks w); reflexivity. Qed.

Lemma evolves_sleep d : evolves R (sleep d).
Proof.
  intros w. unfold sleep. pose proof (next_fault_state w) as E.
  destruct (next_fault w) as [[|m|m] w']; simpl in *; by rewrite E.
Qed.

Lemma evolves_step_with {A} (p : S -> S) (f : S -> result A * S) :
  (forall s, R s (p s)) -> (forall s, R s (snd (f s))) -> evolves R (step_with p f).
Proof.
  intros Hp Hf w. unfold step_with.
  pose proof (next_fault_state w) as E.
  destruct (next_fault w) as [[|m|m] w']; simpl in *; rewrite <- E.
  - specialize (Hf (w_state w')). by destruct (f (w_state w')).
  - reflexivity.
  - apply Hp.
Qed.

Lemma evolves_step {A} (f : S -> result A * S) :
  (forall s, R s (snd (f s))) -> evolves R (step f).
Proof. intros Hf. by apply evolves_step_with. Qed.

Lemma evolves_query {A} (f : S -> result A) : evolves R (query f).
Proof. apply evolves_step. intros s. reflexivity. Qed.

Lemma evolves_update (f : S -> S) : (forall s, R s (f s)) -> evolves R (update f).
Proof. intros Hf. by apply evolves_step. Qed.

Lemma evolves_transaction {A} (m : M S A) : evolves R m -> evolves R (transaction m).
Proof.
  intros Hm w0. unfold transaction.
  pose proof (next_fault_state w0) as E0.
  destruct (next_fault w0) as [[|?|?] w]; simpl in *; rewrite <- E0; try reflexivity.
  specialize (Hm w). destruct (m w) as [[a|e] w']; simpl in *; [|reflexivity].
  pose proof (next_fault_state w') as E.
  destruct (next_fault w') as [[|?|?] w'']; simpl in *; [| reflexivity |].
  all: by rewrite E.
Qed.

Lemma evolves_for_each {A} (xs : list A) (f : A -> M S unit) :
  (forall x, evolves R (f x)) -> evolves R (for_each xs f).
Proof.
  intros Hf. induction xs as [|x xs IH]; simpl; [apply evolves_ret|].
  apply evolves_bind; [apply Hf | done].
Qed.
End evolves.

Create HintDb evolve.
#[export] Hint Resolve evolves_ret evolves_fail evolves_lift evolves_bind evolves_catch
  evolves_attempt evolves_ignore evolves_now evolves_query evolves_transaction
  evolves_for_each : evolve.

(** Traverse the code: the rule of each combinator, a case analysis at each branch,
    and the statements of the state are what remains. *)
Ltac evolve_step :=
  lazymatch goal with
  | |- evolves _ (mret _) => refine (evolves_ret _ _)
  | |- evolves _ (fail _) => refine (evolves_fail _ _)
  | |- evolves _ (lift _) => refine (evolves_lift _ _)
  | |- evolves _ now => refine (evolves_now _)
  | |- evolves _ (sleep _) => refine (evolves_sleep _ _)
  | |- evolves _ (query _) => refine (evolves_query _ _)
  | |- evolves _ (_ ≫= _) => refine (evolves_bind _ _ _ _ _); [|intros ?]
  | |- evolves _ (catch _ _) => refine (evolves_catch _ _ _ _ _); [|intros ?]
  | |- evolves _ (attempt _) => refine (evolves_attempt _ _ _)
  | |- evolves _ (ignore _) => refine (evolves_ignore _ _ _)
  | |- evolves _ (finally _ _) => refine (evolves_finally _ _ _ _ _)
  | |- evolves _ (transaction _) => refine (evolves_transaction _ _ _)
  | |- evolves _ (for_each _ _) => refine (evolves_for_each _ _ _ _); intros ?
  | |- evolves _ (update _) => refine (evolves_update _ _ _); intros ?
  | |- evolves _ (step _) => refine (evolves_step _ _ _); intros ?
  | |- evolves _ (match ?x with _ => _ end) => destruct x
  | |- evolves _ (let _ := _ in _) => cbv zeta
  end.
Ltac evolve := repeat evolve_step.

(** Traverse the definitions the code calls, too. *)
Ltac head_of t := lazymatch t with ?f _ => head_of f | _ => t end.
Ltac open_head :=
  lazymatch goal with |- evolves _ ?m => let h := head_of m in unfold h end.

Lemma evolves_weaken {S A} (R Q : relation S) (m : M S A) :
  (forall a b, R a b -> Q a b) -> evolves R m -> evolves Q m.
Proof. intros HRQ Hm w. apply HRQ, Hm. Qed.

(** The continuation only sees values that the first part returns. *)
Lemma evolves_bind_value {S A B} (R : relation S) `{!PreOrder R} (m : M S A) (k : A -> M S B) :
  evolves R m -> (forall a, (exists w w', m w = (Ok a, w')) -> evolves R (k a)) -> evolves R (m ≫= k).
Proof.
  intros Hm Hk w. specialize (Hm w). unfold mbind, M_bind. destruct (m w) as [[a|err] w1] eqn:E; [|done].
  etrans; [exact Hm|]. apply Hk. by exists w, w1.
Qed.

(** A transaction is atomic: unless the commit itself reports a fault, an error
    leaves the state exactly as it was. *)
Lemma transaction_atomic {S A} (m : M S A) (w : world S) e :
  eval (transaction m) w = Err e ->
  exec (transaction m) w = w_state w \/ exists msg, e = ErrEnv msg.
Proof.
  unfold eval, exec, transaction.
  pose proof (next_fault_state w) as E0.
  destruct (next_fault w) as [[|?|?] w0]; simpl in *; rewrite <- E0; [|by auto|by auto].
  destruct (m w0) as [[a|e'] w']; simpl; [|by auto].
  pose proof (next_fault_state w') as E.
  destruct (next_fault w') as [[|?|?] w'']; simpl in *; intros [= <-] || intros; eauto.
Qed.

(** ** Inversion of successful runs

    A run that succeeded met no fault: each rule gives what its parts did. *)
Section runs.
Context {S : Type}.
Implicit Types w : world S.

Lemma ret_run {A} (a b : A) w w' : (mret a : M S A) w = (Ok b, w') -> b = a /\ w' = w.
Proof. by intros [= -> ->]. Qed.

Lemma bind_run {A B} (m : M S A) (f : A -> M S B) w b w' :
  (m ≫= f) w = (Ok b, w') -> exists a w1, m w = (Ok a, w1) /\ f a w1 = (Ok b, w').
Proof. unfold mbind, M_bind. destruct (m w) as [[a|e] w1]; [|done]. eauto. Qed.

Lemma bind_cases {A B} (m : M S A) (f : A -> M S B) w r w' :
  (m ≫= f) w = (r, w') ->
  (exists e, m w = (Err e, w') /\ r = Err e) \/ exists a w1, m w = (Ok a, w1) /\ f a w1 = (r, w').
Proof.
  unfold mbind, M_bind. destruct (m w) as [[a|e] w1]; [right; eauto|]. intros [= <- <-]. left. eauto.
Qed.

Lemma catch_cases {A} (m : M S A) (h : error -> M S A) w r w' :
  catch m h w = (r, w') ->
  (exists a, m w = (Ok a, w') /\ r = Ok a) \/ exists e w1, m w = (Err e, w1) /\ h e w1 = (r, w').
Proof. unfold catch. destruct (m w) as [[a|e] w1]; [intros [= <- <-]; left|right]; eauto. Qed.

Lemma evolves_pair {A} (R : relation S) (m : M S A) w r w' :
  evolves R m -> m w = (r, w') -> R (w_state w) (w_state w').
Proof. intros Hm E. specialize (Hm w). by rewrite E in Hm. Qed.

Lemma now_run w t w' : now w = (Ok t, w') -> w_state w' = w_state w.
Proof. unfold now. destruct (w_ticks w); by intros [= _ <-]. Qed.

Lemma sleep_run d w u w' : sleep d w = (Ok u, w') -> w_state w' = w_state w.
Proof.
  unfold sleep. pose proof (next_fault_state w) as E.
  destruct (next_fault w) as [[|?|?] w1]; simpl in *; [|done|done]. by intros [= <- <-].
Qed.

Lemma step_run {A} (f : S -> result A * S) w a w' :
  step f w = (Ok a, w') -> f (w_state w) = (Ok a, w_state w').
Proof.
  unfold step, step_with. pose proof (next_fault_state w) as E.
  destruct (next_fault w) as [[|?|?] w1]; simpl in *; [|done|done].
  rewrite E. destruct (f (w_state w)) as [r s]. intros [= -> <-]. done.
Qed.

Lemma query_run {A} (f : S -> result A) w a w' :
  query f w = (Ok a, w') -> f (w_state w) = Ok a /\ w_state w' = w_state w.
Proof. intros H%step_run. by injection H. Qed.

Lemma update_run (f : S -> S) w u w' :
  update f w = (Ok u, w') -> w_state w' = f (w_state w).
Proof. intros H%step_run. by injection H. Qed.

Lemma transaction_run {A} (m : M S A) w a w' :
  transaction m w = (Ok a, w') ->
  exists w1 w2, w_state w1 = w_state w /\ m w1 = (Ok a, w2) /\ w_state w' = w_state w2.
Proof.
  unfold transaction. pose proof (next_fault_state w) as E.
  destruct (next_fault w) as [[|?|?] w1]; simpl in *; [|done|done].
  destruct (m w1) as [[b|e] w2] eqn:Em; [|done]. pose proof (next_fault_state w2) as E2.
  destruct (next_fault w2) as [[|?|?] w3]; simpl in *; [|done|done].
  intros [= <- <-]. by exists w1, w2.
Qed.

Lemma attempt_run {A} (m : M S A) w r w' : attempt m w = (Ok r, w') -> m w = (r, w').
Proof. unfold attempt. destruct (m w). by intros [= <- <-]. Qed.

Lemma finally_run {A} (m : M S A) (c : M S unit) w a w' :
  finally m c w = (Ok a, w') -> exists w1, m w = (Ok a, w1) /\ w' = snd (c w1).
Proof.
  unfold finally. destruct (m w) as [r w1]. destruct (c w1) eqn:E. intros [= -> <-].
  exists w1. by rewrite E.
Qed.

Lemma fail_run {A} e w (a : A) w' : ~ fail e w = (Ok a, w').
Proof. done. Qed.
End runs.

Ltac invert_run :=
  repeat match goal with
  | H : (_ ≫= _) _ = (Ok _, _) |- _ => apply bind_run in H as (? & ? & ? & ?)
  | H : now _ = (Ok _, _) |- _ => apply now_run in H
  | H : sleep _ _ = (Ok _, _) |- _ => apply sleep_run in H
  | H : query _ _ = (Ok _, _) |- _ => apply query_run in H as [? ?]
  | H : update _ _ = (Ok _, _) |- _ => apply update_run in H
  | H : step _ _ = (Ok _, _) |- _ => apply step_run in H
  | H : transaction _ _ = (Ok _, _) |- _ => apply transaction_run in H as (? & ? & ? & ? & ?)
  | H : attempt _ _ = (Ok _, _) |- _ => apply attempt_run in H
  | H : (mret _) _ = (Ok _, _) |- _ => apply ret_run in H as [? ?]
  | H : fail _ _ = (Ok _, _) |- _ => by apply fail_run in H
  | H : (if ?b then _ else _) _ = (Ok _, _) |- _ => destruct b eqn:?
  end.

(** Read every intermediate world off the first one. *)
Ltac same_states :=
  repeat match goal with
  | H : w_state ?a = _ |- _ => rewrite H in *; clear H
  end.

(** The same for the runs that succeed: [returns R m].  An error handler that always
    fails does not count. *)
Definition returns {S A} (R : relation S) (m : M S A) : Prop :=
  forall w a w', m w = (Ok a, w') -> R (w_state w) (w_state w').
Definition never_returns {S A} (m : M S A) : Prop := forall w a w', m w <> (Ok a, w').

Section returns.
Context {S : Type} (R : relation S) `{!PreOrder R}.

Lemma returns_evolves {A} (m : M S A) : evolves R m -> returns R m.
Proof. intros Hm w a w' E. exact (evolves_pair _ _ _ _ _ Hm E). Qed.

Lemma returns_bind {A B} (m : M S A) (f : A -> M S B) :
  returns R m -> (forall a, returns R (f a)) -> returns R (m ≫= f).
Proof. intros Hm Hf w b w' (a & w1 & E1 & E2)%bind_run. etrans; [by eapply Hm|by eapply Hf]. Qed.

Lemma returns_catch {A} (m : M S A) (h : error -> M S A) :
  returns R m -> (forall e, never_returns (h e)) -> returns R (catch m h).
Proof.
  intros Hm Hh w a w' [(b & E & [= ->])|(e & w1 & _ & E)]%catch_cases; [by eapply Hm|].
  by apply Hh in E.
Qed.

Lemma never_fail {A} e : never_returns (fail (A := A) (S := S) e).
Proof. done. Qed.

Lemma never_bind {A B} (m : M S A) (f : A -> M S B) :
  (forall a, never_returns (f a)) -> never_returns (m ≫= f).
Proof. intros Hf w b w' (a & w1 & _ & E)%bind_run. by apply Hf in E. Qed.
End returns.

Ltac never :=
  repeat lazymatch goal with
  | |- never_returns (fail _) => refine (never_fail _)
  | |- never_returns (_ ≫= _) => refine (never_bind _ _ _); intros ?
  end.

Ltac return_step :=
  lazymatch goal with
  | |- returns _ (_ ≫= _) => refine (returns_bind _ _ _ _ _); [|intros ?]
  | |- returns _ (catch _ _) =>
    refine (returns_catch _ _ _ _ _); [|intros ?; solve [never]]
  | |- returns _ (match ?x with _ => _ end) => destruct x
  | |- returns _ _ => refine (returns_evolves _ _ _)
  end.

(** [errors P m]: every error of [m] satisfies [P]. *)
Definition errors {S A} (P : error -> Prop) (m : M S A) : Prop :=
  forall w e w', m w = (Err e, w') -> P e.

Section errors.
Context {S : Type} (P : error -> Prop).

Lemma errors_ret {A} (a : A) : errors P (mret a : M S A).
Proof. done. Qed.
Lemma errors_now : errors P (now : M S Time).
Proof. intros w e w'. unfold now. by destruct (w_ticks w). Qed.
Lemma errors_fail {A} e : P e -> errors P (fail e : M S A).
Proof. by intros Hp w e' w' [= <- _]. Qed.
Lemma errors_ignore {A} (m : M S A) : errors P (ignore m).
Proof. intros w e w'. unfold ignore. by destruct (m w). Qed.
Lemma errors_attempt {A} (m : M S A) : errors P (attempt m).
Proof. intros w e w'. unfold attempt. by destruct (m w). Qed.
Lemma errors_bind {A B} (m : M S A) (f : A -> M S B) :
  errors P m -> (forall a, errors P (f a)) -> errors P (m ≫= f).
Proof.
  intros Hm Hf w e w' [(e' & E & [= ->])|(a & w1 & _ & E)]%bind_cases; [by eapply Hm|by eapply Hf].
Qed.
Lemma errors_catch {A} (m : M S A) (h : error -> M S A) :
  (forall e, errors P (h e)) -> errors P (catch m h).
Proof. intros Hh w e w' [(a & _ & E)|(e' & w1 & _ & E)]%catch_cases; [done|by eapply Hh]. Qed.
End errors.

Ltac errors_step :=
  lazymatch goal with
  | |- errors _ (mret _) => refine (errors_ret _ _)
  | |- errors _ now => refine (errors_now _)
  | |- errors _ (fail _) => refine (errors_fail _ _ _)
  | |- errors _ (ignore _) => refine (errors_ignore _ _)
  | |- errors _ (attempt _) => refine (errors_attempt _ _)
  | |- errors _ (_ ≫= _) => refine (errors_bind _ _ _ _ _); [|intros ?]
  | |- errors _ (catch _ _) => refine (errors_catch _ _ _ _); intros ?
  | |- errors _ (match ?x with _ => _ end) => destruct x
  | |- errors _ (let _ := _ in _) => cbv zeta
  end.

(** [escapes P s m w]: [m] leaves the states that [P] relates to [s].  Then some part of it
    does, and everything before that part succeeded. *)
Definition escapes {S A} (P : relation S) (s : S) (m : M S A) (w : world S) : Prop :=
  ~ P s (w_state (snd (m w))).

Section escapes.
Context {S : Type} (Q P : relation S) `{!PreOrder Q} (HQP : forall a b, Q a b -> P a b).

Lemma escapes_bind {A B} s (m : M S A) (k : A -> M S B) w :
  evolves Q m -> Q s (w_state w) -> escapes P s (m ≫= k) w ->
  exists a w1, m w = (Ok a, w1) /\ Q s (w_state w1) /\ escapes P s (k a) w1.
Proof.
  intros Hm Hs Hc. specialize (Hm w). unfold escapes, mbind, M_bind in *.
  destruct (m w) as [[a|err] w1]; simpl in *; [exists a, w1; split; [done|split; [by etrans|done]]|].
  destruct Hc. apply HQP. by etrans.
Qed.

Lemma escapes_evolves {A} s (m : M S A) w : evolves Q m -> Q s (w_state w) -> ~ escapes P s m w.
Proof. intros Hm Hs Hc. apply Hc, HQP. etrans; [exact Hs|apply Hm]. Qed.
End escapes.

(** The same without contradiction: where [m] arrives. *)
Section arrives.
Context {S : Type} (Q P : relation S) `{!PreOrder Q} (HQP : forall a b, Q a b -> P a b).

Lemma arrives_evolves {A} s (m : M S A) w :
  evolves Q m -> Q s (w_state w) -> P s (w_state (snd (m w))).
Proof. intros Hm Hs. apply HQP. etrans; [exact Hs|apply Hm]. Qed.

Lemma arrives_bind {A B} s (m : M S A) (k : A -> M S B) w :
  evolves Q m -> Q s (w_state w) ->
  (forall a w1, m w = (Ok a, w1) -> Q s (w_state w1) -> P s (w_state (snd (k a w1)))) ->
  P s (w_state (snd ((m ≫= k) w))).
Proof.
  intros Hm Hs Hk. specialize (Hm w). unfold mbind, M_bind.
  destruct (m w) as [[a|err] w1]; simpl in *; [apply Hk; [done|]|apply HQP]; by etrans.
Qed.
End arrives.

(** [hoare P m Q]: from a state where [P] holds, whatever the faults, [m] ends in a result
    and a state where [Q] holds. *)
Definition hoare {S A} (P : S -> Prop) (m : M S A) (Q : result A -> S -> Prop) : Prop :=
  forall w, P (w_state w) -> Q (fst (m w)) (w_state (snd (m w))).

Section hoare.
Context {S : Type}.

Lemma hoare_ret {A} (P : S -> Prop) (a : A) (Q : result A -> S -> Prop) :
  (forall s, P s -> Q (Ok a) s) -> hoare P (mret a) Q.
Proof. intros HQ w. apply HQ. Qed.

Lemma hoare_fail {A} (P : S -> Prop) e (Q : result A -> S -> Prop) :
  (forall s, P s -> Q (Err e) s) -> hoare P (fail e) Q.
Proof. intros HQ w. apply HQ. Qed.

Lemma hoare_bind {A B} P (Q : A -> S -> Prop) (m : M S A) (f : A -> M S B) R :
  hoare P m (fun r s => match r with Ok a => Q a s | Err e => R (Err e) s end) ->
  (forall a, hoare (Q a) (f a) R) -> hoare P (m ≫= f) R.
Proof.
  intros Hm Hf w HP. specialize (Hm w HP). unfold mbind, M_bind.
  destruct (m w) as [[a|e] w1]; simpl in *; [by apply Hf|done].
Qed.

Lemma hoare_step {A} P (f : S -> result A * S) (Q : result A -> S -> Prop) :
  (forall s, P s -> Q (fst (f s)) (snd (f s))
     /\ forall m, Q (Err (ErrEnv m)) s /\ Q (Err (ErrEnv m)) (snd (f s))) ->
  hoare P (step f) Q.
Proof.
  intros Hf w HP. unfold step, step_with. pose proof (next_fault_state w) as E.
  destruct (next_fault w) as [[|m|m] w1]; simpl in *; rewrite <- E in HP; specialize (Hf _ HP) as [HQ Hm].
  - by destruct (f (w_state w1)).
  - apply Hm.
  - apply Hm.
Qed.

(** Reading: the state stays. *)
Lemma hoare_query {A} P (f : S -> result A) (Q : result A -> S -> Prop) :
  (forall s, P s -> Q (f s) s /\ forall m, Q (Err (ErrEnv m)) s) -> hoare P (query f) Q.
Proof. intros Hf. apply hoare_step. intros s HP. destruct (Hf s HP). by auto. Qed.

Lemma hoare_now P (Q : result Time -> S -> Prop) :
  (forall s t, P s -> Q (Ok t) s) -> hoare P now Q.
Proof. intros HQ w HP. unfold now. by destruct (w_ticks w); apply HQ. Qed.

Lemma hoare_ignore {A} P (m : M S A) (Q : result unit -> S -> Prop) :
  hoare P m (fun _ => Q (Ok tt)) -> hoare P (ignore m) Q.
Proof. intros Hm w HP. specialize (Hm w HP). unfold ignore. by destruct (m w). Qed.

Lemma hoare_attempt {A} P (m : M S A) (Q : result (result A) -> S -> Prop) :
  hoare P m (fun r => Q (Ok r)) -> hoare P (attempt m) Q.
Proof. intros Hm w HP. specialize (Hm w HP). unfold attempt. by destruct (m w). Qed.

Lemma hoare_update P (f : S -> S) (Q : result unit -> S -> Prop) :
  (forall s, P s -> Q (Ok tt) (f s) /\ forall m, Q (Err (ErrEnv m)) s /\ Q (Err (ErrEnv m)) (f s)) ->
  hoare P (update f) Q.
Proof. intros Hf. by apply hoare_step. Qed.

(** A transaction that fails restores the state; its commit may take effect although it
    reports an error. *)
Lemma hoare_transaction {A} P (m : M S A) (Q : result A -> S -> Prop) :
  (forall s, P s -> (forall e, Q (Err e) s)
     /\ hoare (fun s1 => s1 = s) m (fun r s2 =>
          match r with Ok a => Q (Ok a) s2 /\ forall e, Q (Err e) s2 | Err _ => True end)) ->
  hoare P (transaction m) Q.
Proof.
  intros Hm w0 HP. unfold transaction. pose proof (next_fault_state w0) as E0.
  destruct (next_fault w0) as [[|e|e] w]; simpl in *; rewrite <- E0 in HP; destruct (Hm _ HP) as [He Hb]; auto.
  specialize (Hb w eq_refl). destruct (m w) as [[a|e] w1]; simpl in *; [|auto].
  destruct Hb as [Ha Hc]. pose proof (next_fault_state w1) as E1.
  destruct (next_fault w1) as [[|e|e] w2]; simpl in *; rewrite ?E1; auto.
Qed.

Lemma hoare_pre {A} (P P' : S -> Prop) (m : M S A) Q :
  (forall s, P' s -> P s) -> hoare P m Q -> hoare P' m Q.
Proof. intros H Hm w HP. apply Hm, H, HP. Qed.

Lemma hoare_keeps {A} (I : S -> Prop) (m : M S A) : hoare I m (fun _ => I) <-> evolves (keeps I) m.
Proof. done. Qed.
End hoare.

(** [eval] and [exec] as one run. *)
Lemma eval_run {S A} (m : M S A) w r : eval m w = r -> m w = (r, snd (m w)).
Proof. unfold eval. destruct (m w). by intros <-. Qed.

Lemma bind_ext {S A B} (m : M S A) (f g : A -> M S B) w :
  (forall a w', m w = (Ok a, w') -> f a w' = g a w') -> (m ≫= f) w = (m ≫= g) w.
Proof. intros Hfg. unfold mbind, M_bind. destruct (m w) as [[a|e] w'] eqn:E; [by apply Hfg|done]. Qed.

Lemma bind_ok {S A B} (m : M S A) (k : A -> M S B) w a w1 : m w = (Ok a, w1) -> (m ≫= k) w = k a w1.
Proof. unfold mbind, M_bind. by intros ->. Qed.

Lemma catch_ok {S A} (m : M S A) (h : error -> M S A) w a w1 : m w = (Ok a, w1) -> catch m h w = (Ok a, w1).
Proof. unfold catch. by intros ->. Qed.

Lemma eval_bind {S A B} (m : M S A) (f : A -> M S B) w a w' :
  m w = (Ok a, w') -> eval (m ≫= f) w = eval (f a) w'.
Proof. intros E. unfold eval, mbind, M_bind. by rewrite E. Qed.

Lemma eval_attempt {S A} (m : M S A) w : attempt m w = (Ok (fst (m w)), snd (m w)).
Proof. unfold attempt. by destruct (m w). Qed.

(** ** The clock *)

(** Time only moves forward. *)
Definition forward {S} (w : world S) : Prop := Forall (fun t => 0 <= t) (w_ticks w).

Lemma step_clock {S A} (f : S -> result A * S) w :
  w_clock (snd (step f w)) = w_clock w /\ w_ticks (snd (step f w)) = w_ticks w.
Proof.
  unfold step, step_with, next_fault. destruct (w_faults w) as [|[] fs]; simpl; try done;
  by destruct (f (w_state w)).
Qed.

Lemma now_clock {S} (w : world S) : forward w ->
  exists t w', now w = (Ok t, w') /\ w_clock w <= t /\ w_clock w' = t /\ forward w'.
Proof.
  unfold now, forward. destruct (w_ticks w) as [|t ts] eqn:E; intros Hf.
  - exists (w_clock w), w. rewrite E. repeat split; [lia|constructor].
  - apply Forall_cons in Hf as [Ht Hts]. eexists _, _. split; [done|]. simpl. repeat split; [lia|done].
Qed.

Lemma sleep_clock {S} d (w : world S) : forward w ->
  (exists w', sleep d w = (Ok tt, w') /\ w_clock w' = w_clock w + d /\ forward w')
  \/ exists e w', sleep d w = (Err e, w').
Proof.
  unfold sleep, next_fault, forward. destruct (w_faults w) as [|[] fs]; simpl; eauto 10.
Qed.

(** Symbolic execution in a calm world. *)
Ltac run_code :=
  cbv [eval exec calm mbind M_bind mret M_ret catch attempt ignore lift fail now sleep query
       update step step_with transaction next_fault set_state] in *; simpl.

(** ** Runs without faults

    A part that meets no fault leaves none to come. *)
Definition faultless {S A} (m : M S A) : Prop :=
  forall w, w_faults w = [] -> w_faults (snd (m w)) = [].

Section faultless.
Context {S : Type}.

Lemma faultless_pair {A} (m : M S A) w r w' :
  faultless m -> m w = (r, w') -> w_faults w = [] -> w_faults w' = [].
Proof. intros Hm E Hw. specialize (Hm w Hw). by rewrite E in Hm. Qed.

Lemma faultless_ret {A} (a : A) : faultless (mret a : M S A).
Proof. by intros w. Qed.
Lemma faultless_fail {A} e : faultless (fail e : M S A).
Proof. by intros w. Qed.
Lemma faultless_lift {A} (r : result A) : faultless (lift r : M S A).
Proof. by intros w. Qed.
Lemma faultless_bind {A B} (m : M S A) (f : A -> M S B) :
  faultless m -> (forall a, faultless (f a)) -> faultless (m ≫= f).
Proof.
  intros Hm Hf w Hw. specialize (Hm w Hw). unfold mbind, M_bind.
  destruct (m w) as [[a|e] w1]; simpl in *; [by apply Hf|done].
Qed.
Lemma faultless_catch {A} (m : M S A) (h : error -> M S A) :
  faultless m -> (forall e, faultless (h e)) -> faultless (catch m h).
Proof.
  intros Hm Hf w Hw. specialize (Hm w Hw). unfold catch.
  destruct (m w) as [[a|e] w1]; simpl in *; [done|by apply Hf].
Qed.
Lemma faultless_attempt {A} (m : M S A) : faultless m -> faultless (attempt m).
Proof. intros Hm w Hw. specialize (Hm w Hw). unfold attempt. by destruct (m w). Qed.
Lemma faultless_ignore {A} (m : M S A) : faultless m -> faultless (ignore m).
Proof. intros Hm w Hw. specialize (Hm w Hw). unfold ignore. by destruct (m w). Qed.
Lemma faultless_finally {A} (m : M S A) (c : M S unit) : faultless m -> faultless c -> faultless (finally m c).
Proof.
  intros Hm Hc w Hw. specialize (Hm w Hw). unfold finally. destruct (m w) as [r w1]. simpl in Hm.
  specialize (Hc w1 Hm). by destruct (c w1).
Qed.
Lemma faultless_now : faultless (now : M S Time).
Proof. intros w Hw. unfold now. by destruct (w_ticks w). Qed.
Lemma faultless_step {A} (f : S -> result A * S) : faultless (step f).
Proof.
  intros w Hw. unfold step, step_with, next_fault. rewrite Hw. by destruct (f (w_state w)).
Qed.
Lemma faultless_transaction {A} (m : M S A) : faultless m -> faultless (transaction m).
Proof.
  intros Hm w Hw. unfold transaction, next_fault. rewrite Hw. specialize (Hm w Hw).
  destruct (m w) as [[a|err] w1]; simpl in *; [by rewrite Hm|done].
Qed.
End faultless.

Ltac faultless_step :=
  lazymatch goal with
  | |- faultless (mret _) => refine (faultless_ret _)
  | |- faultless (fail _) => refine (faultless_fail _)
  | |- faultless (lift _) => refine (faultless_lift _)
  | |- faultless now => refine faultless_now
  | |- faultless (_ ≫= _) => refine (faultless_bind _ _ _ _); [|intros ?]
  | |- faultless (catch _ _) => refine (faultless_catch _ _ _ _); [|intros ?]
  | |- faultless (attempt _) => refine (faultless_attempt _ _)
  | |- faultless (ignore _) => refine (faultless_ignore _ _)
  | |- faultless (finally _ _) => refine (faultless_finally _ _ _ _)
  | |- faultless (transaction _) => refine (faultless_transaction _ _)
  | |- faultless (step _) => refine (faultless_step _)
  | |- faultless (query _) => refine (faultless_step _)
  | |- faultless (update _) => refine (faultless_step _)
  | |- faultless (match ?x with _ => _ end) => destruct x
  end.

(** ** Components of a larger state

    [zoom get put m] runs [m] on the part of the state that [get] reads and [put] writes;
    the faults and the clock are shared. *)
Definition zoom {S T A} (get : S -> T) (put : T -> S -> S) (m : M T A) : M S A := fun w =>
  let '(r, w') := m (World (get (w_state w)) (w_faults w) (w_clock w) (w_ticks w)) in
  (r, World (put (w_state w') (w_state w)) (w_faults w') (w_clock w') (w_ticks w')).

Section zoom.
Context {S T : Type} (get : S -> T) (put : T -> S -> S).

(** The part of a world. *)
Definition part (w : world S) : world T :=
  World (get (w_state w)) (w_faults w) (w_clock w) (w_ticks w).

Lemma zoom_run {A} (m : M T A) w r w' :
  zoom get put m w = (r, w') ->
  exists v, m (part w) = (r, v) /\ w_state w' = put (w_state v) (w_state w)
    /\ w_faults w' = w_faults v /\ w_clock w' = w_clock v /\ w_ticks w' = w_ticks v.
Proof. unfold zoom, part. destruct (m _) as [r' v]. intros [= -> <-]. by exists v. Qed.

(** A relation of the part, when [put] frames the rest. *)
Lemma evolves_zoom {A} (R : relation T) (Q : relation S) (m : M T A) :
  (forall s t, R (get s) t -> Q s (put t s)) -> evolves R m -> evolves Q (zoom get put m).
Proof.
  intros HQ Hm w. unfold zoom. pose proof (Hm (part w)) as Hw. unfold part in Hw.
  destruct (m _) as [r v]. simpl in *. by apply HQ.
Qed.

Lemma hoare_zoom {A} (P : S -> Prop) (m : M T A) (Q : result A -> S -> Prop) :
  (forall s, P s -> hoare (fun t => t = get s) m (fun r t => Q r (put t s))) ->
  hoare P (zoom get put m) Q.
Proof.
  intros Hm w HP. unfold zoom. pose proof (Hm _ HP (part w) eq_refl) as Hw. unfold part in Hw.
  by destruct (m _) as [r v].
Qed.
End zoom.

(** ** Tables

    A SQLite table with an [INTEGER PRIMARY KEY] is the list of its rows in rowid
    order; a new row takes the largest rowid plus one. *)
Section tables.
Context {R : Type} (rowid : R -> Z).

Definition max_rowid (t : list R) : Z := foldr (fun r n => Z.max (rowid r) n) 0 t.
Definition next_rowid (t : list R) : Z := max_rowid t + 1.

(** [UPDATE t SET f WHERE p], [SELECT ... WHERE p], [DELETE ... WHERE p]. *)
Definition update_where (p : R -> bool) (f : R -> R) (t : list R) : list R :=
  map (fun r => if p r then f r else r) t.
Definition select_where (p : R -> bool) (t : list R) : list R := List.filter p t.
Definition delete_where (p : R -> bool) (t : list R) : list R :=
  List.filter (fun r => negb (p r)) t.
(** [RowsAffected] of an update. *)
Definition count_where (p : R -> bool) (t : list R) : nat := length (select_where p t).

(** Rowids are positive and increasing. *)
Definition rowids_sorted (t : list R) : Prop :=
  StronglySorted (fun a b => rowid a < rowid b) t /\ Forall (fun r => 0 < rowid r) t.

Lemma max_rowid_nonneg t : 0 <= max_rowid t.
Proof. induction t; simpl; lia. Qed.

Lemma max_rowid_upper t r : In r t -> rowid r <= max_rowid t.
Proof. induction t as [|x t IH]; simpl; [done|]. intros [->|H]; [lia|]. specialize (IH H). lia. Qed.

Lemma next_rowid_fresh t r : In r t -> rowid r < next_rowid t.
Proof. intros H%max_rowid_upper. unfold next_rowid. lia. Qed.

Lemma next_rowid_pos t : 0 < next_rowid t.
Proof. pose proof (max_rowid_nonneg t). unfold next_rowid. lia. Qed.

Lemma rowids_sorted_nil : rowids_sorted [].
Proof. split; constructor. Qed.

Lemma rowids_sorted_snoc t r :
  rowids_sorted t -> rowid r = next_rowid t -> rowids_sorted (t ++ [r]).
Proof.
  intros [Hs Hp] E. split.
  - apply StronglySorted_app_2; [| done | repeat constructor].
    intros a b Ha Hb. apply list_elem_of_In in Ha. apply list_elem_of_singleton in Hb as ->.
    rewrite E. by apply next_rowid_fresh.
  - apply Forall_app. split; [done|]. repeat constructor. rewrite E. apply next_rowid_pos.
Qed.

Lemma rowids_sorted_map f t :
  (forall r, rowid (f r) = rowid r) -> rowids_sorted t -> rowids_sorted (map f t).
Proof.
  intros Hf [Hs Hp]. split.
  - induction Hs as [|r t Hs IH Hall]; simpl; constructor.
    + apply IH. by inversion Hp.
    + apply List.Forall_map. eapply Forall_impl; [exact Hall|]. intros x. by rewrite !Hf.
  - apply List.Forall_map. eapply Forall_impl; [exact Hp|]. intros x. simpl. by rewrite Hf.
Qed.

Lemma rowids_sorted_update p f t :
  (forall r, rowid (f r) = rowid r) -> rowids_sorted t -> rowids_sorted (update_where p f t).
Proof. intros Hf. apply rowids_sorted_map. intros r. by destruct (p r). Qed.

Lemma Forall_filter_sub (Q : R -> Prop) p t : Forall Q t -> Forall Q (List.filter p t).
Proof. induction 1; simpl; [constructor|]. destruct (p x); [by constructor|done]. Qed.

Lemma rowids_sorted_filter p t : rowids_sorted t -> rowids_sorted (List.filter p t).
Proof.
  intros [Hs Hp]. split; [|by apply Forall_filter_sub].
  clear Hp. induction Hs as [|r t Hs IH Hall]; simpl; [constructor|].
  destruct (p r); [|done]. constructor; [done|by apply Forall_filter_sub].
Qed.

Lemma rowids_sorted_inj t a b :
  rowids_sorted t -> In a t -> In b t -> rowid a = rowid b -> a = b.
Proof.
  intros [Hs _] Ha Hb E. induction Hs as [|r t Hs IH Hall]; [done|].
  rewrite List.Forall_forall in Hall.
  destruct Ha as [<-|Ha], Hb as [<-|Hb]; auto; [apply Hall in Hb | apply Hall in Ha]; lia.
Qed.

Lemma select_where_In p t r : In r (select_where p t) <-> In r t /\ p r = true.
Proof. apply filter_In. Qed.

Lemma select_where_app p t u :
  select_where p (t ++ u) = select_where p t ++ select_where p u.
Proof. apply List.filter_app. Qed.

Lemma update_where_In p f t r :
  In r (update_where p f t) <-> exists r0, In r0 t /\ r = (if p r0 then f r0 else r0).
Proof.
  unfold update_where. rewrite in_map_iff. split; intros (r0 & H1 & H2); exists r0; auto.
Qed.

(** An update that no row matches does nothing. *)
Lemma update_where_none p f t : count_where p t = 0%nat -> update_where p f t = t.
Proof.
  unfold count_where, select_where, update_where. induction t as [|r t IH]; simpl; [done|].
  destruct (p r); simpl; [done|]. intros H. by rewrite IH.
Qed.

Lemma delete_where_none p t : (forall r, In r t -> p r = false) -> delete_where p t = t.
Proof.
  unfold delete_where. induction t as [|r t IH]; [done|]. intros H. simpl.
  rewrite (H r (or_introl eq_refl)). simpl. f_equal. apply IH. intros x Hx. apply H. by right.
Qed.

Lemma select_where_none p t : (forall r, In r t -> p r = false) -> select_where p t = [].
Proof.
  intros H. induction t as [|r t IH]; simpl; [done|].
  rewrite (H r) by (by left). apply IH. intros x Hx. apply H. by right.
Qed.

(** A key of a sorted table selects one row. *)
Lemma select_key t r :
  rowids_sorted t -> In r t -> select_where (fun x => rowid x =? rowid r) t = [r].
Proof.
  intros [Hs _] Hin. induction Hs as [|x t Hs IH Hall]; [done|]. simpl.
  rewrite List.Forall_forall in Hall. destruct Hin as [<-|Hin].
  - rewrite Z.eqb_refl. f_equal. apply select_where_none.
    intros y Hy%Hall. apply Z.eqb_neq. lia.
  - pose proof (Hall _ Hin). rewrite (proj2 (Z.eqb_neq _ _)) by lia. by apply IH.
Qed.
End tables.

#[export] Hint Resolve rowids_sorted_nil rowids_sorted_snoc rowids_sorted_update
  rowids_sorted_filter : evolve.

(** Case analysis on the boolean conditions of the code. *)
Ltac bools :=
  repeat match goal with
  | H : _ && _ = true |- _ => apply andb_prop in H as [? ?]
  | H : _ || _ = false |- _ => apply orb_false_elim in H as [? ?]
  | H : negb _ = true |- _ => apply negb_true_iff in H
  | H : negb _ = false |- _ => apply negb_false_iff in H
  | H : (_ =? _)%string = true |- _ => apply String.eqb_eq in H
  | H : (_ =? _)%string = false |- _ => apply String.eqb_neq in H
  | H : (_ =? _) = true |- _ => apply Z.eqb_eq in H
  | H : (_ =? _) = false |- _ => apply Z.eqb_neq in H
  | H : (_ <? _) = true |- _ => apply Z.ltb_lt in H
  | H : (_ <? _) = false |- _ => apply Z.ltb_ge in H
  | H : (_ <=? _) = true |- _ => apply Z.leb_le in H
  | H : (_ <=? _) = false |- _ => apply Z.leb_gt in H
  end.
