(* ===== verification/GoStrings.v ===== *)
(** * Go's string functions

    What MiniDock uses of the packages [strings], [strconv] and [regexp], on byte
    strings.  Case mapping and trimming treat the ASCII range, which is where the
    program's own identifiers, domains and settings live; other bytes are left as
    they are.  The two name patterns of the program are boolean matchers. *)

From stdpp Require Export pretty.
From Stdlib Require Export Ascii.
From S2P Require Import Prelude.

#[global] Open Scope string_scope.
#[global] Open Scope list_scope.
#[global] Open Scope Z_scope.

#[global] Arguments Ascii.eqb : simpl never.
#[global] Arguments String.append !_ _ / : simpl nomatch.

(** [strings.HasPrefix]. *)
Fixpoint has_prefix (s p : string) {struct p} : bool :=
  match p, s with
  | "", _ => true
  | String a p, String b s => Ascii.eqb a b && has_prefix s p
  | _, _ => false
  end.

Fixpoint drop_string (n : nat) (s : string) : string :=
  match n, s with
  | S n, String _ s => drop_string n s
  | _, _ => s
  end.

Fixpoint take_string (n : nat) (s : string) : string :=
  match n, s with
  | S n, String c s => String c (take_string n s)
  | _, _ => ""
  end.

Definition trim_prefix (s p : string) : string :=
  if has_prefix s p then drop_string (String.length p) s else s.

Definition has_suffix (s p : string) : bool :=
  (String.length p <=? String.length s)%nat
  && (drop_string (String.length s - String.length p) s =? p)%string.

Definition trim_suffix (s p : string) : string :=
  if has_suffix s p then take_string (String.length s - String.length p) s else s.

(** [strings.Contains]. *)
Fixpoint contains (s sub : string) : bool :=
  has_prefix s sub || match s with "" => false | String _ s => contains s sub end.

(** [strings.ReplaceAll] for a non-empty [old]: [skip] counts the bytes of the
    occurrence being replaced. *)
Fixpoint replace_from (skip : nat) (s old new : string) : string :=
  match s with
  | "" => ""
  | String c s' =>
    match skip with
    | S k => replace_from k s' old new
    | O => if has_prefix s old
           then new +:+ replace_from (String.length old - 1) s' old new
           else String c (replace_from 0 s' old new)
    end
  end.
Definition replace_all (s old new : string) : string := replace_from 0 s old new.

Fixpoint map_string (f : ascii -> ascii) (s : string) : string :=
  match s with "" => "" | String c s => String (f c) (map_string f s) end.

Definition ascii_in (lo hi : ascii) (c : ascii) : bool :=
  (Ascii.nat_of_ascii lo <=? Ascii.nat_of_ascii c)%nat && (Ascii.nat_of_ascii c <=? Ascii.nat_of_ascii hi)%nat.
Definition is_lower (c : ascii) : bool := ascii_in "a" "z" c.
Definition is_upper (c : ascii) : bool := ascii_in "A" "Z" c.
Definition is_digit (c : ascii) : bool := ascii_in "0" "9" c.
Definition is_space (c : ascii) : bool := ascii_in "009" "013" c || Ascii.eqb c " ".

Definition lower_ascii (c : ascii) : ascii :=
  if is_upper c then Ascii.ascii_of_nat (Ascii.nat_of_ascii c + 32) else c.
Definition to_lower (s : string) : string := map_string lower_ascii s.
Definition equal_fold (a b : string) : bool := (to_lower a =? to_lower b)%string.

(** [strings.TrimLeft], [TrimRight] and [Trim] with a predicate for the cutset. *)
Fixpoint trim_left (p : ascii -> bool) (s : string) : string :=
  match s with
  | String c s' => if p c then trim_left p s' else s
  | "" => ""
  end.
Fixpoint trim_right (p : ascii -> bool) (s : string) : string :=
  match s with
  | "" => ""
  | String c s' =>
    match trim_right p s' with
    | "" => if p c then "" else String c ""
    | r => String c r
    end
  end.
Definition trim (p : ascii -> bool) (s : string) : string := trim_right p (trim_left p s).
Definition trim_space (s : string) : string := trim is_space s.

Fixpoint all_string (p : ascii -> bool) (s : string) : bool :=
  match s with "" => true | String c s => p c && all_string p s end.

(** The longest prefix of bytes that satisfy [p], and the rest. *)
Fixpoint span (p : ascii -> bool) (s : string) : string * string :=
  match s with
  | String c s' => if p c then let '(a, b) := span p s' in (String c a, b) else ("", s)
  | "" => ("", "")
  end.

(** [strings.Split] on one byte. *)
Fixpoint split_on (sep : ascii) (s : string) : list string :=
  match s with
  | "" => [""]
  | String c s' =>
    if Ascii.eqb c sep then "" :: split_on sep s'
    else match split_on sep s' with
         | [] => [String c ""]
         | w :: ws => String c w :: ws
         end
  end.

Fixpoint join (sep : string) (ws : list string) : string :=
  match ws with
  | [] => ""
  | [w] => w
  | w :: ws => w +:+ sep +:+ join sep ws
  end.

(** [strings.SplitN(s, sep, 2)]: the text before and after the first occurrence. *)
Fixpoint cut (s sep : string) : option (string * string) :=
  if has_prefix s sep then Some ("", drop_string (String.length sep) s) else
  match s with
  | "" => None
  | String c s' => (fun '(a, b) => (String c a, b)) <$> cut s' sep
  end.

(** [strings.Fields]. *)
Fixpoint fields (s : string) : list string :=
  match s with
  | "" => []
  | String c s' =>
    if is_space c then fields s'
    else match s' with
         | String d _ => if is_space d then String c "" :: fields s'
                         else match fields s' with
                              | [] => [String c ""]
                              | w :: ws => String c w :: ws
                              end
         | "" => [String c ""]
         end
  end.

(** [fmt.Sprint] of an integer. *)
Definition itoa (n : Z) : string := pretty n.

(** [strconv.ParseInt(s, 10, 64)] and [strconv.Atoi]: an optional sign, decimal
    digits, and the range of int64. *)
Fixpoint digits_value (acc : Z) (s : string) : option Z :=
  match s with
  | "" => Some acc
  | String c s => if is_digit c then digits_value (10 * acc + (Z.of_nat (Ascii.nat_of_ascii c) - 48)) s
                  else None
  end.
Definition max_int64 : Z := 2 ^ 63 - 1.
Definition min_int64 : Z := - 2 ^ 63.
Definition parse_int (s : string) : option Z :=
  let '(sign, digits) :=
    match s with
    | String "+" d => (1, d)
    | String "-" d => (-1, d)
    | d => (1, d)
    end in
  match digits with
  | "" => None
  | _ => v ← digits_value 0 digits;
         let n := sign * v in
         if (min_int64 <=? n) && (n <=? max_int64) then Some n else None
  end.

(** The value [strconv.ParseInt(s, 10, 64)] returns with or without its error: 0 for text
    that is not a number, the nearest bound for a number out of range. *)
Definition parse_int_value (s : string) : Z :=
  let '(sign, digits) :=
    match s with
    | String "+" d => (1, d)
    | String "-" d => (-1, d)
    | d => (1, d)
    end in
  match digits with
  | "" => 0
  | _ => match digits_value 0 digits with
         | Some v => Z.max min_int64 (Z.min max_int64 (sign * v))
         | None => 0
         end
  end.

(** Two's complement arithmetic of int64. *)
Definition wrap64 (n : Z) : Z := (n + 2 ^ 63) mod 2 ^ 64 - 2 ^ 63.

(** [^[a-z0-9][a-z0-9-]{0,62}$]: application names and agent node ids. *)
Definition name_head (c : ascii) : bool := is_lower c || is_digit c.
Definition name_tail (c : ascii) : bool := is_lower c || is_digit c || Ascii.eqb c "-".
Definition safeName (s : string) : bool :=
  match s with
  | String c r => name_head c && (String.length r <=? 62)%nat && all_string name_tail r
  | "" => false
  end.

(** [^[A-Za-z_][A-Za-z0-9_]*$]: environment variable names. *)
Definition env_head (c : ascii) : bool := is_lower c || is_upper c || Ascii.eqb c "_".
Definition safeEnvironmentName (s : string) : bool :=
  match s with
  | String c r => env_head c && all_string (fun c => env_head c || is_digit c) r
  | "" => false
  end.

(** Hexadecimal digits ([hex.DecodeString] accepts both cases). *)
Definition is_hex (c : ascii) : bool := is_digit c || ascii_in "a" "f" c || ascii_in "A" "F" c.

(** A double quote, for texts that contain one: [raw] reads a backquote as one, as
    Go's raw strings cannot contain a backquote. *)
Definition dquote : ascii := "034".
Definition raw (s : string) : string :=
  map_string (fun c => if Ascii.eqb c "`" then dquote else c) s.

Definition hex_digit (n : nat) : ascii :=
  Ascii.ascii_of_nat (if (n <? 10)%nat then 48 + n else 87 + n)%nat.

(** [strconv.Quote] ([%q]) of a byte string; bytes from 128 on are kept. *)
Definition quote_byte (c : ascii) : string :=
  let n := Ascii.nat_of_ascii c in
  if Ascii.eqb c dquote then String "\" (String dquote "")
  else if Ascii.eqb c "\" then "\\"
  else if (n =? 7)%nat then "\a" else if (n =? 8)%nat then "\b"
  else if (n =? 12)%nat then "\f" else if (n =? 10)%nat then "\n"
  else if (n =? 13)%nat then "\r" else if (n =? 9)%nat then "\t"
  else if (n =? 11)%nat then "\v"
  else if (n <? 32)%nat || (n =? 127)%nat
  then "\x" +:+ String (hex_digit (n / 16)) (String (hex_digit (n mod 16)) "")
  else String c "".
Fixpoint quote_bytes (s : string) : string :=
  match s with "" => "" | String c s => quote_byte c +:+ quote_bytes s end.
Definition quote (s : string) : string := String dquote (quote_bytes s +:+ String dquote "").

(** [sort.Strings] and [ORDER BY name] with the BINARY collation: the byte order. *)
Definition by_name {A} (name : A -> string) (x y : A) : Prop :=
  String.leb (name x) (name y) = true.
#[export] Instance by_name_dec {A} (name : A -> string) : RelDecision (by_name name).
Proof. intros x y. unfold by_name. exact _. Defined.
Definition order_by_name {A} (name : A -> string) (xs : list A) : list A :=
  merge_sort (by_name name) xs.


(** [%.<k>f] of the rational [n / d]: the nearest decimal, ties to even. *)
Definition round_half_even (n d : Z) : Z :=
  let q := n / d in
  let r := n mod d in
  if 2 * r <? d then q else if d <? 2 * r then q + 1 else if Z.even q then q else q + 1.
Fixpoint zero_padded (k : nat) (n : Z) : string :=
  match k with
  | O => ""
  | S k => zero_padded k (n / 10) +:+ itoa (n mod 10)
  end.
Definition fixed (k : nat) (n d : Z) : string :=
  let scale := 10 ^ Z.of_nat k in
  let v := round_half_even (n * scale) d in
  itoa (v / scale) +:+ match k with O => "" | _ => "." +:+ zero_padded k (v mod scale) end.

(** [float64(n) / float64(d)] for integers that float64 represents, [0 <= n] and [0 < d]: the
    quotient rounded to 53 bits, as a fraction whose denominator is a power of two. *)
Definition float_div (n d : Z) : Z * Z :=
  if n =? 0 then (0, 1) else
  let k := 52 - (Z.log2 n - Z.log2 d) in
  let at_scale k := if 0 <=? k then (n * 2 ^ k, d) else (n, d * 2 ^ (- k)) in
  let '(a, b) := at_scale k in
  let k := if a <? 2 ^ 52 * b then k + 1 else k in
  let '(a, b) := at_scale k in
  let q := round_half_even a b in
  if 0 <=? k then (q, 2 ^ k) else (q * 2 ^ (- k), 1).
(** [%.<k>f] of that quotient. *)
Definition float_text (k : nat) (n d : Z) : string := let '(a, b) := float_div n d in fixed k a b.

(** [url.QueryEscape]. *)
Definition unreserved (c : ascii) : bool :=
  is_lower c || is_upper c || is_digit c || Ascii.eqb c "-" || Ascii.eqb c "_" || Ascii.eqb c "."
  || Ascii.eqb c "~".
Definition upper_hex (n : nat) : ascii :=
  Ascii.ascii_of_nat (if (n <? 10)%nat then 48 + n else 55 + n).
Fixpoint QueryEscape (s : string) : string :=
  match s with
  | "" => ""
  | String c s =>
    let n := Ascii.nat_of_ascii c in
    (if unreserved c then String c ""
     else if Ascii.eqb c " " then "+"
     else String "%" (String (upper_hex (n / 16)) (String (upper_hex (n mod 16)) "")))
    +:+ QueryEscape s
  end.

(** [d.Round(time.Millisecond).String()]. *)
Definition pad3 (n : Z) : string :=
  (if n <? 10 then "00" else if n <? 100 then "0" else "") +:+ itoa n.
Definition fraction (n : Z) : string :=
  if n =? 0 then "" else "." +:+ trim_right (fun c => Ascii.eqb c "0") (pad3 n).
Definition duration_text (d : Duration) : string :=
  let sign := if d <? 0 then "-" else "" in
  let ms := (Z.abs d + Millisecond / 2) / Millisecond in
  let seconds := ms / 1000 in
  if ms =? 0 then "0s"
  else if seconds =? 0 then sign +:+ itoa ms +:+ "ms"
  else sign
    +:+ (if 3600 <=? seconds then itoa (seconds / 3600) +:+ "h" else "")
    +:+ (if 60 <=? seconds then itoa (seconds / 60 mod 60) +:+ "m" else "")
    +:+ itoa (seconds mod 60) +:+ fraction (ms mod 1000) +:+ "s".

(** ** Lemmas *)

Lemma append_nil_r (s : string) : s +:+ "" = s.
Proof. induction s; simpl; [done|by f_equal]. Qed.

Lemma append_assoc (a b c : string) : a +:+ (b +:+ c) = (a +:+ b) +:+ c.
Proof. induction a; simpl; [done|by f_equal]. Qed.

Lemma length_append (a b : string) :
  String.length (a +:+ b) = (String.length a + String.length b)%nat.
Proof. induction a; simpl; [done|by f_equal]. Qed.

Lemma has_prefix_append (p s : string) : has_prefix (p +:+ s) p = true.
Proof. induction p as [|c p IH]; simpl; [done|]. by rewrite Ascii.eqb_refl. Qed.

Lemma has_prefix_spec (s p : string) :
  has_prefix s p = true <-> exists r, s = p +:+ r.
Proof.
  split; [|intros [r ->]; apply has_prefix_append].
  revert s. induction p as [|c p IH]; intros s; simpl; [intros _; by exists s|].
  destruct s as [|d s]; [done|]. intros [->%Ascii.eqb_eq [r ->]%IH]%andb_prop. by exists r.
Qed.

Lemma drop_append (p s : string) : drop_string (String.length p) (p +:+ s) = s.
Proof. induction p; simpl; [by destruct s|done]. Qed.

Lemma take_drop_string n (s : string) : take_string n s +:+ drop_string n s = s.
Proof. revert s. induction n as [|n IH]; intros [|c s]; simpl; [done..|]. by rewrite IH. Qed.

Lemma length_drop_string n (s : string) : String.length (drop_string n s) = (String.length s - n)%nat.
Proof. revert s. induction n as [|n IH]; intros [|c s]; simpl; [done..|]. apply IH. Qed.

Lemma trim_prefix_append (p s : string) : trim_prefix (p +:+ s) p = s.
Proof. unfold trim_prefix. by rewrite has_prefix_append, drop_append. Qed.

Lemma has_prefix_trans (a b c : string) :
  has_prefix a b = true -> has_prefix b c = true -> has_prefix a c = true.
Proof.
  rewrite !has_prefix_spec. intros [r ->] [r' ->]. exists (r' +:+ r). by rewrite append_assoc.
Qed.

Lemma contains_empty (s : string) : contains s "" = true.
Proof. by destruct s. Qed.

Lemma contains_spec (s sub : string) :
  contains s sub = true <-> exists a b, s = a +:+ sub +:+ b.
Proof.
  split.
  - induction s as [|c s IH]; simpl.
    + rewrite orb_false_r, has_prefix_spec. intros [r E]. by exists "", r.
    + intros [H|H]%orb_prop.
      * apply has_prefix_spec in H as [r E]. by exists "", r.
      * destruct (IH H) as (a & b & ->). by exists (String c a), b.
  - intros (a & b & ->). induction a as [|c a IH]; simpl.
    + pose proof (has_prefix_append sub b) as H. destruct (sub +:+ b); simpl; by rewrite H.
    + rewrite IH. apply orb_true_r.
Qed.

Lemma contains_cons (c : ascii) (s sub : string) :
  contains (String c s) sub = has_prefix (String c s) sub || contains s sub.
Proof. done. Qed.

Lemma all_string_append p (a b : string) :
  all_string p (a +:+ b) = all_string p a && all_string p b.
Proof. induction a; simpl; [done|]. by rewrite IHa, andb_assoc. Qed.

Lemma safeName_no_slash (s : string) :
  safeName s = true -> contains s "/" = false.
Proof.
  destruct s as [|c s]; [done|]. unfold safeName. intros H. bools.
  assert (forall d, name_tail d = true -> Ascii.eqb "/" d = false) as Hd.
  { intros d. destruct (Ascii.eqb_spec "/" d) as [<-|]; [vm_compute; congruence|done]. }
  assert (forall d r, name_tail d = true -> contains r "/" = false ->
                      contains (String d r) "/" = false) as Hc.
  { intros d r E Hr. rewrite contains_cons, Hr, orb_false_r. apply Hd in E.
    cbn [has_prefix]. by rewrite E. }
  apply Hc.
  - unfold name_tail, name_head in *. by rewrite H.
  - clear H H1. induction s as [|d s IH]; [done|]. simpl in H0. bools. apply Hc; auto.
Qed.

(** One case of a [switch] on a string variable. *)
Ltac string_case k :=
  match goal with
  | |- context [String.eqb k ?x] => destruct (String.eqb_spec k x) as [->|?]
  end.

Lemma append_inj_l (p a b : string) : p +:+ a = p +:+ b -> a = b.
Proof. induction p as [|c p IH]; simpl; [done|]. intros [= H]. auto. Qed.

Lemma append_inj_r (a b s : string) : a +:+ s = b +:+ s -> a = b.
Proof.
  revert b. induction a as [|c a IH]; intros [|d b] E; try done; simpl in E.
  - apply (f_equal String.length) in E. simpl in E. rewrite length_append in E. lia.
  - apply (f_equal String.length) in E. simpl in E. rewrite length_append in E. lia.
  - injection E as -> E. f_equal. by apply IH.
Qed.

Lemma has_suffix_append (a s : string) : has_suffix (a +:+ s) s = true.
Proof.
  unfold has_suffix. rewrite length_append. rewrite (proj2 (Nat.leb_le _ _)) by lia.
  replace (String.length a + String.length s - String.length s)%nat with (String.length a) by lia.
  rewrite drop_append. apply String.eqb_refl.
Qed.

(** The last byte of a string. *)
Fixpoint last_byte (s : string) : option ascii :=
  match s with
  | "" => None
  | String c s' => match last_byte s' with None => Some c | some => some end
  end.

Lemma last_byte_append (a s : string) : last_byte s <> None -> last_byte (a +:+ s) = last_byte s.
Proof. intros Hs. induction a as [|c a IH]; simpl; [done|]. rewrite IH. by destruct (last_byte s). Qed.

(** ** Pieces between separators *)

Definition without (a : ascii) (s : string) : bool := all_string (fun c => negb (Ascii.eqb c a)) s.

Lemma split_line (a : ascii) l rest :
  without a l = true ->
  split_on a (l +:+ String a rest) = l :: split_on a rest.
Proof.
  induction l as [|c l IH]; simpl; [by rewrite Ascii.eqb_refl|].
  intros [Hc Hn]%andb_prop. apply negb_true_iff in Hc. by rewrite Hc, IH.
Qed.

Lemma split_without (a : ascii) s : forallb (without a) (split_on a s) = true.
Proof.
  induction s as [|c s IH]; simpl; [done|]. destruct (Ascii.eqb c a) eqn:E; simpl; [done|].
  destruct (split_on a s) as [|w ws]; simpl in *; unfold without in *; simpl; rewrite E; simpl; done.
Qed.

Lemma split_single (a : ascii) s : without a s = true -> split_on a s = [s].
Proof.
  induction s as [|c s IH]; [done|]. unfold without. simpl. intros [Hc Hs]%andb_prop.
  apply negb_true_iff in Hc. by rewrite Hc, IH.
Qed.

Lemma split_join cs : forallb (without "/") cs = true -> cs <> [] -> split_on "/" (join "/" cs) = cs.
Proof.
  intros Hs Hn. induction cs as [|c cs IH]; [done|]. cbn [forallb] in Hs.
  apply andb_prop in Hs as [Hc Hcs]. destruct cs as [|d cs]; [by apply split_single|].
  change (join "/" (c :: d :: cs)) with (c +:+ String "/" (join "/" (d :: cs))).
  rewrite (split_line "/" c _ Hc). by rewrite IH.
Qed.

Lemma all_string_impl (p q : ascii -> bool) s :
  (forall c, p c = true -> q c = true) -> all_string p s = true -> all_string q s = true.
Proof.
  intros H. induction s as [|c s IH]; [done|]. simpl. intros [Hc Hs]%andb_prop.
  by rewrite (H c Hc), (IH Hs).
Qed.

Lemma pretty_N_char_digit x : is_digit (pretty_N_char x) = true.
Proof. by destruct x as [|[[[[]|[]|]|[[]|[]|]|]|[[[]|[]|]|[[]|[]|]|]|]]. Qed.

Lemma pretty_N_go_digits x s : all_string is_digit s = true -> all_string is_digit (pretty_N_go x s) = true.
Proof.
  revert s. induction (N.lt_wf_0 x) as [x _ IH]. intros s Hs.
  destruct (decide (x = 0)%N) as [->|Hx]; [by rewrite pretty_N_go_0|].
  rewrite pretty_N_go_step by lia. apply IH; [apply N.div_lt; lia|].
  simpl. by rewrite pretty_N_char_digit.
Qed.

(** A number is written with digits, after a sign. *)
Lemma itoa_chars n : all_string (fun c => is_digit c || Ascii.eqb c "-") (itoa n) = true.
Proof.
  assert (forall s, all_string is_digit s = true ->
    all_string (fun c => is_digit c || Ascii.eqb c "-") s = true) as Hd
    by (intros s; apply all_string_impl; intros c ->; done).
  unfold itoa, pretty, pretty_Z, pretty, pretty_positive, pretty, pretty_N.
  destruct n as [|p|p]; [done| |]; (destruct (decide _); [done|]).
  - apply Hd. by apply pretty_N_go_digits.
  - apply (Hd (pretty_N_go _ _)). by apply pretty_N_go_digits.
Qed.

Lemma itoa_without a n : is_digit a = false -> Ascii.eqb a "-" = false -> without a (itoa n) = true.
Proof.
  intros Ha Hm. eapply all_string_impl; [|apply itoa_chars]. intros c Hc. simpl in Hc.
  apply negb_true_iff. apply Ascii.eqb_neq. intros ->. by rewrite Ha, Hm in Hc.
Qed.
