(* ===== verification/GoTime.v ===== *)
(** * Dates (what MiniDock uses of the layouts of package time)

    The calendar date of an instant in UTC, and the two layouts the code prints. *)

From S2P Require Import Prelude GoStrings.

(** The proleptic Gregorian date of a day counted from 1 January of year 1; years begin in
    March inside the computation. *)
Definition civil (day : Z) : Z * Z * Z :=
  let z := day + 306 in
  let era := z / 146097 in
  let doe := z mod 146097 in
  let yoe := (doe - doe / 1460 + doe / 36524 - doe / 146096) / 365 in
  let doy := doe - (365 * yoe + yoe / 4 - yoe / 100) in
  let mp := (5 * doy + 2) / 153 in
  let d := doy - (153 * mp + 2) / 5 + 1 in
  let m := if mp <? 10 then mp + 3 else mp - 9 in
  (yoe + era * 400 + (if m <=? 2 then 1 else 0), m, d).

Definition seconds_of_day (t : Time) : Z := t / Second mod 86400.
Definition date (t : Time) : Z * Z * Z := civil (t / Second / 86400).

(** [hh<sep>mm<sep>ss]. *)
Definition clock_of (sep : string) (t : Time) : string :=
  let s := seconds_of_day t in
  zero_padded 2 (s / 3600) +:+ sep +:+ zero_padded 2 (s / 60 mod 60) +:+ sep +:+ zero_padded 2 (s mod 60).
Definition date_of (sep : string) (t : Time) : string :=
  let '(y, m, d) := date t in
  zero_padded 4 y +:+ sep +:+ zero_padded 2 m +:+ sep +:+ zero_padded 2 d.

(** The layout [20060102-150405] and [time.RFC3339], of times in UTC. *)
Definition compact (t : Time) : string := date_of "" t +:+ "-" +:+ clock_of "" t.
Definition rfc3339 (t : Time) : string := date_of "-" t +:+ "T" +:+ clock_of ":" t +:+ "Z".

(** The layout [2006-01-02 15:04:05]. *)
Definition date_time (t : Time) : string := date_of "-" t +:+ " " +:+ clock_of ":" t.

(** [time.RFC3339Nano], of times in UTC: what [Time.MarshalJSON] writes up to the year 9999. *)
Definition nanoseconds (t : Time) : string :=
  let n := t mod Second in
  if n =? 0 then "" else "." +:+ trim_right (fun c => Ascii.eqb c "0") (zero_padded 9 n).
Definition rfc3339_nano (t : Time) : string :=
  date_of "-" t +:+ "T" +:+ clock_of ":" t +:+ nanoseconds t +:+ "Z".

(** [t.Sub(u)] and [time.Since(u)]: the nearest duration. *)
Definition Since (t u : Time) : Duration := Z.max min_int64 (Z.min max_int64 (t - u)).

(** [d.Seconds()], [d.Minutes()] and [d.Hours()] of a duration that is not negative: the whole
    units plus the rest divided by the unit, two float64 operations; and [int(x)] of it. *)
Definition in_units (u d : Duration) : Z * Z :=
  let '(a, b) := float_div (d mod u) u in float_div (d / u * b + a) b.
Definition truncated (x : Z * Z) : Z := fst x / snd x.

(** ** Reading RFC 3339 *)

Definition is_leap (y : Z) : bool := (y mod 4 =? 0) && (negb (y mod 100 =? 0) || (y mod 400 =? 0)).
Definition daysIn (m y : Z) : Z :=
  if m =? 2 then (if is_leap y then 29 else 28)
  else if (m =? 4) || (m =? 6) || (m =? 9) || (m =? 11) then 30 else 31.

(** The day of a date, the inverse of [civil]. *)
Definition day_of (y m d : Z) : Z :=
  let y := y - (if m <=? 2 then 1 else 0) in
  let yoe := y mod 400 in
  let doy := (153 * ((m + 9) mod 12) + 2) / 5 + d - 1 in
  y / 400 * 146097 + (yoe * 365 + yoe / 4 - yoe / 100 + doy) - 306.

Definition digit_of (c : ascii) : option Z :=
  if is_digit c then Some (Z.of_nat (Ascii.nat_of_ascii c) - 48) else None.
(** Exactly two digits; at least one and at most two, as [getnum] reads an hour. *)
Definition two_digits (s : string) : option (Z * string) :=
  match s with
  | String a (String b s) => x ← digit_of a; y ← digit_of b; Some (10 * x + y, s)
  | _ => None
  end.
Definition hour_digits (s : string) : option (Z * string) :=
  match two_digits s with
  | Some r => Some r
  | None => match s with String a s => x ← digit_of a; Some (x, s) | "" => None end
  end.
Definition within (lo hi : Z) (r : option (Z * string)) : option (Z * string) :=
  '(n, s) ← r; if (lo <=? n) && (n <=? hi) then Some (n, s) else None.
Definition literal (p s : string) : option string :=
  if has_prefix s p then Some (drop_string (String.length p) s) else None.
Definition year_digits (s : string) : option (Z * string) :=
  '(a, s) ← two_digits s; '(b, s) ← two_digits s; Some (100 * a + b, s).

(** A fraction of a second after a period or a comma, of which nine digits count. *)
Definition fraction_digits (s : string) : Z * string :=
  match s with
  | String c (String d _) =>
    if (Ascii.eqb c "." || Ascii.eqb c ",") && is_digit d then
      let digits := fst (span is_digit (drop_string 1 s)) in
      let rest := snd (span is_digit (drop_string 1 s)) in
      let kept := take_string 9 digits in
      (default 0 (digits_value 0 kept) * 10 ^ Z.of_nat (9 - String.length kept), rest)
    else (0, s)
  | _ => (0, s)
  end.

(** The offset from UTC in seconds: [Z], or a sign, hours and minutes. *)
Definition zone_offset (s : string) : option (Z * string) :=
  match s with
  | String c s =>
    if Ascii.eqb c "Z" then Some (0, s)
    else if Ascii.eqb c "+" || Ascii.eqb c "-" then
      '(h, s) ← within 0 24 (two_digits s);
      s ← literal ":" s;
      '(m, s) ← within 0 60 (two_digits s);
      Some ((if Ascii.eqb c "-" then -1 else 1) * (h * 3600 + m * 60), s)
    else None
  | "" => None
  end.

(** [time.Parse(time.RFC3339, s)]. *)
Definition Parse (s : string) : option Time :=
  '(y, s) ← year_digits s;
  s ← literal "-" s; '(mo, s) ← within 1 12 (two_digits s);
  s ← literal "-" s; '(d, s) ← two_digits s;
  s ← literal "T" s; '(h, s) ← within 0 23 (hour_digits s);
  s ← literal ":" s; '(mi, s) ← within 0 59 (two_digits s);
  s ← literal ":" s; '(sec, s) ← within 0 59 (two_digits s);
  let '(ns, s) := fraction_digits s in
  '(offset, s) ← zone_offset s;
  if (s =? "")%string && (1 <=? d) && (d <=? daysIn mo y)
  then Some ((day_of y mo d * 86400 + h * 3600 + mi * 60 + sec - offset) * Second + ns)
  else None.

Example epoch : rfc3339 0 = "0001-01-01T00:00:00Z".
Proof. reflexivity. Qed.
Example leap_day : compact ((738944 * 86400 + 3661) * Second) = "20240229-010101".
Proof. reflexivity. Qed.
Example demo_date : rfc3339 63900000000000000000 = "2025-11-29T08:00:00Z".
Proof. reflexivity. Qed.
Example parse_fraction : Parse "2025-11-29T10:30:00.25+02:30" = Some 63900000000250000000.
Proof. reflexivity. Qed.
Example no_such_day : Parse "2025-02-29T00:00:00Z" = None.
Proof. reflexivity. Qed.
Example nano_date : rfc3339_nano 63900000000250000000 = "2025-11-29T08:00:00.25Z".
Proof. reflexivity. Qed.
