(* ===== verification/Json.v ===== *)
(** * JSON values (what MiniDock uses of encoding/json)

    [parse] reads a text; numbers that are not integers keep their lexeme.
    Bodies of HTTP requests and answers are JSON trees.  [marshal] is the text
    [json.Marshal] writes (with its HTML escapes); [decode_field] is how
    [json.Unmarshal] fills one field of a struct: keys match ignoring case, the last
    one wins, [null] leaves the field alone and a value of another type is an error. *)

From S2P Require Import Prelude GoStrings.

Inductive json :=
  | JNull
  | JBool (b : bool)
  | JNum (n : Z)
  | JFloat (lexeme : string)
  | JStr (s : string)
  | JArr (xs : list json)
  | JObj (fields : list (string * json)).

(** ** Text *)

(** A byte as [json.Marshal] writes it inside a string. *)
Definition marshal_byte (c : ascii) : string :=
  let n := Ascii.nat_of_ascii c in
  if Ascii.eqb c dquote then String "\" (String dquote "")
  else if Ascii.eqb c "\" then "\\"
  else if (n =? 8)%nat then "\b"
  else if (n =? 12)%nat then "\f"
  else if (n =? 10)%nat then "\n"
  else if (n =? 13)%nat then "\r"
  else if (n =? 9)%nat then "\t"
  else if (n <? 32)%nat || Ascii.eqb c "<" || Ascii.eqb c ">" || Ascii.eqb c "&"
  then "\u00" +:+ String (hex_digit (n / 16)) (String (hex_digit (n mod 16)) "")
  else String c "".

Fixpoint marshal_bytes (s : string) : string :=
  match s with "" => "" | String c s => marshal_byte c +:+ marshal_bytes s end.

Definition marshal_string (s : string) : string :=
  String dquote (marshal_bytes s +:+ String dquote "").

Fixpoint marshal (j : json) : string :=
  match j with
  | JNull => "null"
  | JBool b => if b then "true" else "false"
  | JNum n => itoa n
  | JFloat l => l
  | JStr s => marshal_string s
  | JArr xs => "[" +:+ join "," (map marshal xs) +:+ "]"
  | JObj kvs => "{" +:+ join "," (map (fun kv => marshal_string kv.1 +:+ ":" +:+ marshal kv.2) kvs) +:+ "}"
  end.

(** A Go map is marshalled with its keys sorted. *)
Definition sorted_pairs {A} (m : gmap string A) : list (string * A) :=
  order_by_name fst (map_to_list m).
Definition json_of_map (m : gmap string string) : json :=
  JObj (map (fun kv => (kv.1, JStr kv.2)) (sorted_pairs m)).

(** ** Reading *)

Definition json_space (c : ascii) : bool :=
  Ascii.eqb c " " || Ascii.eqb c "009" || Ascii.eqb c "010" || Ascii.eqb c "013".
Definition skip_space (s : string) : string := trim_left json_space s.

Definition hex_value (c : ascii) : option Z :=
  let n := Z.of_nat (Ascii.nat_of_ascii c) in
  if is_digit c then Some (n - 48)
  else if ascii_in "a" "f" c then Some (n - 87)
  else if ascii_in "A" "F" c then Some (n - 55) else None.

Definition hex4 (s : string) : option (Z * string) :=
  match s with
  | String a (String b (String c (String d s))) =>
    x ← hex_value a; y ← hex_value b; z ← hex_value c; t ← hex_value d;
    Some (((x * 16 + y) * 16 + z) * 16 + t, s)
  | _ => None
  end.

Definition byte_of (n : Z) : ascii := Ascii.ascii_of_N (Z.to_N n).
Definition utf8 (r : Z) : string :=
  if r <? 128 then String (byte_of r) ""
  else if r <? 2048 then
    String (byte_of (192 + r / 64)) (String (byte_of (128 + r mod 64)) "")
  else if r <? 65536 then
    String (byte_of (224 + r / 4096)) (String (byte_of (128 + (r / 64) mod 64))
      (String (byte_of (128 + r mod 64)) ""))
  else
    String (byte_of (240 + r / 262144)) (String (byte_of (128 + (r / 4096) mod 64))
      (String (byte_of (128 + (r / 64) mod 64)) (String (byte_of (128 + r mod 64)) ""))).

Definition is_surrogate (r : Z) : bool := (55296 <=? r) && (r <? 57344).

(** The rest of a string after its opening quote. *)
Fixpoint parse_string (fuel : nat) (s : string) : option (string * string) :=
  match fuel, s with
  | S fuel, String c s =>
    let cons (p : string) (r : option (string * string)) := '(t, s) ← r; Some (p +:+ t, s) in
    if Ascii.eqb c dquote then Some ("", s)
    else if (Ascii.nat_of_ascii c <? 32)%nat then None
    else if Ascii.eqb c "\" then
      match s with
      | String "n" s => cons (String "010" "") (parse_string fuel s)
      | String "t" s => cons (String "009" "") (parse_string fuel s)
      | String "r" s => cons (String "013" "") (parse_string fuel s)
      | String "b" s => cons (String "008" "") (parse_string fuel s)
      | String "f" s => cons (String "012" "") (parse_string fuel s)
      | String "u" s =>
        '(r, s) ← hex4 s;
        if is_surrogate r then
          match s with
          | String "\" (String "u" s') =>
            '(r2, s'') ← hex4 s';
            if (r <? 56320) && (56320 <=? r2) && (r2 <? 57344)
            then cons (utf8 (65536 + (r - 55296) * 1024 + (r2 - 56320))) (parse_string fuel s'')
            else cons (utf8 65533) (parse_string fuel s)
          | _ => cons (utf8 65533) (parse_string fuel s)
          end
        else cons (utf8 r) (parse_string fuel s)
      | String d s =>
        if Ascii.eqb d dquote || Ascii.eqb d "\" || Ascii.eqb d "/"
        then cons (String d "") (parse_string fuel s) else None
      | "" => None
      end
    else cons (String c "") (parse_string fuel s)
  | _, _ => None
  end.

(** [-? int frac? exp?]. *)
Definition valid_integer (s : string) : bool :=
  let d := trim_prefix s "-" in
  negb (d =? "")%string && all_string is_digit d
  && ((d =? "0")%string || negb (has_prefix d "0")).
Definition parse_number (s : string) : option (json * string) :=
  let '(int, rest) := span (fun c => is_digit c || Ascii.eqb c "-") s in
  if negb (valid_integer int) then None else
  let '(frac, rest1) := match rest with
                        | String "." r => let '(f, r') := span is_digit r in ("." +:+ f, r')
                        | _ => ("", rest)
                        end in
  let '(exp, rest2) :=
    match rest1 with
    | String "e" r | String "E" r =>
      let '(sign, r) := match r with
                        | String "+" r => ("+", r)
                        | String "-" r => ("-", r)
                        | _ => ("", r)
                        end in
      let '(d, r) := span is_digit r in
      (if (d =? "")%string then "bad" else "e" +:+ sign +:+ d, r)
    | _ => ("", rest1)
    end in
  if (frac =? ".")%string || (exp =? "bad")%string then None
  else if (frac +:+ exp =? "")%string
  then n ← digits_value 0 (trim_prefix int "-");
       Some (JNum (if has_prefix int "-" then - n else n), rest2)
  else Some (JFloat (int +:+ frac +:+ exp), rest2).

Fixpoint parse_value (fuel : nat) (s : string) : option (json * string) :=
  match fuel with
  | O => None
  | S fuel =>
    let s := skip_space s in
    if has_prefix s "null" then Some (JNull, drop_string 4 s)
    else if has_prefix s "true" then Some (JBool true, drop_string 4 s)
    else if has_prefix s "false" then Some (JBool false, drop_string 5 s)
    else match s with
    | String "[" s =>
      if has_prefix (skip_space s) "]" then Some (JArr [], drop_string 1 (skip_space s)) else
      '(xs, s) ← parse_elements fuel s; Some (JArr xs, s)
    | String "{" s =>
      if has_prefix (skip_space s) "}" then Some (JObj [], drop_string 1 (skip_space s)) else
      '(kvs, s) ← parse_members fuel s; Some (JObj kvs, s)
    | String c s' =>
      if Ascii.eqb c dquote
      then '(t, s) ← parse_string (S (String.length s')) s'; Some (JStr t, s)
      else parse_number s
    | "" => None
    end
  end
with parse_elements (fuel : nat) (s : string) : option (list json * string) :=
  match fuel with
  | O => None
  | S fuel =>
    '(x, s) ← parse_value fuel s;
    match skip_space s with
    | String "," s => '(xs, s) ← parse_elements fuel s; Some (x :: xs, s)
    | String "]" s => Some ([x], s)
    | _ => None
    end
  end
with parse_members (fuel : nat) (s : string) : option (list (string * json) * string) :=
  match fuel with
  | O => None
  | S fuel =>
    match skip_space s with
    | String c s =>
      if negb (Ascii.eqb c dquote) then None else
      '(k, s) ← parse_string (S (String.length s)) s;
      match skip_space s with
      | String ":" s =>
        '(v, s) ← parse_value fuel s;
        match skip_space s with
        | String "," s => '(kvs, s) ← parse_members fuel s; Some ((k, v) :: kvs, s)
        | String "}" s => Some ([(k, v)], s)
        | _ => None
        end
      | _ => None
      end
    | "" => None
    end
  end.

(** The whole text is one value; twice its length is more fuel than it can use. *)
Definition parse (s : string) : option json :=
  '(j, rest) ← parse_value (2 * String.length s + 2) s;
  if (skip_space rest =? "")%string then Some j else None.

(** [json.NewDecoder(r).Decode]: the first value of the text. *)
Definition parse_first (s : string) : option json :=
  fst <$> parse_value (2 * String.length s + 2) s.

(** ** Decoding into Go values *)

(** A decoder updates a value of the Go type; [None] is an [UnmarshalTypeError]. *)
Definition decoder (A : Type) : Type := A -> json -> option A.

Definition decode_text : decoder string := fun s j =>
  match j with JStr s' => Some s' | JNull => Some s | _ => None end.
Definition decode_int : decoder Z := fun n j =>
  match j with
  | JNum m => if (min_int64 <=? m) && (m <=? max_int64) then Some m else None
  | JNull => Some n
  | _ => None
  end.
Definition decode_bool : decoder bool := fun b j =>
  match j with JBool b' => Some b' | JNull => Some b | _ => None end.

Fixpoint decode_elements {A} (zero : A) (dec : decoder A) (xs : list json) : option (list A) :=
  match xs with
  | [] => Some []
  | x :: xs => a ← dec zero x; l ← decode_elements zero dec xs; Some (a :: l)
  end.

(** A slice is reset before it is filled; [null] is the nil slice. *)
Definition decode_list {A} (zero : A) (dec : decoder A) : decoder (list A) := fun _ j =>
  match j with
  | JArr xs => decode_elements zero dec xs
  | JNull => Some []
  | _ => None
  end.

(** A map of strings: the members are added to the map that is there, [null] is the nil map. *)
Fixpoint decode_entries (m : gmap string string) (kvs : list (string * json))
    : option (gmap string string) :=
  match kvs with
  | [] => Some m
  | (k, v) :: kvs => s ← decode_text "" v; decode_entries (<[k := s]> m) kvs
  end.
Definition decode_map : decoder (option (gmap string string)) := fun m j =>
  match j with
  | JObj kvs => Some <$> decode_entries (default ∅ m) kvs
  | JNull => Some None
  | _ => None
  end.

(** One field of a struct, read from the members of an object. *)
Fixpoint decode_field {A} (name : string) (dec : decoder A) (a : A) (kvs : list (string * json))
    : option A :=
  match kvs with
  | [] => Some a
  | (k, v) :: kvs =>
    if equal_fold k name then a' ← dec a v; decode_field name dec a' kvs
    else decode_field name dec a kvs
  end.

(** The members of the value a struct is decoded from: [null] sets nothing, anything
    but an object is an error. *)
Definition members (j : json) : option (list (string * json)) :=
  match j with JObj kvs => Some kvs | JNull => Some [] | _ => None end.
