(* ===== verification/JsonFacts.v ===== *)
(** * Reading back what encoding/json wrote

    [parse (marshal j) = Some j] for every value without fractional numbers, and what follows
    for maps of strings: the texts MiniDock stores as evidence decode to what was encoded. *)

From S2P Require Import Prelude GoStrings Json.

(** ** Induction on values *)

Section json_induction.
Context (P : json -> Prop) (HNull : P JNull) (HBool : forall b, P (JBool b)) (HNum : forall n, P (JNum n))
  (HFloat : forall l, P (JFloat l)) (HStr : forall s, P (JStr s))
  (HArr : forall xs, Forall P xs -> P (JArr xs))
  (HObj : forall kvs, Forall (fun kv => P kv.2) kvs -> P (JObj kvs)).

Fixpoint json_nested_ind (j : json) : P j :=
  match j with
  | JNull => HNull
  | JBool b => HBool b
  | JNum n => HNum n
  | JFloat l => HFloat l
  | JStr s => HStr s
  | JArr xs => HArr xs ((fix go xs := match xs return Forall P xs with
                                      | [] => Forall_nil_2 _
                                      | x :: xs => Forall_cons_2 _ _ _ (json_nested_ind x) (go xs)
                                      end) xs)
  | JObj kvs => HObj kvs ((fix go kvs := match kvs return Forall (fun kv => P kv.2) kvs with
                                         | [] => Forall_nil_2 _
                                         | kv :: kvs => Forall_cons_2 _ _ _ (json_nested_ind kv.2) (go kvs)
                                         end) kvs)
  end.
End json_induction.

(** No number with a fraction or an exponent: what MiniDock marshals. *)
Fixpoint integral (j : json) : bool :=
  match j with
  | JFloat _ => false
  | JArr xs => forallb integral xs
  | JObj kvs => forallb (fun kv => integral kv.2) kvs
  | _ => true
  end.

(** The recursion [parse_value] needs. *)
Fixpoint depth (j : json) : nat :=
  match j with
  | JArr xs => S (list_sum (map (fun x => S (depth x)) xs))
  | JObj kvs => S (list_sum (map (fun kv => S (depth kv.2)) kvs))
  | _ => 1
  end.

(** ** Strings *)

Lemma parse_byte c fuel s :
  parse_string (S fuel) (marshal_byte c +:+ s)
  = '(t, r) ← parse_string fuel s; Some (String c t, r).
Proof. destruct c as [[] [] [] [] [] [] [] []]; reflexivity. Qed.

Lemma parse_marshalled_string s rest fuel : (String.length s < fuel)%nat ->
  parse_string fuel (marshal_bytes s +:+ String dquote rest) = Some (s, rest).
Proof.
  revert fuel. induction s as [|c s IH]; intros [|fuel] Hf; simpl in Hf; try lia; [done|].
  simpl marshal_bytes. rewrite <- append_assoc, parse_byte, IH by lia. done.
Qed.

Lemma length_marshal_bytes s : (String.length s <= String.length (marshal_bytes s))%nat.
Proof.
  induction s as [|c s IH]; simpl; [done|]. rewrite length_append.
  assert (1 <= String.length (marshal_byte c))%nat; [|lia].
  by destruct c as [[] [] [] [] [] [] [] []]; vm_compute; lia.
Qed.

Lemma marshal_string_text s rest :
  marshal_string s +:+ rest = String dquote (marshal_bytes s +:+ String dquote rest).
Proof. unfold marshal_string. simpl. by rewrite <- append_assoc. Qed.

Lemma parse_marshal_string s rest :
  parse_string (S (String.length (marshal_bytes s +:+ String dquote rest)))
    (marshal_bytes s +:+ String dquote rest) = Some (s, rest).
Proof.
  apply parse_marshalled_string. rewrite length_append. pose proof (length_marshal_bytes s). simpl. lia.
Qed.

(** ** Numbers *)

Lemma pretty_N_char_value x : (x < 10)%N ->
  Z.of_nat (Ascii.nat_of_ascii (pretty_N_char x)) - 48 = Z.of_N x.
Proof.
  intros Hx. assert (x = 0 \/ x = 1 \/ x = 2 \/ x = 3 \/ x = 4 \/ x = 5 \/ x = 6 \/ x = 7
    \/ x = 8 \/ x = 9)%N as Hc by lia.
  by repeat (destruct Hc as [->|Hc]; [done|]); subst.
Qed.

Lemma digits_value_pretty x s : digits_value 0 (pretty_N_go x s) = digits_value (Z.of_N x) s.
Proof.
  revert s. induction (N.lt_wf_0 x) as [x _ IH]. intros s.
  destruct (decide (x = 0)%N) as [->|Hx]; [by rewrite pretty_N_go_0|].
  rewrite pretty_N_go_step by lia. rewrite IH by (apply N.div_lt; lia). simpl.
  rewrite pretty_N_char_digit. f_equal. rewrite pretty_N_char_value by (apply N.mod_lt; lia).
  rewrite N2Z.inj_div, N2Z.inj_mod. pose proof (Z.div_mod (Z.of_N x) 10). lia.
Qed.

Lemma pretty_head x s : (0 < x)%N -> exists c r, pretty_N_go x s = String c r /\ c <> "0"%char.
Proof.
  revert s. induction (N.lt_wf_0 x) as [x _ IH]. intros s Hx.
  rewrite pretty_N_go_step by lia. destruct (decide (x / 10 = 0)%N) as [E|E].
  - rewrite E, pretty_N_go_0. eexists _, _. split; [done|].
    apply N.div_small_iff in E; [|done]. rewrite N.mod_small by done.
    assert (x = 1 \/ x = 2 \/ x = 3 \/ x = 4 \/ x = 5 \/ x = 6 \/ x = 7 \/ x = 8 \/ x = 9)%N as Hc by lia.
    by repeat (destruct Hc as [->|Hc]; [done|]); subst.
  - apply IH; [apply N.div_lt; lia|]. pose proof (N.le_0_l (x / 10)). lia.
Qed.

(** A decimal is a sign and digits without a leading zero. *)
Lemma itoa_parts n : exists d, itoa n = (if n <? 0 then "-" else "") +:+ d
  /\ all_string is_digit d = true /\ digits_value 0 d = Some (Z.abs n)
  /\ (d = "0" \/ exists c r, d = String c r /\ c <> "0"%char).
Proof.
  assert (forall p, exists d, pretty (N.pos p) = d /\ all_string is_digit d = true
    /\ digits_value 0 d = Some (Zpos p) /\ (d = "0" \/ exists c r, d = String c r /\ c <> "0"%char)) as Hp.
  { intros p. eexists. split; [done|]. unfold pretty, pretty_N.
    destruct (decide _) as [?|_]; [done|]. split_and!.
    - by apply pretty_N_go_digits.
    - by rewrite digits_value_pretty.
    - right. by apply pretty_head. }
  unfold itoa, pretty, pretty_Z. destruct n as [|p|p].
  - exists "0". split_and!; try done. by left.
  - destruct (Hp p) as (d & E & ?). exists d. split; [exact E|done].
  - destruct (Hp p) as (d & E & ?). exists d. split; [|done]. simpl. f_equal. exact E.
Qed.

Lemma span_app p a b : all_string p a = true ->
  match b with "" => true | String c _ => negb (p c) end = true -> span p (a +:+ b) = (a, b).
Proof.
  intros Ha Hb. induction a as [|c a IH]; simpl in *.
  - destruct b as [|c b]; [done|]. simpl. apply negb_true_iff in Hb. by rewrite Hb.
  - apply andb_prop in Ha as [-> Ha]. by rewrite (IH Ha).
Qed.

(** What follows a value: the end, or a delimiter. *)
Definition delimited (rest : string) : bool :=
  match rest with
  | "" => true
  | String c _ => Ascii.eqb c "," || Ascii.eqb c "]" || Ascii.eqb c "}"
  end.

Lemma parse_itoa n rest : delimited rest = true -> parse_number (itoa n +:+ rest) = Some (JNum n, rest).
Proof.
  intros Hr. unfold parse_number.
  rewrite span_app; [|apply itoa_chars|].
  2:{ destruct rest as [|c rest]; [done|]. simpl in *. apply orb_prop in Hr as [[Hr|Hr]%orb_prop|Hr];
      apply Ascii.eqb_eq in Hr as ->; done. }
  destruct (itoa_parts n) as (d & E & Hd & Hv & Hz).
  assert (trim_prefix (itoa n) "-" = d) as Ht.
  { rewrite E. destruct (n <? 0); [apply (trim_prefix_append "-" d)|].
    unfold trim_prefix. simpl. destruct Hz as [->|(c & r & -> & _)]; [done|]. simpl.
    destruct (Ascii.eqb_spec "-" c) as [<-|]; [done|]. done. }
  assert (has_prefix (itoa n) "-" = (n <? 0)) as Hs.
  { rewrite E. destruct (n <? 0); [apply (has_prefix_append "-" d)|].
    destruct Hz as [->|(c & r & -> & _)]; [done|]. simpl.
    destruct (Ascii.eqb_spec "-" c) as [<-|]; done. }
  assert (valid_integer (itoa n) = true) as ->.
  { unfold valid_integer. rewrite Ht, Hd. destruct Hz as [->|(c & r & -> & Hc)]; [done|]. simpl.
    destruct (Ascii.eqb_spec "0" c) as [<-|]; [done|]. by rewrite orb_true_r. }
  cbn [negb]. rewrite Ht, Hs, Hv.
  assert ((if n <? 0 then - Z.abs n else Z.abs n) = n) as Hn by (destruct (Z.ltb_spec n 0); lia).
  destruct rest as [|[[] [] [] [] [] [] [] []] rest]; try discriminate Hr; simpl; by rewrite Hn.
Qed.

(** ** Values *)

(** The first byte of a value starts no closing bracket and is not skipped. *)
Definition value_start (c : ascii) : bool :=
  negb (json_space c || Ascii.eqb c "]" || Ascii.eqb c "}").

Lemma marshal_head j : integral j = true ->
  exists c r, marshal j = String c r /\ value_start c = true.
Proof.
  destruct j as [|[]|n|l|s|xs|kvs]; intros Hi; try done; cbn [marshal];
    try (eexists _, _; by split).
  destruct (itoa_parts n) as (d & -> & Hd & Hv & Hz). destruct (n <? 0); [by eexists _, _|].
  destruct Hz as [->|(c & r & -> & _)]; [by eexists _, _|]. exists c, r. split; [done|].
  simpl in Hd. apply andb_prop in Hd as [Hd _]. by destruct c as [[] [] [] [] [] [] [] []].
Qed.

Lemma skip_start c s : value_start c = true -> skip_space (String c s) = String c s.
Proof.
  unfold value_start, skip_space. intros Hc. apply negb_true_iff in Hc.
  apply orb_false_elim in Hc as [[Hc _]%orb_false_elim _]. simpl. by rewrite Hc.
Qed.

Lemma skip_marshal j rest : integral j = true -> skip_space (marshal j +:+ rest) = marshal j +:+ rest.
Proof. intros (c & r & -> & Hc)%marshal_head. by apply skip_start. Qed.

(** A number starts with a sign or a digit. *)
Lemma itoa_head n rest : exists c r, itoa n +:+ rest = String c r /\ is_digit c || Ascii.eqb c "-" = true.
Proof.
  pose proof (itoa_chars n) as Hc. destruct (itoa_parts n) as (d & E & _ & Hv & Hz).
  destruct (itoa n) as [|c r] eqn:En.
  - destruct (n <? 0); [done|]. destruct Hz as [->|(? & ? & -> & _)]; done.
  - exists c, (r +:+ rest). split; [done|]. by apply andb_prop in Hc as [Hc _].
Qed.

Section elements.
Context (fuel : nat).

(** A comma or the closing bracket after an element. *)
Lemma parse_elements_marshal xs rest :
  Forall (fun x => forall f r, (depth x <= f)%nat -> integral x = true -> delimited r = true ->
    parse_value f (marshal x +:+ r) = Some (x, r)) xs ->
  xs <> [] -> (list_sum (map (fun x => S (depth x)) xs) <= fuel)%nat -> forallb integral xs = true ->
  parse_elements fuel (join "," (map marshal xs) +:+ String "]" rest) = Some (xs, rest).
Proof.
  intros Hxs. revert fuel. induction Hxs as [|x xs Hx Hxs IH]; intros f Hn Hf Hi; [done|].
  simpl in Hf, Hi. apply andb_prop in Hi as [Hi His]. destruct f as [|f]; [lia|].
  destruct xs as [|y xs].
  - simpl. by rewrite Hx by (done || lia).
  - change (join "," (map marshal (x :: y :: xs)))
      with (marshal x +:+ String "," (join "," (map marshal (y :: xs)))).
    rewrite <- append_assoc. cbn [parse_elements]. rewrite Hx by (done || lia).
    cbn [mbind option_bind]. change (String "," ?s +:+ ?t) with (String "," (s +:+ t)).
    change (skip_space (String "," ?s)) with (String "," s). cbv iota.
    rewrite IH; [done|done|simpl in *; lia|done].
Qed.

Definition member_text (kv : string * json) : string := marshal_string kv.1 +:+ ":" +:+ marshal kv.2.

Lemma parse_members_marshal kvs rest :
  Forall (fun kv => forall f r, (depth kv.2 <= f)%nat -> integral kv.2 = true -> delimited r = true ->
    parse_value f (marshal kv.2 +:+ r) = Some (kv.2, r)) kvs ->
  kvs <> [] -> (list_sum (map (fun kv => S (depth kv.2)) kvs) <= fuel)%nat ->
  forallb (fun kv => integral kv.2) kvs = true ->
  parse_members fuel (join "," (map member_text kvs) +:+ String "}" rest) = Some (kvs, rest).
Proof.
  intros Hxs. revert fuel. induction Hxs as [|[k v] kvs Hx Hxs IH]; intros f Hn Hf Hi; [done|].
  simpl in Hf, Hi. apply andb_prop in Hi as [Hi His]. destruct f as [|f]; [lia|].
  cbn [fst snd] in Hx, Hi, Hf.
  assert (forall tail, parse_members (S f) (member_text (k, v) +:+ tail)
    = '(v, s) ← parse_value f (marshal v +:+ tail);
      match skip_space s with
      | String "," s => '(kvs, s) ← parse_members f s; Some ((k, v) :: kvs, s)
      | String "}" s => Some ([(k, v)], s)
      | _ => None
      end) as Hstep.
  { intros tail. unfold member_text. cbn [fst snd]. rewrite <- append_assoc, marshal_string_text.
    cbn [parse_members]. change (skip_space (String dquote ?s)) with (String dquote s).
    cbv iota. rewrite Ascii.eqb_refl. cbn [negb]. rewrite parse_marshal_string.
    cbn [mbind option_bind]. by rewrite <- append_assoc. }
  destruct kvs as [|kv kvs].
  - simpl map. simpl join. rewrite Hstep, Hx by (done || lia). done.
  - change (join "," (map member_text ((k, v) :: kv :: kvs)))
      with (member_text (k, v) +:+ String "," (join "," (map member_text (kv :: kvs)))).
    rewrite <- append_assoc, Hstep, Hx by first [done|simpl in *; lia]. cbn [mbind option_bind].
    change (String "," ?s +:+ ?t) with (String "," (s +:+ t)).
    change (skip_space (String "," ?s)) with (String "," s). cbv iota.
    rewrite IH; [done|done|simpl in *; lia|done].
Qed.
End elements.

Lemma parse_value_marshal j : forall fuel rest, (depth j <= fuel)%nat -> integral j = true ->
  delimited rest = true -> parse_value fuel (marshal j +:+ rest) = Some (j, rest).
Proof.
  induction j as [|b|n|l|s|xs IH|kvs IH] using json_nested_ind; intros [|fuel] rest Hf Hi Hr;
    try done; try (simpl in Hf; lia).
  - by destruct b.
  - simpl marshal. destruct (itoa_head n rest) as (c & r & E & Hc).
    transitivity (parse_number (itoa n +:+ rest)); [|by apply parse_itoa]. rewrite E.
    by destruct c as [[] [] [] [] [] [] [] []].
  - cbn [marshal]. rewrite marshal_string_text. set (X := marshal_bytes s +:+ _).
    transitivity ('(t, r) ← parse_string (S (String.length X)) X; Some (JStr t, r)); [done|].
    unfold X. by rewrite parse_marshal_string.
  - destruct xs as [|x xs]; [done|].
    change (marshal (JArr (x :: xs))) with (String "[" (join "," (map marshal (x :: xs)) +:+ "]")).
    change (String "[" ?s +:+ rest) with (String "[" (s +:+ rest)). rewrite <- append_assoc.
    set (text := join "," _ +:+ _). 
    assert (exists t, text = marshal x +:+ t) as [t Et].
    { destruct xs as [|y xs]; [by eexists|]. eexists. unfold text.
      change (join "," (map marshal (x :: y :: xs)))
        with (marshal x +:+ String "," (join "," (map marshal (y :: xs)))). by rewrite <- append_assoc. }
    assert (integral x = true) as Hx by (simpl in Hi; by apply andb_prop in Hi as [? _]).
    assert (has_prefix (skip_space text) "]" = false) as Hp.
    { rewrite Et, skip_marshal by done. destruct (marshal_head x Hx) as (c & r & -> & Hc).
      simpl. destruct (Ascii.eqb_spec "]" c) as [<-|]; done. }
    transitivity ('(xs, s) ← parse_elements fuel text; Some (JArr xs, s)).
    { transitivity (if has_prefix (skip_space text) "]" then Some (JArr [], drop_string 1 (skip_space text))
        else '(xs, s) ← parse_elements fuel text; Some (JArr xs, s)); [done|]. by rewrite Hp. }
    unfold text. change ("]" +:+ rest) with (String "]" rest).
    by rewrite (parse_elements_marshal fuel (x :: xs)) by first [done|simpl in *; lia].
  - destruct kvs as [|[k v] kvs]; [done|].
    change (marshal (JObj ((k, v) :: kvs)))
      with (String "{" (join "," (map member_text ((k, v) :: kvs)) +:+ "}")).
    change (String "{" ?s +:+ rest) with (String "{" (s +:+ rest)). rewrite <- append_assoc.
    set (text := join "," _ +:+ _).
    assert (exists t, text = String dquote t) as [t Et].
    { unfold text. destruct kvs; simpl map; simpl join; unfold member_text at 1, marshal_string; by eexists. }
    transitivity ('(kvs, s) ← parse_members fuel text; Some (JObj kvs, s)).
    { by rewrite Et. }
    unfold text. change ("}" +:+ rest) with (String "}" rest).
    by rewrite (parse_members_marshal fuel ((k, v) :: kvs)) by first [done|simpl in *; lia].
Qed.

Lemma list_sum_cons n ns : list_sum (n :: ns) = (n + list_sum ns)%nat.
Proof. done. Qed.

Lemma join_length ws : (list_sum (map String.length ws) + length ws <= String.length (join "," ws) + 1)%nat.
Proof.
  induction ws as [|w [|v ws] IH]; [simpl; lia|simpl; lia|].
  change (join "," (w :: v :: ws)) with (w +:+ String "," (join "," (v :: ws))).
  rewrite length_append. simpl in *. lia.
Qed.

Lemma depth_length j : integral j = true -> (depth j <= 2 * String.length (marshal j))%nat.
Proof.
  induction j as [|b|n|l|s|xs IH|kvs IH] using json_nested_ind; intros Hi.
  - simpl. lia.
  - destruct b; simpl; lia.
  - destruct (marshal_head (JNum n) eq_refl) as (c & r & -> & _). simpl. lia.
  - done.
  - simpl. lia.
  - pose proof (join_length (map marshal xs)) as Hj.
    assert (list_sum (map (fun x => S (depth x)) xs)
      <= 2 * list_sum (map String.length (map marshal xs)) + length xs)%nat as Hs.
    { clear Hj. induction IH as [|x xs Hx _ IHx]; [done|]. simpl in *. apply andb_prop in Hi as [H1 H2].
      specialize (Hx H1). specialize (IHx H2). lia. }
    change (marshal (JArr xs)) with (String "[" (join "," (map marshal xs) +:+ "]")).
    cbn [depth String.length]. rewrite length_append. rewrite length_map in Hj. simpl String.length. lia.
  - pose proof (join_length (map member_text kvs)) as Hj.
    assert (list_sum (map (fun kv => S (depth kv.2)) kvs)
      <= 2 * list_sum (map String.length (map member_text kvs)) + length kvs)%nat as Hs.
    { clear Hj. induction IH as [|[k v] kvs Hx _ IHx]; [done|].
      apply andb_prop in Hi as [H1 H2]. specialize (Hx H1). specialize (IHx H2).
      assert (String.length (marshal v) <= String.length (member_text (k, v)))%nat
        by (unfold member_text; rewrite !length_append; simpl; lia).
      cbn [map length fst snd] in *. rewrite !list_sum_cons. lia. }
    change (marshal (JObj kvs)) with (String "{" (join "," (map member_text kvs) +:+ "}")).
    cbn [depth String.length]. rewrite length_append. rewrite length_map in Hj. simpl String.length. lia.
Qed.

Lemma parse_marshal j : integral j = true -> parse (marshal j) = Some j.
Proof.
  intros Hi. unfold parse. pose proof (depth_length j Hi) as Hd.
  rewrite <- (append_nil_r (marshal j)) at 2.
  by rewrite parse_value_marshal by first [done|lia].
Qed.
