(* ===== verification/Net.v ===== *)
(** * Paths, addresses and URLs (what MiniDock uses of path/filepath, net and net/url)

    Slash-separated paths; IPv4 and IPv6 literals (without embedded IPv4); URLs of the
    form [scheme://host/path].  The lemmas state what the program's containment checks
    rely on: a cleaned rooted path has no [..] component. *)

From S2P Require Import Prelude GoStrings.

(** ** path/filepath *)

Definition IsAbs (p : string) : bool := has_prefix p "/".

(** One component appended to a cleaned path, kept in reverse. *)
Definition push_component (rooted : bool) (stack : list string) (c : string) : list string :=
  if (c =? "")%string || (c =? ".")%string then stack
  else if (c =? "..")%string then
    match stack with
    | d :: rest => if (d =? "..")%string then c :: stack else rest
    | [] => if rooted then [] else [c]
    end
  else c :: stack.

Definition clean_components (p : string) : list string :=
  rev (foldl (push_component (IsAbs p)) [] (split_on "/" p)).

(** [filepath.Clean]. *)
Definition Clean (p : string) : string :=
  let body := join "/" (clean_components p) in
  if IsAbs p then "/" +:+ body
  else if (body =? "")%string then "." else body.

(** [filepath.Join] of two elements. *)
Definition Join (a b : string) : string :=
  if (a =? "")%string then (if (b =? "")%string then "" else Clean b)
  else if (b =? "")%string then Clean a else Clean (a +:+ "/" +:+ b).

(** [filepath.Base]. *)
Definition Base (p : string) : string :=
  if (p =? "")%string then "."
  else match rev (split_on "/" (trim_right (fun c => Ascii.eqb c "/") p)) with
       | "" :: _ | [] => "/"
       | c :: _ => c
       end.

(** [filepath.Abs], in the working directory [wd]. *)
Definition Abs (wd p : string) : string := if IsAbs p then Clean p else Join wd p.

(** [filepath.Rel] of two cleaned rooted paths. *)
Fixpoint strip_common (a b : list string) : list string * list string :=
  match a, b with
  | x :: a', y :: b' => if (x =? y)%string then strip_common a' b' else (a, b)
  | _, _ => (a, b)
  end.
Definition Rel (base target : string) : string :=
  let '(up, down) := strip_common (clean_components base) (clean_components target) in
  let cs := map (fun _ => "..") up ++ down in
  match cs with [] => "." | _ => join "/" cs end.

(** [filepath.Dir]: the text up to the last separator, cleaned. *)
Fixpoint last_slash (s : string) : option string :=
  match s with
  | "" => None
  | String c s =>
    match last_slash s with
    | Some a => Some (String c a)
    | None => if Ascii.eqb c "/" then Some (String c "") else None
    end
  end.
Definition Dir (p : string) : string := Clean (default "" (last_slash p)).

(** ** net *)

Definition all_digits (s : string) : bool := all_string is_digit s.

(** A decimal octet without leading zeros. *)
Definition is_octet (s : string) : bool :=
  all_digits s && (1 <=? String.length s)%nat && (String.length s <=? 3)%nat
  && negb (has_prefix s "0" && (1 <? String.length s)%nat)
  && match digits_value 0 s with Some n => n <=? 255 | None => false end.

Definition is_ipv4 (s : string) : bool :=
  let parts := split_on "." s in (length parts =? 4)%nat && forallb is_octet parts.

Definition is_group (s : string) : bool :=
  all_string is_hex s && (1 <=? String.length s)%nat && (String.length s <=? 4)%nat.

(** Groups of an IPv6 literal; an empty component stands for the [::]. *)
Definition is_ipv6 (s : string) : bool :=
  let parts := split_on ":" s in
  let parts := if has_prefix s "::" then tl parts else parts in
  let parts := if has_suffix s "::" then rev (tl (rev parts)) else parts in
  let gaps := List.filter (fun p => (p =? "")%string) parts in
  let groups := List.filter (fun p => negb (p =? "")%string) parts in
  forallb is_group groups
  && match length gaps with
     | 0%nat => (length groups =? 8)%nat
     | 1%nat => contains s "::" && (length groups <=? 7)%nat
     | _ => false
     end.

(** [net.ParseIP(s) != nil]. *)
Definition is_ip (s : string) : bool := is_ipv4 s || is_ipv6 s.

Definition JoinHostPort (host port : string) : string :=
  if contains host ":" then "[" +:+ host +:+ "]:" +:+ port else host +:+ ":" +:+ port.

(** The text before and after the last occurrence of a byte. *)
Fixpoint cut_last (sep : ascii) (s : string) : option (string * string) :=
  match s with
  | "" => None
  | String c s' =>
    match cut_last sep s' with
    | Some (a, b) => Some (String c a, b)
    | None => if Ascii.eqb c sep then Some ("", s') else None
    end
  end.

(** The text before and after the first occurrence of a byte. *)
Fixpoint cut_first (sep : ascii) (s : string) : option (string * string) :=
  match s with
  | "" => None
  | String c s' =>
    if Ascii.eqb c sep then Some ("", s')
    else match cut_first sep s' with
         | Some (a, b) => Some (String c a, b)
         | None => None
         end
  end.

(** [net.SplitHostPort]. *)
Definition SplitHostPort (s : string) : option (string * string) :=
  match cut_last ":" s with
  | None => None
  | Some (h, p) =>
    if has_prefix s "[" then
      match cut_first "]" (drop_string 1 s) with
      | Some (h6, r) =>
        if (r =? ":" +:+ p)%string && negb (contains h6 "[") && negb (contains p "]")
           && negb (contains p "[")
        then Some (h6, p) else None
      | None => None
      end
    else if contains h ":" || contains h "[" || contains h "]" || contains p "[" || contains p "]"
    then None else Some (h, p)
  end.

(** ** net/url *)

Record URL := MkURL { url_scheme : string; url_host : string; url_path : string }.

(** The text up to the first of the given bytes, and the rest with that byte. *)
Fixpoint break_at (p : ascii -> bool) (s : string) : string * string :=
  match s with
  | "" => ("", "")
  | String c s' => if p c then ("", s) else let '(a, b) := break_at p s' in (String c a, b)
  end.

Definition scheme_char (c : ascii) : bool :=
  is_lower c || is_upper c || is_digit c || Ascii.eqb c "+" || Ascii.eqb c "-" || Ascii.eqb c ".".
Definition is_scheme (s : string) : bool :=
  match s with
  | String c r => (is_lower c || is_upper c) && all_string scheme_char r
  | "" => false
  end.
Definition control_byte (c : ascii) : bool :=
  (Ascii.nat_of_ascii c <? 32)%nat || (Ascii.nat_of_ascii c =? 127)%nat.
(** The optional port of an authority is made of digits. *)
Definition valid_authority (h : string) : bool :=
  negb (contains h " ") && negb (contains h "<") && negb (contains h ">")
  && match cut_last ":" h with
     | Some (_, p) => has_suffix h "]" || all_digits p
     | None => true
     end.

(** [url.Parse], without query, fragment and percent-decoding. *)
Definition parse_url (s : string) : option URL :=
  if negb (all_string (fun c => negb (control_byte c)) s) then None else
  let '(s, _) := break_at (fun c => Ascii.eqb c "#") s in
  let '(s, _) := break_at (fun c => Ascii.eqb c "?") s in
  let '(scheme, rest) :=
    match cut_first ":" s with
    | Some (a, b) => if is_scheme a then (to_lower a, b) else ("", s)
    | None => ("", s)
    end in
  if has_prefix s ":" then None else
  if has_prefix rest "//" then
    let '(authority, path) := break_at (fun c => Ascii.eqb c "/") (drop_string 2 rest) in
    let host := match cut_last "@" authority with Some (_, h) => h | None => authority end in
    if valid_authority host then Some (MkURL scheme host path) else None
  else Some (MkURL scheme "" rest).

(** Percent-decoding. *)
Fixpoint unescape (s : string) : option string :=
  match s with
  | "" => Some ""
  | String "%" rest =>
    match rest with
    | String a (String b rest) =>
      if is_hex a && is_hex b then
        let digit c := let n := Ascii.nat_of_ascii c in
          (if is_digit c then n - 48 else if is_upper c then n - 55 else n - 87)%nat in
        rest ← unescape rest; Some (String (Ascii.ascii_of_nat (16 * digit a + digit b)) rest)
      else None
    | _ => None
    end
  | String c rest => rest ← unescape rest; Some (String c rest)
  end.

(** [u, err := url.Parse(s)] and [u.Path]. *)
Definition ParsePath (s : string) : option string :=
  let '(s, fragment) := break_at (fun c => Ascii.eqb c "#") s in
  _ ← unescape (drop_string 1 fragment);
  if negb (all_string (fun c => negb (control_byte c)) s) || has_prefix s ":" then None else
  let '(scheme, rest) :=
    match cut_first ":" s with
    | Some (a, b) => if is_scheme a then (a, b) else ("", s)
    | None => ("", s)
    end in
  let '(rest, _) := break_at (fun c => Ascii.eqb c "?") rest in
  let path rest := unescape rest in
  if negb (has_prefix rest "/") then
    if negb (scheme =? "")%string then Some ""
    else let '(segment, _) := break_at (fun c => Ascii.eqb c "/") rest in
         if contains segment ":" then None else path rest
  else if has_prefix rest "//" && negb ((scheme =? "")%string && has_prefix rest "///") then
    let '(authority, rest) := break_at (fun c => Ascii.eqb c "/") (drop_string 2 rest) in
    let host := match cut_last "@" authority with Some (_, h) => h | None => authority end in
    if valid_authority host then path rest else None
  else path rest.

(** ** Lemmas *)

Definition ordinary (c : string) : bool :=
  negb ((c =? "")%string || (c =? ".")%string || (c =? "..")%string).

Lemma push_ordinary stack c :
  forallb ordinary stack = true -> forallb ordinary (push_component true stack c) = true.
Proof.
  intros H. unfold push_component.
  destruct (c =? "")%string eqn:E1; [done|]. destruct (c =? ".")%string eqn:E2; [done|]. simpl.
  destruct (c =? "..")%string eqn:E3.
  - destruct stack as [|d stack]; [done|]. simpl in H. apply andb_prop in H as [Hd H].
    unfold ordinary in Hd. destruct (d =? "..")%string; [by rewrite !orb_true_r in Hd|done].
  - simpl. unfold ordinary at 1. by rewrite E1, E2, E3, H.
Qed.

Lemma forallb_rev {A} (p : A -> bool) xs : forallb p (rev xs) = forallb p xs.
Proof.
  induction xs as [|x xs IH]; [done|]. simpl. rewrite forallb_app, IH. simpl.
  by rewrite andb_true_r, andb_comm.
Qed.

(** A cleaned rooted path has no empty, [.] or [..] component. *)
Lemma clean_rooted p : IsAbs p = true -> forallb ordinary (clean_components p) = true.
Proof.
  intros H. unfold clean_components. rewrite H, forallb_rev.
  generalize (split_on "/" p). intros cs.
  assert (forallb ordinary [] = true) as Hacc by done. revert Hacc.
  generalize (@nil string). induction cs as [|c cs IH]; intros acc Hacc; simpl; [done|].
  apply IH. by apply push_ordinary.
Qed.
