(* ===== verification/Base64.v ===== *)
(** * Base64 and hexadecimal (what MiniDock uses of encoding/base64 and encoding/hex)

    Bit groups are computed on integers; decoding checks lengths, alphabet and padding. *)

From S2P Require Import Prelude GoStrings Json.

Definition alphabet (url : bool) (n : Z) : ascii :=
  if n <? 26 then byte_of (65 + n)
  else if n <? 52 then byte_of (97 + n - 26)
  else if n <? 62 then byte_of (48 + n - 52)
  else if n =? 62 then (if url then "-" else "+")
  else (if url then "_" else "/").

Definition byte_value (c : ascii) : Z := Z.of_N (Ascii.N_of_ascii c).

(** Three bytes give four digits; the last group is padded or cut. *)
Fixpoint encode_groups (url padded : bool) (s : string) : string :=
  let digit n k := alphabet url (Z.land (Z.shiftr n k) 63) in
  match s with
  | "" => ""
  | String a "" =>
    let n := Z.shiftl (byte_value a) 16 in
    String (digit n 18) (String (digit n 12) (if padded then "==" else ""))
  | String a (String b "") =>
    let n := Z.lor (Z.shiftl (byte_value a) 16) (Z.shiftl (byte_value b) 8) in
    String (digit n 18) (String (digit n 12) (String (digit n 6) (if padded then "=" else "")))
  | String a (String b (String c s)) =>
    let n := Z.lor (Z.lor (Z.shiftl (byte_value a) 16) (Z.shiftl (byte_value b) 8)) (byte_value c) in
    String (digit n 18) (String (digit n 12) (String (digit n 6) (String (digit n 0)
      (encode_groups url padded s))))
  end.

(** [base64.StdEncoding.EncodeToString], [base64.RawURLEncoding.EncodeToString]. *)
Definition StdEncoding (s : string) : string := encode_groups false true s.
Definition RawURLEncoding (s : string) : string := encode_groups true false s.

Definition digit_value (url : bool) (c : ascii) : option Z :=
  let n := byte_value c in
  if is_upper c then Some (n - 65)
  else if is_lower c then Some (n - 71)
  else if is_digit c then Some (n + 4)
  else if Ascii.eqb c (if url then "-" else "+") then Some 62
  else if Ascii.eqb c (if url then "_" else "/") then Some 63
  else None.

Fixpoint decode_groups (url padded : bool) (s : string) : option string :=
  let one x y := byte_of (Z.lor (Z.shiftl x 2) (Z.shiftr y 4)) in
  let two y z := byte_of (Z.lor (Z.shiftl (Z.land y 15) 4) (Z.shiftr z 2)) in
  let three z t := byte_of (Z.lor (Z.shiftl (Z.land z 3) 6) t) in
  match s with
  | "" => Some ""
  | String a (String b (String c (String d s))) =>
    x ← digit_value url a; y ← digit_value url b;
    if padded && Ascii.eqb d "=" && (s =? "")%string then
      if Ascii.eqb c "=" then Some (String (one x y) "") else
      z ← digit_value url c; Some (String (one x y) (String (two y z) ""))
    else
    z ← digit_value url c; t ← digit_value url d;
    rest ← decode_groups url padded s;
    Some (String (one x y) (String (two y z) (String (three z t) rest)))
  | String a (String b "") =>
    if padded then None else
    x ← digit_value url a; y ← digit_value url b; Some (String (one x y) "")
  | String a (String b (String c "")) =>
    if padded then None else
    x ← digit_value url a; y ← digit_value url b; z ← digit_value url c;
    Some (String (one x y) (String (two y z) ""))
  | _ => None
  end.
Definition StdDecoding (s : string) : option string := decode_groups false true s.
Definition RawURLDecoding (s : string) : option string := decode_groups true false s.

(** [hex.EncodeToString] and [hex.DecodeString]. *)
Fixpoint hex_encode (s : string) : string :=
  match s with
  | "" => ""
  | String c s =>
    let n := Ascii.nat_of_ascii c in
    String (hex_digit (n / 16)) (String (hex_digit (n mod 16)) (hex_encode s))
  end.
Fixpoint hex_decode (s : string) : option string :=
  match s with
  | "" => Some ""
  | String a (String b s) =>
    x ← hex_value a; y ← hex_value b; rest ← hex_decode s;
    Some (String (byte_of (16 * x + y)) rest)
  | _ => None
  end.
