(* ===== verification/Security.v ===== *)
(** * Keys and authenticated encryption (internal/security/crypto.go)

    AES-GCM, PBKDF2, SHA-256 and HMAC are operations of a class; their laws are what the
    code relies on.  Random bytes are an argument: the reader's answer. *)

From S2P Require Import Prelude GoStrings.

Class Crypto := {
  (** [gcm.Seal(nil, nonce, plaintext, aad)] and [gcm.Open] under an AES key. *)
  gcm_seal : string -> string -> string -> string -> string;
  gcm_open : string -> string -> string -> string -> option string;
  (** [pbkdf2.Key(sha256.New, password, salt, iterations, length)]. *)
  pbkdf2 : string -> string -> Z -> Z -> string;
  sha256 : string -> string;
  hmac_sha256 : string -> string -> string }.

(** A ciphertext opens under the key, nonce and additional data it was sealed with; it is
    the tag longer than its plaintext; the lengths of keys and digests. *)
Class CryptoLaws `{!Crypto} : Prop := {
  gcm_open_seal : forall key nonce plaintext aad,
    gcm_open key nonce (gcm_seal key nonce plaintext aad) aad = Some plaintext;
  gcm_seal_length : forall key nonce plaintext aad,
    String.length (gcm_seal key nonce plaintext aad) = (String.length plaintext + 16)%nat;
  pbkdf2_length : forall password salt n l, 0 <= l -> Z.of_nat (String.length (pbkdf2 password salt n l)) = l;
  sha256_length : forall s, String.length (sha256 s) = 32%nat }.

Definition keyLength : Z := 32.
Definition iterationCount : Z := 600000.
Definition verifier : string := "minidock/master-key/verifier/v1".
Definition nonceSize : nat := 12.
Definition tagSize : nat := 16.

Section security.
Context `{!Crypto}.

(** [io.ReadFull(rand.Reader, ...)] answered with these bytes, or failed. *)
Definition NewSalt (random : result string) : result string := random.

Definition DeriveKey (password salt : string) : result string :=
  if (String.length salt <? 16)%nat then Err (ErrMsg "salt is too short")
  else Ok (pbkdf2 password salt iterationCount keyLength).

(** [aes.NewCipher]. *)
Definition NewCipher (key : string) : result unit :=
  if bool_decide (String.length key ∈ [16; 24; 32]%nat) then Ok tt
  else Err (ErrMsg ("crypto/aes: invalid key size " +:+ itoa (Z.of_nat (String.length key)))).

Definition EncryptWithAAD (random : result string) (key plaintext additionalData : string)
    : result (string * string) :=
  match NewCipher key with
  | Err err => Err (ErrWrap "create cipher" err)
  | Ok _ =>
    nonce ← random;
    Ok (nonce, gcm_seal key nonce plaintext additionalData)
  end.

Definition Encrypt (random : result string) (key plaintext : string) : result (string * string) :=
  EncryptWithAAD random key plaintext "".

(** [gcm.Open] panics on a nonce of another length. *)
Definition DecryptWithAAD (key nonce ciphertext additionalData : string) : result string :=
  NewCipher key ≫= fun _ =>
  if negb (String.length nonce =? nonceSize)%nat
  then Err (ErrPanic "crypto/cipher: incorrect nonce length given to GCM") else
  match gcm_open key nonce ciphertext additionalData with
  | Some plaintext => Ok plaintext
  | None => Err (ErrMsg "cipher: message authentication failed")
  end.

Definition Decrypt (key nonce ciphertext : string) : result string :=
  DecryptWithAAD key nonce ciphertext "".

Definition NewVerifier (random : result string) (key : string) : result (string * string) :=
  Encrypt random key verifier.

Definition ValidateKey (key nonce ciphertext : string) : result unit :=
  plaintext ← Decrypt key nonce ciphertext;
  if negb (plaintext =? verifier)%string then Err (ErrMsg "invalid master password") else Ok tt.

Definition GCMParameters (key : string) : result (nat * nat) :=
  match NewCipher key with
  | Err err => Err (ErrWrap "create cipher" err)
  | Ok _ => Ok (nonceSize, tagSize)
  end.

Section laws.
Context `{!CryptoLaws}.

Lemma decrypt_encrypt random key plaintext aad nonce ciphertext :
  (forall r, random = Ok r -> String.length r = nonceSize) ->
  EncryptWithAAD random key plaintext aad = Ok (nonce, ciphertext) ->
  DecryptWithAAD key nonce ciphertext aad = Ok plaintext.
Proof.
  intros Hr. unfold EncryptWithAAD, DecryptWithAAD. destruct (NewCipher key); [|done].
  destruct random as [r|]; [|done]. intros [= <- <-]. simpl. rewrite (Hr r) by done. simpl.
  by rewrite gcm_open_seal.
Qed.

Lemma derived_key_size password salt key :
  DeriveKey password salt = Ok key -> NewCipher key = Ok tt.
Proof.
  unfold DeriveKey. destruct (_ <? 16)%nat; [done|]. intros [= <-]. unfold NewCipher.
  pose proof (pbkdf2_length password salt iterationCount keyLength) as Hl.
  rewrite bool_decide_eq_true_2; [done|]. unfold keyLength in Hl.
  replace (String.length _) with 32%nat by (unfold keyLength; lia). set_solver.
Qed.
End laws.
End security.

(** A toy cipher that satisfies the laws, for the examples: the additional data is not
    authenticated and the tag is blank. *)
Definition blank_tag : string := "................".
Definition zero_key : string := blank_tag +:+ blank_tag.
Definition untag (s : string) : string := take_string (String.length s - 16) s.
#[export] Instance toy_crypto : Crypto := {
  gcm_seal _ _ p _ := p +:+ blank_tag;
  gcm_open _ _ c _ := Some (untag c);
  pbkdf2 p s n l := take_string (Z.to_nat l) (p +:+ String.concat "" (repeat blank_tag (Z.to_nat l)));
  sha256 _ := zero_key;
  hmac_sha256 k d := take_string 32 (k +:+ d +:+ zero_key) }.

Lemma take_append_length a b : take_string (String.length a) (a +:+ b) = a.
Proof. induction a as [|c a IH]; simpl; [by destruct b|]. by rewrite IH. Qed.

Lemma length_take n s : (n <= String.length s)%nat -> String.length (take_string n s) = n.
Proof. revert s. induction n as [|n IH]; intros [|c s]; simpl; try done; [lia|]. intros H. rewrite IH; lia. Qed.

#[export] Instance toy_laws : CryptoLaws.
Proof.
  split; simpl.
  - intros _ _ p _. unfold untag. rewrite length_append.
    replace (_ + _ - 16)%nat with (String.length p) by (simpl; lia). by rewrite take_append_length.
  - intros _ _ p _. by rewrite length_append.
  - intros p s _ l Hl. rewrite length_take; [lia|]. rewrite length_append.
    assert (forall n, (n <= String.length (String.concat "" (repeat blank_tag n)))%nat) as Hc.
    { induction n as [|[|n] IH]; [simpl; lia|simpl; lia|].
      change (String.concat "" (repeat blank_tag (S (S n))))
        with (blank_tag +:+ "" +:+ String.concat "" (repeat blank_tag (S n))).
      rewrite !length_append. change (String.length blank_tag) with 16%nat. lia. }
    specialize (Hc (Z.to_nat l)). lia.
  - done.
Qed.
