(* ===== verification/BackupFormat.v ===== *)
(** * The backup format (internal/backup)

    A backup file is a header of 14 bytes (magic, version, nonce length, ciphertext length),
    the nonce and the ciphertext of the database; the header is the additional data. *)

From S2P Require Import Prelude GoStrings Base64 Security.

Definition magic : string := "MDBK".
Definition Version : ascii := "001".
Definition headerSize : nat := 14.

Definition byte (n : Z) : ascii := Ascii.ascii_of_N (Z.to_N (n mod 256)).

(** [binary.BigEndian.PutUint64] and [Uint64], for any width. *)
Fixpoint put_uint (width : nat) (n : Z) : string :=
  match width with
  | O => ""
  | S width => String (byte (n / 256 ^ Z.of_nat width)) (put_uint width n)
  end.
Fixpoint uint (acc : Z) (s : string) : Z :=
  match s with
  | "" => acc
  | String c s => uint (acc * 256 + byte_value c) s
  end.

(** [s[i:j]]. *)
Definition slice (i j : nat) (s : string) : string := take_string (j - i) (drop_string i s).

Section format.
Context `{!Crypto}.

Definition backup_header (nonceSize overhead : nat) (database : string) : string :=
  magic +:+ String Version (String (byte (Z.of_nat nonceSize))
    (put_uint 8 (Z.of_nat (String.length database + overhead)))).

Definition Seal (random : result string) (key database : string) : result string :=
  if (database =? "")%string then Err (ErrMsg "empty database backup") else
  '(nonceSize, overhead) ← GCMParameters key;
  if (255 <? nonceSize)%nat then Err (ErrMsg "backup nonce too long") else
  let header := backup_header nonceSize overhead database in
  '(nonce, ciphertext) ← EncryptWithAAD random key database header;
  Ok (header +:+ nonce +:+ ciphertext).

Definition Open (key encoded : string) : result string :=
  if (String.length encoded <? headerSize)%nat || negb (slice 0 4 encoded =? magic)%string
  then Err (ErrMsg "invalid MiniDock backup magic")
  else if negb (slice 4 5 encoded =? String Version "")%string
  then Err (ErrMsg ("unsupported MiniDock backup format version " +:+ itoa (uint 0 (slice 4 5 encoded))))
  else
  let nonceLen := Z.to_nat (uint 0 (slice 5 6 encoded)) in
  let ciphertextLen := uint 0 (slice 6 14 encoded) in
  let size := Z.of_nat (String.length encoded) in
  let prefixLen := (headerSize + nonceLen)%nat in
  if (nonceLen =? 0)%nat || (ciphertextLen =? 0) || (size <? ciphertextLen)
     || negb ((Z.of_nat prefixLen + ciphertextLen) mod 2 ^ 64 =? size)
  then Err (ErrMsg "invalid MiniDock backup lengths")
  else
  let nonce := slice headerSize prefixLen encoded in
  let ciphertext := drop_string prefixLen encoded in
  DecryptWithAAD key nonce ciphertext (slice 0 headerSize encoded).
End format.

(** ** Object storage

    The client of the AWS SDK is a parameter of the code that uploads. *)
Record S3Config := MkS3Config {
  s3_Endpoint : string; s3_Region : string; s3_Bucket : string; s3_Prefix : string;
  s3_AccessKey : string; s3_SecretKey : string }.

Definition Validate (c : S3Config) : result unit :=
  if (trim_space (s3_Bucket c) =? "")%string then Err (ErrMsg "backup S3 bucket is required")
  else if (trim_space (s3_AccessKey c) =? "")%string || (trim_space (s3_SecretKey c) =? "")%string
  then Err (ErrMsg "backup S3 credentials are required")
  else Ok tt.

(** What is put: region, endpoint, path style, bucket, key and contents. *)
Record s3_put := S3Put {
  put_region : string; put_endpoint : string; put_path_style : bool; put_bucket : string;
  put_key : string; put_body : string }.

Definition UploadS3 {E} (put : S3Config -> s3_put -> E -> result unit * E) (cfg : S3Config)
    (key body : string) (s : E) : result unit * E :=
  match Validate cfg with
  | Err err => (Err err, s)
  | Ok _ =>
    let region := if (s3_Region cfg =? "")%string then "us-east-1" else s3_Region cfg in
    let object := S3Put region (s3_Endpoint cfg) (negb (s3_Endpoint cfg =? "")%string) (s3_Bucket cfg)
                    (trim_prefix (trim_suffix (s3_Prefix cfg) "/" +:+ "/" +:+ key) "/") body in
    match put cfg object s with
    | (Err err, s) => (Err (ErrWrap "upload backup to S3" err), s)
    | r => r
    end
  end.

(** ** Facts *)

Lemma byte_value_byte n : byte_value (byte n) = n mod 256.
Proof.
  unfold byte_value, byte. pose proof (Z.mod_pos_bound n 256 ltac:(lia)).
  rewrite Ascii.N_ascii_embedding; [by rewrite Z2N.id by lia|].
  assert (Z.of_N (Z.to_N (n mod 256)) < 256) by (rewrite Z2N.id; lia). lia.
Qed.

Lemma length_put_uint w n : String.length (put_uint w n) = w.
Proof. induction w; simpl; congruence. Qed.

Lemma uint_put w acc n : uint acc (put_uint w n) = acc * 256 ^ Z.of_nat w + n mod 256 ^ Z.of_nat w.
Proof.
  revert acc. induction w as [|w IH]; intros acc.
  { simpl. rewrite Z.mod_1_r. lia. }
  cbn [put_uint uint]. rewrite IH, byte_value_byte.
  rewrite Nat2Z.inj_succ, Z.pow_succ_r by lia.
  assert (0 < 256 ^ Z.of_nat w) as Hp by (apply Z.pow_pos_nonneg; lia).
  set (p := 256 ^ Z.of_nat w) in *. rewrite (Z.mul_comm 256 p).
  rewrite Z.rem_mul_r by lia. lia.
Qed.

Lemma slice_at a b c i j :
  i = String.length a -> j = (i + String.length b)%nat -> slice i j (a +:+ b +:+ c) = b.
Proof.
  intros -> ->. unfold slice. rewrite drop_append.
  replace (_ + _ - _)%nat with (String.length b) by lia. apply take_append_length.
Qed.

(** The fields of a header are read back. *)
Lemma header_fields k o db rest (encoded := backup_header k o db +:+ rest)
    (n := Z.of_nat (String.length db + o)) :
  String.length (backup_header k o db) = 14%nat
  /\ slice 0 4 encoded = magic /\ slice 4 5 encoded = String Version ""
  /\ uint 0 (slice 5 6 encoded) = Z.of_nat k mod 256
  /\ uint 0 (slice 6 14 encoded) = n mod 2 ^ 64
  /\ slice 0 14 encoded = backup_header k o db.
Proof.
  assert (String.length (backup_header k o db) = 14%nat) as Hl.
  { unfold backup_header. rewrite length_append. cbn [String.length]. by rewrite length_put_uint. }
  set (v := String Version ""). set (l := String (byte (Z.of_nat k)) ""). set (c := put_uint 8 n).
  assert (encoded = magic +:+ v +:+ l +:+ c +:+ rest) as ->
    by (unfold encoded, backup_header; by rewrite <- !append_assoc).
  split; [done|]. split; [by apply (slice_at "")|]. split; [by apply (slice_at magic)|].
  split; [|split].
  - rewrite (append_assoc magic), (slice_at (magic +:+ v) l) by done. cbn [uint l].
    rewrite byte_value_byte. lia.
  - rewrite (append_assoc magic), (append_assoc (magic +:+ v)), (slice_at ((magic +:+ v) +:+ l) c)
      by (unfold c; rewrite ?length_put_uint; done).
    unfold c. rewrite uint_put. done.
  - replace (magic +:+ v +:+ l +:+ c +:+ rest) with ("" +:+ backup_header k o db +:+ rest)
      by (unfold backup_header; by rewrite <- !append_assoc).
    apply slice_at; [done|]. by rewrite Hl.
Qed.

Section roundtrip.
Context `{!Crypto, !CryptoLaws}.

Lemma sealed_lengths random key database header nonce ciphertext :
  (forall r, random = Ok r -> String.length r = nonceSize) ->
  EncryptWithAAD random key database header = Ok (nonce, ciphertext) ->
  String.length nonce = 12%nat /\ String.length ciphertext = (String.length database + 16)%nat.
Proof.
  intros Hr. unfold EncryptWithAAD. destruct (NewCipher key); [|done].
  destruct random as [r|]; [|done]. intros E%Ok_inj. injection E as <- <-.
  split; [by apply Hr|apply gcm_seal_length].
Qed.

(** C19: a backup opens, under the key it was sealed with, to exactly the database that was
    sealed: the header written is the header read, and no length check refuses it. *)
Theorem open_seal random key database encoded :
  (forall r, random = Ok r -> String.length r = nonceSize) ->
  Z.of_nat (String.length database) < 2 ^ 62 ->
  Seal random key database = Ok encoded -> Open key encoded = Ok database.
Proof.
  intros Hr Hsize. unfold Seal, GCMParameters. destruct (database =? "")%string; [done|].
  destruct (NewCipher key) as [[]|]; [|done]. cbn [mbind result_bind].
  change (255 <? nonceSize)%nat with false. cbv iota.
  set (header := backup_header nonceSize tagSize database).
  destruct (EncryptWithAAD random key database header) as [[nonce ciphertext]|] eqn:E; [|done].
  intros Henc%Ok_inj. subst encoded.
  pose proof (decrypt_encrypt _ _ _ _ _ _ Hr E) as Hd.
  destruct (sealed_lengths _ _ _ _ _ _ Hr E) as [Hn Hc].
  destruct (header_fields nonceSize tagSize database (nonce +:+ ciphertext))
    as (Hl & Em & Ev & Ek & Es & Eh). fold header in Hl, Em, Ev, Ek, Es, Eh.
  unfold Open, headerSize. rewrite Em, Ev, Ek, Es, Eh.
  change (Z.to_nat (Z.of_nat nonceSize mod 256)) with 12%nat.
  rewrite !String.eqb_refl. cbn [negb orb]. rewrite !length_append, Hl, Hn, Hc.
  rewrite (Z.mod_small (Z.of_nat _)) by (unfold tagSize; lia).
  rewrite (Z.mod_small (_ + _)) by (unfold tagSize; lia).
  rewrite (proj2 (Nat.ltb_ge _ _)) by lia. rewrite (proj2 (Z.eqb_neq _ _)) by (unfold tagSize; lia).
  rewrite (proj2 (Z.ltb_ge _ _)) by (unfold tagSize; lia).
  rewrite (proj2 (Z.eqb_eq _ _)) by (unfold tagSize; lia). cbn [orb negb Nat.add Nat.eqb].
  rewrite (slice_at header nonce ciphertext) by lia.
  replace (drop_string 26 (header +:+ nonce +:+ ciphertext)) with ciphertext; [done|].
  rewrite append_assoc. rewrite <- (drop_append (header +:+ nonce) ciphertext) at 1.
  f_equal. rewrite length_append. lia.
Qed.
End roundtrip.

(** A nonce length other than that of GCM, in a file that has the lengths it declares, is
    not refused: the cipher panics. *)
Example open_panics : exists encoded e,
  Open zero_key encoded = Err (ErrPanic e).
Proof.
  exists (magic +:+ String Version (String (byte 13) (put_uint 8 16)) +:+ "0123456789abc0123456789abcdef").
  eexists. vm_compute. reflexivity.
Qed.

Lemma open_seal_witness :
  exists encoded, Seal (Ok "0123456789ab") zero_key "SQLite format 3" = Ok encoded
    /\ Open zero_key encoded = Ok "SQLite format 3".
Proof.
  eexists. split; [vm_compute; reflexivity|].
  apply (open_seal (Ok "0123456789ab") zero_key "SQLite format 3"); [by intros r [= <-]|done|].
  vm_compute. reflexivity.
Defined.
