(* ===== verification/Config.v ===== *)
(** * Configuration (internal/app/config.go)

    [LoadConfig] as a function of the process environment, with [time.ParseDuration] and
    the fallbacks of malformed, zero and negative settings. *)

From S2P Require Import Prelude GoStrings Json.

(** ** [time.ParseDuration] *)

Definition Microsecond : Z := 1000.

Definition unit_value (u : string) : option Z :=
  if (u =? "ns")%string then Some 1
  else if (u =? "us")%string || (u =? "µs")%string || (u =? "μs")%string then Some Microsecond
  else if (u =? "ms")%string then Some Millisecond
  else if (u =? "s")%string then Some Second
  else if (u =? "m")%string then Some Minute
  else if (u =? "h")%string then Some Hour
  else None.

Definition digit (c : ascii) : Z := Z.of_nat (Ascii.nat_of_ascii c) - 48.

(** [leadingInt]: an integer above 2^63 is an error. *)
Fixpoint leading_int (x : Z) (s : string) : option (Z * string) :=
  match s with
  | String c s' =>
    if is_digit c then
      let y := x * 10 + digit c in
      if (2 ^ 63 / 10 <? x) || (2 ^ 63 <? y) then None else leading_int y s'
    else Some (x, s)
  | "" => Some (x, "")
  end.

(** [leadingFraction]: digits beyond the range are skipped. *)
Fixpoint leading_fraction (overflow : bool) (x scale : Z) (s : string) : Z * Z * string :=
  match s with
  | String c s' =>
    if is_digit c then
      let y := x * 10 + digit c in
      if overflow || (max_int64 / 10 <? x) || (2 ^ 63 <? y) then leading_fraction true x scale s'
      else leading_fraction false y (scale * 10) s'
    else (x, scale, s)
  | "" => (x, scale, "")
  end.

Definition unit_char (c : ascii) : bool := negb (Ascii.eqb c "." || is_digit c).

(** The loop over [number unit] pairs; [d] is the sum so far.  Each turn consumes its
    unit, so the length of the text is enough fuel.  The fraction is exact where Go
    multiplies floats. *)
Fixpoint duration_loop (fuel : nat) (d : Z) (s : string) : option Z :=
  match fuel with
  | O => None
  | S fuel =>
    match s with
    | "" => Some d
    | String c _ =>
      if negb (Ascii.eqb c "." || is_digit c) then None else
      '(v, s1) ← leading_int 0 s;
      let pre := negb (String.length s1 =? String.length s)%nat in
      let '(f, scale, s2, post) :=
        match s1 with
        | String "." r =>
          let '(f, scale, r') := leading_fraction false 0 1 r in
          (f, scale, r', negb (String.length r' =? String.length r)%nat)
        | _ => (0, 1, s1, false)
        end in
      if negb pre && negb post then None else
      let '(u, s3) := span unit_char s2 in
      unit ← unit_value u;
      if 2 ^ 63 / unit <? v then None else
      let v := v * unit + f * unit / scale in
      if 2 ^ 63 <? v then None else
      let d := d + v in
      if 2 ^ 63 <? d then None else duration_loop fuel d s3
    end
  end.

Definition ParseDuration (s : string) : option Duration :=
  let '(neg, s) := match s with
                   | String "-" r => (true, r)
                   | String "+" r => (false, r)
                   | _ => (false, s)
                   end in
  if (s =? "0")%string then Some 0
  else if (s =? "")%string then None
  else d ← duration_loop (S (String.length s)) 0 s;
       if (neg : bool) then Some (- d) else if max_int64 <? d then None else Some d.

Example parse_90s : ParseDuration "1m30s" = Some (90 * Second). Proof. reflexivity. Qed.
Example parse_half_hour : ParseDuration "0.5h" = Some (30 * Minute). Proof. reflexivity. Qed.
Example parse_unitless : ParseDuration "90" = None. Proof. reflexivity. Qed.

(** ** The settings *)

Definition Version : string := "1.0.0".

Record Config := MkConfig {
  Address : string; DatabasePath : string; Environment : string; WorkspacePath : string;
  LogPath : string; DockerNetwork : string; DockerNetworkSubnet : string; Runtime : string;
  WebhookSecret : string; WebhookRateLimit : Z; WebhookRateWindow : Duration;
  NotificationWebhook : string; DiskAlertPercent : Z; CertificateAlertDays : Z;
  RetentionDays : Z; RetainedImages : Z; LocalRepositoriesPath : string;
  GitHubAppID : string; GitHubAppPrivateKeyPath : string; GitHubAPIURL : string;
  SourceTimeout : Duration; BuildTimeout : Duration; StartTimeout : Duration;
  HealthTimeout : Duration; WorkspaceMaxBytes : Z; LogMaxBytes : Z;
  MaxConcurrentDeployments : Z; AdminDomain : string; ProxyURL : string;
  CaddyAdminURL : string; ProxyExpectedStatus : Z; ProxyExpectedContent : string;
  SLOProbeWindow : Duration; BackupPath : string; BackupInterval : Duration;
  BackupRetention : Z; BackupProvider : string; BackupS3Endpoint : string;
  BackupS3Region : string; BackupS3Bucket : string; BackupS3Prefix : string;
  BackupS3AccessKey : string; BackupS3SecretKey : string; SLOBuildDurationMinutes : Z;
  AgentAddress : string; AgentTLSCertificatePath : string; AgentTLSPrivateKeyPath : string;
  AgentTLSClientCAPath : string; CloudflaredImage : string; CloudflaredNetwork : string }.

#[export] Instance Config_eta : Eta Config := fun c =>
  MkConfig (Address c) (DatabasePath c) (Environment c) (WorkspacePath c) (LogPath c)
    (DockerNetwork c) (DockerNetworkSubnet c) (Runtime c) (WebhookSecret c)
    (WebhookRateLimit c) (WebhookRateWindow c) (NotificationWebhook c) (DiskAlertPercent c)
    (CertificateAlertDays c) (RetentionDays c) (RetainedImages c) (LocalRepositoriesPath c)
    (GitHubAppID c) (GitHubAppPrivateKeyPath c) (GitHubAPIURL c) (SourceTimeout c)
    (BuildTimeout c) (StartTimeout c) (HealthTimeout c) (WorkspaceMaxBytes c) (LogMaxBytes c)
    (MaxConcurrentDeployments c) (AdminDomain c) (ProxyURL c) (CaddyAdminURL c)
    (ProxyExpectedStatus c) (ProxyExpectedContent c) (SLOProbeWindow c) (BackupPath c)
    (BackupInterval c) (BackupRetention c) (BackupProvider c) (BackupS3Endpoint c)
    (BackupS3Region c) (BackupS3Bucket c) (BackupS3Prefix c) (BackupS3AccessKey c)
    (BackupS3SecretKey c) (SLOBuildDurationMinutes c) (AgentAddress c)
    (AgentTLSCertificatePath c) (AgentTLSPrivateKeyPath c) (AgentTLSClientCAPath c)
    (CloudflaredImage c) (CloudflaredNetwork c).

Section load.
(** [os.Getenv]: the empty string when the variable is not set. *)
Context (Getenv : string -> string).

Definition environment (key fallback : string) : string :=
  let value := Getenv key in if negb (value =? "")%string then value else fallback.

Definition environmentInt (key : string) (fallback : Z) : Z :=
  match parse_int (Getenv key) with
  | Some value => if value <? 1 then fallback else value
  | None => fallback
  end.
(** [int] is 64 bits wide. *)
Definition environmentInt64 : string -> Z -> Z := environmentInt.

Definition environmentDuration (key : string) (fallback : Duration) : Duration :=
  match ParseDuration (Getenv key) with
  | Some value => if value <=? 0 then fallback else value
  | None => fallback
  end.

(** [os.UserHomeDir] reads [HOME]. *)
Definition userRepositoriesPath : string :=
  let home := Getenv "HOME" in if (home =? "")%string then "./repositories" else home.

Definition LoadConfig : Config := {|
  Address := environment "MINIDOCK_ADDRESS" "127.0.0.1:8080";
  DatabasePath := environment "MINIDOCK_DATABASE_PATH" "./data/minidock.db";
  Environment := environment "MINIDOCK_ENVIRONMENT" "development";
  WorkspacePath := environment "MINIDOCK_WORKSPACE_PATH" "./data/apps";
  LogPath := environment "MINIDOCK_LOG_PATH" "./data/logs";
  DockerNetwork := environment "MINIDOCK_DOCKER_NETWORK" "minidock";
  DockerNetworkSubnet := environment "MINIDOCK_DOCKER_NETWORK_SUBNET" "172.31.251.0/24";
  Runtime := environment "MINIDOCK_RUNTIME" "auto";
  WebhookSecret := environment "MINIDOCK_GITHUB_WEBHOOK_SECRET" "";
  WebhookRateLimit := environmentInt "MINIDOCK_GITHUB_WEBHOOK_RATE_LIMIT" 30;
  WebhookRateWindow := environmentDuration "MINIDOCK_GITHUB_WEBHOOK_RATE_WINDOW" Minute;
  NotificationWebhook := environment "MINIDOCK_NOTIFICATION_WEBHOOK" "";
  DiskAlertPercent := environmentInt "MINIDOCK_DISK_ALERT_PERCENT" 85;
  CertificateAlertDays := environmentInt "MINIDOCK_CERTIFICATE_ALERT_DAYS" 21;
  RetentionDays := environmentInt "MINIDOCK_RETENTION_DAYS" 30;
  RetainedImages := environmentInt "MINIDOCK_RETAINED_IMAGES" 3;
  LocalRepositoriesPath := environment "MINIDOCK_LOCAL_REPOSITORIES_PATH" userRepositoriesPath;
  GitHubAppID := environment "MINIDOCK_GITHUB_APP_ID" "";
  GitHubAppPrivateKeyPath := environment "MINIDOCK_GITHUB_APP_PRIVATE_KEY_PATH" "";
  GitHubAPIURL := environment "MINIDOCK_GITHUB_API_URL" "https://api.github.com";
  SourceTimeout := environmentDuration "MINIDOCK_SOURCE_TIMEOUT" (5 * Minute);
  BuildTimeout := environmentDuration "MINIDOCK_BUILD_TIMEOUT" (20 * Minute);
  StartTimeout := environmentDuration "MINIDOCK_START_TIMEOUT" (2 * Minute);
  HealthTimeout := environmentDuration "MINIDOCK_HEALTH_TIMEOUT" (30 * Second);
  WorkspaceMaxBytes := environmentInt64 "MINIDOCK_WORKSPACE_MAX_BYTES" (Z.shiftl 2 30);
  LogMaxBytes := environmentInt64 "MINIDOCK_LOG_MAX_BYTES" (Z.shiftl 20 20);
  MaxConcurrentDeployments := environmentInt "MINIDOCK_MAX_CONCURRENT_DEPLOYMENTS" 1;
  AdminDomain := environment "MINIDOCK_ADMIN_DOMAIN" (environment "MINIDOCK_DOMAIN" "localhost");
  ProxyURL := environment "MINIDOCK_PROXY_URL" "http://localhost";
  CaddyAdminURL := environment "MINIDOCK_CADDY_ADMIN_URL" "http://127.0.0.1:2019";
  ProxyExpectedStatus := environmentInt "MINIDOCK_PROXY_EXPECTED_STATUS" 200;
  ProxyExpectedContent := environment "MINIDOCK_PROXY_EXPECTED_CONTENT" "";
  SLOProbeWindow := environmentDuration "MINIDOCK_SLO_PROBE_WINDOW" (24 * Hour);
  BackupPath := environment "MINIDOCK_BACKUP_PATH" "./data/backups";
  BackupInterval := environmentDuration "MINIDOCK_BACKUP_INTERVAL" (24 * Hour);
  BackupRetention := environmentInt "MINIDOCK_BACKUP_RETENTION" 7;
  BackupProvider := environment "MINIDOCK_BACKUP_PROVIDER" "local";
  BackupS3Endpoint := environment "MINIDOCK_BACKUP_S3_ENDPOINT" "";
  BackupS3Region := environment "MINIDOCK_BACKUP_S3_REGION" "us-east-1";
  BackupS3Bucket := environment "MINIDOCK_BACKUP_S3_BUCKET" "";
  BackupS3Prefix := environment "MINIDOCK_BACKUP_S3_PREFIX" "minidock";
  BackupS3AccessKey := environment "MINIDOCK_BACKUP_S3_ACCESS_KEY" "";
  BackupS3SecretKey := environment "MINIDOCK_BACKUP_S3_SECRET_KEY" "";
  SLOBuildDurationMinutes := environmentInt "MINIDOCK_SLO_BUILD_DURATION_MINUTES" 10;
  AgentAddress := environment "MINIDOCK_AGENT_ADDRESS" "";
  AgentTLSCertificatePath := environment "MINIDOCK_AGENT_TLS_CERTIFICATE_PATH" "";
  AgentTLSPrivateKeyPath := environment "MINIDOCK_AGENT_TLS_PRIVATE_KEY_PATH" "";
  AgentTLSClientCAPath := environment "MINIDOCK_AGENT_TLS_CLIENT_CA_PATH" "";
  CloudflaredImage := environment "MINIDOCK_CLOUDFLARED_IMAGE" "cloudflare/cloudflared:2026.7.2";
  CloudflaredNetwork := environment "MINIDOCK_CLOUDFLARED_NETWORK" "minidock-edge" |}.
End load.

(** ** Bounds *)

(** Every number the program compares, sleeps on or divides by. *)
Definition config_numbers (c : Config) : list Z :=
  [WebhookRateLimit c; WebhookRateWindow c; DiskAlertPercent c; CertificateAlertDays c;
   RetentionDays c; RetainedImages c; SourceTimeout c; BuildTimeout c; StartTimeout c;
   HealthTimeout c; WorkspaceMaxBytes c; LogMaxBytes c; MaxConcurrentDeployments c;
   ProxyExpectedStatus c; SLOProbeWindow c; BackupInterval c; BackupRetention c;
   SLOBuildDurationMinutes c].

Lemma parse_int_range s n : parse_int s = Some n -> min_int64 <= n <= max_int64.
Proof.
  unfold parse_int. destruct (match s with "" => _ | _ => _ end) as [sign [|c d]]; [done|].
  destruct (digits_value 0 _) as [v|]; [|done]. simpl. case_match; [|done].
  intros [= <-]. bools. lia.
Qed.

Lemma environment_int_range Getenv key fallback :
  1 <= fallback <= max_int64 -> 1 <= environmentInt Getenv key fallback <= max_int64.
Proof.
  intros Hf. unfold environmentInt. destruct (parse_int (Getenv key)) as [n|] eqn:E; [|done].
  apply parse_int_range in E. destruct (Z.ltb_spec n 1); lia.
Qed.

Lemma digit_nonneg c : is_digit c = true -> 0 <= digit c.
Proof. unfold is_digit, ascii_in, digit. intros [H _]%andb_prop. apply Nat.leb_le in H. change (Ascii.nat_of_ascii "0") with 48%nat in H. lia. Qed.

Lemma leading_int_nonneg x s v r : 0 <= x -> leading_int x s = Some (v, r) -> 0 <= v.
Proof.
  revert x. induction s as [|c s IH]; intros x Hx; simpl; [by intros [= <- _]|].
  destruct (is_digit c) eqn:Hd; [|by intros [= <- _]]. case_match; [done|].
  apply IH. apply digit_nonneg in Hd. lia.
Qed.

Lemma leading_fraction_nonneg b x scale s f scale' r : 0 <= x -> 0 < scale ->
  leading_fraction b x scale s = (f, scale', r) -> 0 <= f /\ 0 < scale'.
Proof.
  revert b x scale. induction s as [|c s IH]; intros b x scale Hx Hs; simpl; [by intros [= <- <- _]|].
  destruct (is_digit c) eqn:Hd; [|by intros [= <- <- _]].
  apply digit_nonneg in Hd. case_match; apply IH; lia.
Qed.

Lemma unit_value_pos u n : unit_value u = Some n -> 0 < n.
Proof. unfold unit_value. repeat case_match; intros; simplify_eq; done. Qed.

Lemma duration_loop_nonneg fuel d s v : 0 <= d -> duration_loop fuel d s = Some v -> 0 <= v.
Proof.
  revert d s. induction fuel as [|fuel IH]; intros d s Hd; [done|].
  destruct s as [|c s]; cbn [duration_loop]; [by intros [= <-]|].
  case_match; [done|]. destruct (leading_int 0 (String c s)) as [[n s1]|] eqn:En; [|done]. simpl.
  apply leading_int_nonneg in En; [|lia].
  destruct (match s1 with "" => _ | _ => _ end) as [[[f scale] s2] post] eqn:Ef.
  assert (0 <= f /\ 0 < scale) as [Hf Hs].
  { destruct s1 as [|[[] [] [] [] [] [] [] []] r]; simplify_eq; try lia.
    destruct (leading_fraction false 0 1 r) as [[f' scale'] r'] eqn:E. simplify_eq.
    by eapply leading_fraction_nonneg in E; [|lia|lia]. }
  destruct (_ && _); [done|]. destruct (span unit_char s2) as [u s3].
  destruct (unit_value u) as [unit|] eqn:Eu; [|done]. simpl. apply unit_value_pos in Eu.
  assert (0 <= n * unit + f * unit / scale) as Hv
    by (pose proof (Z.div_pos (f * unit) scale); nia).
  cbv zeta. set (v1 := n * unit + _) in *. do 3 (destruct (_ <? _); [done|]). apply IH. lia.
Qed.

Lemma parse_duration_range s d : ParseDuration s = Some d -> d <= max_int64.
Proof.
  unfold ParseDuration. destruct (match s with "" => _ | _ => _ end) as [neg r].
  destruct (r =? "0")%string; [by intros [= <-]|]. destruct (r =? "")%string; [done|].
  destruct (duration_loop _ 0 r) as [v|] eqn:E; [|done]. simpl.
  apply duration_loop_nonneg in E; [|lia].
  destruct neg; [intros [= <-]; unfold max_int64; lia|]. case_match; [done|]. intros [= <-]. bools. lia.
Qed.

Lemma environment_duration_range Getenv key fallback :
  1 <= fallback <= max_int64 -> 1 <= environmentDuration Getenv key fallback <= max_int64.
Proof.
  intros Hf. unfold environmentDuration. destruct (ParseDuration _) as [d|] eqn:E; [|done].
  apply parse_duration_range in E. destruct (Z.leb_spec d 0); lia.
Qed.

(** Whatever the environment holds, malformed, negative, zero or out of range, every
    number of the loaded configuration is positive and fits its machine integer: limits,
    retention counts, timeouts and intervals are never zero, negative or wrapped. *)
Theorem load_config_bounds (Getenv : string -> string) :
  Forall (fun n => 1 <= n <= max_int64) (config_numbers (LoadConfig Getenv)).
Proof.
  assert (forall n, 1 <= n <= 86400000000000 -> 1 <= n <= max_int64) as Hn
    by (intros n ?; unfold max_int64; lia).
  unfold config_numbers. repeat constructor; simpl;
    first [apply environment_int_range|apply environment_duration_range]; apply Hn; vm_compute;
    split; discriminate.
Qed.
