(* ===== verification/Host.v ===== *)
(** * The machine MiniDock runs on

    Commands ([os/exec]), HTTP requests ([net/http]) and files ([os]) as an interface:
    the class [Host] gives one operation for each, on an abstract state of the machine.
    What the Docker engine, Git, Caddy or the file system do is not defined here; the
    theorems that depend on it take laws about an instance.  The executor's own state
    is the machine plus the release log and the events its tracker reported. *)

From S2P Require Import Prelude GoStrings Json Net.

Record command := Command {
  cmd_name : string; cmd_env : list (string * string); cmd_args : list string }.

(** What a finished command leaves: its output, and its error if it failed. *)
Record finished := Finished { fin_output : string; fin_error : option string }.

Record request := Request {
  rq_method : string; rq_url : string; rq_host : string; rq_header : list (string * string);
  rq_body : option json }.

(** A request body is the value that is marshalled into it.  [rs_location] is [response.Location()]; [rs_body] what reading the body gives. *)
Record response := Response {
  rs_status : Z; rs_location : option URL; rs_body : result string }.

(** A file tree as [filepath.WalkDir] visits it. *)
Inductive entry :=
  | File (name contents : string)
  | Dir (name : string) (entries : list entry)
  | Other (name : string).

(** Free and used space of a file system: available bytes, block counts. *)
Record space := Space { sp_available_bytes : Z; sp_blocks : Z; sp_available_blocks : Z }.

(** [os.ErrNotExist], the error of an operation on a missing file. *)
Definition ErrNotExist : error := ErrMsg "file does not exist".
Definition IsNotExist (err : error) : bool := bool_decide (err = ErrNotExist).

Class Host (H : Type) := {
  host_exec : command -> H -> result finished * H;
  (** [exec.LookPath]. *)
  host_look_path : string -> H -> result string * H;
  host_getenv : string -> H -> string;
  host_http : request -> H -> result response * H;
  (** [os.Stat]: [Ok false] is [os.IsNotExist]. *)
  host_stat : string -> H -> result bool * H;
  (** [os.Stat] succeeded and the file is a socket. *)
  host_is_socket : string -> H -> result bool * H;
  (** The names [os.ReadDir] lists. *)
  host_read_dir : string -> H -> result (list string) * H;
  host_eval_symlinks : string -> H -> result string * H;
  host_mkdir_all : string -> H -> result unit * H;
  host_read_tree : string -> H -> result entry * H;
  host_read_file : string -> H -> result string * H;
  host_chmod : string -> Z -> H -> result unit * H;
  host_close : string -> H -> result unit * H;
  host_size : string -> H -> result Z * H;
  host_write_file : string -> string -> H -> result unit * H;
  (** [os.CreateTemp(directory, pattern)]: the path of a new empty file. *)
  host_create_temp : string -> string -> H -> result string * H;
  host_remove : string -> H -> result unit * H;
  (** [os.MkdirTemp(directory, pattern)] and [os.RemoveAll]. *)
  host_mkdir_temp : string -> string -> H -> result string * H;
  host_remove_all : string -> H -> result unit * H;
  (** [os.OpenFile] with [O_CREATE|O_WRONLY|O_APPEND]. *)
  host_open_append : string -> H -> result unit * H;
  (** [os.Open]. *)
  host_open : string -> H -> result unit * H;
  host_statfs : string -> H -> result space * H;
  host_mkdir : string -> H -> result unit * H;
  (** [os.ReadDir]: the names, and which are directories or symbolic links. *)
  host_entries : string -> H -> result (list (string * bool)) * H;
  (** [os.Stat] and [IsDir]. *)
  host_is_dir : string -> H -> result bool * H;
  (** A TLS handshake with this name on port 443: when each certificate of the peer ends. *)
  host_certificates : string -> H -> result (list Time) * H;
  host_hostname : H -> result string * H;
  host_getwd : H -> result string * H;
  host_lookup_cname : string -> H -> result string * H }.

(** ** The state of a release *)

Inductive tracker_call :=
  | StageChange (stage : string)
  | Event (stage kind message : string).

(** [StageTracker]: the durations it measured and the callbacks it made. *)
Record StageTracker := MkStageTracker {
  QueueDuration : Duration; SourceDuration : Duration; BuildDuration : Duration;
  StartDuration : Duration; HealthDuration : Duration; RouteDuration : Duration;
  tracker_calls : list tracker_call }.
#[export] Instance StageTracker_eta : Eta StageTracker := fun t =>
  MkStageTracker (QueueDuration t) (SourceDuration t) (BuildDuration t) (StartDuration t)
    (HealthDuration t) (RouteDuration t) (tracker_calls t).
Definition StageTracker0 : StageTracker := MkStageTracker 0 0 0 0 0 0 [].

Record site (H : Type) := Site {
  site_host : H;
  site_output : list string;
  site_tracker : option StageTracker }.
Arguments Site {H} _ _ _.
Arguments site_host {H} _.
Arguments site_output {H} _.
Arguments site_tracker {H} _.

Section host.
Context {H : Type} `{!Host H}.
Abbreviation EM := (M (site H)).

Definition on_host {A} (f : H -> result A * H) (s : site H) : result A * site H :=
  let '(r, h) := f (site_host s) in (r, Site h (site_output s) (site_tracker s)).

(** An operation of the machine. *)
Definition host_step {A} (f : H -> result A * H) : EM A := step (on_host f).

(** [fmt.Fprintln(output, line)]: never fails. *)
Definition say (line : string) : EM unit := fun w =>
  (Ok tt, set_state (Site (site_host (w_state w)) (site_output (w_state w) ++ [line])
                          (site_tracker (w_state w))) w).

(** [if tracker != nil { ... }]. *)
Definition track (f : StageTracker -> StageTracker) : EM unit := fun w =>
  (Ok tt, set_state (Site (site_host (w_state w)) (site_output (w_state w))
                          (f <$> site_tracker (w_state w))) w).
Definition tracker_call_made (c : tracker_call) (t : StageTracker) : StageTracker :=
  t <| tracker_calls := tracker_calls t ++ [c] |>.
Definition OnStageChange (stage : string) : EM unit := track (tracker_call_made (StageChange stage)).
Definition OnEvent (stage kind message : string) : EM unit :=
  track (tracker_call_made (Event stage kind message)).

(** [exec.CommandContext(...).Output()]: the output, or the error. *)
Definition command_result (f : finished) : result string :=
  match fin_error f with None => Ok (fin_output f) | Some e => Err (ErrEnv e) end.
Definition exec_output (name : string) (args : list string) : EM string :=
  host_step (fun h => let '(r, h') := host_exec (Command name [] args) h in
                      (f ← r; command_result f, h')).

(** [e.runWithEnv]: the output of the command goes to the release log. *)
Definition runWithEnv (environment : gmap string string) (name : string) (args : list string)
    : EM unit :=
  out ← host_step (host_exec (Command name (sorted_pairs environment) args));
  say (fin_output out) ;;
  match fin_error out with None => mret tt | Some e => fail (ErrEnv e) end.
Definition run (name : string) (args : list string) : EM unit := runWithEnv ∅ name args.

Definition http (rq : request) : EM response := host_step (host_http rq).

(** ** Invariance of the machine *)

(** A relation on machines, lifted to executor states. *)
Definition on_machine (R : relation H) : relation (site H) :=
  fun a b => R (site_host a) (site_host b).

#[local] Instance on_machine_preorder' R `{!PreOrder R} : PreOrder (on_machine R).
Proof. split; unfold on_machine; [intros x; reflexivity | intros x y z; apply transitivity]. Qed.

Context (R : relation H) `{!PreOrder R}.

Lemma evolves_host_step {A} (f : H -> result A * H) :
  (forall h, R h (snd (f h))) -> evolves (on_machine R) (host_step f).
Proof.
  intros Hf. apply evolves_step; [exact _|]. intros s. unfold on_machine, on_host.
  specialize (Hf (site_host s)). by destruct (f (site_host s)).
Qed.

Lemma evolves_say line : evolves (on_machine R) (say line).
Proof. intros w. unfold on_machine. simpl. reflexivity. Qed.

Lemma evolves_track f : evolves (on_machine R) (track f).
Proof. intros w. unfold on_machine. simpl. reflexivity. Qed.

Lemma evolves_exec_output name args :
  (forall h, R h (snd (host_exec (Command name [] args) h))) ->
  evolves (on_machine R) (exec_output name args).
Proof.
  intros Hf. apply evolves_host_step. intros h. specialize (Hf h).
  by destruct (host_exec _ h).
Qed.

Lemma evolves_run name args :
  (forall h, R h (snd (host_exec (Command name [] args) h))) ->
  evolves (on_machine R) (run name args).
Proof.
  intros Hf. unfold run, runWithEnv.
  apply evolves_bind; [exact _| |].
  - apply evolves_host_step. exact Hf.
  - intros f. apply evolves_bind; [exact _|apply evolves_say|].
    intros _. destruct (fin_error f); [refine (evolves_fail _ _)|refine (evolves_ret _ _)].
Qed.
End host.

#[export] Instance on_machine_preorder {H} (R : relation H) `{!PreOrder R} :
  PreOrder (on_machine R).
Proof. split; unfold on_machine; [intros x; reflexivity | intros x y z; apply transitivity]. Qed.

Abbreviation EM H := (M (site H)).
