(* ===== verification/Templates.v ===== *)
(** * Runtime templates (internal/runtime/template.go)

    The generated Dockerfiles of the built-in application types, [For] (the template
    of a type), [IsSupported], and [Dockerfile], which substitutes the port and the
    health endpoint.  Texts are those of the source; a backquote stands for a double
    quote and [raw] restores it. *)

From S2P Require Import Prelude GoStrings.

Definition staticDockerfile : string := raw "FROM node:22-alpine AS build
WORKDIR /app
COPY package.json package-lock.json* ./
RUN npm ci
COPY . .
RUN npm run build

FROM caddy:2.10-alpine
ARG PORT={{PORT}}
COPY --from=build /app/dist /srv
RUN printf ':%s { root * /srv; try_files {path} /index.html; file_server }\n' `$PORT` > /etc/caddy/Caddyfile
EXPOSE {{PORT}}
HEALTHCHECK --interval=30s --timeout=5s --start-period=10s --retries=3 CMD wget -q -O /dev/null http://127.0.0.1:{{PORT}}{{HEALTH_ENDPOINT}} || exit 1
".

Definition nextDockerfile : string := raw "FROM node:22-alpine AS build
WORKDIR /app
COPY package.json package-lock.json* ./
RUN npm ci
COPY . .
ENV NEXT_TELEMETRY_DISABLED=1
RUN npm run build

FROM node:22-alpine
WORKDIR /app
ENV NODE_ENV=production NEXT_TELEMETRY_DISABLED=1 HOSTNAME=0.0.0.0 PORT={{PORT}}
COPY --from=build /app/public ./public
COPY --from=build /app/.next/standalone ./
COPY --from=build /app/.next/static ./.next/static
EXPOSE {{PORT}}
HEALTHCHECK --interval=30s --timeout=5s --start-period=15s --retries=3 CMD node -e `require('http').get('http://127.0.0.1:'+process.env.PORT+'{{HEALTH_ENDPOINT}}',r=>process.exit(r.statusCode<400?0:1)).on('error',()=>process.exit(1))`
CMD [`node`, `server.js`]
".

Definition angularStaticDockerfile : string := raw "FROM node:22-alpine AS build
WORKDIR /app
COPY package.json package-lock.json* ./
RUN npm ci
COPY . .
RUN npm run build && index=$(find dist -type f -name index.html -print -quit) && test -n `$index` && mkdir /out && cp -R `$(dirname `$index`)`/. /out/

FROM caddy:2.10-alpine
ARG PORT={{PORT}}
COPY --from=build /out /srv
RUN printf ':%s { root * /srv; try_files {path} /index.html; file_server }\n' `$PORT` > /etc/caddy/Caddyfile
EXPOSE {{PORT}}
HEALTHCHECK --interval=30s --timeout=5s --start-period=10s --retries=3 CMD wget -q -O /dev/null http://127.0.0.1:{{PORT}}{{HEALTH_ENDPOINT}} || exit 1
".

Definition nodeSSRDockerfile : string := raw "FROM node:22-alpine AS build
WORKDIR /app
COPY package.json package-lock.json* ./
RUN npm ci
COPY . .
RUN npm run build

FROM node:22-alpine
WORKDIR /app
ENV NODE_ENV=production HOSTNAME=0.0.0.0 PORT={{PORT}}
COPY package.json package-lock.json* ./
RUN npm ci --omit=dev
COPY --from=build /app/dist ./dist
EXPOSE {{PORT}}
HEALTHCHECK --interval=30s --timeout=5s --start-period=15s --retries=3 CMD node -e `require('http').get('http://127.0.0.1:'+process.env.PORT+'{{HEALTH_ENDPOINT}}',r=>process.exit(r.statusCode<400?0:1)).on('error',()=>process.exit(1))`
CMD [`sh`, `-c`, `npm run start -- --host 0.0.0.0 --port $PORT`]
".

Definition viteSSRDockerfile : string := raw "FROM node:22-alpine AS build
WORKDIR /app
COPY package.json package-lock.json* ./
RUN npm ci
COPY . .
RUN npm run build

FROM node:22-alpine
WORKDIR /app
ENV NODE_ENV=production HOSTNAME=0.0.0.0 PORT={{PORT}}
COPY package.json package-lock.json* ./
RUN npm ci --omit=dev
COPY --from=build /app/dist ./dist
COPY --from=build /app/server.js ./server.js
EXPOSE {{PORT}}
HEALTHCHECK --interval=30s --timeout=5s --start-period=15s --retries=3 CMD node -e `require('http').get('http://127.0.0.1:'+process.env.PORT+'{{HEALTH_ENDPOINT}}',r=>process.exit(r.statusCode<400?0:1)).on('error',()=>process.exit(1))`
CMD [`node`, `server.js`]
".

Definition astroSSRDockerfile : string := raw "FROM node:22-alpine AS build
WORKDIR /app
COPY package.json package-lock.json* ./
RUN npm ci
COPY . .
RUN npm run build

FROM node:22-alpine
WORKDIR /app
ENV NODE_ENV=production HOST=0.0.0.0 PORT={{PORT}}
COPY package.json package-lock.json* ./
RUN npm ci --omit=dev
COPY --from=build /app/dist ./dist
EXPOSE {{PORT}}
HEALTHCHECK --interval=30s --timeout=5s --start-period=15s --retries=3 CMD node -e `require('http').get('http://127.0.0.1:'+process.env.PORT+'{{HEALTH_ENDPOINT}}',r=>process.exit(r.statusCode<400?0:1)).on('error',()=>process.exit(1))`
CMD [`node`, `./dist/server/entry.mjs`]
".

Definition nuxtStaticDockerfile : string := raw "FROM node:22-alpine AS build
WORKDIR /app
COPY package.json package-lock.json* ./
RUN npm ci
COPY . .
RUN npm run generate

FROM caddy:2.10-alpine
ARG PORT={{PORT}}
COPY --from=build /app/.output/public /srv
RUN printf ':%s { root * /srv; try_files {path} /200.html; file_server }\n' `$PORT` > /etc/caddy/Caddyfile
EXPOSE {{PORT}}
HEALTHCHECK --interval=30s --timeout=5s --start-period=10s --retries=3 CMD wget -q -O /dev/null http://127.0.0.1:{{PORT}}{{HEALTH_ENDPOINT}} || exit 1
".

Definition nuxtSSRDockerfile : string := raw "FROM node:22-alpine AS build
WORKDIR /app
COPY package.json package-lock.json* ./
RUN npm ci
COPY . .
ENV NITRO_PRESET=node-server
RUN npm run build

FROM node:22-alpine
WORKDIR /app
ENV NODE_ENV=production NITRO_HOST=0.0.0.0 NITRO_PORT={{PORT}}
COPY --from=build /app/.output ./.output
EXPOSE {{PORT}}
HEALTHCHECK --interval=30s --timeout=5s --start-period=15s --retries=3 CMD node -e `require('http').get('http://127.0.0.1:'+process.env.NITRO_PORT+'{{HEALTH_ENDPOINT}}',r=>process.exit(r.statusCode<400?0:1)).on('error',()=>process.exit(1))`
CMD [`node`, `.output/server/index.mjs`]
".

Definition svelteStaticDockerfile : string := raw "FROM node:22-alpine AS build
WORKDIR /app
COPY package.json package-lock.json* ./
RUN npm ci
COPY . .
RUN npm run build

FROM caddy:2.10-alpine
ARG PORT={{PORT}}
COPY --from=build /app/build /srv
RUN printf ':%s { root * /srv; try_files {path} /index.html; file_server }\n' `$PORT` > /etc/caddy/Caddyfile
EXPOSE {{PORT}}
HEALTHCHECK --interval=30s --timeout=5s --start-period=10s --retries=3 CMD wget -q -O /dev/null http://127.0.0.1:{{PORT}}{{HEALTH_ENDPOINT}} || exit 1
".

Definition svelteSSRDockerfile : string := raw "FROM node:22-alpine AS build
WORKDIR /app
COPY package.json package-lock.json* ./
RUN npm ci
COPY . .
RUN npm run build

FROM node:22-alpine
WORKDIR /app
ENV NODE_ENV=production HOST=0.0.0.0 PORT={{PORT}}
COPY package.json package-lock.json* ./
RUN npm ci --omit=dev
COPY --from=build /app/build ./build
EXPOSE {{PORT}}
HEALTHCHECK --interval=30s --timeout=5s --start-period=15s --retries=3 CMD node -e `require('http').get('http://127.0.0.1:'+process.env.PORT+'{{HEALTH_ENDPOINT}}',r=>process.exit(r.statusCode<400?0:1)).on('error',()=>process.exit(1))`
CMD [`node`, `build`]
".

Definition goDockerfile : string := raw "FROM golang:1.26-alpine AS build
WORKDIR /src
COPY go.mod go.sum* ./
RUN go mod download
COPY . .
RUN CGO_ENABLED=0 go build -trimpath -ldflags='-s -w' -o /out/app .

FROM busybox:1.37-musl
COPY --from=build /out/app /app
ENV PORT={{PORT}}
EXPOSE {{PORT}}
HEALTHCHECK --interval=30s --timeout=5s --start-period=10s --retries=3 CMD [`/bin/busybox`, `wget`, `-q`, `-O`, `/dev/null`, `http://127.0.0.1:{{PORT}}{{HEALTH_ENDPOINT}}`]
USER 65532:65532
ENTRYPOINT [`/app`]
".

Definition rustDockerfile : string := raw "FROM rust:1.88-alpine AS build
RUN apk add --no-cache musl-dev
WORKDIR /src
COPY . .
RUN cargo build --release && find target/release -maxdepth 1 -type f -perm -111 -exec cp {} /out-app \; -quit

FROM busybox:1.37-musl
COPY --from=build /out-app /app
ENV PORT={{PORT}}
EXPOSE {{PORT}}
HEALTHCHECK --interval=30s --timeout=5s --start-period=10s --retries=3 CMD [`/bin/busybox`, `wget`, `-q`, `-O`, `/dev/null`, `http://127.0.0.1:{{PORT}}{{HEALTH_ENDPOINT}}`]
USER 65532:65532
ENTRYPOINT [`/app`]
".

Definition javaDockerfile : string := raw "FROM eclipse-temurin:21-jdk-alpine AS build
WORKDIR /src
COPY . .
RUN if [ -f gradlew ]; then chmod +x gradlew && ./gradlew --no-daemon build -x test; elif [ -f mvnw ]; then chmod +x mvnw && ./mvnw -DskipTests package; elif [ -f pom.xml ]; then mvn -DskipTests package; else gradle --no-daemon build -x test; fi && find . \( -path '*/target/*.jar' -o -path '*/build/libs/*.jar' \) | grep -v -E '(sources|javadoc|plain)\.jar$' | head -n 1 | xargs -r -I{} cp '{}' /app.jar

FROM eclipse-temurin:21-jre-alpine
RUN apk add --no-cache busybox-extras
COPY --from=build /app.jar /app.jar
ENV SERVER_PORT={{PORT}} PORT={{PORT}}
EXPOSE {{PORT}}
HEALTHCHECK --interval=30s --timeout=5s --start-period=20s --retries=3 CMD wget -q -O /dev/null http://127.0.0.1:{{PORT}}{{HEALTH_ENDPOINT}} || exit 1
USER 10001:10001
ENTRYPOINT [`java`, `-jar`, `/app.jar`]
".

Record Template := MkTemplate {
  t_Type : string; t_Name : string; t_Port : Z; t_CPUs : string; t_Memory : string;
  t_Dockerfile : string; t_HealthEndpoint : string; t_Command : string; t_User : string }.

(** [For]: custom and unknown types have no template. *)
Definition For (kind : string) : option Template :=
  if (kind =? "static")%string then
    Some (MkTemplate kind "Estática (Node + Caddy)" 8080 "0.50" "128m" staticDockerfile "/" "caddy run" "caddy")
  else if (kind =? "angular_static")%string then
    Some (MkTemplate kind "Angular estático" 8080 "0.50" "192m" angularStaticDockerfile "/" "caddy run" "caddy")
  else if (kind =? "node_ssr")%string then
    Some (MkTemplate kind "Node SSR (start)" 8080 "0.75" "512m" nodeSSRDockerfile "/healthz" "npm run start" "node")
  else if (kind =? "vite_ssr")%string then
    Some (MkTemplate kind "Vite SSR (servidor Node)" 8080 "0.75" "512m" viteSSRDockerfile "/healthz" "node server.js" "node")
  else if (kind =? "astro_static")%string then
    Some (MkTemplate kind "Astro estático" 8080 "0.50" "128m" staticDockerfile "/" "caddy run" "caddy")
  else if (kind =? "astro_ssr")%string then
    Some (MkTemplate kind "Astro SSR (Node)" 8080 "0.75" "384m" astroSSRDockerfile "/" "node ./dist/server/entry.mjs" "node")
  else if (kind =? "nuxt_static")%string then
    Some (MkTemplate kind "Nuxt estático" 8080 "0.50" "192m" nuxtStaticDockerfile "/" "caddy run" "caddy")
  else if (kind =? "nuxt_ssr")%string then
    Some (MkTemplate kind "Nuxt SSR (Nitro)" 8080 "0.75" "512m" nuxtSSRDockerfile "/" "node .output/server/index.mjs" "node")
  else if (kind =? "svelte_static")%string then
    Some (MkTemplate kind "SvelteKit estático" 8080 "0.50" "128m" svelteStaticDockerfile "/" "caddy run" "caddy")
  else if (kind =? "svelte_ssr")%string then
    Some (MkTemplate kind "SvelteKit SSR (Node)" 8080 "0.75" "384m" svelteSSRDockerfile "/" "node build" "node")
  else if (kind =? "nextjs")%string then
    Some (MkTemplate kind "Next.js standalone" 8080 "0.75" "512m" nextDockerfile "/healthz" "node server.js" "node")
  else if (kind =? "go")%string then
    Some (MkTemplate kind "API Go" 8080 "0.50" "256m" goDockerfile "/healthz" "/app" "65532:65532")
  else if (kind =? "rust")%string then
    Some (MkTemplate kind "API Rust" 8080 "0.50" "256m" rustDockerfile "/healthz" "/app" "65532:65532")
  else if (kind =? "java")%string then
    Some (MkTemplate kind "API Java" 8080 "1.00" "768m" javaDockerfile "/healthz" "java -jar /app.jar" "10001:10001")
  else None.

Definition Types : list string :=
  ["static"; "angular_static"; "node_ssr"; "vite_ssr"; "astro_static"; "astro_ssr";
   "nuxt_static"; "nuxt_ssr"; "svelte_static"; "svelte_ssr"; "nextjs";
   "go"; "rust"; "java"; "custom"].

(** The loop over [Types]. *)
Definition IsSupported (kind : string) : bool := existsb (String.eqb kind) Types.

Definition Dockerfile (kind : string) (port : Z) (healthEndpoint : string) : option string :=
  match For kind with
  | None => None
  | Some template =>
    let port := if (port <? 1) || (65535 <? port) then t_Port template else port in
    let healthEndpoint :=
      if (healthEndpoint =? "")%string then t_HealthEndpoint template else healthEndpoint in
    let contents := replace_all (t_Dockerfile template) "{{PORT}}" (itoa port) in
    Some (replace_all contents "{{HEALTH_ENDPOINT}}" healthEndpoint)
  end.

(** ** The placeholders are all substituted

    A template is a list of literal pieces and holes. *)
Inductive piece := Lit (s : string) | PortHole | HealthHole.

Fixpoint pieces (skip : nat) (s : string) : list piece :=
  match s with
  | "" => []
  | String c s' =>
    match skip with
    | S k => pieces k s'
    | O =>
      if has_prefix s "{{PORT}}" then PortHole :: pieces 7 s'
      else if has_prefix s "{{HEALTH_ENDPOINT}}" then HealthHole :: pieces 18 s'
      else match pieces 0 s' with
           | Lit w :: ps => Lit (String c w) :: ps
           | ps => Lit (String c "") :: ps
           end
    end
  end.

Definition render (port health : string) (p : piece) : string :=
  match p with Lit s => s | PortHole => port | HealthHole => health end.

Fixpoint render_all (port health : string) (ps : list piece) : string :=
  match ps with [] => "" | p :: ps => render port health p +:+ render_all port health ps end.

(** No two opening braces in a row, and none at the end: appending two such texts
    cannot create a placeholder. *)
Fixpoint clean (s : string) : bool :=
  match s with
  | "" => true
  | String c s' =>
    clean s' && (negb (Ascii.eqb c "{")
                 || match s' with "" => false | String d _ => negb (Ascii.eqb d "{") end)
  end.

Definition piece_clean (p : piece) : bool := match p with Lit s => clean s | _ => true end.

Lemma clean_append a b : clean a = true -> clean b = true -> clean (a +:+ b) = true.
Proof.
  intros Ha Hb. induction a as [|c a IH]; [done|]. cbn [String.append clean] in *. bools.
  rewrite IH by done. destruct a as [|d a]; simpl in *; [|done].
  destruct (Ascii.eqb c "{"); simpl in *; [done|]. by destruct b.
Qed.

Lemma clean_no_hole s sub :
  clean s = true -> contains s (String "{" (String "{" sub)) = false.
Proof.
  induction s as [|c s IH]; [done|]. cbn [clean]. intros [Hs H]%andb_prop.
  rewrite contains_cons, (IH Hs), orb_false_r. cbn [has_prefix].
  rewrite Ascii.eqb_sym. destruct (Ascii.eqb c "{"); [|done]. simpl in *.
  destruct s as [|d s]; [done|]. cbn [has_prefix]. rewrite Ascii.eqb_sym.
  by destruct (Ascii.eqb d "{").
Qed.

(** A replacement walks over a clean text unchanged. *)
Lemma replace_over_clean s rest sub new :
  clean s = true ->
  replace_from 0 (s +:+ rest) (String "{" (String "{" sub)) new
  = s +:+ replace_from 0 rest (String "{" (String "{" sub)) new.
Proof.
  induction s as [|c s IH]; [done|]. cbn [clean]. intros [Hs H]%andb_prop.
  cbn [String.append replace_from has_prefix]. rewrite (IH Hs), Ascii.eqb_sym.
  destruct (Ascii.eqb c "{"); [|done]. simpl in *.
  destruct s as [|d s]; [done|]. cbn [String.append has_prefix]. rewrite Ascii.eqb_sym.
  by destruct (Ascii.eqb d "{").
Qed.

Lemma replace_port ps port :
  forallb piece_clean ps = true ->
  replace_all (render_all "{{PORT}}" "{{HEALTH_ENDPOINT}}" ps) "{{PORT}}" port
  = render_all port "{{HEALTH_ENDPOINT}}" ps.
Proof.
  unfold replace_all. induction ps as [|p ps IH]; [done|].
  cbn [forallb render_all]. intros [Hp Hps]%andb_prop. specialize (IH Hps).
  destruct p as [s| |]; cbn [render piece_clean] in *.
  - by rewrite replace_over_clean, IH.
  - rewrite <- IH. reflexivity.
  - rewrite <- IH. reflexivity.
Qed.

Lemma replace_health ps port health :
  clean port = true -> forallb piece_clean ps = true ->
  replace_all (render_all port "{{HEALTH_ENDPOINT}}" ps) "{{HEALTH_ENDPOINT}}" health
  = render_all port health ps.
Proof.
  unfold replace_all. intros Hport. induction ps as [|p ps IH]; [done|].
  cbn [forallb render_all]. intros [Hp Hps]%andb_prop. specialize (IH Hps).
  destruct p as [s| |]; cbn [render piece_clean] in *.
  - by rewrite replace_over_clean, IH.
  - by rewrite replace_over_clean, IH.
  - rewrite <- IH. reflexivity.
Qed.

Lemma render_clean ps port health :
  clean port = true -> clean health = true -> forallb piece_clean ps = true ->
  clean (render_all port health ps) = true.
Proof.
  intros Hport Hh. induction ps as [|p ps IH]; [done|].
  cbn [forallb render_all]. intros [Hp Hps]%andb_prop.
  apply clean_append; [|auto]. by destruct p.
Qed.

(** The decimal text of an integer has no brace. *)
Definition no_brace (c : ascii) : bool := negb (Ascii.eqb c "{").

Lemma no_brace_clean s : all_string no_brace s = true -> clean s = true.
Proof.
  induction s as [|c s IH]; [done|]. simpl. intros [Hc Hs]%andb_prop.
  unfold no_brace in Hc. by rewrite IH, Hc.
Qed.

Lemma pretty_N_char_no_brace x : no_brace (pretty_N_char x) = true.
Proof. by destruct x as [|[[[[]|[]|]|[[]|[]|]|]|[[[]|[]|]|[[]|[]|]|]|]]. Qed.

Lemma pretty_N_go_no_brace x s :
  all_string no_brace s = true -> all_string no_brace (pretty_N_go x s) = true.
Proof.
  revert s. induction (N.lt_wf_0 x) as [x _ IH]. intros s Hs.
  destruct (decide (x = 0)%N) as [->|Hx]; [by rewrite pretty_N_go_0|].
  rewrite pretty_N_go_step by lia. apply IH.
  - apply N.div_lt; lia.
  - simpl. by rewrite pretty_N_char_no_brace.
Qed.

Lemma itoa_clean n : clean (itoa n) = true.
Proof.
  apply no_brace_clean. unfold itoa, pretty, pretty_Z, pretty, pretty_positive, pretty, pretty_N.
  destruct n as [|p|p]; [done| |]; (destruct (decide _); [done|]).
  - by apply pretty_N_go_no_brace.
  - simpl. by apply pretty_N_go_no_brace.
Qed.

(** Every built-in template is the rendering of clean pieces. *)
Definition template_pieces (t : Template) : list piece := pieces 0 (t_Dockerfile t).
Definition template_ok (t : Template) : bool :=
  (render_all "{{PORT}}" "{{HEALTH_ENDPOINT}}" (template_pieces t) =? t_Dockerfile t)%string
  && forallb piece_clean (template_pieces t).

Fixpoint exposes (ps : list piece) : bool :=
  match ps with
  | Lit a :: ((PortHole :: _) as rest) => has_suffix a "EXPOSE " || exposes rest
  | _ :: rest => exposes rest
  | [] => false
  end.

Lemma has_suffix_spec s p : has_suffix s p = true -> exists a, s = a +:+ p.
Proof.
  unfold has_suffix. intros H. bools. rewrite <- H0.
  exists (take_string (String.length s - String.length p) s).
  generalize (String.length s - String.length p)%nat as n. clear.
  intros n. revert s. induction n as [|n IH]; intros [|c s]; simpl; try done. by f_equal.
Qed.

Lemma exposes_spec ps port health :
  exposes ps = true -> contains (render_all port health ps) ("EXPOSE " +:+ port) = true.
Proof.
  assert (forall a s sub, contains s sub = true -> contains (a +:+ s) sub = true) as Hc.
  { intros a s sub (x & y & ->)%contains_spec. apply contains_spec.
    exists (a +:+ x), y. by rewrite append_assoc. }
  induction ps as [|p ps IH]; [done|]. intros H.
  assert (exposes ps = true -> contains (render_all port health (p :: ps)) ("EXPOSE " +:+ port) = true) as Hrest.
  { intros E. apply Hc. auto. }
  destruct p as [a| |]; auto. destruct ps as [|[b| |] ps]; auto.
  cbn [exposes] in H. apply orb_prop in H as [[x ->]%has_suffix_spec|H]; [|auto].
  apply contains_spec. exists x, (render_all port health ps).
  cbn [render_all render]. by rewrite <- !append_assoc.
Qed.

Lemma For_ok kind t :
  For kind = Some t ->
  template_ok t = true /\ exposes (template_pieces t) = true /\ t_Port t = 8080
  /\ clean (t_HealthEndpoint t) = true /\ IsSupported kind = true /\ kind <> "custom".
Proof.
  unfold For.
  repeat (string_case kind; [intros [= <-]; repeat split; try (vm_compute; reflexivity); done|]).
  done.
Qed.

(** A type has a generated Dockerfile exactly when it is one of the supported
    types other than custom, which must bring its own Dockerfile. *)
Theorem For_supported kind :
  (exists t, For kind = Some t) <-> IsSupported kind = true /\ kind <> "custom".
Proof.
  split.
  - intros [t H]. by apply For_ok in H as (_ & _ & _ & _ & ? & ?).
  - intros [H Hc]. revert H. unfold IsSupported, Types, For. cbn [existsb].
    repeat (string_case kind; [intros _; (by eexists; reflexivity) || done | cbn [orb]]).
    done.
Qed.

(** A generated Dockerfile has no placeholder left and exposes the requested port,
    or the template's 8080 when the requested one is not a TCP port, for every health
    endpoint without consecutive or final opening braces. *)
Theorem Dockerfile_substituted kind port health contents :
  clean health = true ->
  Dockerfile kind port health = Some contents ->
  contains contents "{{PORT}}" = false
  /\ contains contents "{{HEALTH_ENDPOINT}}" = false
  /\ contains contents
       ("EXPOSE " +:+ itoa (if (port <? 1) || (65535 <? port) then 8080 else port)) = true.
Proof.
  intros Hh. unfold Dockerfile. destruct (For kind) as [t|] eqn:E; [|done].
  apply For_ok in E as (Hok & Hexp & Hport & Hhealth & _). intros [= <-].
  unfold template_ok in Hok. apply andb_prop in Hok as [Hsrc%String.eqb_eq Hclean].
  rewrite Hport. set (p := if _ : bool then 8080 else port).
  set (h := if _ : bool then t_HealthEndpoint t else health).
  assert (clean h = true) as Hh' by (unfold h; by destruct (health =? "")%string).
  rewrite <- Hsrc, replace_port, replace_health by auto using itoa_clean.
  pose proof (render_clean _ _ h (itoa_clean p) Hh' Hclean) as Hr.
  split; [by apply clean_no_hole|]. split; [by apply clean_no_hole|].
  by apply exposes_spec.
Qed.

Lemma Dockerfile_substituted_witness :
  exists contents, Dockerfile "go" 70000 "/healthz" = Some contents
  /\ contains contents "EXPOSE 8080" = true.
Proof.
  eexists. split; [reflexivity|].
  exact (proj2 (proj2 (Dockerfile_substituted "go" 70000 "/healthz" _ eq_refl eq_refl))).
Defined.
