(* ===== verification/Detect.v ===== *)
(** * Runtime detection (internal/runtime/detect.go)

    A project directory is seen through two functions: which paths exist and what a
    readable file contains.  [Detect] classifies it, [Validate] lists what a type
    misses. *)

From S2P Require Import Prelude GoStrings Json Net Templates.

Record Detection := MkDetection { dt_Type : string; dt_Confidence : string; dt_Reason : string }.

Record packageManifest := MkPackageManifest {
  pm_Dependencies : list (string * string); pm_DevDependencies : list (string * string);
  pm_Scripts : list (string * string) }.

(** [map[string]string]: entries with the same key overwrite each other. *)
Fixpoint decode_entries (acc : list (string * string)) (kvs : list (string * json))
    : option (list (string * string)) :=
  match kvs with
  | [] => Some acc
  | (k, v) :: kvs =>
    s ← decode_text "" v;
    decode_entries (List.filter (fun e => negb (e.1 =? k)%string) acc ++ [(k, s)]) kvs
  end.
Definition decode_string_map : decoder (list (string * string)) := fun m j =>
  match j with
  | JObj kvs => decode_entries m kvs
  | JNull => Some []
  | _ => None
  end.

Definition decode_manifest (j : json) : option packageManifest :=
  kvs ← members j;
  dependencies ← decode_field "dependencies" decode_string_map [] kvs;
  dev ← decode_field "devDependencies" decode_string_map [] kvs;
  scripts ← decode_field "scripts" decode_string_map [] kvs;
  Some (MkPackageManifest dependencies dev scripts).

Section detect.
Context (exists_file : string -> bool) (read_file : string -> option string).

Definition readPackageManifest (path : string) : option packageManifest :=
  contents ← read_file path; j ← parse_first contents; decode_manifest j.

Definition dependency (manifest : packageManifest) (name : string) : bool :=
  existsb (fun e => (e.1 =? name)%string) (pm_Dependencies manifest)
  || existsb (fun e => (e.1 =? name)%string) (pm_DevDependencies manifest).

Definition scriptContains (manifest : packageManifest) (text : string) : bool :=
  existsb (fun e => contains (to_lower e.2) (to_lower text)) (pm_Scripts manifest).

Definition projectConfig (path : string) (names : list string) : string :=
  default "" (head (omap (fun name => read_file (Join path name)) names)).

Definition Detect (path : string) : Detection :=
  let has name := exists_file (Join path name) in
  if has "Dockerfile" then MkDetection "custom" "high" "El proyecto ya incluye un Dockerfile." else
  if has "go.mod" then MkDetection "go" "high" "Se encontró go.mod." else
  if has "Cargo.toml" then MkDetection "rust" "high" "Se encontró Cargo.toml." else
  if has "pom.xml" || has "build.gradle" || has "build.gradle.kts"
  then MkDetection "java" "high" "Se encontró configuración Maven o Gradle." else
  match readPackageManifest (Join path "package.json") with
  | None => MkDetection "custom" "low" "No se encontró un manifiesto reconocible; revisa la configuración manual."
  | Some manifest =>
    if dependency manifest "astro" then
      let config := projectConfig path ["astro.config.mjs"; "astro.config.js"; "astro.config.ts"] in
      if contains config "output: 'server'" || contains config (raw "output: `server`")
         || contains config "@astrojs/node"
      then MkDetection "astro_ssr" "high" "Astro SSR con adaptador Node detectado."
      else MkDetection "astro_static" "high" "Astro estático detectado."
    else if dependency manifest "nuxt" then
      let config := projectConfig path ["nuxt.config.ts"; "nuxt.config.js"; "nuxt.config.mjs"] in
      if contains config "ssr: false" || contains config "ssr:false"
         || scriptContains manifest "nuxt generate"
      then MkDetection "nuxt_static" "medium" "Nuxt estático detectado; confirma que el proyecto use generate."
      else MkDetection "nuxt_ssr" "high" "Nuxt SSR/Nitro detectado."
    else if dependency manifest "@sveltejs/kit" then
      let config := projectConfig path ["svelte.config.js"; "svelte.config.ts"] in
      if contains config "adapter-static"
      then MkDetection "svelte_static" "high" "SvelteKit con adapter-static detectado."
      else if contains config "adapter-node"
      then MkDetection "svelte_ssr" "high" "SvelteKit con adapter-node detectado."
      else MkDetection "custom" "medium" "SvelteKit detectado; selecciona adapter-static o adapter-node en svelte.config."
    else if dependency manifest "next"
    then MkDetection "nextjs" "high" "Se encontró Next.js; confirma que output: standalone esté habilitado."
    else
    let angular := has "angular.json" || dependency manifest "@angular/core" in
    if angular && (dependency manifest "@angular/ssr" || dependency manifest "@nguniversal/express-engine"
                   || scriptContains manifest "ssr")
    then MkDetection "node_ssr" "medium" "Angular SSR detectado; revisa que el script start inicie el servidor SSR."
    else if angular then MkDetection "angular_static" "high" "Angular estático detectado."
    else if dependency manifest "vite"
         && (scriptContains manifest "--ssr" || scriptContains manifest "serve:ssr"
             || has "src/entry-server.ts" || has "src/entry-server.tsx"
             || has "src/entry-server.js" || has "src/entry-server.jsx")
    then if has "server.js"
         then MkDetection "vite_ssr" "high" "Vite SSR con servidor Node propio detectado (server.js)."
         else MkDetection "node_ssr" "medium" "Vite SSR detectado; revisa que npm run start inicie el servidor."
    else if dependency manifest "vite" then MkDetection "static" "high" "Vite estático detectado."
    else MkDetection "custom" "low" "Se encontró package.json, pero no una configuración de runtime concluyente."
  end.

Definition node_kinds : list string :=
  ["static"; "angular_static"; "node_ssr"; "vite_ssr"; "astro_static"; "astro_ssr"; "nuxt_static";
   "nuxt_ssr"; "svelte_static"; "svelte_ssr"; "nextjs"].

Definition Validate (path kind : string) : list string :=
  let has name := exists_file (Join path name) in
  if (kind =? "go")%string then
    if negb (has "go.mod") then ["Falta el archivo go.mod en el directorio del proyecto."] else []
  else if (kind =? "rust")%string then
    if negb (has "Cargo.toml") then ["Falta el archivo Cargo.toml en el directorio del proyecto."] else []
  else if (kind =? "java")%string then
    if negb (has "pom.xml") && negb (has "build.gradle") && negb (has "build.gradle.kts")
    then ["Falta el archivo pom.xml o build.gradle en el directorio del proyecto."] else []
  else if (kind =? "custom")%string then
    if negb (has "Dockerfile") then ["Falta el archivo Dockerfile en el directorio del proyecto."] else []
  else if existsb (String.eqb kind) node_kinds then
    if negb (has "package.json") then ["Falta el archivo package.json para este runtime basado en Node."] else []
  else [].

(** What detection proposes can be deployed: the type is supported, and unless it is
    [custom] the project has everything that type needs (files that can be read exist). *)
Theorem detect_deployable path :
  (forall p contents, read_file p = Some contents -> exists_file p = true) ->
  IsSupported (dt_Type (Detect path)) = true
  /\ (dt_Type (Detect path) <> "custom" -> Validate path (dt_Type (Detect path)) = []).
Proof.
  intros Hread. unfold Detect.
  destruct (exists_file (Join path "Dockerfile")) eqn:E1; [done|].
  destruct (exists_file (Join path "go.mod")) eqn:E2.
  { split; [done|]. intros _. unfold Validate. simpl. by rewrite E2. }
  destruct (exists_file (Join path "Cargo.toml")) eqn:E3.
  { split; [done|]. intros _. unfold Validate. simpl. by rewrite E3. }
  destruct (_ || _ || _) eqn:E4.
  { split; [done|]. intros _. unfold Validate. simpl. rewrite <- !negb_orb, E4. done. }
  destruct (readPackageManifest _) as [manifest|] eqn:E5; [|done].
  assert (exists_file (Join path "package.json") = true) as Hp.
  { unfold readPackageManifest in E5. destruct (read_file _) eqn:Er; [by eapply Hread|done]. }
  assert (forall kind, In kind node_kinds -> IsSupported kind = true
            /\ (kind <> "custom" -> Validate path kind = [])) as Hnode.
  { intros kind Hk. split; [by destruct Hk as [<-|[<-|[<-|[<-|[<-|[<-|[<-|[<-|[<-|[<-|[<-|[]]]]]]]]]]]]|].
    intros _. unfold Validate.
    destruct Hk as [<-|[<-|[<-|[<-|[<-|[<-|[<-|[<-|[<-|[<-|[<-|[]]]]]]]]]]]]; simpl; by rewrite Hp. }
  cbv zeta. repeat case_match; simpl dt_Type; first [done | apply Hnode; simpl; tauto].
Qed.
End detect.

Lemma detect_deployable_witness :
  let files p := (p =? "/app/package.json")%string || (p =? "/app/vite.config.js")%string in
  let read p := if (p =? "/app/package.json")%string
                then Some (raw "{`devDependencies`:{`vite`:`^5`}}") else None in
  dt_Type (Detect files read "/app") = "static"
  /\ Validate files "/app" (dt_Type (Detect files read "/app")) = [].
Proof.
  intros files read. assert (forall p c, read p = Some c -> files p = true) as Hr.
  { intros p c. unfold read, files. by destruct (p =? "/app/package.json")%string. }
  split; [vm_compute; reflexivity|].
  apply (proj2 (detect_deployable files read "/app" Hr)). vm_compute. discriminate.
Defined.
