(* ===== verification/StoreTypes.v ===== *)
(** * The SQLite store: records, tables, statements (internal/store/store.go)

    The Go structs of package store, the rows behind them, and the database as a
    record of tables.  A nullable column is an option; [nullTime] and the [scan_]
    functions convert between a column and a Go field.  Foreign keys and unique
    indexes are those of the schema (file Schema). *)

From S2P Require Import Prelude GoStrings.

(** ** Go structs *)

Record Node := MkNode {
  n_ID : string; n_Name : string; n_Version : string; n_Capabilities : list string;
  n_CertificateFingerprint : string; n_CreatedAt : Time; n_LastSeenAt : Time }.

Record SecurityConfigT := MkSecurityConfig {
  sc_Salt : string; sc_VerifierNonce : string; sc_VerifierCipher : string }.

(** Role names are fixed in code. *)
Definition RoleViewer := "viewer".
Definition RoleOperator := "operator".
Definition RoleDeployer := "deployer".
Definition RoleAdmin := "admin".
Definition RoleSecurityAdmin := "security_admin".

Record FederatedIdentity := MkFederatedIdentity {
  fi_ProviderID : string; fi_Subject : string; fi_Email : string; fi_DisplayName : string }.

Record Application := MkApplication {
  a_ID : Z; a_Name : string; a_Repository : string; a_Branch : string; a_WorkDir : string;
  a_Type : string; a_BuildCommand : string; a_RunCommand : string; a_InternalPort : Z;
  a_Domain : string; a_Runtime : string; a_DeployOnPush : bool;
  a_RequireConfirmation : bool; a_AutoRollback : bool; a_GitHubInstallationID : Z;
  a_HealthEndpoint : string; a_CreatedAt : Time }.
#[export] Instance Application_eta : Eta Application := fun a =>
  MkApplication (a_ID a) (a_Name a) (a_Repository a) (a_Branch a) (a_WorkDir a) (a_Type a)
    (a_BuildCommand a) (a_RunCommand a) (a_InternalPort a) (a_Domain a) (a_Runtime a)
    (a_DeployOnPush a) (a_RequireConfirmation a) (a_AutoRollback a)
    (a_GitHubInstallationID a) (a_HealthEndpoint a) (a_CreatedAt a).

Record CloudflareConfigT := MkCloudflareConfig {
  cf_Mode : string; cf_AccountID : string; cf_TunnelID : string; cf_TunnelName : string;
  cf_Status : string; cf_LastHealthCheck : Time; cf_ErrorMessage : string;
  cf_UpdatedAt : Time }.
#[export] Instance CloudflareConfig_eta : Eta CloudflareConfigT := fun c =>
  MkCloudflareConfig (cf_Mode c) (cf_AccountID c) (cf_TunnelID c) (cf_TunnelName c)
    (cf_Status c) (cf_LastHealthCheck c) (cf_ErrorMessage c) (cf_UpdatedAt c).

Record Deployment := MkDeployment {
  d_ID : Z; d_ApplicationID : Z; d_Status : string; d_Image : string;
  d_RequestedRef : string; d_SourceRevision : string; d_SourceFingerprint : string;
  d_ArtifactDigest : string; d_Runtime : string; d_InternalPort : Z;
  d_HealthEndpoint : string; d_Manifest : string; d_ConfigurationDigest : string;
  d_FailureStage : string; d_FailureCode : string; d_FailureDetail : string;
  d_LogPath : string; d_StartedAt : Time; d_FinishedAt : Time; d_Action : string;
  d_Attempt : Z; d_LeaseExpiresAt : Time; d_HeartbeatAt : Time;
  d_CancellationRequestedAt : Time; d_QueueDurationMs : Z; d_SourceDurationMs : Z;
  d_BuildDurationMs : Z; d_StartDurationMs : Z; d_HealthDurationMs : Z;
  d_RouteDurationMs : Z; d_CurrentStage : string }.
#[export] Instance Deployment_eta : Eta Deployment := fun d =>
  MkDeployment (d_ID d) (d_ApplicationID d) (d_Status d) (d_Image d) (d_RequestedRef d)
    (d_SourceRevision d) (d_SourceFingerprint d) (d_ArtifactDigest d) (d_Runtime d)
    (d_InternalPort d) (d_HealthEndpoint d) (d_Manifest d) (d_ConfigurationDigest d)
    (d_FailureStage d) (d_FailureCode d) (d_FailureDetail d) (d_LogPath d) (d_StartedAt d)
    (d_FinishedAt d) (d_Action d) (d_Attempt d) (d_LeaseExpiresAt d) (d_HeartbeatAt d)
    (d_CancellationRequestedAt d) (d_QueueDurationMs d) (d_SourceDurationMs d)
    (d_BuildDurationMs d) (d_StartDurationMs d) (d_HealthDurationMs d)
    (d_RouteDurationMs d) (d_CurrentStage d).

(** The zero [Deployment]. *)
Definition Deployment0 : Deployment :=
  MkDeployment 0 0 "" "" "" "" "" "" "" 0 "" "" "" "" "" "" "" 0 0 "" 0 0 0 0 0 0 0 0 0 0 "".

Record DeploymentEvent := MkDeploymentEvent {
  e_ID : Z; e_DeploymentID : Z; e_Stage : string; e_EventType : string;
  e_Message : string; e_CreatedAt : Time }.

(** Alert rows; [resolved_at] is nullable. *)
Record AlertRow := MkAlert {
  al_ID : Z; al_Severity : string; al_Message : string; al_ApplicationID : option Z;
  al_DeploymentID : option Z; al_Resolved : bool; al_CreatedAt : Time;
  al_ResolvedAt : option Time }.
#[export] Instance Alert_eta : Eta AlertRow := fun a =>
  MkAlert (al_ID a) (al_Severity a) (al_Message a) (al_ApplicationID a) (al_DeploymentID a)
    (al_Resolved a) (al_CreatedAt a) (al_ResolvedAt a).

Record HealthEvidenceT := MkHealthEvidence {
  h_ApplicationID : Z; h_InternalStatus : string; h_RouteStatus : string;
  h_ExternalStatus : string; h_InternalCheckedAt : Time; h_RouteCheckedAt : Time;
  h_ExternalCheckedAt : Time; h_ExternalObserver : string; h_ExternalDetail : string;
  h_ExternalHTTPStatus : Z }.

Definition DeploymentLeaseDuration : Duration := 30 * Second.

Record ReleaseMetadata := MkReleaseMetadata {
  rm_RequestedRef : string; rm_SourceRevision : string; rm_SourceFingerprint : string;
  rm_ArtifactDigest : string; rm_Runtime : string; rm_InternalPort : Z;
  rm_HealthEndpoint : string; rm_Manifest : string; rm_ConfigurationDigest : string }.
#[export] Instance ReleaseMetadata_eta : Eta ReleaseMetadata := fun m =>
  MkReleaseMetadata (rm_RequestedRef m) (rm_SourceRevision m) (rm_SourceFingerprint m)
    (rm_ArtifactDigest m) (rm_Runtime m) (rm_InternalPort m) (rm_HealthEndpoint m)
    (rm_Manifest m) (rm_ConfigurationDigest m).

Record SecretMetadata := MkSecretMetadata {
  sm_Name : string; sm_Environment : string; sm_Target : string; sm_UpdatedAt : Time }.

Record SecretAuditT := MkSecretAudit {
  au_Action : string; au_Name : string; au_Environment : string; au_Target : string;
  au_CreatedAt : Time }.

Record Configuration := MkConfiguration {
  co_Name : string; co_Value : string; co_Environment : string; co_Target : string;
  co_UpdatedAt : Time }.

(** [nullTime]: the zero time is stored as NULL. *)
Definition nullTime (value : Time) : option Time := if IsZero value then None else Some value.

(** [if column.Valid { field = column.Time }]. *)
Definition scanNullTime (column : option Time) : Time := default 0 column.

(** ** Rows *)

Record deployment_row := DeploymentRow {
  r_id : Z; r_application_id : Z; r_status : string; r_image : string;
  r_log_path : string; r_started_at : Time; r_finished_at : option Time;
  r_action : string; r_requested_ref : string; r_source_revision : string;
  r_source_fingerprint : string; r_artifact_digest : string; r_runtime : string;
  r_internal_port : Z; r_health_endpoint : string; r_manifest : string;
  r_configuration_digest : string; r_failure_stage : string; r_failure_code : string;
  r_failure_detail : string; r_attempt : Z; r_heartbeat_at : option Time;
  r_lease_expires_at : option Time; r_cancellation_requested_at : option Time;
  r_queue_duration_ms : Z; r_source_duration_ms : Z; r_build_duration_ms : Z;
  r_start_duration_ms : Z; r_health_duration_ms : Z; r_route_duration_ms : Z;
  r_current_stage : string }.
#[export] Instance deployment_row_eta : Eta deployment_row := fun r =>
  DeploymentRow (r_id r) (r_application_id r) (r_status r) (r_image r) (r_log_path r)
    (r_started_at r) (r_finished_at r) (r_action r) (r_requested_ref r)
    (r_source_revision r) (r_source_fingerprint r) (r_artifact_digest r) (r_runtime r)
    (r_internal_port r) (r_health_endpoint r) (r_manifest r) (r_configuration_digest r)
    (r_failure_stage r) (r_failure_code r) (r_failure_detail r) (r_attempt r)
    (r_heartbeat_at r) (r_lease_expires_at r) (r_cancellation_requested_at r)
    (r_queue_duration_ms r) (r_source_duration_ms r) (r_build_duration_ms r)
    (r_start_duration_ms r) (r_health_duration_ms r) (r_route_duration_ms r)
    (r_current_stage r).

Record secret_row := SecretRow { s_nonce : string; s_ciphertext : string; s_updated_at : Time }.

Record secret_audit_row := SecretAuditRow {
  sa_id : Z; sa_application_id : Z; sa_environment : string; sa_target : string;
  sa_name : string; sa_action : string; sa_created_at : Time }.

Record health_row := HealthRow {
  hr_internal_status : string; hr_internal_checked_at : option Time;
  hr_route_status : string; hr_route_checked_at : option Time;
  hr_external_status : string; hr_external_checked_at : option Time;
  hr_external_observer : string; hr_external_http_status : Z; hr_external_detail : string }.

Record probe_row := ProbeRow {
  p_id : Z; p_application_id : Z; p_success : bool; p_checked_at : Time;
  p_observer : string; p_http_status : Z; p_detail : string }.

Record user_row := UserRow {
  u_id : Z; u_email : string; u_display_name : string; u_created_at : Time;
  u_disabled_at : option Time }.
#[export] Instance user_row_eta : Eta user_row := fun u =>
  UserRow (u_id u) (u_email u) (u_display_name u) (u_created_at u) (u_disabled_at u).

Record identity_audit_row := IdentityAuditRow {
  ia_id : Z; ia_user_id : Z; ia_action : string; ia_created_at : Time }.

(** ** The database *)

Record database := Database {
  t_settings : gmap string string;
  t_secrets : gmap (string * string) secret_row;
  t_secret_audit : list secret_audit_row;
  t_configuration : gmap (Z * string * string * string) (string * Time);
  t_applications : list Application;
  t_automation : option string;
  t_deployments : list deployment_row;
  t_events : list DeploymentEvent;
  t_alerts : list AlertRow;
  t_health : gmap Z health_row;
  t_probes : list probe_row;
  t_deliveries : gmap (string * string) Time;
  t_rate_limits : gmap string (Time * Z);
  t_unlock : gmap string (Z * option Time);
  t_providers : gmap string unit;
  t_users : list user_row;
  t_identities : gmap (string * string) (Z * Time);
  t_roles : gmap (Z * string) Time;
  t_identity_audit : list identity_audit_row;
  t_nodes : gmap string Node;
  t_cloudflare : option CloudflareConfigT }.
#[export] Instance database_eta : Eta database := fun d =>
  Database (t_settings d) (t_secrets d) (t_secret_audit d) (t_configuration d)
    (t_applications d) (t_automation d) (t_deployments d) (t_events d) (t_alerts d)
    (t_health d) (t_probes d) (t_deliveries d) (t_rate_limits d) (t_unlock d)
    (t_providers d) (t_users d) (t_identities d) (t_roles d) (t_identity_audit d)
    (t_nodes d) (t_cloudflare d).

Definition database0 : database :=
  Database ∅ ∅ [] ∅ [] None [] [] [] ∅ [] ∅ ∅ ∅ ∅ [] ∅ ∅ [] ∅ None.

(** Store methods run statements against the database. *)
Abbreviation DB := (M database).

(** Constraint failures, with the text SQLite gives them. *)
Definition unique_failed (columns : string) : error :=
  ErrConstraint ("UNIQUE constraint failed: " +:+ columns).
Definition foreign_key_failed : error := ErrConstraint "FOREIGN KEY constraint failed".
Definition check_failed (c : string) : error := ErrConstraint ("CHECK constraint failed: " +:+ c).

(** [err.Error()]. *)
Fixpoint error_message (e : error) : string :=
  match e with
  | ErrNotFound => "store: record not found"
  | ErrDeploymentCancelled => "store: deployment cancellation requested"
  | ErrConstraint c => "constraint failed: " +:+ c
  | ErrEnv m | ErrMsg m | ErrPanic m => m
  | ErrWrap m c => m +:+ ": " +:+ error_message c
  | ErrFailure _ _ c => error_message c
  end.

(** Foreign keys. *)
Definition has_application (db : database) (id : Z) : bool :=
  existsb (fun a => a_ID a =? id) (t_applications db).
Definition has_deployment (db : database) (id : Z) : bool :=
  existsb (fun r => r_id r =? id) (t_deployments db).
Definition has_user (db : database) (id : Z) : bool :=
  existsb (fun u => u_id u =? id) (t_users db).

(** ** What a query scans into a [Deployment] *)

(** The columns every deployment query reads. *)
Definition scan_release (r : deployment_row) : Deployment :=
  MkDeployment (r_id r) (r_application_id r) (r_status r) (r_image r) (r_requested_ref r)
    (r_source_revision r) (r_source_fingerprint r) (r_artifact_digest r) (r_runtime r)
    (r_internal_port r) (r_health_endpoint r) (r_manifest r) (r_configuration_digest r)
    (r_failure_stage r) (r_failure_code r) (r_failure_detail r) (r_log_path r)
    (r_started_at r) (scanNullTime (r_finished_at r)) (r_action r) 0 0 0 0
    (r_queue_duration_ms r) (r_source_duration_ms r) (r_build_duration_ms r)
    (r_start_duration_ms r) (r_health_duration_ms r) (r_route_duration_ms r)
    (r_current_stage r).

(** The same with the attempt, the lease and the cancellation request. *)
Definition scan_deployment (r : deployment_row) : Deployment :=
  (scan_release r)
    <| d_Attempt := r_attempt r |>
    <| d_HeartbeatAt := scanNullTime (r_heartbeat_at r) |>
    <| d_LeaseExpiresAt := scanNullTime (r_lease_expires_at r) |>
    <| d_CancellationRequestedAt := scanNullTime (r_cancellation_requested_at r) |>.
