(* ===== verification/Executor.v ===== *)
(** * The deployment executor (internal/deploy/executor.go): configuration and helpers

    Failures, timeouts, runtime selection, Docker preconditions, source containment,
    argument validation, environment files, parsers of the container tools.  The Docker
    switch is in file BlueGreen, the Caddy client in file Proxy, the release itself in
    file Release. *)

From S2P Require Import Prelude GoStrings Json Net Host Templates StoreTypes.

(** ** Failures *)

(** [failure]: nil stays nil, so it is only applied to an error. *)
Definition failure (stage code : string) (err : error) : error := ErrFailure stage code err.

(** [if err := m; err != nil { return failure(stage, code, err) }]. *)
Definition or_failure {S A} (stage code : string) (m : M S A) : M S A :=
  catch m (fun err => fail (failure stage code err)).

(** [errors.As(err, &classified)]: the outermost failure of the chain. *)
Fixpoint as_failure (e : error) : option (string * string * error) :=
  match e with
  | ErrFailure stage code cause => Some (stage, code, cause)
  | ErrWrap _ cause => as_failure cause
  | _ => None
  end.

Definition FailureDetails (err : option error) : string * string * string :=
  match err with
  | None => ("", "", "")
  | Some e =>
    match as_failure e with
    | Some (stage, code, cause) => (stage, code, error_message cause)
    | None => ("start", "runtime_error", error_message e)
    end
  end.

Definition errorDetail (err : option error) : string :=
  match err with None => "" | Some e => error_message e end.

(** ** Configuration *)

Record Executor := MkExecutor {
  WorkspacePath : string; LogPath : string; Network : string; NetworkSubnet : string;
  Runtime : string; LocalRepositoriesPath : string; GitHubAppID : string;
  GitHubAppPrivateKeyPath : string; GitHubAPIURL : string; ProxyURL : string;
  CaddyAdminURL : string; ProxyExpectedStatus : Z; ProxyExpectedContent : string;
  SourceTimeout : Duration; BuildTimeout : Duration; StartTimeout : Duration;
  HealthTimeout : Duration; WorkspaceMaxBytes : Z }.

Definition sourceTimeout (e : Executor) : Duration :=
  if 0 <? SourceTimeout e then SourceTimeout e else 5 * Minute.
Definition buildTimeout (e : Executor) : Duration :=
  if 0 <? BuildTimeout e then BuildTimeout e else 20 * Minute.
Definition startTimeout (e : Executor) : Duration :=
  if 0 <? StartTimeout e then StartTimeout e else 2 * Minute.
Definition healthTimeout (e : Executor) : Duration :=
  if 0 <? HealthTimeout e then HealthTimeout e else 30 * Second.

Record DeploymentConfiguration := MkDeploymentConfiguration {
  dc_Runtime : gmap string string; dc_BuildArgs : gmap string string;
  dc_BuildSecrets : gmap string string; dc_PublicRuntime : gmap string string;
  dc_EffectiveRuntimeConfiguration : string; dc_ConfigurationDigest : string;
  dc_ReuseImage : string; dc_ReuseSourceRevision : string; dc_ReuseSourceFingerprint : string }.
#[export] Instance DeploymentConfiguration_eta : Eta DeploymentConfiguration := fun c =>
  MkDeploymentConfiguration (dc_Runtime c) (dc_BuildArgs c) (dc_BuildSecrets c)
    (dc_PublicRuntime c) (dc_EffectiveRuntimeConfiguration c) (dc_ConfigurationDigest c)
    (dc_ReuseImage c) (dc_ReuseSourceRevision c) (dc_ReuseSourceFingerprint c).
Definition DeploymentConfiguration0 : DeploymentConfiguration :=
  MkDeploymentConfiguration ∅ ∅ ∅ ∅ "" "" "" "" "".

(** [NonSecretRuntimeConfiguration]: the public values as JSON. *)
Definition NonSecretRuntimeConfiguration (values : gmap string string) : string :=
  marshal (json_of_map values).

(** [PublicConfigurationDigest], given SHA-256 in hexadecimal. *)
Definition PublicConfigurationDigest (sha256 : string -> string)
    (runtime buildArgs : gmap string string) : string :=
  "sha256:" +:+ sha256 (marshal (JObj [("build_args", json_of_map buildArgs);
                                       ("runtime", json_of_map runtime)])).

Record ReleaseResult := MkReleaseResult {
  rr_Image : string; rr_SourceRevision : string; rr_SourceFingerprint : string;
  rr_ArtifactDigest : string; rr_Runtime : string; rr_ObservedContainerID : string }.
#[export] Instance ReleaseResult_eta : Eta ReleaseResult := fun r =>
  MkReleaseResult (rr_Image r) (rr_SourceRevision r) (rr_SourceFingerprint r)
    (rr_ArtifactDigest r) (rr_Runtime r) (rr_ObservedContainerID r).
Definition ReleaseResult0 : ReleaseResult := MkReleaseResult "" "" "" "" "" "".

(** Evidence of an HTTP request through the proxy. *)
Record RouteProbe := MkRouteProbe {
  rp_Success : bool; rp_StatusCode : Z; rp_CheckedAt : Time; rp_Observer : string;
  rp_Detail : string }.
#[export] Instance RouteProbe_eta : Eta RouteProbe := fun p =>
  MkRouteProbe (rp_Success p) (rp_StatusCode p) (rp_CheckedAt p) (rp_Observer p) (rp_Detail p).

Record ContainerStatus := MkContainerStatus {
  cs_State : string; cs_Health : string; cs_Image : string; cs_StartedAt : string;
  cs_CPU : string; cs_Memory : string }.
#[export] Instance ContainerStatus_eta : Eta ContainerStatus := fun s =>
  MkContainerStatus (cs_State s) (cs_Health s) (cs_Image s) (cs_StartedAt s) (cs_CPU s) (cs_Memory s).
Definition ContainerStatus0 : ContainerStatus := MkContainerStatus "" "" "" "" "" "".

Record RuntimeDiagnostic := MkRuntimeDiagnostic {
  rd_Name : string; rd_Detail : string; rd_SetupCommand : string;
  rd_Installed : bool; rd_Ready : bool }.

(** ** Pure helpers *)

Definition newline : ascii := "010".
Definition tab : ascii := "009".

(** [sortedNames]: the keys of a Go map in byte order. *)
Definition sortedNames (values : gmap string string) : list string :=
  order_by_name (fun x => x) (map fst (map_to_list values)).

(** [hex.DecodeString] of 40 digits. *)
Definition isCommitSHA (value : string) : bool :=
  (String.length value =? 40)%nat && all_string is_hex value.

(** Keeps the automatic choice aligned with the supported exposure path. *)
Definition selectRuntime (wanted : string) (available : gmap string bool) : result string :=
  let is_available name := default false (available !! name) in
  if (wanted =? "auto")%string then
    if is_available "docker" then Ok "docker"
    else Err (ErrMsg "Docker is the only supported runtime; Apple Container is experimental until it implements equivalent route and health verification")
  else if (wanted =? "apple")%string then
    Err (ErrMsg "Apple Container is experimental and cannot create a supported release: route, health, digest, metrics and retention verification are unavailable")
  else if negb (is_available wanted) then
    Err (ErrMsg ("requested runtime " +:+ quote wanted +:+ " is not available"))
  else Ok wanted.

Definition containerAppRoot (status : string) : string :=
  default "" (head (omap (fun line =>
    let line := trim_space line in
    if has_prefix line "appRoot" then Some (trim_space (trim_prefix line "appRoot")) else None)
    (split_on newline status))).

Definition parseContainerInspect (output : string) : result ContainerStatus :=
  match split_on tab (trim_space output) with
  | [state; health; image; started] =>
    if (state =? "")%string || (image =? "")%string
    then Err (ErrMsg "unexpected docker inspect output")
    else Ok (MkContainerStatus state health image started "" "")
  | _ => Err (ErrMsg "unexpected docker inspect output")
  end.

Definition parseContainerStats (output : string) : result (string * string) :=
  match split_on tab (trim_space output) with
  | [cpu; memory] =>
    if (cpu =? "")%string || (memory =? "")%string
    then Err (ErrMsg "unexpected docker stats output")
    else Ok (cpu, memory)
  | _ => Err (ErrMsg "unexpected docker stats output")
  end.

(** *** Container arguments *)

Definition forbidden (code text : string) : error := failure "start" code (ErrMsg text).

(** One step of the loop: the argument and the ones after it. *)
Definition forbidden_arg (arg : string) (rest : list string) : option error :=
  let is_flag name := (arg =? name)%string || has_prefix arg (name +:+ "=") in
  if is_flag "--privileged"
  then Some (forbidden "forbidden_privileged_mode" "privileged mode is forbidden")
  else if is_flag "--device"
  then Some (forbidden "forbidden_device_mapping" "device mapping is forbidden")
  else if is_flag "--cap-add"
  then Some (forbidden "forbidden_cap_add" "additional capabilities are forbidden")
  else if is_flag "--security-opt"
  then Some (forbidden "forbidden_security_opt" "custom security options are forbidden")
  else if (arg =? "-v")%string || is_flag "--volume"
  then Some (forbidden "forbidden_host_mount" "host volume mounts are forbidden")
  else if ((arg =? "--net")%string || is_flag "--network")
          && (contains arg "host" || match rest with next :: _ => (next =? "host")%string | [] => false end)
  then Some (forbidden "forbidden_host_network" "host network mode is forbidden")
  else None.

Fixpoint ValidateDockerContainerSecurityArgs (args : list string) : result unit :=
  match args with
  | [] => Ok tt
  | arg :: rest =>
    match forbidden_arg arg rest with
    | Some err => Err err
    | None => ValidateDockerContainerSecurityArgs rest
    end
  end.

(** The arguments of [docker run] before the environment file and the image. *)
Definition container_flags (e : Executor) (application : Application) (container : string)
    : list string :=
  ["run"; "--detach"; "--name"; container; "--restart"; "unless-stopped"; "--network"; Network e;
   "--label"; "minidock.application=" +:+ itoa (a_ID application)]
  ++ match For (a_Type application) with
     | Some template => ["--cpus"; t_CPUs template; "--memory"; t_Memory template]
     | None => []
     end.

(** *** Environment files *)

Definition line_break (c : ascii) : bool :=
  Ascii.eqb c "000" || Ascii.eqb c "013" || Ascii.eqb c "010".

(** The contents of the file, or the name of the first entry that is refused. *)
Fixpoint env_lines (environment : gmap string string) (names : list string) : result string :=
  match names with
  | [] => Ok ""
  | name :: names =>
    let value := default "" (environment !! name) in
    if negb (safeEnvironmentName name) || negb (all_string (fun c => negb (line_break c)) value)
    then Err (ErrMsg ("invalid runtime environment entry " +:+ quote name))
    else rest ← env_lines environment names;
         Ok (name +:+ "=" +:+ value +:+ String newline "" +:+ rest)
  end.

(** *** The Docker network *)

Record dockerNetworkInspection := MkNetworkInspection {
  ni_Name : string; ni_Driver : string; ni_Internal : bool; ni_Subnets : list string }.

Definition decode_subnet : decoder string := fun s j =>
  kvs ← members j; decode_field "Subnet" decode_text s kvs.
Definition decode_ipam : decoder (list string) := fun l j =>
  kvs ← members j; decode_field "Config" (decode_list "" decode_subnet) l kvs.
Definition decode_network : decoder dockerNetworkInspection := fun n j =>
  kvs ← members j;
  name ← decode_field "Name" decode_text (ni_Name n) kvs;
  driver ← decode_field "Driver" decode_text (ni_Driver n) kvs;
  internal ← decode_field "Internal" decode_bool (ni_Internal n) kvs;
  subnets ← decode_field "IPAM" decode_ipam (ni_Subnets n) kvs;
  Some (MkNetworkInspection name driver internal subnets).

(** [output] is what [docker network inspect] printed. *)
Definition validateDockerNetwork (output : string) (name subnet : string) : result unit :=
  match (parse output ≫= decode_list (MkNetworkInspection "" "" false []) decode_network []) with
  | Some [network] =>
    if negb (ni_Name network =? name)%string || negb (ni_Driver network =? "bridge")%string
       || negb (ni_Internal network)
    then Err (ErrMsg ("Docker network " +:+ quote name +:+ " must be an internal bridge"))
    else if (subnet =? "")%string then Ok tt
    else if existsb (fun s => (s =? subnet)%string) (ni_Subnets network) then Ok tt
    else Err (ErrMsg ("Docker network " +:+ quote name +:+ " must use subnet " +:+ subnet))
  | _ => Err (ErrMsg ("inspect Docker network " +:+ quote name +:+ ": invalid response"))
  end.

(** *** Source evidence *)

(** The regular files below a directory with their path relative to it, [.git]
    directories skipped. *)
Definition relative (prefix name : string) : string :=
  if (prefix =? "")%string then name else prefix +:+ "/" +:+ name.

Fixpoint regular_files (prefix : string) (t : entry) : list (string * string) :=
  match t with
  | File name contents => [(relative prefix name, contents)]
  | Other _ => []
  | Dir name entries =>
    if (name =? ".git")%string then []
    else flat_map (regular_files (relative prefix name)) entries
  end.

(** The tree of the root itself: its entries are relative to it. *)
Definition walk_files (root : entry) : list (string * string) :=
  match root with
  | Dir name entries =>
    if (name =? ".git")%string then [] else flat_map (regular_files "") entries
  | File _ contents => [(".", contents)]
  | Other _ => []
  end.

Definition directory_size (root : entry) : Z :=
  foldr (fun f n => Z.of_nat (String.length f.2) + n) 0 (walk_files root).

(** What is hashed: each path, a zero byte and the contents, in path order. *)
Definition fingerprint_input (root : entry) : string :=
  foldr (fun f s => f.1 +:+ String "000" (f.2 +:+ s)) "" (order_by_name fst (walk_files root)).

(** ** What the argument validation guarantees *)

Definition flag_of (name arg : string) : bool := (arg =? name)%string || has_prefix arg (name +:+ "=").

(** Flags that grant a container more than its own file system. *)
Definition dangerous (arg : string) : bool :=
  flag_of "--privileged" arg || flag_of "--device" arg || flag_of "--cap-add" arg
  || flag_of "--security-opt" arg || (arg =? "-v")%string || flag_of "--volume" arg.
Definition network_flag (arg : string) : bool := (arg =? "--net")%string || flag_of "--network" arg.

Lemma forbidden_arg_none arg rest :
  forbidden_arg arg rest = None <->
  dangerous arg = false
  /\ (network_flag arg = true -> contains arg "host" = false /\ hd_error rest <> Some "host").
Proof.
  unfold forbidden_arg, dangerous, network_flag, flag_of.
  repeat match goal with |- context [if ?b then Some _ else _] =>
    lazymatch b with
    | _ && _ => fail
    | _ => destruct b eqn:?; simpl; [split; [done|]; intros [? _]; try done|]
    end end.
  all: rewrite ?orb_true_r in *; try done.
  destruct ((arg =? "--net")%string || _); simpl; [|by split].
  destruct (contains arg "host"); simpl; [split; [done|by intros [_ [? _]]]|].
  destruct rest as [|next rest]; simpl; [by split|].
  destruct (String.eqb_spec next "host") as [->|Hn]; split; try done.
  - by intros [_ [_ ?]].
  - intros _. split; [done|]. intros _. split; [done|]. by intros [= ->].
Qed.

(** The validation accepts an argument list exactly when no argument asks for
    privileges, devices, capabilities, security options or volumes, no network flag
    names the host, and none is followed by [host]. *)
Theorem validator_exact args :
  ValidateDockerContainerSecurityArgs args = Ok tt <->
  forall before arg rest, args = before ++ arg :: rest ->
    dangerous arg = false
    /\ (network_flag arg = true -> contains arg "host" = false /\ hd_error rest <> Some "host").
Proof.
  induction args as [|a args IH].
  - split; [|done]. intros _ before arg rest E. by destruct before.
  - cbn [ValidateDockerContainerSecurityArgs]. destruct (forbidden_arg a args) eqn:E.
    + split; [done|]. intros H. specialize (H [] a args eq_refl).
      apply forbidden_arg_none in H. congruence.
    + apply forbidden_arg_none in E. rewrite IH. split.
      * intros H [|b before] arg rest [= <- E']; [by subst|]. by apply (H before arg rest).
      * intros H before arg rest ->. by apply (H (a :: before)).
Qed.

(** Bind mounts written as [--mount], and the [-v=] and [--pid=host] forms, pass
    the validation that is meant to keep host mounts out. *)
Theorem validator_misses_mounts image :
  dangerous image = false -> network_flag image = false ->
  ValidateDockerContainerSecurityArgs
    ["run"; "--mount"; "type=bind,source=/,target=/mnt"; "-v=/:/mnt"; "--pid=host"; image] = Ok tt.
Proof.
  intros Hd Hn. cbn [ValidateDockerContainerSecurityArgs]. simpl.
  by rewrite (proj2 (forbidden_arg_none image [])) by (rewrite Hd, Hn; done).
Qed.

Lemma validator_misses_mounts_witness :
  ValidateDockerContainerSecurityArgs
    ["run"; "--mount"; "type=bind,source=/,target=/mnt"; "-v=/:/mnt"; "--pid=host"; "img"] = Ok tt.
Proof. exact (validator_misses_mounts "img" eq_refl eq_refl). Defined.

(** ** Environment files *)

Lemma cut_first_name (a : ascii) n v :
  all_string (fun c => negb (Ascii.eqb c a)) n = true -> cut_first a (n +:+ String a v) = Some (n, v).
Proof.
  induction n as [|c n IH]; simpl; [by rewrite Ascii.eqb_refl|].
  intros [Hc Hn]%andb_prop. apply negb_true_iff in Hc. by rewrite Hc, IH.
Qed.

(** A character that is not in a class the name pattern allows. *)
Lemma env_name_avoids (a : ascii) name :
  env_head a || is_digit a = false ->
  safeEnvironmentName name = true -> all_string (fun c => negb (Ascii.eqb c a)) name = true.
Proof.
  intros Ha. destruct name as [|c s]; [done|]. simpl. intros [Hc Hs]%andb_prop.
  assert (forall d, env_head d || is_digit d = true -> negb (Ascii.eqb d a) = true) as Hd.
  { intros d Hd. apply negb_true_iff. destruct (Ascii.eqb_spec d a) as [->|]; [congruence|done]. }
  rewrite (Hd c) by (by rewrite Hc). simpl. by apply (all_string_impl _ _ s Hd).
Qed.

(** The line of a variable. *)
Definition env_line (environment : gmap string string) (name : string) : string :=
  name +:+ "=" +:+ default "" (environment !! name).

Lemma env_line_whole environment name :
  safeEnvironmentName name = true ->
  all_string (fun c => negb (line_break c)) (default "" (environment !! name)) = true ->
  all_string (fun c => negb (Ascii.eqb c newline)) (env_line environment name) = true.
Proof.
  intros Hn Hv. unfold env_line. rewrite !all_string_append, (env_name_avoids newline name) by done. simpl.
  apply (all_string_impl (fun c => negb (line_break c))); [|done].
  intros c Hc. apply negb_true_iff. apply negb_true_iff in Hc. unfold line_break in Hc.
  by apply orb_false_elim in Hc as [_ Hc].
Qed.

Lemma env_lines_split environment names text :
  env_lines environment names = Ok text ->
  split_on newline text = map (env_line environment) names ++ [""]
  /\ Forall (fun n => safeEnvironmentName n = true) names.
Proof.
  revert text. induction names as [|n names IH]; intros text; simpl; [by intros [= <-]|].
  destruct (negb (safeEnvironmentName n)) eqn:En; simpl; [done|].
  destruct (negb (all_string _ _)) eqn:Ev; [done|].
  destruct (env_lines environment names) as [rest|] eqn:Er; [|done]. intros [= <-]. bools.
  destruct (IH rest eq_refl) as [Es Hs]. split; [|by constructor]. rewrite <- Es.
  refine (eq_trans _ (split_line newline (env_line environment n) rest (env_line_whole _ _ _ _))); [|done..].
  f_equal. unfold env_line. simpl. by rewrite <- !append_assoc.
Qed.

Lemma sortedNames_In environment x : In x (sortedNames environment) <-> is_Some (environment !! x).
Proof.
  unfold sortedNames, order_by_name. rewrite <- list_elem_of_In.
  rewrite (merge_sort_Permutation (by_name (fun x => x))), list_elem_of_In, in_map_iff. split.
  - intros ((k & w) & <- & Hk). apply list_elem_of_In, elem_of_map_to_list in Hk. by eexists.
  - intros [w Hw]. exists (x, w). split; [done|]. by apply list_elem_of_In, elem_of_map_to_list.
Qed.

(** C40: no value can add a line to the environment file.  The file written for an accepted
    environment has one line for each variable, in the order of the names, and an empty end; and
    the lines, cut at their first [=], are exactly the variables with their values. *)
Theorem env_file_lines environment text :
  env_lines environment (sortedNames environment) = Ok text ->
  split_on newline text = map (env_line environment) (sortedNames environment) ++ [""]
  /\ forall n v, environment !! n = Some v
       <-> exists line, In line (split_on newline text) /\ cut_first "=" line = Some (n, v).
Proof.
  intros [E Hs]%env_lines_split. split; [done|]. intros n v. rewrite E. rewrite Forall_forall in Hs.
  assert (forall x, In x (sortedNames environment) ->
    cut_first "=" (env_line environment x) = Some (x, default "" (environment !! x))) as Hcut.
  { intros x Hx%list_elem_of_In%Hs. apply cut_first_name. by apply env_name_avoids. }
  split.
  - intros Hv. assert (In n (sortedNames environment)) as Hn by (apply sortedNames_In; by eexists).
    exists (env_line environment n). split; [apply in_or_app; left; by apply in_map|]. by rewrite Hcut, Hv.
  - intros (line & [(x & <- & Hx)%in_map_iff|[<-|[]]]%in_app_or & Hl); [|done].
    rewrite Hcut in Hl by done. injection Hl as <- <-. apply sortedNames_In in Hx as [u Hu]. by rewrite Hu.
Qed.

Lemma env_file_lines_witness :
  exists line, In line (split_on newline ("A=1" +:+ String newline ("B=x=y" +:+ String newline "")))
    /\ cut_first "=" line = Some ("B", "x=y").
Proof. apply (env_file_lines (<["B" := "x=y"]> {["A" := "1"]})); reflexivity. Defined.

(** ** Source fingerprints *)

(** The fingerprint of a source tree is ambiguous: a file whose contents imitate
    the framing has the same digest input as two files. *)
Theorem fingerprint_ambiguous path1 path2 contents :
  String.leb path1 path2 = true ->
  fingerprint_input (Dir "w" [File path1 ""; File path2 contents])
  = fingerprint_input (Dir "w" [File path1 (path2 +:+ String "000" contents)]).
Proof.
  intros H. unfold fingerprint_input, walk_files, order_by_name, merge_sort. simpl.
  unfold by_name at 1. simpl. rewrite decide_True by done. simpl.
  by rewrite !append_nil_r.
Qed.

Lemma fingerprint_ambiguous_witness :
  fingerprint_input (Dir "w" [File "a" ""; File "b" "x"])
  = fingerprint_input (Dir "w" [File "a" ("b" +:+ String "000" "x")]).
Proof. exact (fingerprint_ambiguous "a" "b" "x" eq_refl). Defined.
