(* ===== verification/Views.v ===== *)
(** * What the pages show (internal/app/views)

    The data each component of the panel is given.  A reply names its component and holds
    this data; what the component writes is in Components.v.  A float64 is a fraction. *)

From S2P Require Import Prelude GoStrings StoreTypes Executor.

(** [PreflightItem] and [HostReadinessItem] have the same fields. *)
Record PreflightItem := MkPreflightItem {
  pf_Name : string; pf_OK : bool; pf_Details : string; pf_Impact : string; pf_Action : string }.

Record HostReadinessData := MkHostReadiness {
  hd_AllOK : bool; hd_Docker : PreflightItem; hd_Caddy : PreflightItem;
  hd_Network : PreflightItem; hd_DiskSpace : PreflightItem }.

Record PreflightCheckResult := MkPreflightCheck {
  pc_AllOK : bool; pc_Docker : PreflightItem; pc_Caddy : PreflightItem; pc_Network : PreflightItem;
  pc_DiskSpace : PreflightItem; pc_RepoAccess : PreflightItem; pc_DomainHealth : PreflightItem }.

Record PhaseStatus := MkPhaseStatus {
  ph_Number : Z; ph_Name : string; ph_State : string; ph_Next : string }.

Record DashboardData := MkDashboard {
  db_Environment : string; db_Applications : list StoreTypes.Application; db_Nodes : list Node;
  db_Phase : PhaseStatus; db_CSRFToken : string; db_HostReadiness : HostReadinessData }.

Record ApplicationFormData := MkApplicationForm {
  af_Application : StoreTypes.Application; af_CSRFToken : string; af_Error : string;
  af_HostReadiness : HostReadinessData }.

(** The six stages of the last deployment, each a state and a message. *)
Record PipelineStatus := MkPipeline {
  pl_Deployment : Deployment; pl_HasDeployment : bool; pl_PreflightFailed : bool;
  pl_Step1 : string * string; pl_Step2 : string * string; pl_Step3 : string * string;
  pl_Step4 : string * string; pl_Step5 : string * string; pl_Step6 : string * string }.
#[export] Instance PipelineStatus_eta : Eta PipelineStatus := fun p =>
  MkPipeline (pl_Deployment p) (pl_HasDeployment p) (pl_PreflightFailed p)
    (pl_Step1 p) (pl_Step2 p) (pl_Step3 p) (pl_Step4 p) (pl_Step5 p) (pl_Step6 p).

Record ApplicationDetailData := MkApplicationDetail {
  ad_Application : StoreTypes.Application; ad_Deployments : list Deployment;
  ad_DeployedVersion : string; ad_Container : ContainerStatus; ad_ContainerError : string;
  ad_LogPreview : string; ad_LogPreviewError : string; ad_RuntimeNotice : string;
  ad_Phase : PhaseStatus; ad_Pipeline : PipelineStatus; ad_CSRFToken : string;
  ad_HasSecrets : bool; ad_HealthEvidence : HealthEvidenceT; ad_Preflight : PreflightCheckResult;
  ad_Notice : string; ad_Error : string }.

Record DiffField := MkDiffField {
  df_Name : string; df_Current : string; df_Previous : string; df_Changed : bool }.
Record DeploymentDiffData := MkDeploymentDiff {
  dd_Application : StoreTypes.Application; dd_Deployment : Deployment; dd_Previous : Deployment;
  dd_HasPrevious : bool; dd_Fields : list DiffField; dd_CSRFToken : string }.

Record OperationApplication := MkOperationApplication {
  oa_Application : StoreTypes.Application; oa_Deployment : Deployment; oa_HasDeployment : bool;
  oa_Container : ContainerStatus; oa_Unavailable : string; oa_Health : HealthEvidenceT }.
#[export] Instance OperationApplication_eta : Eta OperationApplication := fun o =>
  MkOperationApplication (oa_Application o) (oa_Deployment o) (oa_HasDeployment o)
    (oa_Container o) (oa_Unavailable o) (oa_Health o).
Record OperationsData := MkOperations {
  od_Applications : list OperationApplication; od_Alerts : list AlertRow;
  od_ResolvedAlerts : list AlertRow; od_DiskUsed : string; od_DiskSLOCompliant : bool;
  od_DiskBudgetPercent : Z; od_BuildSLOPercent : Z * Z; od_BuildSLOLimitMinutes : Z;
  od_BuildSLOCompliant : bool; od_RoutingSLOPercent : Z * Z; od_RoutingSLOCompliant : bool;
  od_RetentionDays : Z; od_RetainedImages : Z; od_CleanupSchedule : string; od_CSRFToken : string;
  od_LastBackupSuccess : string; od_LastBackupError : string; od_BackupAge : string;
  od_LastRestoreTest : string }.

Record CleanupCandidateInfo := MkCleanupCandidate {
  cc_ApplicationName : string; cc_DeploymentID : Z; cc_Image : string; cc_LogPath : string;
  cc_LogSize : string; cc_AgeDays : Z }.
Record OperationsCleanupPreviewData := MkCleanupPreview {
  cp_Candidates : list CleanupCandidateInfo; cp_TotalLogsSize : string; cp_TotalImages : Z;
  cp_RetentionDays : Z; cp_RetainedImages : Z; cp_CSRFToken : string }.

Record SecretsData := MkSecrets {
  sd_Application : StoreTypes.Application; sd_Environment : string; sd_Target : string;
  sd_Secrets : list SecretMetadata; sd_Config : list Configuration; sd_Audit : list SecretAuditT;
  sd_Error : string; sd_CSRFToken : string }.

Record ApplicationCloudflareInfo := MkCloudflareInfo {
  ci_App : StoreTypes.Application; ci_ExpectedCNAME : string; ci_ResolvedCNAME : string;
  ci_IsPropagated : bool; ci_StatusBadge : string }.
Record CloudflareData := MkCloudflareData {
  cd_Config : CloudflareConfigT; cd_Apps : list ApplicationCloudflareInfo; cd_ConnectorStatus : string;
  cd_CSRFToken : string; cd_NoticeMessage : string; cd_ErrorMessage : string }.

(** The components the handlers render. *)
Inductive Component :=
  | SetupView (errMsg : string)
  | UnlockView (errMsg : string)
  | DashboardView (data : DashboardData)
  | ApplicationFormView (data : ApplicationFormData)
  | ApplicationDetailView (data : ApplicationDetailData)
  | DeploymentDiffView (data : DeploymentDiffData)
  | OperationsView (data : OperationsData)
  | OperationsCleanupPreviewView (data : OperationsCleanupPreviewData)
  | SecretsView (data : SecretsData)
  | CloudflareDashboardView (data : CloudflareData).
