(* ===== verification/Hub.v ===== *)
(** * The server process (internal/app/server.go: App)

    What the process owns: the database, the machine and the log of the current job, the
    master key while it is unlocked, and the sessions.  A handler is a computation on this
    state that ends in its HTTP reply.  Random bytes are arguments of the handlers. *)

From S2P Require Import Prelude GoStrings StoreTypes Host Config Executor Views.

(** What the last collection found. *)
Record cache := Cache {
  statusCache : gmap Z ContainerStatus; statusCacheErr : gmap Z string;
  certAlertsCache : gmap Z string; diskUsedCache : string;
  alertsCache : list (string * string) }.
Definition cache0 : cache := Cache ∅ ∅ ∅ "" [].

Record hub (H : Type) := Hub {
  hub_db : database;
  hub_site : site H;
  hub_key : string;
  hub_sessions : gmap string Time;
  hub_cache : cache }.
Arguments Hub {H} _ _ _ _ _.
Arguments hub_db {H} _.
Arguments hub_site {H} _.
Arguments hub_key {H} _.
Arguments hub_sessions {H} _.
Arguments hub_cache {H} _.
#[export] Instance hub_eta {H} : Eta (hub H) := fun a =>
  Hub (hub_db a) (hub_site a) (hub_key a) (hub_sessions a) (hub_cache a).

Abbreviation AM H := (M (hub H)).

(** What a handler answers: [w.WriteHeader], [http.Error], [http.Redirect] with 303, a body
    it writes, or a rendered component with its status; [Retry-After] and the session cookie,
    set or removed, are the other headers that depend on the state. *)
Inductive Reply :=
  | Status (code : Z)
  | HTTPError (code : Z) (text : string)
  | SeeOther (location : string)
  | Page (code : Z) (body : string)
  | Render (code : Z) (component : Component)
  | TooManyRequests (retryAfter : Z) (text : string)
  | WithCookie (session : string) (expires : Time) (secure : bool) (reply : Reply)
  | WithoutCookie (secure : bool) (reply : Reply).

Fixpoint reply_code (r : Reply) : Z :=
  match r with
  | WithCookie _ _ _ reply | WithoutCookie _ reply => reply_code reply
  | Status code | HTTPError code _ | Page code _ | Render code _ => code
  | SeeOther _ => 303
  | TooManyRequests _ _ => 429
  end.

Section hub.
Context {H : Type}.

Definition on_db {A} (m : DB A) : AM H A :=
  zoom hub_db (fun db a => a <| hub_db := db |>) m.
Definition on_site {A} (m : EM H A) : AM H A :=
  zoom hub_site (fun s a => a <| hub_site := s |>) m.

(** A read or a change of the fields guarded by [a.mu]: no fault. *)
Definition peek {A} (f : hub H -> A) : AM H A := fun w => (Ok (f (w_state w)), w).
Definition poke (f : hub H -> hub H) : AM H unit := fun w => (Ok tt, set_state (f (w_state w)) w).

(** [if err := m; err != nil { reply; return }]. *)
Definition or_reply {A} (m : AM H A) (r : Reply) (k : A -> AM H Reply) : AM H Reply :=
  a ← attempt m; match a with Ok a => k a | Err _ => mret r end.

Definition keyCopy : AM H string := peek hub_key.
Definition is_locked : AM H bool := peek (fun a => (hub_key a =? "")%string).

(** ** Reasoning *)

(** A relation of databases that ignores the rest of the process. *)
Definition on_database (R : relation database) : relation (hub H) :=
  fun a b => R (hub_db a) (hub_db b).
#[local] Instance on_database_preorder' R `{!PreOrder R} : PreOrder (on_database R).
Proof. split; unfold on_database; [intros x; reflexivity|intros x y z; apply transitivity]. Qed.

Section database.
Context (R : relation database) `{!PreOrder R}.

Lemma evolves_on_db {A} (m : DB A) : evolves R m -> evolves (on_database R) (on_db m).
Proof. by apply evolves_zoom. Qed.
Lemma evolves_on_site {A} (m : EM H A) : evolves (on_database R) (on_site m).
Proof.
  apply (evolves_zoom _ _ (fun _ _ => True)); [|done]. intros s t _. unfold on_database. reflexivity.
Qed.
Lemma evolves_peek {A} (f : hub H -> A) : evolves (on_database R) (peek f).
Proof. intros w. unfold on_database. simpl. reflexivity. Qed.
Lemma evolves_poke f : (forall a, hub_db (f a) = hub_db a) -> evolves (on_database R) (poke f).
Proof. intros Hf w. unfold on_database. simpl. by rewrite Hf. Qed.
Lemma evolves_or_reply {A} (m : AM H A) r k :
  evolves (on_database R) m -> (forall a, evolves (on_database R) (k a)) ->
  evolves (on_database R) (or_reply m r k).
Proof.
  intros Hm Hk. apply evolves_bind; [exact _|by apply evolves_attempt|].
  intros [a|e]; [apply Hk|]. apply evolves_ret. exact _.
Qed.
End database.

Lemma on_db_run {A} (m : DB A) (w : world (hub H)) r w' :
  on_db m w = (r, w') ->
  exists v, m (part hub_db w) = (r, v) /\ w_state w' = (w_state w) <| hub_db := w_state v |>
    /\ w_faults w' = w_faults v /\ w_clock w' = w_clock v /\ w_ticks w' = w_ticks v.
Proof. apply zoom_run. Qed.

Lemma on_site_run {A} (m : EM H A) (w : world (hub H)) r w' :
  on_site m w = (r, w') ->
  exists v, m (part hub_site w) = (r, v) /\ w_state w' = (w_state w) <| hub_site := w_state v |>
    /\ w_faults w' = w_faults v /\ w_clock w' = w_clock v /\ w_ticks w' = w_ticks v.
Proof. apply zoom_run. Qed.
End hub.

(** A handler that leaves a relation does so after its first part succeeded. *)
Section escapes.
Context {H : Type} (Q P : relation (hub H)) `{!PreOrder Q} (HQP : forall a b, Q a b -> P a b).

Lemma escapes_or_reply {A} s (m : AM H A) r (k : A -> AM H Reply) w :
  evolves Q m -> Q s (w_state w) -> escapes P s (or_reply m r k) w ->
  exists a w1, m w = (Ok a, w1) /\ Q s (w_state w1) /\ escapes P s (k a) w1.
Proof.
  intros Hm Hs Hc. apply (escapes_bind Q P HQP) in Hc as ([a|err] & w1 & E%attempt_run & Hs1 & Hc);
    [by exists a, w1| |by apply evolves_attempt|done].
  by apply (escapes_evolves Q P HQP) in Hc; [|apply evolves_ret|].
Qed.

Lemma arrives_or_reply {A} s (m : AM H A) r (k : A -> AM H Reply) w :
  evolves Q m -> Q s (w_state w) ->
  (forall a w1, m w = (Ok a, w1) -> Q s (w_state w1) -> P s (w_state (snd (k a w1)))) ->
  P s (w_state (snd (or_reply m r k w))).
Proof.
  intros Hm Hs Hk. apply (arrives_bind Q P HQP); [by apply evolves_attempt|done|].
  intros [a|err] w1 E%attempt_run Hs1; [by apply Hk|]. simpl. by apply HQP.
Qed.

Lemma escapes_ret {A} s (a : A) w : Q s (w_state w) -> ~ escapes P s (mret a) w.
Proof. apply (escapes_evolves Q P HQP). by apply evolves_ret. Qed.
End escapes.

#[export] Instance on_database_preorder {H} (R : relation database) `{!PreOrder R} :
  PreOrder (on_database (H := H) R).
Proof. split; unfold on_database; [intros x; reflexivity|intros x y z; apply transitivity]. Qed.

(** Traversal of a handler: the database statements remain. *)
Ltac handle_step :=
  lazymatch goal with
  | |- evolves (on_database _) (on_db _) => refine (evolves_on_db _ _ _)
  | |- evolves (on_database _) (on_site _) => refine (evolves_on_site _ _)
  | |- evolves (on_database _) (peek _) => refine (evolves_peek _ _)
  | |- evolves (on_database _) keyCopy => refine (evolves_peek _ _)
  | |- evolves (on_database _) is_locked => refine (evolves_peek _ _)
  | |- evolves (on_database _) (poke _) => refine (evolves_poke _ _ _); intros ?; reflexivity
  | |- evolves (on_database _) (or_reply _ _ _) => refine (evolves_or_reply _ _ _ _ _ _); [|intros ?]
  | |- _ => evolve_step
  end.
Ltac handle := repeat handle_step.

(** ** [New]: the executor of a configuration *)

Definition executor_of (config : Config) : Executor := {|
  Executor.WorkspacePath := Config.WorkspacePath config;
  Executor.LogPath := Config.LogPath config;
  Executor.Network := Config.DockerNetwork config;
  Executor.NetworkSubnet := Config.DockerNetworkSubnet config;
  Executor.Runtime := Config.Runtime config;
  Executor.LocalRepositoriesPath := Config.LocalRepositoriesPath config;
  Executor.GitHubAppID := Config.GitHubAppID config;
  Executor.GitHubAppPrivateKeyPath := Config.GitHubAppPrivateKeyPath config;
  Executor.GitHubAPIURL := Config.GitHubAPIURL config;
  Executor.ProxyURL := Config.ProxyURL config;
  Executor.CaddyAdminURL := Config.CaddyAdminURL config;
  Executor.ProxyExpectedStatus := Config.ProxyExpectedStatus config;
  Executor.ProxyExpectedContent := Config.ProxyExpectedContent config;
  Executor.SourceTimeout := Config.SourceTimeout config;
  Executor.BuildTimeout := Config.BuildTimeout config;
  Executor.StartTimeout := Config.StartTimeout config;
  Executor.HealthTimeout := Config.HealthTimeout config;
  Executor.WorkspaceMaxBytes := Config.WorkspaceMaxBytes config |}.

(** The defaults of a configuration that [LoadConfig] did not make. *)
Definition configured (config : Config) : Config :=
  let config := if Config.WebhookRateLimit config =? 0
                then config <| Config.WebhookRateLimit := 30 |> else config in
  if Config.WebhookRateWindow config =? 0
  then config <| Config.WebhookRateWindow := Minute |> else config.

(** The configuration and the executor of the new process. *)
Definition New {H} `{!Host H} (config : Config) : AM H (Config * Executor) :=
  let config := configured config in
  (if negb (Config.LocalRepositoriesPath config =? "")%string then
     catch (on_site (host_step (host_mkdir_all (Config.LocalRepositoriesPath config))))
       (fun err => fail (ErrWrap "create local repositories directory" err))
   else mret tt) ;;
  mret (config, executor_of config).
