(* ===== verification/Html.v ===== *)
(** * Pages as the generated templates write them

    A page is the sequence of what a component writes: static markup, and values that pass
    [templ.EscapeString].  A lexer of the markup, and a checker of what the lexer marks: balanced
    elements, the token of each form, where values may stand.  The escaping of values and the
    text of a list of classes belong to templ and are parameters. *)

From S2P Require Import Prelude GoStrings.

Inductive piece :=
  (** [templruntime.WriteString] *)
  | Markup (s : string)
  (** A boolean attribute, written when its condition holds. *)
  | Flag (name : string)
  | Value (s : string)
  (** The value of a field CSRFToken. *)
  | Token (s : string)
  (** [templ.SafeURL] *)
  | Link (url : string)
  (** [templ.CSSClasses]: the names, and whether each is on. *)
  | Classes (names : list (string * bool)).
Definition page := list piece.

Definition markup (s : string) : page := [Markup (raw s)].
Definition line (s : string) : page := [Markup (raw s +:+ String "010" "")].
Definition flag (name : string) : page := [Flag name].
Definition text (s : string) : page := [Value s].
Definition token (s : string) : page := [Token s].
Definition link (url : string) : page := [Link url].
Definition classes (names : list (string * bool)) : page := [Classes names].

(** ** The text of a page *)

Section render.
Context (EscapeString : string -> string) (CSSClasses : list (string * bool) -> string).

Definition render_piece (p : piece) : string :=
  match p with
  | Markup s => s
  | Flag name => " " +:+ name
  | Value s | Token s | Link s => EscapeString s
  | Classes names => EscapeString (CSSClasses names)
  end.
Definition render (p : page) : string := String.concat "" (map render_piece p).
End render.

(** ** The lexer *)

(** What the name of a tag is so far: only [script] and [style] matter, whose content is raw. *)
Inductive tag_name := Naming (s : string) | Known (name : string) | Other.
(** Where the lexer is; [held] is what could be the end tag of a raw element. *)
Inductive place :=
  | Text
  | Tag (name : tag_name)
  | Quoted (name : tag_name)
  | Raw (name held : string).

(** What stands inside quotes in place of a value: a token, a safe address, or anything. *)
Inductive kind := Secret | Safe | Plain.
#[export] Instance kind_eq_dec : EqDecision kind.
Proof. solve_decision. Defined.
Inductive mark :=
  | Begin
  | Sign (c : ascii)
  | Quote
  | Letter (c : ascii)
  | Shown (k : kind)
  | Close.

Definition raw_names : list string := ["script"; "style"].
Definition is_raw (name : string) : bool := existsb (String.eqb name) raw_names.
Definition name_step (name : tag_name) (c : ascii) : tag_name :=
  match name with
  | Naming s =>
    if is_space c then (if is_raw s then Known s else Other)
    else let s := s +:+ String c "" in if existsb (fun n => has_prefix n s) raw_names then Naming s else Other
  | _ => name
  end.
(** The place after a tag of this name. *)
Definition after_tag (name : tag_name) : place :=
  match name with
  | Naming s => if is_raw s then Raw s "" else Text
  | Known s => Raw s ""
  | Other => Text
  end.

Fixpoint signs (s : string) : list mark :=
  match s with "" => [] | String c s => Sign c :: signs s end.

Definition lex_char (p : place) (c : ascii) : place * list mark :=
  match p with
  | Text => if Ascii.eqb c "<" then (Tag (Naming ""), [Begin]) else (Text, [])
  | Tag name =>
    if Ascii.eqb c ">" then (after_tag name, [Close])
    else if Ascii.eqb c dquote then (Quoted name, [Quote])
    else (Tag (name_step name c), [Sign c])
  | Quoted name =>
    if Ascii.eqb c dquote then (Tag name, [Quote]) else (Quoted name, [Letter c])
  | Raw name held =>
    let end_tag := "</" +:+ name +:+ ">" in
    let held := held +:+ String c "" in
    if (held =? end_tag)%string then (Text, Begin :: signs ("/" +:+ name) ++ [Close])
    else if has_prefix end_tag held then (Raw name held, [])
    else (Raw name (if Ascii.eqb c "<" then "<" else ""), [])
  end.

Fixpoint lex (p : place) (s : string) : place * list mark :=
  match s with
  | "" => (p, [])
  | String c s => let '(p, l) := lex_char p c in let '(p, l') := lex p s in (p, l ++ l')
  end.

(** An address inside the panel, of the same page, or of a site over TLS. *)
Definition safe_url (u : string) : bool :=
  has_prefix u "/" && negb (has_prefix u "//") || has_prefix u "?" || has_prefix u "#"
  || has_prefix u "https://".

Definition kind_of (p : piece) : kind :=
  match p with
  | Token _ => Secret
  | Link u => if safe_url u then Safe else Plain
  | _ => Plain
  end.

(** A value stands in the text or inside quotes, never in a tag, a script or a style. *)
Definition lex_piece (p : place) (x : piece) : option (place * list mark) :=
  match x with
  | Markup s => Some (lex p s)
  | Flag name =>
    match p with
    | Tag (Naming _) => None
    | Tag n => if all_string is_lower name then Some (Tag n, signs (" " +:+ name)) else None
    | _ => None
    end
  | _ =>
    match p with
    | Text => Some (Text, [])
    | Quoted n => Some (Quoted n, [Shown (kind_of x)])
    | _ => None
    end
  end.

Fixpoint lex_page (p : place) (xs : page) : option (place * list mark) :=
  match xs with
  | [] => Some (p, [])
  | x :: xs =>
    '(p, l) ← lex_piece p x;
    '(p, l') ← lex_page p xs;
    Some (p, l ++ l')
  end.

(** The tags of a page with everything but what stands inside quotes. *)
Definition structure (l : list mark) : list mark :=
  List.filter (fun m => match m with Letter _ | Shown _ => false | _ => true end) l.

(** ** The checker *)

(** A tag between its marks: its signs, and its quoted values. *)
Inductive item := ISign (c : ascii) | IValue (v : list (ascii + kind)).
Definition attribute : Type := string * list (ascii + kind).

(** The open elements; the form, and whether its token was seen; the items of the tag, last
    first.  [ck_strict] also refuses what the policy [default-src 'self'] of the panel blocks. *)
Record checker := Checker {
  ck_strict : bool; ck_open : list string; ck_form : option bool; ck_items : list item }.

Definition letters (s : string) : list (ascii + kind) := map inl (String.list_ascii_of_string s).

(** The attributes of a tag; one without a value is dropped. *)
Fixpoint attributes (name : string) (items : list item) : option (list attribute) :=
  match items with
  | [] => Some []
  | IValue _ :: _ => None
  | ISign c :: items =>
    if is_space c then attributes "" items
    else if Ascii.eqb c "=" then
      match items with
      | IValue v :: items => l ← attributes "" items; Some ((name, rev v) :: l)
      | _ => None
      end
    else attributes (name +:+ String c "") items
  end.
Fixpoint tag_of (name : string) (items : list item) : option (string * list attribute) :=
  match items with
  | [] => Some (name, [])
  | ISign c :: items =>
    if is_space c then l ← attributes "" items; Some (name, l) else tag_of (name +:+ String c "") items
  | IValue _ :: _ => None
  end.

Definition has_attribute (name : string) (value : list (ascii + kind)) (l : list attribute) : bool :=
  existsb (fun '(n, v) => (n =? name)%string && bool_decide (v = value)) l.

Definition static_url (v : list (ascii + kind)) : bool :=
  forallb (fun c => match c with inl _ => true | inr _ => false end) v
  && safe_url (String.string_of_list_ascii (omap (fun c => match c with inl c => Some c | inr _ => None end) v)).

(** Addresses are safe; scripts and styles of attributes hold no value, and a strict page has no
    handler in an attribute. *)
Definition attribute_ok (strict : bool) (a : attribute) : bool :=
  let '(name, v) := a in
  if existsb (String.eqb name) ["href"; "src"; "action"] then bool_decide (v = [inr Safe]) || static_url v
  else if has_prefix name "on" then negb strict && forallb (fun c => match c with inl _ => true | inr _ => false end) v
  else if (name =? "style")%string then forallb (fun c => match c with inl _ => true | inr _ => false end) v
  else true.

Definition void_tags : list string := ["!doctype"; "meta"; "br"; "input"; "link"].

Definition open_tag (ck : checker) (name : string) (l : list attribute) : option checker :=
  let opened := if existsb (String.eqb name) void_tags then ck_open ck else name :: ck_open ck in
  let continue form := Some (Checker (ck_strict ck) opened form []) in
  if (name =? "form")%string then
    match ck_form ck with
    | Some _ => None
    | None => continue (Some (negb (has_attribute "method" (letters "post") l)))
    end
  else if (name =? "input")%string && has_attribute "type" (letters "hidden") l
       && has_attribute "name" (letters "csrf_token") l && has_attribute "value" [inr Secret] l
  then continue (match ck_form ck with Some _ => Some true | None => None end)
  else if (name =? "script")%string && ck_strict ck && negb (existsb (fun a => (fst a =? "src")%string) l)
  then None
  else continue (ck_form ck).

(** The end of a tag.  [tokens]: the forms that post carry the token. *)
Definition judge (tokens : bool) (ck : checker) : option checker :=
  '(name, l) ← tag_of "" (rev (ck_items ck));
  if negb (forallb (attribute_ok (ck_strict ck)) l) then None else
  match name with
  | String "/" name =>
    match ck_open ck with
    | top :: rest =>
      if negb (top =? name)%string then None
      else if (name =? "form")%string then
        match ck_form ck with
        | Some seen => if tokens && negb seen then None else Some (Checker (ck_strict ck) rest None [])
        | None => None
        end
      else Some (Checker (ck_strict ck) rest (ck_form ck) [])
    | [] => None
    end
  | _ => open_tag ck name l
  end.

Definition push_item (ck : checker) (i : item) : checker :=
  Checker (ck_strict ck) (ck_open ck) (ck_form ck) (i :: ck_items ck).
Definition push_value (ck : checker) (x : ascii + kind) : option checker :=
  match ck_items ck with
  | IValue v :: items => Some (Checker (ck_strict ck) (ck_open ck) (ck_form ck) (IValue (x :: v) :: items))
  | _ => None
  end.

(** A quote opens a value after an equals sign and closes it otherwise. *)
Definition check (tokens : bool) (ck : checker) (m : mark) : option checker :=
  match m with
  | Begin => Some ck
  | Sign c => if existsb (Ascii.eqb c) ["'"%char; "`"%char] then None else Some (push_item ck (ISign c))
  | Quote =>
    match ck_items ck with
    | ISign c :: _ => if Ascii.eqb c "=" then Some (push_item ck (IValue [])) else None
    | IValue _ :: _ => Some ck
    | [] => None
    end
  | Letter c => push_value ck (inl c)
  | Shown k => push_value ck (inr k)
  | Close => judge tokens ck
  end.

Fixpoint check_all (tokens : bool) (ck : checker) (l : list mark) : option checker :=
  match l with [] => Some ck | m :: l => ck ← check tokens ck m; check_all tokens ck l end.

(** A boolean attribute says nothing to the checker. *)
Definition scan_piece (tokens : bool) (st : place * checker) (x : piece) : option (place * checker) :=
  '(p, l) ← lex_piece (fst st) x;
  match x with
  | Flag _ => Some (p, snd st)
  | _ => ck ← check_all tokens (snd st) l; Some (p, ck)
  end.
Fixpoint scan (tokens : bool) (st : place * checker) (xs : page) : option (place * checker) :=
  match xs with [] => Some st | x :: xs => st ← scan_piece tokens st x; scan tokens st xs end.

(** A document: everything that is opened is closed. *)
Definition outside (strict : bool) : place * checker := (Text, Checker strict [] None []).
Definition document (tokens strict : bool) (p : page) : Prop :=
  scan tokens (outside strict) p = Some (outside strict).

(** The tokens a page shows. *)
Definition tokens_of (p : page) : list string := omap (fun x => match x with Token t => Some t | _ => None end) p.

(** ** Scanning a page by its parts *)

Section scan.
Context (tokens : bool).

Definition moves (st : place * checker) (p : page) (st' : place * checker) : Prop := scan tokens st p = Some st'.

Lemma moves_app st a st1 b st2 : moves st a st1 -> moves st1 b st2 -> moves st (a ++ b) st2.
Proof.
  unfold moves. revert st. induction a as [|x a IH]; intros st Ha Hb; simpl in *; [by simplify_eq|].
  destruct (scan_piece tokens st x); simpl in *; [by apply IH|done].
Qed.
Lemma moves_if (c : bool) st a b st' : moves st a st' -> moves st b st' -> moves st (if c then a else b) st'.
Proof. by destruct c. Qed.
Lemma moves_flat_map {A} (f : A -> page) l st :
  (forall x, moves st (f x) st) -> moves st (flat_map f l) st.
Proof. intros Hf. induction l as [|x l IH]; [done|]. exact (moves_app _ _ _ _ _ (Hf x) IH). Qed.

(** What a value says does not matter, except the address of a link. *)
Lemma moves_text s st st' : moves st (text "") st' -> moves st (text s) st'.
Proof. done. Qed.
Lemma moves_token s st st' : moves st (token "") st' -> moves st (token s) st'.
Proof. done. Qed.
Lemma moves_classes l st st' : moves st (classes []) st' -> moves st (classes l) st'.
Proof. done. Qed.
Lemma moves_link u st st' : safe_url u = true -> moves st (link "/") st' -> moves st (link u) st'.
Proof. unfold moves. simpl. unfold scan_piece, lex_piece, kind_of. by intros ->. Qed.

Lemma scan_lexes st xs st' : scan tokens st xs = Some st' -> exists l, lex_page (fst st) xs = Some (fst st', l).
Proof.
  revert st. induction xs as [|x xs IH]; intros st Hs; simpl in *; [simplify_eq; by eexists|].
  destruct (scan_piece tokens st x) as [st1|] eqn:Ex; [|done]. simpl in Hs.
  apply IH in Hs as [l El]. unfold scan_piece in Ex.
  destruct (lex_piece (fst st) x) as [[p l1]|]; [|done]. simpl in *.
  assert (fst st1 = p) as E by (destruct x; simpl in Ex; try destruct (check_all _ _ _); by simplify_eq/=).
  rewrite E in El. rewrite El. by eexists.
Qed.

(** A page that leaves the checker nowhere: what it does is refused at some piece. *)
Lemma stops_l st a b : scan tokens st a = None -> scan tokens st (a ++ b) = None.
Proof.
  revert st. induction a as [|x a IH]; intros st Ha; [done|]. simpl in *.
  destruct (scan_piece tokens st x); [by apply IH|done].
Qed.
Lemma stops_r st a st' b : moves st a st' -> scan tokens st' b = None -> scan tokens st (a ++ b) = None.
Proof.
  unfold moves. revert st. induction a as [|x a IH]; intros st Ha Hb; simpl in *; [by simplify_eq|].
  destruct (scan_piece tokens st x); [by apply IH|done].
Qed.
End scan.

Ltac scan_static :=
  lazymatch goal with
  | |- moves ?t ?st ?p ?st' =>
    let r := eval vm_compute in (scan t st p) in
    lazymatch r with Some ?x => unify st' x; vm_cast_no_check (eq_refl (Some x)) end
  end.
Create HintDb components.
(** The parts of a page in turn; a component that was walked is a hint. *)
Ltac walk :=
  lazymatch goal with
  | |- moves _ _ (_ ++ _) _ => eapply moves_app; [walk|walk]
  | |- moves _ _ (if _ then _ else _) _ => eapply moves_if; [walk|walk]
  | |- moves _ _ (flat_map _ _) _ => eapply moves_flat_map; intros ?; cbv beta; walk
  | |- moves _ _ (text _) _ => eapply moves_text; scan_static
  | |- moves _ _ (token _) _ => eapply moves_token; scan_static
  | |- moves _ _ (classes _) _ => eapply moves_classes; scan_static
  | |- moves _ _ (link _) _ => eapply moves_link; [reflexivity|scan_static]
  | |- moves _ _ (markup _) _ => scan_static
  | |- moves _ _ (line _) _ => scan_static
  | |- moves _ _ (flag _) _ => scan_static
  | |- moves _ _ [] _ => scan_static
  | |- moves _ _ ?p _ => first [solve [eauto 1 with components nocore] | let h := head_of p in unfold h; walk]
  end.

(** ** Rendering keeps the structure *)

(** What escaping promises: no value opens a tag or closes a quote. *)
Definition inert (s : string) : bool :=
  all_string (fun c => negb (Ascii.eqb c "<" || Ascii.eqb c ">" || Ascii.eqb c dquote)) s.

Lemma lex_app p a b : lex p (a +:+ b) = let '(p1, l1) := lex p a in let '(p2, l2) := lex p1 b in (p2, l1 ++ l2).
Proof.
  revert p. induction a as [|c a IH]; intros p; simpl; [by destruct (lex p b)|].
  destruct (lex_char p c) as [p1 l1]. rewrite IH. destruct (lex p1 a) as [p2 l2], (lex p2 b) as [p3 l3].
  by rewrite app_assoc.
Qed.
Lemma lex_text s : inert s = true -> lex Text s = (Text, []).
Proof.
  unfold inert. induction s as [|c s IH]; [done|]. simpl. intros [Hc Hs]%andb_true_iff.
  destruct (Ascii.eqb c "<"); [done|]. by rewrite IH.
Qed.
Lemma lex_quoted n s : inert s = true -> exists l, lex (Quoted n) s = (Quoted n, l) /\ structure l = [].
Proof.
  unfold inert. induction s as [|c s IH]; [by eexists|]. simpl. intros [Hc Hs]%andb_true_iff.
  destruct (Ascii.eqb c dquote); [by rewrite !orb_true_r in Hc|].
  destruct (IH Hs) as (l & -> & E). by eexists.
Qed.
Lemma lex_flag n s : all_string (fun c => is_lower c || Ascii.eqb c " ") s = true ->
  match n with Naming _ => False | _ => True end -> lex (Tag n) s = (Tag n, signs s).
Proof.
  intros Hs Hn. induction s as [|c s IH]; [done|]. simpl in Hs |- *. apply andb_true_iff in Hs as [Hc Hs].
  assert (Ascii.eqb c ">" = false /\ Ascii.eqb c dquote = false) as [-> ->].
  { clear -Hc. by destruct c as [[] [] [] [] [] [] [] []]. }
  assert (name_step n c = n) as -> by (by destruct n). by rewrite IH.
Qed.

Lemma concat_empty_cons a l : String.concat "" (a :: l) = a +:+ String.concat "" l.
Proof. destruct l; simpl; [by rewrite append_nil_r|done]. Qed.

Section rendering.
Context (EscapeString : string -> string) (CSSClasses : list (string * bool) -> string).
Context (HEscape : forall s, inert (EscapeString s) = true).

Lemma structure_app a b : structure (a ++ b) = structure a ++ structure b.
Proof. apply List.filter_app. Qed.

Lemma lex_render_piece p x p' l : lex_piece p x = Some (p', l) ->
  exists l', lex p (render_piece EscapeString CSSClasses x) = (p', l') /\ structure l' = structure l.
Proof.
  assert (forall s, match p with Text => Some (Text, []) | Quoted n => Some (Quoted n, [Shown (kind_of x)]) | _ => None end
    = Some (p', l) -> exists l', lex p (EscapeString s) = (p', l') /\ structure l' = structure l) as Hv.
  { intros s Hp. destruct p; simplify_eq.
    - rewrite lex_text by done. by eexists.
    - destruct (lex_quoted name (EscapeString s)) as (l' & -> & El); [done|]. by eexists. }
  destruct x as [s|name|s|s|s|names]; [intros [= E]|intros Hx|apply Hv..]; simpl.
  - rewrite E. by eexists.
  - destruct p as [|[]| |]; try done; cbn [lex_piece] in Hx;
      (destruct (all_string is_lower name) eqn:Hn; [|done]); simplify_eq/=;
      rewrite lex_flag; try done; try (by eexists);
      (eapply all_string_impl; [|exact Hn]; by intros ? ->).
Qed.

(** The tags, attributes and nesting a browser reads are those of the template. *)
Lemma lex_render xs p p' l : lex_page p xs = Some (p', l) ->
  exists l', lex p (render EscapeString CSSClasses xs) = (p', l') /\ structure l' = structure l.
Proof.
  unfold render. revert p l. induction xs as [|x xs IH]; intros p l Hl; [simplify_eq/=; by eexists|].
  cbn [lex_page] in Hl. destruct (lex_piece p x) as [[p1 l1]|] eqn:Ex; [|done]. simpl in Hl.
  destruct (lex_page p1 xs) as [[p2 l2]|] eqn:Exs; [|done]. injection Hl as <- <-.
  destruct (lex_render_piece _ _ _ _ Ex) as (l1' & E1 & S1), (IH _ _ Exs) as (l2' & E2 & S2).
  exists (l1' ++ l2'). rewrite !structure_app, S1, S2. split; [|done].
  cbn [map]. by rewrite concat_empty_cons, lex_app, E1, E2.
Qed.
End rendering.
