(* ===== verification/PanelPages.v ===== *)
(** * The pages of the panel (internal/app/views: theme, setup, unlock, dashboard, form)

    One definition for each part of a component; a text that is written in one call is cut into
    lines. *)

From S2P Require Import Prelude GoStrings GoTime StoreTypes Executor Views Html.

Definition ThemeStyle : page :=
  line "<style>" ++
  markup "  :root{color-scheme:dark;--ink:#050505;--panel:#101010;--panel-2:#171717;--line:#393939;" ++
  markup "--paper:#f4f1e8;--muted:#aaa79f;--acid:#d9ff3f;--danger:#ff5c3f;--grid:rgba(255,255,255,.055)}" ++
  line "" ++
  markup "  *{box-sizing:border-box}" ++
  markup " body{margin:0;background-color:var(--ink);background-image:linear-gradient(var(--grid) " ++
  markup "1px,transparent 1px),linear-gradient(90deg,var(--grid) 1px,transparent " ++
  markup "1px);background-size:32px 32px;color:var(--paper);font-family:ui-monospace,SFMono-Regular," ++
  markup "Menlo,Monaco,Consolas,`Liberation Mono`,monospace;font-size:15px;line-height:1.45}" ++
  line "" ++
  markup "  main,.shell{width:min(1120px,calc(100% - 32px));margin:0 auto}.shell{padding:48px 0 72px}" ++
  line ".narrow{width:min(620px,calc(100% - 32px));margin:0 auto;padding:12vh 0}" ++
  markup "  header,.title,.page-head{display:flex;align-items:flex-end;justify-content:space-between;" ++
  markup "gap:20px;border-bottom:2px solid var(--paper);padding:0 0 18px;margin-bottom:32px}" ++
  markup "header h1,.wordmark{font-size:clamp(2rem,6vw,4.75rem);line-height:.8;letter-spacing:-.12em;" ++
  markup "margin:0;text-transform:uppercase}" ++
  markup "h1,h2,h3{font-weight:800;text-transform:uppercase;letter-spacing:-.055em}" ++
  markup "h1{font-size:clamp(2.2rem,5vw,4rem);line-height:.9;margin:0 0 14px}" ++
  markup "h2{font-size:1.2rem;margin:0 0 14px}p{color:var(--muted)}" ++
  markup " a{color:var(--paper);text-underline-offset:4px;text-decoration-thickness:1px}" ++
  line "a:hover{color:var(--acid)}code{font:inherit;color:var(--acid);overflow-wrap:anywhere}" ++
  markup "  .eyebrow,.label{color:var(--acid);font-size:.72rem;font-weight:800;letter-spacing:.12em;" ++
  markup "text-transform:uppercase}" ++
  markup ".brand-signature{display:flex;align-items:center;gap:.7rem;margin-top:12px;color:var(--muted);" ++
  markup "font-size:.72rem;letter-spacing:.08em;text-transform:uppercase}" ++
  markup ".brand-signature::before{content:``;width:28px;height:2px;background:var(--acid)}" ++
  markup ".brand-signature a{color:var(--paper);font-weight:800;text-decoration:none}" ++
  markup ".brand-signature a:hover{color:var(--acid)}" ++
  markup ".brand-footer{display:flex;flex-wrap:wrap;justify-content:space-between;gap:.8rem;" ++
  markup "margin-top:34px;padding-top:16px;border-top:1px solid var(--line);color:var(--muted);font-size:.75rem}" ++
  markup ".brand-footer a{color:var(--paper);text-decoration:none}" ++
  markup ".brand-footer a:hover{color:var(--acid)}" ++
  markup ".back{display:inline-block;margin-bottom:28px;color:var(--muted);text-decoration:none}" ++
  line ".back:hover{color:var(--acid)}" ++
  markup "  .button,button{display:inline-flex;align-items:center;justify-content:center;" ++
  markup "min-height:42px;border:2px solid var(--paper);border-radius:0;background:var(--paper);" ++
  markup "padding:.55rem .9rem;color:var(--ink);font:inherit;font-weight:800;letter-spacing:.03em;" ++
  markup "text-decoration:none;cursor:pointer;transition:transform .12s,background .12s,color .12s}" ++
  markup ".button:hover,button:hover{background:var(--acid);border-color:var(--acid);color:var(--ink);" ++
  markup "transform:translate(-3px,-3px);box-shadow:3px 3px 0 var(--paper)}" ++
  markup "button:disabled{cursor:not-allowed;opacity:.45;transform:none;box-shadow:none;" ++
  markup "background:var(--muted);border-color:var(--muted)}" ++
  markup "button.danger{background:transparent;color:var(--danger);border-color:var(--danger)}" ++
  markup "button.danger:hover{background:var(--danger);color:var(--ink);box-shadow:3px 3px 0 var(--danger)}" ++
  line "" ++
  markup "  section,.block{background:var(--panel);border:1px solid var(--line);padding:22px;margin:18px 0}" ++
  markup ".phase,.notice{border-left:8px solid var(--acid);background:var(--panel-2);padding:18px " ++
  markup "20px;color:var(--paper)}" ++
  markup ".error{border-left:8px solid var(--danger);background:#2b120e;color:#ffd5cc;padding:14px 16px}" ++
  line ".muted{color:var(--muted)}" ++
  markup "  .stats{display:grid;grid-template-columns:repeat(2,minmax(0,1fr));border:1px solid " ++
  markup "var(--line);margin:20px 0}" ++
  markup ".stat{padding:16px;border-right:1px solid var(--line)}.stat:last-child{border:0}" ++
  markup ".stat strong{display:block;font-size:1.35rem;color:var(--paper)}" ++
  markup "dl{display:grid;grid-template-columns:minmax(110px,max-content) 1fr;gap:.55rem 1.25rem;margin:0}" ++
  line "dt{color:var(--muted)}dd{margin:0;overflow-wrap:anywhere}" ++
  markup "  .pipeline{display:grid;grid-template-columns:repeat(4,1fr);border:1px solid var(--line)}" ++
  markup ".pipeline-step{position:relative;min-height:108px;padding:16px;border-right:1px solid " ++
  markup "var(--line);background:#0a0a0a}" ++
  markup ".pipeline-step:last-child{border:0}" ++
  markup ".pipeline-step b{display:block;margin-top:18px;text-transform:uppercase;font-size:.82rem}" ++
  markup ".pipeline-step small{color:var(--muted)}.pipeline-step.done{background:rgba(217,255,63,.11)}" ++
  markup ".pipeline-step.active{background:var(--acid);color:var(--ink)}" ++
  markup ".pipeline-step.active small{color:#222}.pipeline-step.failed{background:#37110b;color:#ffd8d0}" ++
  markup ".pipeline-step.failed small{color:#ffb9ad}" ++
  markup ".status{display:inline-block;border:1px solid currentColor;padding:2px " ++
  markup "6px;font-size:.7rem;font-weight:800;letter-spacing:.08em;text-transform:uppercase}" ++
  markup ".status.successful{color:var(--acid)}.status.failed{color:var(--danger)}" ++
  line ".status.queued{color:#ffd85c}.status.running{color:#7eb6ff}" ++
  markup "  table{border-collapse:collapse;width:100%;margin:0}" ++
  markup "th,td{border:1px solid var(--line);padding:.75rem;text-align:left;vertical-align:top}" ++
  markup "th{background:var(--paper);color:var(--ink);font-size:.72rem;letter-spacing:.08em;" ++
  markup "text-transform:uppercase}" ++
  line "tr:hover td{background:rgba(217,255,63,.06)}.table-wrap{overflow-x:auto}" ++
  markup "  label{display:block;margin-top:18px;color:var(--paper);font-weight:800}" ++
  markup "input,select{display:block;width:100%;border:1px solid " ++
  markup "var(--line);border-radius:0;background:#080808;color:var(--paper);padding:.75rem " ++
  markup ".8rem;margin-top:7px;font:inherit}" ++
  markup "input[type=`checkbox`]{display:inline-block;width:auto;margin:0 .45rem 0 0;accent-color:var(--acid)}" ++
  markup "input:focus,select:focus{outline:2px solid var(--acid);outline-offset:2px;border-color:var(--acid)}" ++
  markup ".form-actions{margin-top:24px}.hint{font-size:.84rem}" ++
  markup ".tabs{display:flex;flex-wrap:wrap;gap:0;margin:18px 0}" ++
  markup ".tabs a{border:1px solid var(--line);padding:.55rem .75rem;text-decoration:none;color:var(--muted)}" ++
  markup ".tabs a:hover{background:var(--acid);color:var(--ink)}" ++
  markup ".actions{display:flex;flex-wrap:wrap;gap:10px}.actions form{margin:0}" ++
  markup ".alert{padding:12px 14px;border-left:6px solid var(--danger);background:#2b120e}" ++
  line ".warning{color:#ffd85c}.critical{color:var(--danger)}" ++
  markup "  @media(max-width:640px){.shell{padding-top:28px}" ++
  markup "header,.title,.page-head{align-items:flex-start;flex-direction:column}" ++
  markup ".stats,.pipeline{grid-template-columns:1fr}" ++
  markup ".stat{border-right:0;border-bottom:1px solid var(--line)}.stat:last-child{border-bottom:0}" ++
  markup ".pipeline-step{min-height:0;border-right:0;border-bottom:1px solid var(--line)}" ++
  markup ".pipeline-step:last-child{border-bottom:0}.pipeline-step b{margin-top:5px}th,td{padding:.6rem}" ++
  line ".table-wrap{margin:0 -22px}.table-wrap table{min-width:640px}}" ++
  markup "  .log-preview{margin-top:18px;border:1px solid var(--line);background:#080808}" ++
  markup ".log-preview .title{align-items:center;margin:0;padding:12px 14px;border-bottom:1px solid var(--line)}" ++
  markup ".log-preview h3{font-size:.85rem;margin:0}.log-preview .title a{font-size:.78rem}" ++
  markup ".log-preview pre{max-height:360px;overflow:auto;margin:0;padding:14px;white-space:pre-wrap;" ++
  markup "overflow-wrap:anywhere;color:#d6d3cb;font:inherit;font-size:.82rem;line-height:1.5}" ++
  line ".log-preview .muted{padding:0 14px}" ++
  markup "  .pipeline{grid-template-columns:repeat(6,1fr)}" ++
  markup ".readiness{display:grid;grid-template-columns:repeat(2,minmax(0,1fr));gap:1px;padding:1px;" ++
  markup "background:var(--line)}" ++
  markup ".readiness-item{background:var(--panel);padding:14px}" ++
  markup ".readiness-item.failed{border-left:6px solid var(--danger)}" ++
  markup ".readiness-item p{margin:.45rem 0 0;font-size:.84rem}" ++
  markup ".readiness-item .action{color:var(--paper)}" ++
  line "@media(max-width:640px){.pipeline,.readiness{grid-template-columns:1fr}}" ++
  markup "	</style>".

Definition HostReadiness (data : HostReadinessData) : page :=
  markup "<div class=`readiness`>" ++
  flat_map (fun item =>
    markup "<div class=`" ++
    classes [("readiness-item", true); ("failed", negb (pf_OK item))] ++
    markup "`><strong>" ++
    (if pf_OK item then
      markup "<span>✓</span> "
     else
      markup "<span>!</span> ") ++
    text " " ++
    text (pf_Name item) ++
    markup "</strong><p>" ++
    text (pf_Details item) ++
    markup "</p>" ++
    (if negb (pf_OK item) then
      markup "<p>" ++
      text (pf_Impact item) ++
      markup "</p><p class=`action`><strong>Siguiente paso:</strong>" ++
      text " " ++
      text (pf_Action item) ++
      markup "</p>"
     else []) ++
    markup "</div>") ([hd_Docker data; hd_Caddy data; hd_Network data; hd_DiskSpace data]) ++
  markup "</div>".

Definition BrandFooter : page :=
  markup "<footer class=`brand-footer`>" ++
  markup "<span>MiniDock is an open-source project by <a href=`https://kyberix.co/en` rel=`noopener " ++
  markup "noreferrer`>KYBERIX</a>.</span> <span>Built for independent infrastructure.</span>" ++
  markup "</footer>".

Definition Setup (errMsg : string) : page :=
  markup "<!doctype html><html lang=`es`><head><meta charset=`utf-8`>" ++
  markup "<meta name=`viewport` content=`width=device-width,initial-scale=1`>" ++
  markup "<title>Configurar MiniDock · by Kyberix</title>" ++
  ThemeStyle ++
  markup "</head><body><main class=`narrow`><p class=`eyebrow`>Kyberix / 01 / Inicialización</p>" ++
  markup "<h1>Configurar<br>MiniDock</h1>" ++
  markup "<div class=`brand-signature`>by <a href=`https://kyberix.co/en` rel=`noopener noreferrer`>Kyberix</a>" ++
  markup "</div>" ++
  markup "<p>Define la contraseña maestra. No se almacena y será necesaria tras reiniciar el servicio.</p>" ++
  (if negb (errMsg =? "")%string then
    markup "<p class=`error`>" ++
    text errMsg ++
    markup "</p>"
   else []) ++
  markup "<section><form method=`post` action=`/setup`>" ++
  markup "<label for=`password`>Contraseña maestra</label> <input id=`password` name=`password` " ++
  markup "type=`password` minlength=`12` required autofocus> <label " ++
  markup "for=`password_confirmation`>Confirmar contraseña</label> <input id=`password_confirmation` " ++
  markup "name=`password_confirmation` type=`password` minlength=`12` required>" ++
  markup "<div class=`form-actions`><button type=`submit`>Inicializar →</button></div></form></section>" ++
  BrandFooter ++
  markup "</main></body></html>".

Definition Unlock (errMsg : string) : page :=
  markup "<!doctype html><html lang=`es`><head><meta charset=`utf-8`>" ++
  markup "<meta name=`viewport` content=`width=device-width,initial-scale=1`>" ++
  markup "<title>Desbloquear MiniDock · by Kyberix</title>" ++
  ThemeStyle ++
  markup "</head><body><main class=`narrow`><p class=`eyebrow`>Kyberix / Acceso restringido</p>" ++
  markup "<h1>Desbloquear<br>MiniDock</h1>" ++
  markup "<div class=`brand-signature`>by <a href=`https://kyberix.co/en` rel=`noopener noreferrer`>Kyberix</a>" ++
  markup "</div><p>Introduce la contraseña maestra para administrar secretos y despliegues.</p>" ++
  (if negb (errMsg =? "")%string then
    markup "<p class=`error`>" ++
    text errMsg ++
    markup "</p>"
   else []) ++
  markup "<section><form method=`post` action=`/unlock`>" ++
  markup "<label for=`password`>Contraseña maestra</label> <input id=`password` name=`password` " ++
  markup "type=`password` required autofocus>" ++
  markup "<div class=`form-actions`><button type=`submit`>Desbloquear →</button></div></form></section>" ++
  BrandFooter ++
  markup "</main></body></html>".

Definition Dashboard_head (data : DashboardData) : page :=
  markup "<!doctype html><html lang=`es`><head><meta charset=`utf-8`>" ++
  markup "<meta name=`viewport` content=`width=device-width,initial-scale=1`>" ++
  markup "<title>MiniDock · by Kyberix</title>" ++
  ThemeStyle ++
  markup "</head><body><div class=`shell`><header><div>" ++
  markup "<p class=`eyebrow`>Kyberix / Control de infraestructura</p><h1>MiniDock</h1>" ++
  markup "<div class=`brand-signature`>by <a href=`https://kyberix.co/en` rel=`noopener noreferrer`>Kyberix</a>" ++
  markup "</div></div><form method=`post` action=`/lock`><input type=`hidden` name=`csrf_token` value=`" ++
  token (db_CSRFToken data) ++
  markup "`> <button type=`submit`>Bloquear</button></form></header><main><div class=`page-head`><div>" ++
  markup "<p class=`eyebrow`>Sistema / en línea</p><h2>Estado del servidor</h2></div>" ++
  markup "<div class=`actions`>" ++
  markup "<a class=`button` href=`/cloudflare`>Cloudflare Tunnel</a> <a class=`button` " ++
  markup "href=`/operations`>Operación + logs</a>" ++
  markup "</div></div><div class=`stats`><div class=`stat`>" ++
  markup "<span class=`label`>Servicio</span> <strong>Disponible</strong></div><div class=`stat`>" ++
  markup "<span class=`label`>Entorno</span> <strong>" ++
  text (db_Environment data).

Definition Dashboard_host (data : DashboardData) : page :=
  markup "</strong></div></div><section><div class=`title`><div>" ++
  markup "<p class=`eyebrow`>Antes del primer despliegue</p><h2>Preparación del host</h2></div>" ++
  (if hd_AllOK (db_HostReadiness data) then
    markup "<span class=`status successful`>Listo para desplegar</span>"
   else
    markup "<a class=`button` href=`/`>Comprobar otra vez</a>") ++
  markup "</div>" ++
  HostReadiness (db_HostReadiness data) ++
  (if negb (hd_AllOK (db_HostReadiness data)) then
    markup "<p class=`hint`>Puedes registrar y configurar aplicaciones ahora. MiniDock solo impedirá " ++
    markup "iniciar el despliegue hasta que el host esté listo.</p>"
   else []) ++
  markup "</section><section class=`phase`><span class=`label`>Fase ".

Definition Dashboard_phase (data : DashboardData) : page :=
  text (itoa (ph_Number (db_Phase data))) ++
  markup "</span><br><strong>" ++
  text (ph_Name (db_Phase data)) ++
  markup "</strong><br><span class=`muted`>" ++
  text (ph_State (db_Phase data)) ++
  markup " — siguiente: " ++
  text (ph_Next (db_Phase data)) ++
  markup "</span></section><section><div class=`title`><div><p class=`eyebrow`>Malla privada</p>" ++
  markup "<h2>Nodos remotos</h2></div></div>".

Definition Dashboard_node (data : DashboardData) (node : Node) : page :=
  markup "<tr><td>" ++
  text (n_Name node) ++
  markup "</td><td><code>" ++
  text (n_ID node) ++
  markup "</code></td><td>" ++
  text (n_Version node) ++
  markup "</td><td>" ++
  flat_map (fun cap =>
    markup "<code>" ++
    text cap ++
    markup "</code>" ++
    text " ") (n_Capabilities node) ++
  markup "</td><td>" ++
  text (date_time (n_LastSeenAt node)) ++
  markup "</td></tr>".

Definition Dashboard_nodes (data : DashboardData) : page :=
  (if (0 <? length (db_Nodes data))%nat then
    markup "<div class=`table-wrap`><table><thead><tr><th>Nombre</th><th>ID</th><th>Versión</th>" ++
    markup "<th>Capacidades</th><th>Última señal</th></tr></thead> <tbody>" ++
    flat_map (Dashboard_node data) (db_Nodes data) ++
    markup "</tbody></table></div>"
   else
    markup "<p class=`muted`>No hay agentes registrados. El control remoto permanece desactivado hasta " ++
    markup "configurar mTLS y WireGuard.</p>").

Definition Dashboard_application (data : DashboardData) (app : Application) : page :=
  markup "<tr><td><a href=`" ++
  link ("/applications/" +:+ itoa (a_ID app)) ++
  markup "`>" ++
  text (a_Name app) ++
  markup "</a></td><td>" ++
  text (a_Type app) ++
  markup "</td><td>" ++
  text (a_Domain app) ++
  markup "</td><td><code>" ++
  text (a_Branch app) ++
  markup "</code></td><td>→ detalle</td></tr>".

Definition Dashboard_applications (data : DashboardData) : page :=
  markup "</section><section><div class=`title`><div><p class=`eyebrow`>Registro</p>" ++
  markup "<h2>Aplicaciones</h2></div><a class=`button` href=`/applications/new`>+ Registrar</a></div>" ++
  (if (0 <? length (db_Applications data))%nat then
    markup "<div class=`table-wrap`><table><thead><tr><th>Nombre</th><th>Tipo</th><th>Dominio</th>" ++
    markup "<th>Rama</th><th>Estado</th></tr></thead> <tbody>" ++
    flat_map (Dashboard_application data) (db_Applications data) ++
    markup "</tbody></table></div>"
   else
    markup "<p class=`muted`>Aún no hay aplicaciones registradas.</p>") ++
  markup "</section>" ++
  BrandFooter ++
  markup "</main></div></body></html>".

Definition Dashboard (data : DashboardData) : page :=
  Dashboard_head data ++
  Dashboard_host data ++
  Dashboard_phase data ++
  Dashboard_nodes data ++
  Dashboard_applications data.

Definition ApplicationForm_head (data : ApplicationFormData) : page :=
  markup "<!doctype html><html lang=`es`><head><meta charset=`utf-8`>" ++
  markup "<meta name=`viewport` content=`width=device-width,initial-scale=1`>" ++
  markup "<title>Registrar aplicación · MiniDock</title>" ++
  ThemeStyle ++
  line "<style>" ++
  markup "				.steps{display:grid;grid-template-columns:repeat(3,1fr);margin:28px 0;border:1px solid var(--line)}" ++
  line "" ++
  markup "				.step{padding:12px;border-right:1px solid " ++
  markup "var(--line);color:var(--muted);font-size:.75rem;font-weight:800;text-transform:uppercase}" ++
  line "" ++
  line "				.step:last-child{border:0}.step.active{background:var(--acid);color:var(--ink)}" ++
  line "				fieldset{border:0;margin:0;padding:0}.wizard-page[hidden],.browser[hidden]{display:none}" ++
  markup "				.wizard-nav{display:flex;justify-content:space-between;gap:12px;margin-top:28px}" ++
  line ".wizard-nav .next{margin-left:auto}" ++
  markup "				.review{display:grid;gap:0;border:1px solid var(--line)}" ++
  markup ".review div{display:grid;grid-template-columns:130px 1fr;gap:12px;padding:10px " ++
  markup "12px;border-bottom:1px solid var(--line)}" ++
  markup ".review div:last-child{border:0}.review dt,.browser-path{color:var(--muted)}" ++
  line ".review dd{margin:0;overflow-wrap:anywhere}" ++
  markup "				.browser{margin-top:12px;border:1px solid var(--line);background:#080808}" ++
  markup ".browser-head,.browser-entry{display:flex;align-items:center;justify-content:space-between;" ++
  markup "gap:12px;padding:9px 12px;border-bottom:1px solid var(--line)}" ++
  markup ".browser-entry:last-child{border:0}" ++
  markup ".browser-entry button{min-height:30px;padding:.25rem .5rem;font-size:.75rem}" ++
  line ".browser-empty{padding:12px;color:var(--muted)}" ++
  markup "				@media(max-width:480px){.steps{grid-template-columns:1fr}" ++
  markup ".step{border-right:0;border-bottom:1px solid var(--line)}" ++
  line ".review div{grid-template-columns:1fr;gap:3px}}" ++
  markup "			</style><script src=`/static/application-form.js` defer></script></head><body>" ++
  markup "<main class=`narrow`><a class=`back` href=`/`>← Panel</a><p class=`eyebrow`>Nueva unidad</p>" ++
  markup "<h1>Lanzar<br>aplicación</h1>" ++
  markup "<p>Elige el código, confirma lo detectado y MiniDock se encarga del build, el contenedor y la ruta.</p>" ++
  (if negb (af_Error data =? "")%string then
    markup "<p class=`error`>" ++
    text (af_Error data) ++
    markup "</p>"
   else []) ++
  markup "<section><div class=`title`><div><p class=`eyebrow`>Preparación del host</p><h2>" ++
  (if hd_AllOK (af_HostReadiness data) then
    markup "<span>Listo para desplegar</span>"
   else
    markup "<span>Puedes crear; falta preparar el deploy</span>") ++
  markup "</h2></div>" ++
  (if negb (hd_AllOK (af_HostReadiness data)) then
    markup "<a class=`button` href=`/applications/new`>Reintentar</a>"
   else []) ++
  markup "</div>" ++
  HostReadiness (af_HostReadiness data) ++
  markup "</section><ol class=`steps` aria-label=`Progreso de registro`>" ++
  markup "<li class=`step active`>01 · Origen</li><li class=`step`>02 · Runtime</li>" ++
  markup "<li class=`step`>03 · Revisar</li></ol><section>" ++
  markup "<form id=`application-wizard` method=`post` action=`/applications`>" ++
  markup "<input type=`hidden` name=`csrf_token` value=`".

Definition ApplicationForm_source (data : ApplicationFormData) : page :=
  token (af_CSRFToken data) ++
  markup "`><fieldset class=`wizard-page` data-page=`0`><p class=`eyebrow`>Paso 01</p>" ++
  markup "<h2>¿De dónde viene?</h2>" ++
  markup "<label>Nombre de la aplicación <span class=`muted`>(automático si lo dejas vacío)</span> " ++
  markup "<input name=`name` value=`" ++
  text (a_Name (af_Application data)) ++
  markup "` autocomplete=`off` placeholder=`Se obtiene del repositorio` pattern=`^[a-z0-9][a-z0-9-]{0,62}" ++
  markup "$`>" ++
  markup "</label> <label>Repositorio o ruta local <input id=`repository` name=`repository` required value=`" ++
  text (a_Repository (af_Application data)) ++
  markup "` placeholder=`https://github.com/org/proyecto o file:///repos/proyecto`></label>" ++
  markup "<div class=`actions`>" ++
  markup "<button id=`browse-repositories` type=`button`>Explorar repositorios locales</button></div>" ++
  markup "<div id=`repository-browser` class=`browser` hidden aria-live=`polite`></div>" ++
  markup "<p class=`hint`>Las rutas locales quedan restringidas al directorio permitido del host.</p>" ++
  markup "<label>Referencia Git (rama, tag o ref) <input name=`branch` required value=`" ++
  text (a_Branch (af_Application data)) ++
  markup "` placeholder=`main o refs/tags/v1.2.0`></label> <details>" ++
  markup "<summary>Opciones avanzadas del origen</summary> <label>ID de instalación GitHub App (solo " ++
  markup "repositorios privados) " ++
  (if (0 <? a_GitHubInstallationID (af_Application data)) then
    markup "<input name=`github_installation_id` type=`number` min=`1` value=`" ++
    text (itoa (a_GitHubInstallationID (af_Application data))) ++
    markup "`>"
   else
    markup "<input name=`github_installation_id` type=`number` min=`1`>") ++
  markup "</label> <label>Directorio de trabajo <input name=`work_dir` required value=`" ++
  text (a_WorkDir (af_Application data)) ++
  markup "` placeholder=`.`></label></details><div class=`wizard-nav`>" ++
  markup "<button class=`next` type=`button`>Continuar →</button></div></fieldset>" ++
  markup "<fieldset class=`wizard-page` data-page=`1` hidden><p class=`eyebrow`>Paso 02</p>" ++
  markup "<h2>¿Cómo se ejecuta?</h2><label>Plantilla de runtime <select name=`type` required>" ++
  markup "<option value=`static`".

Definition ApplicationForm_type (data : ApplicationFormData) : page :=
  (if (a_Type (af_Application data) =? "static")%string then
    flag "selected"
   else []) ++
  markup ">Sitio estático — Node + Caddy</option> <option value=`angular_static`" ++
  (if (a_Type (af_Application data) =? "angular_static")%string then
    flag "selected"
   else []) ++
  markup ">Angular estático — Node + Caddy</option> <option value=`vite_ssr`" ++
  (if (a_Type (af_Application data) =? "vite_ssr")%string then
    flag "selected"
   else []) ++
  markup ">Vite SSR — servidor Node</option> <option value=`node_ssr`" ++
  (if (a_Type (af_Application data) =? "node_ssr")%string then
    flag "selected"
   else []) ++
  markup ">Node SSR — script start</option> <option value=`astro_static`" ++
  (if (a_Type (af_Application data) =? "astro_static")%string then
    flag "selected"
   else []) ++
  markup ">Astro estático — Node + Caddy</option> <option value=`astro_ssr`" ++
  (if (a_Type (af_Application data) =? "astro_ssr")%string then
    flag "selected"
   else []) ++
  markup ">Astro SSR — adaptador Node</option> <option value=`nuxt_static`" ++
  (if (a_Type (af_Application data) =? "nuxt_static")%string then
    flag "selected"
   else []) ++
  markup ">Nuxt estático — Node + Caddy</option> <option value=`nuxt_ssr`" ++
  (if (a_Type (af_Application data) =? "nuxt_ssr")%string then
    flag "selected"
   else []) ++
  markup ">Nuxt SSR — Nitro</option> <option value=`svelte_static`" ++
  (if (a_Type (af_Application data) =? "svelte_static")%string then
    flag "selected"
   else []) ++
  markup ">SvelteKit estático — Node + Caddy</option> <option value=`svelte_ssr`" ++
  (if (a_Type (af_Application data) =? "svelte_ssr")%string then
    flag "selected"
   else []) ++
  markup ">SvelteKit SSR — adaptador Node</option> <option value=`nextjs`" ++
  (if (a_Type (af_Application data) =? "nextjs")%string then
    flag "selected"
   else []) ++
  markup ">Next.js — standalone</option> <option value=`go`" ++
  (if (a_Type (af_Application data) =? "go")%string then
    flag "selected"
   else []) ++
  markup ">API Go — binario mínimo</option> <option value=`rust`" ++
  (if (a_Type (af_Application data) =? "rust")%string then
    flag "selected"
   else []) ++
  markup ">API Rust — binario mínimo</option> <option value=`java`" ++
  (if (a_Type (af_Application data) =? "java")%string then
    flag "selected"
   else []) ++
  markup ">API Java — Gradle/Maven + JRE</option> <option value=`custom`" ++
  (if (a_Type (af_Application data) =? "custom")%string then
    flag "selected"
   else []) ++
  markup ">Personalizado — Dockerfile propio</option></select></label>" ++
  markup "<p class=`hint`>La detección solo lee manifiestos: nunca ejecuta código del proyecto.</p>" ++
  markup "<details>" ++
  markup "<summary>Opciones avanzadas del contenedor</summary> <label>Motor de contenedor <select name=`runtime`>" ++
  markup "<option value=`auto`".

Definition ApplicationForm_runtime (data : ApplicationFormData) : page :=
  (if (a_Runtime (af_Application data) =? "")%string ||
    (a_Runtime (af_Application data) =? "auto")%string then
    flag "selected"
   else []) ++
  markup ">Automático (Docker, recomendado)</option> <option value=`docker`" ++
  (if (a_Runtime (af_Application data) =? "docker")%string then
    flag "selected"
   else []) ++
  markup ">Docker</option></select></label> <label>Puerto interno " ++
  (if (0 <? a_InternalPort (af_Application data)) then
    markup "<input name=`internal_port` type=`number` min=`1` max=`65535` required value=`" ++
    text (itoa (a_InternalPort (af_Application data))) ++
    markup "`>"
   else
    markup "<input name=`internal_port` type=`number` min=`1` max=`65535` required value=`8080`>") ++
  markup "</label> <label>Ruta de health check <input name=`health_endpoint` value=`" ++
  text (a_HealthEndpoint (af_Application data)) ++
  markup "` placeholder=`Automática según el runtime`>" ++
  markup "</label> <input type=`hidden` name=`build_command` value=`" ++
  text (a_BuildCommand (af_Application data)) ++
  markup "`> <input type=`hidden` name=`run_command` value=`" ++
  text (a_RunCommand (af_Application data)) ++
  markup "`></details><div class=`wizard-nav`>" ++
  markup "<button class=`previous` type=`button`>← Volver</button> <button class=`next` " ++
  markup "type=`button`>Continuar →</button>" ++
  markup "</div></fieldset><fieldset class=`wizard-page` data-page=`2` hidden>" ++
  markup "<p class=`eyebrow`>Paso 03</p><h2>Exposición y revisión</h2>" ++
  markup "<label>Dominio <span class=`muted`>(opcional)</span> <input name=`domain` value=`".

Definition ApplicationForm_domain (data : ApplicationFormData) : page :=
  text (a_Domain (af_Application data)) ++
  markup "` placeholder=`Vacío = nombre.localhost` pattern=`^[a-zA-Z0-9][-a-zA-Z0-9.]*(?::\d+)?$`>" ++
  markup "</label>" ++
  markup "<p class=`hint`>Sin dominio, la app queda local en <code>nombre.localhost</code>. Para " ++
  markup "Internet usa un subdominio propio; MiniDock lo publicará por el túnel saliente de Cloudflare " ++
  markup "una vez configurado.</p>" ++
  markup "<div class=`block`><p class=`eyebrow`>Resumen</p><dl class=`review`><div><dt>Nombre</dt>" ++
  markup "<dd data-review=`name`>—</dd></div><div><dt>Origen</dt><dd data-review=`repository`>—</dd>" ++
  markup "</div><div><dt>Referencia</dt><dd data-review=`branch`>—</dd></div><div><dt>Runtime</dt>" ++
  markup "<dd data-review=`type`>—</dd></div><div><dt>Puerto</dt><dd data-review=`internal_port`>—</dd>" ++
  markup "</div><div><dt>Health check</dt><dd data-review=`health_endpoint`>—</dd></div><div>" ++
  markup "<dt>Dominio</dt><dd data-review=`domain`>—</dd></div></dl></div><div class=`wizard-nav`>" ++
  markup "<button class=`previous` type=`button`>← Volver</button> <button class=`button` type=`submit` " ++
  markup "name=`intent` value=`save`>Solo crear</button> <button type=`submit` name=`intent` value=`deploy`" ++
  (if negb (hd_AllOK (af_HostReadiness data)) then
    flag "disabled"
   else []) ++
  markup ">Crear y desplegar →</button></div></fieldset></form></section></main></body></html>".

Definition ApplicationForm (data : ApplicationFormData) : page :=
  ApplicationForm_head data ++
  ApplicationForm_source data ++
  ApplicationForm_type data ++
  ApplicationForm_runtime data ++
  ApplicationForm_domain data.
