(* ===== verification/ApplicationPages.v ===== *)
(** * The pages of an application (internal/app/views: application_detail, deployment_diff, secrets) *)

From S2P Require Import Prelude GoStrings GoTime StoreTypes Executor Views Html.
From S2P Require Import PanelPages.

Definition ApplicationDetail_head (data : ApplicationDetailData) : page :=
  markup "<!doctype html><html lang=`es`><head><meta charset=`utf-8`>" ++
  markup "<meta name=`viewport` content=`width=device-width,initial-scale=1`><title>" ++
  text (a_Name (ad_Application data)) ++
  markup " · MiniDock · by Kyberix</title>" ++
  ThemeStyle ++
  markup "<script src=`/static/deployment-log.js` defer></script></head><body><main class=`shell`>" ++
  markup "<a class=`back` href=`/`>← Panel</a><div class=`page-head`><div>" ++
  markup "<p class=`eyebrow`>Aplicación / " ++
  text (a_Type (ad_Application data)) ++
  markup "</p><h1>" ++
  text (a_Name (ad_Application data)) ++
  markup "</h1><p><code>" ++
  text (a_Repository (ad_Application data)) ++
  markup "</code> · <code>" ++
  text (a_Branch (ad_Application data)) ++
  markup "</code> · " ++
  text (a_Domain (ad_Application data)) ++
  markup "</p></div><a class=`button` href=`" ++
  link ("/applications/" +:+ itoa (a_ID (ad_Application data)) +:+ "/secrets") ++
  markup "`>Secretos</a></div>".

Definition ApplicationDetail_notices (data : ApplicationDetailData) : page :=
  (if negb (ad_Notice data =? "")%string then
    markup "<p class=`notice` role=`status`>" ++
    text (ad_Notice data) ++
    markup "</p>"
   else []) ++
  (if negb (ad_Error data =? "")%string then
    markup "<p class=`error` role=`alert`>" ++
    text (ad_Error data) ++
    markup "</p>"
   else []) ++
  (if negb (ad_RuntimeNotice data =? "")%string then
    markup "<p class=`notice`>" ++
    text (ad_RuntimeNotice data) ++
    markup "</p>"
   else []).

Definition ApplicationDetail_progress (data : ApplicationDetailData) : page :=
  markup "<p class=`muted`>" ++
  text (d_Action (pl_Deployment (ad_Pipeline data))) ++
  markup " iniciado " ++
  text (date_time (d_StartedAt (pl_Deployment (ad_Pipeline data)))) ++
  markup " ·" ++
  text " " ++
  markup " <a href=`" ++
  link ("/applications/" +:+ itoa (a_ID (ad_Application data)) +:+ "/deployments/" +:+
    itoa (d_ID (pl_Deployment (ad_Pipeline data))) +:+ "/logs") ++
  markup "`>Abrir log completo →</a></p>" ++
  (if (d_Status (pl_Deployment (ad_Pipeline data)) =? "queued")%string ||
    (d_Status (pl_Deployment (ad_Pipeline data)) =? "running")%string then
    markup "<form method=`post` action=`" ++
    link ("/applications/" +:+ itoa (a_ID (ad_Application data)) +:+ "/deployments/" +:+
      itoa (d_ID (pl_Deployment (ad_Pipeline data))) +:+ "/cancel") ++
    markup "`><input type=`hidden` name=`csrf_token` value=`" ++
    token (ad_CSRFToken data) ++
    markup "`> <button class=`danger`>" ++
    (if (d_Status (pl_Deployment (ad_Pipeline data)) =? "running")%string then
      markup "Cancelar despliegue en ejecución"
     else
      markup "Cancelar despliegue en cola") ++
    markup "</button></form>"
   else []).

Definition ApplicationDetail_stages (data : ApplicationDetailData) : page :=
  markup " <div class=`pipeline`>" ++
  markup "<div class=`" ++
  classes [("pipeline-step", true); (fst (pl_Step1 (ad_Pipeline data)), true)] ++
  markup "`><small>01</small><b>Entorno</b><small>" ++
  text (snd (pl_Step1 (ad_Pipeline data))) ++
  markup "</small></div>" ++
  markup "<div class=`" ++
  classes [("pipeline-step", true); (fst (pl_Step2 (ad_Pipeline data)), true)] ++
  markup "`><small>02</small><b>Origen</b><small>" ++
  text (snd (pl_Step2 (ad_Pipeline data))) ++
  markup "</small></div>" ++
  markup "<div class=`" ++
  classes [("pipeline-step", true); (fst (pl_Step3 (ad_Pipeline data)), true)] ++
  markup "`><small>03</small><b>Build</b><small>" ++
  text (snd (pl_Step3 (ad_Pipeline data))) ++
  markup "</small></div>" ++
  markup "<div class=`" ++
  classes [("pipeline-step", true); (fst (pl_Step4 (ad_Pipeline data)), true)] ++
  markup "`><small>04</small><b>Deploy</b><small>" ++
  text (snd (pl_Step4 (ad_Pipeline data))) ++
  markup "</small></div>".

Definition ApplicationDetail_last_stages (data : ApplicationDetailData) : page :=
  markup "<div class=`" ++
  classes [("pipeline-step", true); (fst (pl_Step5 (ad_Pipeline data)), true)] ++
  markup "`><small>05</small><b>Health check</b><small>" ++
  text (snd (pl_Step5 (ad_Pipeline data))) ++
  markup "</small></div>" ++
  markup "<div class=`" ++
  classes [("pipeline-step", true); (fst (pl_Step6 (ad_Pipeline data)), true)] ++
  markup "`><small>06</small><b>Ruta proxy</b><small>" ++
  text (snd (pl_Step6 (ad_Pipeline data))) ++
  markup "</small></div></div>" ++
  markup "<div class=`log-preview` aria-label=`Vista previa del log de despliegue` data-deployment-log-url=`".

Definition ApplicationDetail_failure (data : ApplicationDetailData) : page :=
  markup "<div class=`actions` style=`margin-top:18px`><a class=`button` href=`" ++
  link ("/applications/" +:+ itoa (a_ID (ad_Application data)) +:+ "/deployments/" +:+
    itoa (d_ID (pl_Deployment (ad_Pipeline data))) +:+ "/logs") ++
  markup "`>Revisar fallo</a> " ++
  (if (d_FailureStage (pl_Deployment (ad_Pipeline data)) =? "start")%string ||
    (d_FailureStage (pl_Deployment (ad_Pipeline data)) =? "health")%string ||
    (d_FailureStage (pl_Deployment (ad_Pipeline data)) =? "route")%string then
    markup "<form method=`post` action=`" ++
    link ("/applications/" +:+ itoa (a_ID (ad_Application data)) +:+ "/retry") ++
    markup "` style=`display:inline;`><input type=`hidden` name=`csrf_token` value=`" ++
    token (ad_CSRFToken data) ++
    markup "`> <button>Reintentar desde etapa segura (Arranque)</button></form>"
   else []) ++
  (if a_RequireConfirmation (ad_Application data) then
    markup "<a class=`button` href=`#production-confirmation`>Reintentar con confirmación</a>"
   else
    markup "<form method=`post` action=`" ++
    link ("/applications/" +:+ itoa (a_ID (ad_Application data)) +:+ "/deploy") ++
    markup "` style=`display:inline;`><input type=`hidden` name=`csrf_token` value=`" ++
    token (ad_CSRFToken data) ++
    markup "`> <button>Reintentar pipeline completo</button></form>") ++
  markup "</div>".

Definition ApplicationDetail_log (data : ApplicationDetailData) : page :=
  text ("/applications/" +:+ itoa (a_ID (ad_Application data)) +:+ "/deployments/" +:+
    itoa (d_ID (pl_Deployment (ad_Pipeline data))) +:+ "/logs") ++
  markup "` data-deployment-log-stream-url=`" ++
  text ("/applications/" +:+ itoa (a_ID (ad_Application data)) +:+ "/deployments/" +:+
    itoa (d_ID (pl_Deployment (ad_Pipeline data))) +:+ "/log-stream") ++
  markup "` data-deployment-status=`" ++
  text (d_Status (pl_Deployment (ad_Pipeline data))) ++
  markup "`><div class=`title`><h3>Log reciente</h3><a href=`" ++
  link ("/applications/" +:+ itoa (a_ID (ad_Application data)) +:+ "/deployments/" +:+
    itoa (d_ID (pl_Deployment (ad_Pipeline data))) +:+ "/logs") ++
  markup "`>Ver completo →</a></div>" ++
  (if negb (ad_LogPreview data =? "")%string then
    markup "<pre>" ++
    text (ad_LogPreview data) ++
    markup "</pre>"
   else
    markup "<p class=`muted`>" ++
    text (ad_LogPreviewError data) ++
    markup "</p>") ++
  markup "</div>" ++
  (if (d_Status (pl_Deployment (ad_Pipeline data)) =? "failed")%string then
    ApplicationDetail_failure data
   else []).

Definition ApplicationDetail_pipeline (data : ApplicationDetailData) : page :=
  ApplicationDetail_progress data ++
  ApplicationDetail_stages data ++
  ApplicationDetail_last_stages data ++
  ApplicationDetail_log data.

Definition ApplicationDetail_prepare (data : ApplicationDetailData) : page :=
  markup "<p class=`muted`>Aún no hay ejecuciones. El primer despliegue crea la imagen y el contenedor; " ++
  markup "«Iniciar» solo sirve para un contenedor ya creado.</p>" ++
  markup "<div class=`actions`>" ++
  (if a_RequireConfirmation (ad_Application data) then
    markup "<a class=`button` href=`#production-confirmation`>Preparar primer despliegue →</a>"
   else
    markup "<form method=`post` action=`" ++
    link ("/applications/" +:+ itoa (a_ID (ad_Application data)) +:+ "/deploy") ++
    markup "`><input type=`hidden` name=`csrf_token` value=`" ++
    token (ad_CSRFToken data) ++
    markup "`> <button>Preparar y desplegar</button></form>") ++
  markup "</div>".

Definition ApplicationDetail_delivery (data : ApplicationDetailData) : page :=
  markup "<section><div class=`title`><div><p class=`eyebrow`>Entrega más reciente</p><h2>Pipeline</h2>" ++
  markup "</div>" ++
  (if pl_HasDeployment (ad_Pipeline data) then
    markup "<span class=`" ++
    classes [("status", true); (d_Status (pl_Deployment (ad_Pipeline data)), true)] ++
    markup "`>" ++
    text (d_Status (pl_Deployment (ad_Pipeline data))) ++
    markup "</span>"
   else []) ++
  markup "</div>" ++
  (if pl_HasDeployment (ad_Pipeline data) then
    ApplicationDetail_pipeline data
   else
    ApplicationDetail_prepare data).

Definition ApplicationDetail_stats (data : ApplicationDetailData) : page :=
  markup "<dl><dt>Estado</dt><dd>" ++
  text (cs_State (ad_Container data)) ++
  markup "</dd><dt>Health</dt><dd>" ++
  text (cs_Health (ad_Container data)) ++
  markup "</dd><dt>Imagen activa</dt><dd><code>" ++
  text (cs_Image (ad_Container data)) ++
  markup "</code></dd><dt>Iniciado</dt><dd>" ++
  text (cs_StartedAt (ad_Container data)) ++
  markup "</dd><dt>CPU</dt><dd>" ++
  text (cs_CPU (ad_Container data)) ++
  markup "</dd><dt>Memoria</dt><dd>" ++
  text (cs_Memory (ad_Container data)).

Definition ApplicationDetail_evidence (data : ApplicationDetailData) : page :=
  markup "</dd><dt>Health interno</dt><dd>" ++
  text (h_InternalStatus (ad_HealthEvidence data)) ++
  markup " · " ++
  text (date_time (h_InternalCheckedAt (ad_HealthEvidence data))) ++
  markup "</dd><dt>Ruta aplicada</dt><dd>" ++
  text (h_RouteStatus (ad_HealthEvidence data)) ++
  markup " · " ++
  text (date_time (h_RouteCheckedAt (ad_HealthEvidence data))) ++
  markup "</dd><dt>Última sonda externa</dt><dd>" ++
  text (h_ExternalStatus (ad_HealthEvidence data)) ++
  markup " (HTTP " ++
  text (itoa (h_ExternalHTTPStatus (ad_HealthEvidence data))) ++
  markup ") · " ++
  text (date_time (h_ExternalCheckedAt (ad_HealthEvidence data))) ++
  markup " desde " ++
  text (h_ExternalObserver (ad_HealthEvidence data)) ++
  markup "</dd></dl>".

Definition ApplicationDetail_container (data : ApplicationDetailData) : page :=
  ApplicationDetail_stats data ++
  ApplicationDetail_evidence data.

Definition ApplicationDetail_telemetry (data : ApplicationDetailData) : page :=
  markup "</section><section><p class=`eyebrow`>Telemetría</p><h2>Estado actual</h2>" ++
  (if negb (ad_ContainerError data =? "")%string then
    markup "<p class=`error`>" ++
    text (ad_ContainerError data) ++
    markup "</p>"
   else
    ApplicationDetail_container data).

Definition ApplicationDetail_version (data : ApplicationDetailData) : page :=
  markup "<p>Última versión exitosa:" ++
  text " " ++
  markup " " ++
  (if negb (ad_DeployedVersion data =? "")%string then
    markup "<code>" ++
    text (ad_DeployedVersion data) ++
    markup "</code>"
   else
    markup "aún no hay una") ++
  markup "</p></section><section><div class=`title`><div>" ++
  markup "<p class=`eyebrow`>Diagnóstico previo al despliegue</p><h2>Preflight Check</h2></div>" ++
  (if pc_AllOK (ad_Preflight data) then
    markup "<span class=`status successful`>Listo para despliegue</span>"
   else
    markup "<span class=`status failed`>Atención requerida</span>").

Definition ApplicationDetail_Docker (data : ApplicationDetailData) : page :=
  markup "</div><dl><dt>" ++
  text (pf_Name (pc_Docker (ad_Preflight data))) ++
  markup "</dt><dd>" ++
  (if pf_OK (pc_Docker (ad_Preflight data)) then
    markup "✅ "
   else
    markup "❌ ") ++
  text " " ++
  text (pf_Details (pc_Docker (ad_Preflight data))) ++
  markup " " ++
  (if negb (pf_OK (pc_Docker (ad_Preflight data))) then
    markup "<br><strong>Siguiente paso:</strong>" ++
    text " " ++
    text (pf_Action (pc_Docker (ad_Preflight data)))
   else []).

Definition ApplicationDetail_Caddy (data : ApplicationDetailData) : page :=
  markup "</dd><dt>" ++
  text (pf_Name (pc_Caddy (ad_Preflight data))) ++
  markup "</dt><dd>" ++
  (if pf_OK (pc_Caddy (ad_Preflight data)) then
    markup "✅ "
   else
    markup "❌ ") ++
  text " " ++
  text (pf_Details (pc_Caddy (ad_Preflight data))) ++
  markup " " ++
  (if negb (pf_OK (pc_Caddy (ad_Preflight data))) then
    markup "<br><strong>Siguiente paso:</strong>" ++
    text " " ++
    text (pf_Action (pc_Caddy (ad_Preflight data)))
   else []).

Definition ApplicationDetail_Network (data : ApplicationDetailData) : page :=
  markup "</dd><dt>" ++
  text (pf_Name (pc_Network (ad_Preflight data))) ++
  markup "</dt><dd>" ++
  (if pf_OK (pc_Network (ad_Preflight data)) then
    markup "✅ "
   else
    markup "❌ ") ++
  text " " ++
  text (pf_Details (pc_Network (ad_Preflight data))) ++
  markup " " ++
  (if negb (pf_OK (pc_Network (ad_Preflight data))) then
    markup "<br><strong>Siguiente paso:</strong>" ++
    text " " ++
    text (pf_Action (pc_Network (ad_Preflight data)))
   else []).

Definition ApplicationDetail_DiskSpace (data : ApplicationDetailData) : page :=
  markup "</dd><dt>" ++
  text (pf_Name (pc_DiskSpace (ad_Preflight data))) ++
  markup "</dt><dd>" ++
  (if pf_OK (pc_DiskSpace (ad_Preflight data)) then
    markup "✅ "
   else
    markup "❌ ") ++
  text " " ++
  text (pf_Details (pc_DiskSpace (ad_Preflight data))) ++
  markup " " ++
  (if negb (pf_OK (pc_DiskSpace (ad_Preflight data))) then
    markup "<br><strong>Siguiente paso:</strong>" ++
    text " " ++
    text (pf_Action (pc_DiskSpace (ad_Preflight data)))
   else []).

Definition ApplicationDetail_RepoAccess (data : ApplicationDetailData) : page :=
  markup "</dd><dt>" ++
  text (pf_Name (pc_RepoAccess (ad_Preflight data))) ++
  markup "</dt><dd>" ++
  (if pf_OK (pc_RepoAccess (ad_Preflight data)) then
    markup "✅ "
   else
    markup "❌ ") ++
  text " " ++
  text (pf_Details (pc_RepoAccess (ad_Preflight data))) ++
  markup " " ++
  (if negb (pf_OK (pc_RepoAccess (ad_Preflight data))) then
    markup "<br><strong>Siguiente paso:</strong>" ++
    text " " ++
    text (pf_Action (pc_RepoAccess (ad_Preflight data)))
   else []).

Definition ApplicationDetail_DomainHealth (data : ApplicationDetailData) : page :=
  markup "</dd><dt>" ++
  text (pf_Name (pc_DomainHealth (ad_Preflight data))) ++
  markup "</dt><dd>" ++
  (if pf_OK (pc_DomainHealth (ad_Preflight data)) then
    markup "✅ "
   else
    markup "❌ ") ++
  text " " ++
  text (pf_Details (pc_DomainHealth (ad_Preflight data))) ++
  markup " " ++
  (if negb (pf_OK (pc_DomainHealth (ad_Preflight data))) then
    markup "<br><strong>Siguiente paso:</strong>" ++
    text " " ++
    text (pf_Action (pc_DomainHealth (ad_Preflight data)))
   else []).

Definition ApplicationDetail_domain (data : ApplicationDetailData) : page :=
  markup "</dd></dl></section><section><div class=`title`><div><p class=`eyebrow`>Exposición Externa</p>" ++
  markup "<h2>Cloudflare Tunnel & Dominio Público</h2></div>" ++
  markup "<a class=`button` href=`/cloudflare`>Panel Cloudflare</a></div>" ++
  markup "<p class=`muted`>Expon esta aplicación hacia Internet mediante un túnel seguro sin abrir " ++
  markup "puertos en tu router.</p>" ++
  markup "<form method=`post` action=`" ++
  link ("/applications/" +:+ itoa (a_ID (ad_Application data)) +:+ "/domain") ++
  markup "` style=`margin-top: 14px;`><input type=`hidden` name=`csrf_token` value=`" ++
  token (ad_CSRFToken data) ++
  markup "`> <label for=`app_domain` style=`margin-top: 0;`>Dominio Asignado a esta Aplicación</label>" ++
  markup "<div style=`display: flex; gap: 10px; align-items: center; margin-top: 6px;`>" ++
  markup "<input type=`text` id=`app_domain` name=`domain` value=`" ++
  text (a_Domain (ad_Application data)) ++
  markup "` placeholder=`ejemplo: demo.kyberix.co` required style=`margin-top: 0; flex: 1;`> <button " ++
  markup "type=`submit` class=`button`>Guardar Dominio</button>" ++
  markup "</div>" ++
  markup "<p class=`hint`>Para salir a Internet por Cloudflare, cambia <code>demo.local</code> por tu " ++
  markup "subdominio real (ejemplo: <code>demo.kyberix.co</code>).</p>" ++
  markup "</form></section><section id=`production-confirmation`><p class=`eyebrow`>Controles</p>" ++
  (if negb (pc_AllOK (ad_Preflight data)) then
    markup "<p class=`error`>El despliegue está pausado hasta resolver el preflight. Puedes seguir " ++
    markup "editando configuración y secretos.</p>"
   else []).

Definition ApplicationDetail_confirm (data : ApplicationDetailData) : page :=
  markup "<form method=`post` action=`" ++
  link ("/applications/" +:+ itoa (a_ID (ad_Application data)) +:+ "/deploy") ++
  markup "`><input type=`hidden` name=`csrf_token` value=`" ++
  token (ad_CSRFToken data) ++
  markup "`> <label>Confirmar producción: escribe <code>" ++
  text (a_Name (ad_Application data)) ++
  markup "</code> <input name=`confirm_production` required></label><div class=`form-actions`><button" ++
  (if negb (pc_AllOK (ad_Preflight data)) then
    flag "disabled"
   else []) ++
  markup ">Desplegar</button></div></form>".

Definition ApplicationDetail_deploy (data : ApplicationDetailData) : page :=
  (if a_RequireConfirmation (ad_Application data) then
    ApplicationDetail_confirm data
   else
    markup "<form method=`post` action=`" ++
    link ("/applications/" +:+ itoa (a_ID (ad_Application data)) +:+ "/deploy") ++
    markup "`><input type=`hidden` name=`csrf_token` value=`" ++
    token (ad_CSRFToken data) ++
    markup "`> <button" ++
    (if negb (pc_AllOK (ad_Preflight data)) then
      flag "disabled"
     else []) ++
    markup ">Desplegar</button></form>").

Definition ApplicationDetail_controls (data : ApplicationDetailData) : page :=
  markup "<div class=`actions`><form method=`post` action=`" ++
  link ("/applications/" +:+ itoa (a_ID (ad_Application data)) +:+ "/rollback") ++
  markup "` onsubmit=`return confirm(&#39;¿Confirmas restaurar la última versión exitosa (Rollback)?&#39;);`>" ++
  markup "<input type=`hidden` name=`csrf_token` value=`" ++
  token (ad_CSRFToken data) ++
  markup "`> <button>Rollback</button></form><form method=`post` action=`" ++
  link ("/applications/" +:+ itoa (a_ID (ad_Application data)) +:+ "/start") ++
  markup "`><input type=`hidden` name=`csrf_token` value=`" ++
  token (ad_CSRFToken data) ++
  markup "`> <button>Iniciar contenedor existente</button></form><form method=`post` action=`" ++
  link ("/applications/" +:+ itoa (a_ID (ad_Application data)) +:+ "/restart") ++
  markup "`><input type=`hidden` name=`csrf_token` value=`" ++
  token (ad_CSRFToken data) ++
  markup "`> <button>Reiniciar contenedor existente</button></form><form method=`post` action=`" ++
  link ("/applications/" +:+ itoa (a_ID (ad_Application data)) +:+ "/stop") ++
  markup "` onsubmit=`return confirm(&#39;¿Confirmas detener el contenedor?&#39;);`>" ++
  markup "<input type=`hidden` name=`csrf_token` value=`" ++
  token (ad_CSRFToken data) ++
  markup "`> <button class=`danger`>Detener contenedor</button></form><a class=`button` href=`" ++
  link ("/applications/" +:+ itoa (a_ID (ad_Application data)) +:+ "/logs") ++
  markup "`>Ver logs del contenedor</a></div></section><section><p class=`eyebrow`>Automatización</p>" ++
  markup "<h2>Reglas de entrega</h2><form method=`post` action=`".

Definition ApplicationDetail_automation (data : ApplicationDetailData) : page :=
  link ("/applications/" +:+ itoa (a_ID (ad_Application data)) +:+ "/automation") ++
  markup "`><input type=`hidden` name=`csrf_token` value=`" ++
  token (ad_CSRFToken data) ++
  markup "`> <label><input type=`checkbox` name=`deploy_on_push`" ++
  (if a_DeployOnPush (ad_Application data) then
    flag "checked"
   else []) ++
  markup "> Desplegar al recibir push en <code>" ++
  text (a_Branch (ad_Application data)) ++
  markup "</code></label> " ++
  (if ad_HasSecrets data then
    markup "<p class=`warning-inline` style=`color:#a30;font-size:.85rem;margin: 2px 0 8px 0;`>⚠️ Esta " ++
    markup "aplicación contiene secretos. Si MiniDock está bloqueado (Operación asistida), las entregas " ++
    markup "automáticas por push fallarán/serán rechazadas.</p>"
   else []) ++
  markup "<label><input type=`checkbox` name=`require_confirmation`" ++
  (if a_RequireConfirmation (ad_Application data) then
    flag "checked"
   else []) ++
  markup "> Pedir confirmación antes de producción</label> <label>" ++
  markup "<input type=`checkbox` name=`auto_rollback`" ++
  (if a_AutoRollback (ad_Application data) then
    flag "checked"
   else []) ++
  markup "> Restaurar la última versión exitosa tras un health check fallido</label>" ++
  markup "<p class=`hint`>La entrega por push y la confirmación interactiva son excluyentes.</p>" ++
  markup "<div class=`form-actions`><button>Guardar reglas</button></div></form></section><section>" ++
  markup "<p class=`eyebrow`>Trazabilidad</p><h2>Historial de despliegues</h2>".

Definition ApplicationDetail_release (data : ApplicationDetailData) (dep : Deployment) : page :=
  markup "<tr><td>" ++
  text (date_time (d_StartedAt dep)) ++
  markup "</td><td>" ++
  text (d_Action dep) ++
  markup "</td><td>" ++
  markup "<span class=`" ++
  classes [("status", true); (d_Status dep, true)] ++
  markup "`>" ++
  text (d_Status dep) ++
  markup "</span></td><td><code>" ++
  text (d_Image dep) ++
  markup "</code></td><td><a href=`" ++
  link ("/applications/" +:+ itoa (a_ID (ad_Application data)) +:+ "/deployments/" +:+
    itoa (d_ID dep) +:+ "/release-report") ++
  markup "`>Informe JSON →</a><br><a href=`" ++
  link ("/applications/" +:+ itoa (a_ID (ad_Application data)) +:+ "/deployments/" +:+
    itoa (d_ID dep) +:+ "/diff") ++
  markup "` style=`font-size: 0.85rem;`>Diff vs previo →</a></td><td><a href=`" ++
  link ("/applications/" +:+ itoa (a_ID (ad_Application data)) +:+ "/deployments/" +:+
    itoa (d_ID dep) +:+ "/logs") ++
  markup "`>Ver →</a></td></tr>".

Definition ApplicationDetail_history (data : ApplicationDetailData) : page :=
  (if (0 <? length (ad_Deployments data))%nat then
    markup "<div class=`table-wrap`><table><thead><tr><th>Inicio</th><th>Acción</th><th>Estado</th>" ++
    markup "<th>Imagen</th><th>Evidencia / Diferencias</th><th>Log</th></tr></thead> <tbody>" ++
    flat_map (ApplicationDetail_release data) (ad_Deployments data) ++
    markup "</tbody></table></div>"
   else
    markup "<p class=`muted`>Aún no hay despliegues.</p>") ++
  markup "</section>" ++
  BrandFooter ++
  markup "</main></body></html>".

Definition ApplicationDetail (data : ApplicationDetailData) : page :=
  ApplicationDetail_head data ++
  ApplicationDetail_notices data ++
  ApplicationDetail_delivery data ++
  ApplicationDetail_telemetry data ++
  ApplicationDetail_version data ++
  ApplicationDetail_Docker data ++
  ApplicationDetail_Caddy data ++
  ApplicationDetail_Network data ++
  ApplicationDetail_DiskSpace data ++
  ApplicationDetail_RepoAccess data ++
  ApplicationDetail_DomainHealth data ++
  ApplicationDetail_domain data ++
  ApplicationDetail_deploy data ++
  ApplicationDetail_controls data ++
  ApplicationDetail_automation data ++
  ApplicationDetail_history data.

Definition DeploymentDiff_head (data : DeploymentDiffData) : page :=
  markup "<!doctype html><html lang=`es`><head><meta charset=`utf-8`>" ++
  markup "<meta name=`viewport` content=`width=device-width,initial-scale=1`>" ++
  markup "<title>Diferencias de Release · MiniDock</title>" ++
  ThemeStyle ++
  line "<style>" ++
  line "				.diff-table td.changed {" ++
  line "					background: rgba(217, 255, 63, 0.08);" ++
  line "				}" ++
  line "				.diff-table td.changed code {" ++
  line "					font-weight: 800;" ++
  line "				}" ++
  line "				.badge-changed {" ++
  line "					background: var(--acid);" ++
  line "					color: var(--ink);" ++
  line "					font-size: 0.65rem;" ++
  line "					padding: 2px 4px;" ++
  line "					font-weight: 800;" ++
  line "					text-transform: uppercase;" ++
  line "					margin-left: 6px;" ++
  line "				}" ++
  markup "			</style></head><body><main class=`shell`><a class=`back` href=`" ++
  link ("/applications/" +:+ itoa (a_ID (dd_Application data))) ++
  markup "`>← Volver a " ++
  text (a_Name (dd_Application data)) ++
  markup "</a><p class=`eyebrow`>Trazabilidad de Release</p><h1>Comparación de Despliegue #" ++
  text (itoa (d_ID (dd_Deployment data))) ++
  markup "</h1><p>Detalles del release solicitado el " ++
  text (date_time (d_StartedAt (dd_Deployment data))) ++
  markup "</p><div class=`stats` style=`margin-bottom: 24px;`><div class=`stat`>" ++
  markup "<small class=`eyebrow`>Estado del despliegue</small> <strong>" ++
  markup "<span class=`" ++
  classes [("status", true); (d_Status (dd_Deployment data), true)] ++
  markup "`>" ++
  text (d_Status (dd_Deployment data)) ++
  markup "</span></strong></div><div class=`stat`><small class=`eyebrow`>Acción</small> <strong>" ++
  text (d_Action (dd_Deployment data)) ++
  markup "</strong></div></div><section><h2>Comparación con el release anterior</h2>".

Definition DeploymentDiff_row (data : DeploymentDiffData) (field : DiffField) : page :=
  markup "<tr><td><strong>" ++
  text (df_Name field) ++
  markup "</strong> " ++
  (if df_Changed field then
    markup "<span class=`badge-changed`>Modificado</span>"
   else []) ++
  markup "</td>" ++
  markup "<td class=`" ++
  classes [("changed", df_Changed field)] ++
  markup "`>" ++
  (if negb (df_Previous field =? "")%string then
    markup "<code>" ++
    text (df_Previous field) ++
    markup "</code>"
   else
    markup "<span class=`muted`>vacío / no disponible</span>") ++
  markup "</td>" ++
  markup "<td class=`" ++
  classes [("changed", df_Changed field)] ++
  markup "`>" ++
  (if negb (df_Current field =? "")%string then
    markup "<code>" ++
    text (df_Current field) ++
    markup "</code>"
   else
    markup "<span class=`muted`>vacío / no disponible</span>") ++
  markup "</td></tr>".

Definition DeploymentDiff_fields (data : DeploymentDiffData) : page :=
  (if dd_HasPrevious data then
    markup "<div class=`table-wrap`><table class=`diff-table`><thead><tr><th>Parámetro</th>" ++
    markup "<th>Release Anterior (#" ++
    text (itoa (d_ID (dd_Previous data))) ++
    markup ")</th><th>Release Seleccionado (#" ++
    text (itoa (d_ID (dd_Deployment data))) ++
    markup ")</th></tr></thead> <tbody>" ++
    flat_map (DeploymentDiff_row data) (dd_Fields data) ++
    markup "</tbody></table></div>"
   else
    markup "<p class=`muted`>No hay registros de despliegues anteriores para comparar con este release.</p>") ++
  markup "</section>".

Definition DeploymentDiff_retry (data : DeploymentDiffData) : page :=
  (if (d_FailureStage (dd_Deployment data) =? "start")%string ||
    (d_FailureStage (dd_Deployment data) =? "health")%string ||
    (d_FailureStage (dd_Deployment data) =? "route")%string then
    markup "<form method=`post` action=`" ++
    link ("/applications/" +:+ itoa (a_ID (dd_Application data)) +:+ "/retry") ++
    markup "`><input type=`hidden` name=`csrf_token` value=`" ++
    token (dd_CSRFToken data) ++
    markup "`> <button>Reintentar desde arranque (Etapa segura)</button></form>"
   else []) ++
  markup " <form method=`post` action=`" ++
  link ("/applications/" +:+ itoa (a_ID (dd_Application data)) +:+ "/deploy") ++
  markup "`><input type=`hidden` name=`csrf_token` value=`" ++
  token (dd_CSRFToken data) ++
  markup "`> <button class=`button-secondary` style=`background: transparent; color: var(--paper); " ++
  markup "border-color: var(--line);`>Reintentar pipeline completo (Build nuevo)</button>" ++
  markup "</form>".

Definition DeploymentDiff_rollback (data : DeploymentDiffData) : page :=
  markup "<form method=`post` action=`" ++
  link ("/applications/" +:+ itoa (a_ID (dd_Application data)) +:+ "/rollback") ++
  markup "`><input type=`hidden` name=`csrf_token` value=`" ++
  token (dd_CSRFToken data) ++
  markup "`> <button class=`danger`>Revertir (Rollback) a esta versión</button></form>".

Definition DeploymentDiff_controls (data : DeploymentDiffData) : page :=
  (if (d_Status (dd_Deployment data) =? "failed")%string ||
    (d_Status (dd_Deployment data) =? "successful")%string then
    markup "<section><h2>Controles de recuperación</h2><div class=`actions`>" ++
    (if (d_Status (dd_Deployment data) =? "failed")%string then
      DeploymentDiff_retry data
     else if (d_Status (dd_Deployment data) =? "successful")%string then
      DeploymentDiff_rollback data
     else []) ++
    markup "</div></section>"
   else []) ++
  BrandFooter ++
  markup "</main></body></html>".

Definition DeploymentDiff (data : DeploymentDiffData) : page :=
  DeploymentDiff_head data ++
  DeploymentDiff_fields data ++
  DeploymentDiff_controls data.

Definition Secrets_head (data : SecretsData) : page :=
  markup "<!doctype html><html lang=`es`><head><meta charset=`utf-8`>" ++
  markup "<meta name=`viewport` content=`width=device-width,initial-scale=1`><title>Configuración · " ++
  text (a_Name (sd_Application data)) ++
  markup "</title>" ++
  ThemeStyle ++
  line "<style>" ++
  markup "				body{font-family:system-ui,sans-serif;max-width:62rem;margin:3rem auto;padding:0 1rem;color:#172033}" ++
  line "" ++
  line "				label{display:block;margin:.7rem 0 .2rem}input,button{font:inherit;padding:.45rem}" ++
  line "				table{border-collapse:collapse;width:100%;margin-top:1rem}" ++
  line "				th,td{border-bottom:1px solid #d9dde5;padding:.6rem;text-align:left}" ++
  line "				.error{color:#a30}.notice{background:#fff7df;padding:.7rem}" ++
  markup "			</style></head><body><p><a href=`" ++
  link ("/applications/" +:+ itoa (a_ID (sd_Application data))) ++
  markup "`>← " ++
  text (a_Name (sd_Application data)) ++
  markup "</a></p><h1>Configuración y secretos</h1><p>Entorno: <a href=`" ++
  link ("?environment=production&target=" +:+ sd_Target data) ++
  markup "`>producción</a> · <a href=`" ++
  link ("?environment=staging&target=" +:+ sd_Target data) ++
  markup "`>staging</a> — destino: <a href=`" ++
  link ("?environment=" +:+ sd_Environment data +:+ "&target=runtime") ++
  markup "`>ejecución</a> · <a href=`" ++
  link ("?environment=" +:+ sd_Environment data +:+ "&target=build") ++
  markup "`>build</a>.</p><p>Viendo <strong>" ++
  text (sd_Environment data) ++
  markup " / " ++
  text (sd_Target data) ++
  markup "</strong>.</p>" ++
  (if (sd_Target data =? "build")%string then
    markup "<p class=`notice`>Los secretos de build requieren Docker con BuildKit y un Dockerfile que " ++
    markup "use <code>RUN --mount=type=secret,id=NOMBRE</code>. No se incorporan a la imagen.</p>"
   else []) ++
  (if negb (sd_Error data =? "")%string then
    markup "<p class=`error`>" ++
    text (sd_Error data) ++
    markup "</p>"
   else []).

Definition Secrets_config_row (data : SecretsData) (cfg : Configuration) : page :=
  markup "<tr><td><code>" ++
  text (co_Name cfg) ++
  markup "</code></td><td><code>" ++
  text (co_Value cfg) ++
  markup "</code></td><td>" ++
  text (date_time (co_UpdatedAt cfg)) ++
  markup "</td><td><form method=`post` action=`" ++
  link ("/applications/" +:+ itoa (a_ID (sd_Application data)) +:+ "/configuration/" +:+
    co_Name cfg +:+ "/delete") ++
  markup "`><input type=`hidden` name=`csrf_token` value=`" ++
  token (sd_CSRFToken data) ++
  markup "`> <input type=`hidden` name=`environment` value=`" ++
  text (sd_Environment data) ++
  markup "`> <input type=`hidden` name=`target` value=`" ++
  text (sd_Target data) ++
  markup "`> <button>Eliminar</button></form></td></tr>".

Definition Secrets_config (data : SecretsData) : page :=
  markup "<h2>Configuración pública</h2>" ++
  markup "<p>Estos valores no se cifran. Usa secretos para cualquier dato sensible.</p>" ++
  markup "<form method=`post` action=`" ++
  link ("/applications/" +:+ itoa (a_ID (sd_Application data)) +:+ "/configuration") ++
  markup "`><input type=`hidden` name=`csrf_token` value=`" ++
  token (sd_CSRFToken data) ++
  markup "`> <input type=`hidden` name=`environment` value=`" ++
  text (sd_Environment data) ++
  markup "`> <input type=`hidden` name=`target` value=`" ++
  text (sd_Target data) ++
  markup "`> <label for=`config-name`>Nombre</label> <input id=`config-name` name=`name` required " ++
  markup "pattern=`[A-Z_][A-Z0-9_]*`> <label for=`config-value`>Valor</label> <input id=`config-value` " ++
  markup "name=`value` required> <button>Guardar configuración</button>" ++
  markup "</form>" ++
  (if (0 <? length (sd_Config data))%nat then
    markup "<table><thead><tr><th>Nombre</th><th>Valor</th><th>Actualizado</th><th></th></tr>" ++
    markup "</thead> <tbody>" ++
    flat_map (Secrets_config_row data) (sd_Config data) ++
    markup "</tbody></table>"
   else
    markup "<p>No hay configuración pública en este alcance.</p>").

Definition Secrets_row (data : SecretsData) (sec : SecretMetadata) : page :=
  markup "<tr><td><code>" ++
  text (sm_Name sec) ++
  markup "</code></td><td>" ++
  text (date_time (sm_UpdatedAt sec)) ++
  markup "</td><td><form method=`post` action=`" ++
  link ("/applications/" +:+ itoa (a_ID (sd_Application data)) +:+ "/secrets/" +:+ sm_Name sec +:+
    "/delete") ++
  markup "`><input type=`hidden` name=`csrf_token` value=`" ++
  token (sd_CSRFToken data) ++
  markup "`> <input type=`hidden` name=`environment` value=`" ++
  text (sd_Environment data) ++
  markup "`> <input type=`hidden` name=`target` value=`" ++
  text (sd_Target data) ++
  markup "`> <button>Eliminar</button></form></td></tr>".

Definition Secrets_list (data : SecretsData) : page :=
  markup "<h2>Secretos</h2>" ++
  markup "<p>Los valores se cifran y nunca vuelven a mostrarse. Guardar un nombre existente lo rota.</p>" ++
  markup "<form method=`post` action=`" ++
  link ("/applications/" +:+ itoa (a_ID (sd_Application data)) +:+ "/secrets") ++
  markup "`><input type=`hidden` name=`csrf_token` value=`" ++
  token (sd_CSRFToken data) ++
  markup "`> <input type=`hidden` name=`environment` value=`" ++
  text (sd_Environment data) ++
  markup "`> <input type=`hidden` name=`target` value=`" ++
  text (sd_Target data) ++
  markup "`> <label for=`name`>Nombre</label> <input id=`name` name=`name` required " ++
  markup "pattern=`[A-Z_][A-Z0-9_]*` autocomplete=`off`> <label for=`value`>Valor</label> <input " ++
  markup "id=`value` name=`value` type=`password` required autocomplete=`new-password`> <button>Guardar " ++
  markup "secreto</button>" ++
  markup "</form>" ++
  (if (0 <? length (sd_Secrets data))%nat then
    markup "<table><thead><tr><th>Nombre</th><th>Actualizado</th><th></th></tr></thead> <tbody>" ++
    flat_map (Secrets_row data) (sd_Secrets data) ++
    markup "</tbody></table>"
   else
    markup "<p>No hay secretos en este alcance.</p>").

Definition Secrets_audit_row (data : SecretsData) (item : SecretAuditT) : page :=
  markup "<tr><td>" ++
  text (au_Action item) ++
  markup "</td><td><code>" ++
  text (au_Name item) ++
  markup "</code></td><td>" ++
  text (au_Environment item) ++
  markup "</td><td>" ++
  text (au_Target item) ++
  markup "</td><td>" ++
  text (date_time (au_CreatedAt item)) ++
  markup "</td></tr>".

Definition Secrets_audit (data : SecretsData) : page :=
  markup "<h2>Auditoría reciente</h2>" ++
  (if (0 <? length (sd_Audit data))%nat then
    markup "<table><thead><tr><th>Acción</th><th>Nombre</th><th>Entorno</th><th>Destino</th>" ++
    markup "<th>Fecha</th></tr></thead> <tbody>" ++
    flat_map (Secrets_audit_row data) (sd_Audit data) ++
    markup "</tbody></table>"
   else
    markup "<p>Aún no hay eventos.</p>") ++
  markup "</body></html>".

Definition Secrets (data : SecretsData) : page :=
  Secrets_head data ++
  Secrets_config data ++
  Secrets_list data ++
  Secrets_audit data.
