(* ===== verification/OperationPages.v ===== *)
(** * The pages of the operation (internal/app/views: operations, cleanup preview, cloudflare) *)

From S2P Require Import Prelude GoStrings GoTime StoreTypes Executor Views Html.
From S2P Require Import PanelPages.

Definition Operations_routing (data : OperationsData) : page :=
  markup "<!doctype html><html lang=`es`><head><meta charset=`utf-8`>" ++
  markup "<meta name=`viewport` content=`width=device-width,initial-scale=1`>" ++
  markup "<title>Operación · MiniDock</title>" ++
  ThemeStyle ++
  line "<style>" ++
  line "				.alert-list li {" ++
  line "					border-left: 5px solid var(--line);" ++
  line "					background: var(--panel-2);" ++
  line "					padding: 12px 14px;" ++
  line "					margin-bottom: 12px;" ++
  line "					list-style: none;" ++
  line "				}" ++
  line "				.alert-list li.critical {" ++
  line "					border-left-color: var(--danger);" ++
  line "				}" ++
  line "				.alert-list li.warning {" ++
  line "					border-left-color: #ffd85c;" ++
  line "				}" ++
  markup "			</style></head><body><main class=`shell`><a class=`back` href=`/`>← Panel</a>" ++
  markup "<h1>Operación y observabilidad</h1><section><h2>Cumplimiento de SLO (Nivel de Servicio)</h2>" ++
  markup "<div class=`stats`><div class=`stat`>" ++
  markup "<small class=`eyebrow`>Disponibilidad de Ruta (sondas externas)</small> <strong>" ++
  (if od_RoutingSLOCompliant data then
    markup "<span style=`color: var(--acid)`>" ++
    text (fixed 1 (fst (od_RoutingSLOPercent data)) (snd (od_RoutingSLOPercent data)) +:+ "%") ++
    markup " (Sano)</span>"
   else
    markup "<span style=`color: var(--danger)`>" ++
    text (fixed 1 (fst (od_RoutingSLOPercent data)) (snd (od_RoutingSLOPercent data)) +:+ "%") ++
    markup " (Fuera de SLO)</span>").

Definition Operations_build (data : OperationsData) : page :=
  markup "</strong></div><div class=`stat`><small class=`eyebrow`>Compilación (≤" ++
  text (itoa (od_BuildSLOLimitMinutes data)) ++
  markup " min)</small> <strong>" ++
  (if od_BuildSLOCompliant data then
    markup "<span style=`color: var(--acid)`>" ++
    text (fixed 1 (fst (od_BuildSLOPercent data)) (snd (od_BuildSLOPercent data)) +:+ "%") ++
    markup " (Sano)</span>"
   else
    markup "<span style=`color: var(--danger)`>" ++
    text (fixed 1 (fst (od_BuildSLOPercent data)) (snd (od_BuildSLOPercent data)) +:+ "%") ++
    markup " (Fuera de SLO)</span>").

Definition Operations_disk (data : OperationsData) : page :=
  markup "</strong></div><div class=`stat`><small class=`eyebrow`>Presupuesto de Disco (≤" ++
  text (itoa (od_DiskBudgetPercent data)) ++
  markup "%)</small> <strong>" ++
  (if od_DiskSLOCompliant data then
    markup "<span style=`color: var(--acid)`>" ++
    text (od_DiskUsed data) ++
    markup " (Sano)</span>"
   else
    markup "<span style=`color: var(--danger)`>" ++
    text (od_DiskUsed data) ++
    markup " (Fuera de SLO)</span>").

Definition Operations_backup (data : OperationsData) : page :=
  markup "</strong></div></div></section><section><h2>Estado de Backups y Restauración</h2>" ++
  markup "<div class=`stats`><div class=`stat`>" ++
  markup "<small class=`eyebrow`>Último Backup Correcto</small> <strong>" ++
  (if negb (od_LastBackupSuccess data =? "")%string then
    markup "<span style=`color: var(--acid)`>" ++
    text (od_LastBackupSuccess data) ++
    markup "</span>"
   else
    markup "<span style=`color: var(--muted)`>Pendiente / Ninguno</span>") ++
  markup "</strong></div><div class=`stat`><small class=`eyebrow`>Antigüedad del Backup</small> <strong>" ++
  markup "<span>" ++
  text (od_BackupAge data) ++
  markup "</span></strong></div><div class=`stat`>" ++
  markup "<small class=`eyebrow`>Último Error Registrado</small> <strong>" ++
  (if negb (od_LastBackupError data =? "")%string then
    markup "<span style=`color: var(--danger)`>" ++
    text (od_LastBackupError data) ++
    markup "</span>"
   else
    markup "<span style=`color: var(--acid)`>Sin errores</span>") ++
  markup "</strong></div><div class=`stat`>" ++
  markup "<small class=`eyebrow`>Última Restauración Ensayada</small> <strong><span>" ++
  text (od_LastRestoreTest data) ++
  markup "</span></strong></div></div></section>".

Definition Operations_alert (data : OperationsData) (alert : AlertRow) : page :=
  markup "<li class=`" ++
  classes [(al_Severity alert, true)] ++
  markup "`>" ++
  markup "<span class=`" ++
  classes [("status", true); (al_Severity alert, true)] ++
  markup "`>" ++
  text (al_Severity alert) ++
  markup "</span> <strong>" ++
  text (al_Message alert) ++
  markup "</strong><div style=`margin-top: 6px;`><small class=`muted`>Iniciada el: " ++
  text (date_time (al_CreatedAt alert) +:+ " UTC") ++
  markup "</small> " ++
  (if bool_decide (is_Some (al_ApplicationID alert)) then
    text " " ++
    markup "· <a href=`" ++
    link ("/applications/" +:+ itoa (default 0 (al_ApplicationID alert))) ++
    markup "`>Ver aplicación →</a> "
   else []) ++
  (if bool_decide (is_Some (al_DeploymentID alert)) && bool_decide (is_Some (al_ApplicationID alert)) then
    text " " ++
    markup "· <a href=`" ++
    link ("/applications/" +:+ itoa (default 0 (al_ApplicationID alert)) +:+ "/deployments/" +:+
      itoa (default 0 (al_DeploymentID alert)) +:+ "/logs") ++
    markup "`>Ver log de despliegue →</a>"
   else []) ++
  markup "</div></li>".

Definition Operations_alerts (data : OperationsData) : page :=
  (if (0 <? length (od_Alerts data))%nat then
    markup "<section><h2>Alertas Activas</h2><ul class=`alert-list` style=`padding-left: 0;`>" ++
    flat_map (Operations_alert data) (od_Alerts data) ++
    markup "</ul></section>"
   else
    markup "<p>No hay alertas activas.</p>").

Definition Operations_resolved_alert (data : OperationsData) (alert : AlertRow) : page :=
  markup "<li>" ++
  markup "<span class=`status resolved` style=`color: var(--muted); border-color: " ++
  markup "var(--line);`>resolved</span> <strong>" ++
  text (al_Message alert) ++
  markup "</strong><div style=`margin-top: 6px;`><small class=`muted`>Activa: " ++
  text (date_time (al_CreatedAt alert) +:+ " UTC") ++
  markup " - Resuelta: " ++
  text (date_time (scanNullTime (al_ResolvedAt alert)) +:+ " UTC") ++
  markup "</small> " ++
  (if bool_decide (is_Some (al_ApplicationID alert)) then
    text " " ++
    markup "· <a href=`" ++
    link ("/applications/" +:+ itoa (default 0 (al_ApplicationID alert))) ++
    markup "`>Ver aplicación →</a>"
   else []) ++
  markup "</div></li>".

Definition Operations_resolved (data : OperationsData) : page :=
  (if (0 <? length (od_ResolvedAlerts data))%nat then
    markup "<section><h2>Alertas Resueltas Recientemente</h2>" ++
    markup "<ul class=`alert-list` style=`padding-left: 0; opacity: 0.65;`>" ++
    flat_map (Operations_resolved_alert data) (od_ResolvedAlerts data) ++
    markup "</ul></section>"
   else []).

Definition Operations_last (data : OperationsData) (app : OperationApplication) : page :=
  markup "<tr><td><a href=`" ++
  link ("/applications/" +:+ itoa (a_ID (oa_Application app))) ++
  markup "`>" ++
  text (a_Name (oa_Application app)) ++
  markup "</a></td><td>" ++
  (if oa_HasDeployment app then
    text (date_time (d_StartedAt (oa_Deployment app))) ++
    markup " (" ++
    text (d_Status (oa_Deployment app)) ++
    markup ") · <a href=`" ++
    link ("/operations/logs?application=" +:+ itoa (a_ID (oa_Application app)) +:+ "&deployment=" +:+
      itoa (d_ID (oa_Deployment app))) ++
    markup "`>log</a>"
   else
    markup "sin despliegues").

Definition Operations_container (data : OperationsData) (app : OperationApplication) : page :=
  markup "</td>" ++
  (if negb (oa_Unavailable app =? "")%string then
    markup "<td colspan=`4`>No disponible: " ++
    text (oa_Unavailable app) ++
    markup "</td>"
   else
    markup "<td>" ++
    text (cs_State (oa_Container app)) ++
    markup " / " ++
    text (cs_Health (oa_Container app)) ++
    markup "</td><td>" ++
    text (cs_CPU (oa_Container app)) ++
    markup "</td><td>" ++
    text (cs_Memory (oa_Container app)) ++
    markup "</td><td><code>" ++
    text (cs_Image (oa_Container app)) ++
    markup "</code></td>") ++
  markup "</tr>".

Definition Operations_application (data : OperationsData) (app : OperationApplication) : page :=
  Operations_last data app ++
  Operations_container data app.

Definition Operations_applications (data : OperationsData) : page :=
  markup "<section><h2>Aplicaciones</h2><div class=`table-wrap`><table><thead><tr><th>Aplicación</th>" ++
  markup "<th>Última actividad</th><th>Estado</th><th>CPU</th><th>Memoria</th><th>Imagen</th></tr>" ++
  markup "</thead> <tbody>" ++
  flat_map (Operations_application data) (od_Applications data) ++
  markup "</tbody></table></div></section><section><h2>Retención</h2>" ++
  markup "<p>La limpieza elimina logs y registros finalizados con más de ".

Definition Operations_retention (data : OperationsData) : page :=
  text (itoa (od_RetentionDays data)) ++
  markup " días. Conserva al menos " ++
  text (itoa (od_RetainedImages data)) ++
  markup " imágenes exitosas recientes por aplicación; Docker rechaza borrar una imagen que siga en uso.</p>" ++
  markup "<div class=`actions`>" ++
  markup "<a class=`button` href=`/operations/retention/preview`>Revisar y ejecutar limpieza...</a>" ++
  markup "<form method=`post` action=`/operations/cleanup-schedule`>" ++
  markup "<input type=`hidden` name=`csrf_token` value=`" ++
  token (od_CSRFToken data) ++
  markup "`> <label>Programación <select name=`cleanup_schedule`><option value=`manual`" ++
  (if (od_CleanupSchedule data =? "manual")%string then
    flag "selected"
   else []) ++
  markup ">Solo manual</option> <option value=`daily`" ++
  (if (od_CleanupSchedule data =? "daily")%string then
    flag "selected"
   else []) ++
  markup ">Diaria</option> <option value=`weekly`" ++
  (if (od_CleanupSchedule data =? "weekly")%string then
    flag "selected"
   else []) ++
  markup ">Semanal</option></select></label><div class=`form-actions`>" ++
  markup "<button>Guardar programación</button></div></form></div></section><section>" ++
  markup "<h2>Copia de seguridad (Backup)</h2>" ++
  markup "<p>Crea un backup consistente y cifrado de la base de datos de MiniDock. Requiere que el " ++
  markup "proveedor de claves esté desbloqueado en esta sesión; nunca se genera una copia en texto plano.</p>" ++
  markup "<div class=`actions`><form method=`post` action=`/operations/backup`>" ++
  markup "<input type=`hidden` name=`csrf_token` value=`" ++
  token (od_CSRFToken data) ++
  markup "`> <button>Respaldar base de datos</button></form></div></section>" ++
  BrandFooter ++
  markup "</main></body></html>".

Definition Operations (data : OperationsData) : page :=
  Operations_routing data ++
  Operations_build data ++
  Operations_disk data ++
  Operations_backup data ++
  Operations_alerts data ++
  Operations_resolved data ++
  Operations_applications data ++
  Operations_retention data.

Definition OperationsCleanupPreview_head (data : OperationsCleanupPreviewData) : page :=
  markup "<!doctype html><html lang=`es`><head><meta charset=`utf-8`>" ++
  markup "<meta name=`viewport` content=`width=device-width,initial-scale=1`>" ++
  markup "<title>Vista previa de limpieza · MiniDock</title>" ++
  ThemeStyle ++
  markup "</head><body><main class=`shell`><a class=`back` href=`/operations`>← Operación</a>" ++
  markup "<h1>Vista previa de limpieza</h1>" ++
  markup "<p class=`notice`>Se aplicará la política de retención: conservar logs y despliegues de los " ++
  markup "últimos <strong>" ++
  text (itoa (cp_RetentionDays data)) ++
  markup " días</strong>," ++
  text " " ++
  markup " y retener al menos las <strong>" ++
  text (itoa (cp_RetainedImages data)) ++
  markup " imágenes exitosas más recientes</strong> por aplicación.</p><div class=`stats`>" ++
  markup "<div class=`stat`><small class=`eyebrow`>Espacio de logs estimado a liberar</small> <strong>" ++
  text (cp_TotalLogsSize data) ++
  markup "</strong></div><div class=`stat`><small class=`eyebrow`>Imágenes a eliminar</small> <strong>" ++
  text (itoa (cp_TotalImages data)) ++
  markup "</strong></div><div class=`stat`>" ++
  markup "<small class=`eyebrow`>Registros DB a depurar</small> <strong>" ++
  text (itoa (Z.of_nat (length (cp_Candidates data)))) ++
  markup "</strong></div></div>".

Definition OperationsCleanupPreview_row (data : OperationsCleanupPreviewData) (cand : CleanupCandidateInfo) : page :=
  markup "<tr><td>" ++
  text (cc_ApplicationName cand) ++
  markup "</td><td>#" ++
  text (itoa (cc_DeploymentID cand)) ++
  markup "</td><td>" ++
  (if negb (cc_Image cand =? "")%string then
    markup "<code>" ++
    text (cc_Image cand) ++
    markup "</code>"
   else
    markup "<span class=`muted`>Ninguna</span>") ++
  markup "</td><td>" ++
  (if negb (cc_LogSize cand =? "")%string then
    text (cc_LogSize cand)
   else
    markup "<span class=`muted`>-</span>") ++
  markup "</td><td>" ++
  text (itoa (cc_AgeDays cand)) ++
  markup " días</td></tr>".

Definition OperationsCleanupPreview_candidates (data : OperationsCleanupPreviewData) : page :=
  (if (0 <? length (cp_Candidates data))%nat then
    markup "<section><h2>Elementos seleccionados para depurar</h2><div class=`table-wrap`><table><thead>" ++
    markup "<tr><th>Aplicación</th><th>Despliegue ID</th><th>Imagen Docker</th><th>Tamaño de Log</th>" ++
    markup "<th>Antigüedad</th></tr></thead> <tbody>" ++
    flat_map (OperationsCleanupPreview_row data) (cp_Candidates data) ++
    markup "</tbody></table></div></section><section><h2>Confirmar acción</h2>" ++
    markup "<p class=`warning`>⚠️ Esta acción es irreversible. Se eliminarán los archivos de log de la " ++
    markup "máquina y las imágenes seleccionadas de Docker. Las imágenes activas o en uso no se verán afectadas.</p>" ++
    markup "<div class=`actions` style=`margin-top: 18px;`>" ++
    markup "<form method=`post` action=`/operations/retention`>" ++
    markup "<input type=`hidden` name=`csrf_token` value=`" ++
    token (cp_CSRFToken data) ++
    markup "`> <button class=`danger`>Confirmar y ejecutar limpieza ahora</button></form>" ++
    markup "<a class=`button` href=`/operations` style=`background: transparent; color: var(--paper); " ++
    markup "border-color: var(--line);`>Cancelar</a>" ++
    markup "</div></section>"
   else
    markup "<p class=`muted`>No hay artefactos ni logs que requieran limpieza según la política de " ++
    markup "retención actual.</p>") ++
  BrandFooter ++
  markup "</main></body></html>".

Definition OperationsCleanupPreview (data : OperationsCleanupPreviewData) : page :=
  OperationsCleanupPreview_head data ++
  OperationsCleanupPreview_candidates data.

Definition CloudflareDashboard_head (data : CloudflareData) : page :=
  markup "<!doctype html><html lang=`es`><head><meta charset=`utf-8`>" ++
  markup "<meta name=`viewport` content=`width=device-width,initial-scale=1`>" ++
  markup "<title>Cloudflare Tunnel · MiniDock</title>" ++
  ThemeStyle ++
  markup "</head><body><div class=`shell`><header><div>" ++
  markup "<p class=`eyebrow`>Publicación en Internet / NAT Traversal</p><h1>Cloudflare Tunnel</h1>" ++
  markup "<div class=`brand-signature`>by <a href=`https://kyberix.co/en` rel=`noopener noreferrer`>Kyberix</a>" ++
  markup "</div></div><a class=`back` href=`/`>&larr; Volver al Dashboard</a></header><main>" ++
  (if negb (cd_NoticeMessage data =? "")%string then
    markup "<div class=`notice` style=`margin-bottom: 20px;`><strong>Información:</strong> " ++
    text (cd_NoticeMessage data) ++
    markup "</div>"
   else []) ++
  (if negb (cd_ErrorMessage data =? "")%string then
    markup "<div class=`error` style=`margin-bottom: 20px;`><strong>Error:</strong> " ++
    text (cd_ErrorMessage data) ++
    markup "</div>"
   else []) ++
  (if (cf_Status (cd_Config data) =? "error")%string &&
    negb (cf_ErrorMessage (cd_Config data) =? "")%string && (cd_ErrorMessage data =? "")%string then
    markup "<div class=`error` style=`margin-bottom: 20px;`>" ++
    markup "<strong>El túnel requiere atención:</strong> " ++
    text (cf_ErrorMessage (cd_Config data)) ++
    markup "</div>"
   else []).

Definition CloudflareDashboard_status (data : CloudflareData) : page :=
  markup "<div class=`stats`><div class=`stat`><span class=`label`>Estado del Túnel</span> " ++
  (if (cf_Status (cd_Config data) =? "connected")%string then
    markup "<strong style=`color: var(--acid);`>🟢 CONECTADO</strong>"
   else if (cf_Status (cd_Config data) =? "configuring")%string then
    markup "<strong style=`color: #ffd85c;`>🟡 CONFIGURANDO...</strong>"
   else if (cf_Status (cd_Config data) =? "error")%string then
    markup "<strong style=`color: var(--danger);`>🔴 REQUIERE ATENCIÓN</strong>"
   else
    markup "<strong>⚪ DESACTIVADO</strong>") ++
  markup "</div><div class=`stat`><span class=`label`>Modo de Configuración</span> <strong>" ++
  (if (cf_Mode (cd_Config data) =? "api_token")%string then
    markup "API Token (Automatizado)"
   else if (cf_Mode (cd_Config data) =? "tunnel_token")%string then
    markup "Túnel existente (Avanzado)"
   else
    markup "Desactivado") ++
  markup "</strong></div><div class=`stat`><span class=`label`>Conector cloudflared</span> <strong>" ++
  text (cd_ConnectorStatus data) ++
  markup "</strong></div></div><section><h2>Conectar con Cloudflare</h2>" ++
  markup "<p class=`muted`>MiniDock crea el túnel, configura las rutas, descarga el conector oficial y " ++
  markup "lo mantiene en ejecución. No necesitas instalar programas, editar archivos ni usar la terminal.</p>" ++
  markup "<form method=`post` action=`/cloudflare/save` id=`cloudflare-config-form`>" ++
  markup "<input type=`hidden` name=`csrf_token` value=`".

Definition CloudflareDashboard_connect (data : CloudflareData) : page :=
  token (cd_CSRFToken data) ++
  markup "`> <label for=`mode`>Modo de Operación</label> <select id=`mode` name=`mode` " ++
  markup "onchange=`toggleModeFields(this.value)`>" ++
  markup "<option value=`api_token`" ++
  (if (cf_Mode (cd_Config data) =? "api_token")%string || (cf_Mode (cd_Config data) =? "")%string then
    flag "selected"
   else []) ++
  markup ">Automático (recomendado)</option> <option value=`tunnel_token`" ++
  (if (cf_Mode (cd_Config data) =? "tunnel_token")%string then
    flag "selected"
   else []) ++
  markup ">Usar un túnel existente (avanzado)</option> <option value=`disabled`" ++
  (if (cf_Mode (cd_Config data) =? "disabled")%string then
    flag "selected"
   else []) ++
  markup ">Desactivar Cloudflare Tunnel</option></select>" ++
  markup "<div id=`field-tunnel-token` style=`margin-top: 14px;`>" ++
  markup "<div style=`display: flex; align-items: center; justify-content: space-between; gap: 10px;`>" ++
  markup "<label for=`tunnel_token` style=`margin-top: 0;`>Token de Túnel (Cloudflare Tunnel " ++
  markup "Token)</label> <details style=`cursor: pointer;`>" ++
  markup "<summary style=`font-size: 0.8rem; color: var(--acid); font-weight: bold;`>(?) ¿Cómo obtener " ++
  markup "este Token paso a paso?</summary>" ++
  markup "<div class=`notice` style=`margin-top: 10px; font-size: 0.85rem; line-height: 1.5; " ++
  markup "border-left-color: var(--paper);`>" ++
  markup "<strong>Pasos exactos en el panel de Cloudflare en Español:</strong>" ++
  markup "<ol style=`margin: 8px 0 0 18px; padding: 0;`>" ++
  markup "<li>Entra a tu panel de Cloudflare:<ul style=`margin: 4px 0 6px;`>" ++
  markup "<li>Desde el <strong>Panel Principal</strong>: Ve a <strong>Redes</strong> ➔ " ++
  markup "<strong>Túneles</strong> (o <em>Networking ➔ Tunnels</em>).</li>" ++
  markup "<li>Desde <strong>Zero Trust</strong>: Ve a <strong>Redes</strong> ➔ " ++
  markup "<strong>Conectores</strong> / <strong>Túneles</strong> (o <em>Networks ➔ Connectors</em>).</li>" ++
  markup "</ul></li>" ++
  markup "<li>Haz clic en el botón azul <strong>Crear un túnel</strong> (<em>Create a tunnel</em>).</li>" ++
  markup "<li>Selecciona la opción <strong>Cloudflare Tunnel (cloudflared)</strong> y presiona Siguiente.</li>" ++
  markup "<li>Escribe un nombre para identificar tu PC (ejemplo: <code>minidock-local</code>) y haz " ++
  markup "clic en <strong>Guardar túnel</strong>.</li>" ++
  markup "<li>En la sección <em>Instalar y ejecutar un conector</em>, verás un bloque de código o " ++
  markup "comando largo como:<br>" ++
  markup "<code style=`font-size: 0.78rem;`>cloudflared.exe service install eyJh...</code></li>" ++
  markup "<li>Copia <strong>únicamente la clave larga cifrada que empieza por <code>eyJh...</code>" ++
  markup "</strong> y pégala en el campo de texto a continuación.</li></ol></div></details></div>" ++
  markup "<input type=`password` id=`tunnel_token` name=`tunnel_token` placeholder=`Déjalo vacío para " ++
  markup "conservar el token actual` autocomplete=`new-password`>" ++
  markup "<p class=`hint`>Solo para túneles creados previamente. MiniDock iniciará el conector, pero " ++
  markup "las rutas se administran desde Cloudflare.</p>" ++
  markup "</div><div id=`field-api-token` style=`margin-top: 14px;`>" ++
  markup "<div style=`display: flex; align-items: center; justify-content: space-between; gap: 10px;`>" ++
  markup "<label for=`api_token` style=`margin-top: 0;`>Token de API de Cloudflare (API Token)</label> " ++
  markup "<details style=`cursor: pointer;`>" ++
  markup "<summary style=`font-size: 0.8rem; color: var(--acid); font-weight: bold;`>(?) ¿Cómo generar " ++
  markup "un Token de API paso a paso?</summary>" ++
  markup "<div class=`notice` style=`margin-top: 10px; font-size: 0.85rem; line-height: 1.5; " ++
  markup "border-left-color: var(--paper);`>" ++
  markup "<strong>Pasos en Español para crear un Token de API:</strong>" ++
  markup "<ol style=`margin: 8px 0 0 18px; padding: 0;`>" ++
  markup "<li>Abre la sección <a href=`https://dash.cloudflare.com/profile/api-tokens` target=`_blank` " ++
  markup "rel=`noopener`>Tokens de API de Cloudflare</a>.</li>" ++
  markup "<li>Haz clic en el botón <strong>Crear token</strong> (<em>Create Token</em>).</li>" ++
  markup "<li>Puedes usar la plantilla <strong>Editar DNS de zona</strong> o seleccionar <strong>Crear " ++
  markup "token personalizado</strong>.</li>" ++
  markup "<li>Configura los siguientes <strong>Permisos</strong> (Permissions):<ul style=`margin-top: 4px;`>" ++
  markup "<li><code>Zona</code> (Zone) ➔ <code>DNS</code> ➔ <code>Editar</code> (Edit)</li><li>" ++
  markup "<code>Cuenta</code> (Account) ➔ <code>Cloudflare Tunnel</code> ➔ <code>Editar</code> (Edit)</li>" ++
  markup "</ul></li>" ++
  markup "<li>En <em>Recursos de zona</em> (Zone Resources), elige <strong>Incluir</strong> ➔ " ++
  markup "<strong>Zona específica</strong> ➔ Selecciona tu dominio (ej: <code>kyberix.co</code>).</li>" ++
  markup "<li>Haz clic en <strong>Continuar al resumen</strong> ➔ <strong>Crear token</strong> y copia " ++
  markup "el código generado.</li>" ++
  markup "</ol></div></details></div>" ++
  markup "<input type=`password` id=`api_token` name=`api_token` placeholder=`Déjalo vacío para " ++
  markup "conservar el token actual` autocomplete=`new-password`>" ++
  markup "<p class=`hint`>Se cifra antes de guardarse. Permisos mínimos: DNS de zona: editar y " ++
  markup "Cloudflare Tunnel: editar.</p>" ++
  markup "<div style=`margin-top: 14px;`>" ++
  markup "<div style=`display: flex; align-items: center; justify-content: space-between; gap: 10px;`>" ++
  markup "<label for=`account_id` style=`margin-top: 0;`>ID de Cuenta de Cloudflare (Account " ++
  markup "ID)</label> <details style=`cursor: pointer;`>" ++
  markup "<summary style=`font-size: 0.8rem; color: var(--acid); font-weight: bold;`>(?) ¿Dónde " ++
  markup "encuentro mi ID de Cuenta?</summary>" ++
  markup "<div class=`notice` style=`margin-top: 10px; font-size: 0.85rem; line-height: 1.5; " ++
  markup "border-left-color: var(--paper);`>" ++
  markup "<strong>Cómo obtener tu ID de Cuenta:</strong>" ++
  markup "<p style=`margin: 4px 0 0;`>Entra al <a href=`https://dash.cloudflare.com/` target=`_blank` " ++
  markup "rel=`noopener`>Panel de Cloudflare</a> y selecciona tu dominio (ej: <code>kyberix.co</code>). " ++
  markup "En la columna lateral derecha del menú de Visión General (Overview), desplázate hacia abajo " ++
  markup "hasta el apartado <strong>API</strong> y copia el código de 32 caracteres llamado <strong>ID " ++
  markup "de cuenta</strong> (Account ID).</p>" ++
  markup "</div></details></div><input type=`text` id=`account_id` name=`account_id` value=`" ++
  text (cf_AccountID (cd_Config data)) ++
  markup "` placeholder=`Código hexadecimal de 32 caracteres` pattern=`[0-9a-fA-F]{32}" ++
  markup "` maxlength=`32` autocomplete=`off` spellcheck=`false`></div></div><div class=`form-actions`>" ++
  markup "<button type=`submit` id=`cloudflare-submit`>Guardar y conectar automáticamente</button></div>" ++
  markup "</form></section><section><h2>Conector administrado</h2><p class=`muted`>Estado: <strong>" ++
  text (cd_ConnectorStatus data) ++
  markup "</strong>. Se ejecuta aislado, sin puertos publicados, con filesystem de solo lectura y sin " ++
  markup "capacidades Linux.</p>" ++
  (if negb (cf_Mode (cd_Config data) =? "disabled")%string then
    markup "<form method=`post` action=`/cloudflare/reconnect`>" ++
    markup "<input type=`hidden` name=`csrf_token` value=`" ++
    token (cd_CSRFToken data) ++
    markup "`> <button type=`submit` class=`button`>Reparar o reiniciar conector</button></form>"
   else []).

Definition CloudflareDashboard_row (data : CloudflareData) (item : ApplicationCloudflareInfo) : page :=
  markup "<tr><td><strong>" ++
  text (a_Name (ci_App item)) ++
  markup "</strong></td><td><code>" ++
  text (a_Domain (ci_App item)) ++
  markup "</code></td><td><code style=`font-size: 0.85rem;`>" ++
  text (ci_ExpectedCNAME item) ++
  markup "</code></td><td><code style=`font-size: 0.85rem;`>" ++
  text (ci_ResolvedCNAME item) ++
  markup "</code></td><td>" ++
  (if ci_IsPropagated item then
    markup "<span class=`status successful`>🟢 PROPAGADO</span>"
   else
    markup "<span class=`status queued`>🟡 PENDIENTE DNS</span>") ++
  markup "</td><td><div class=`actions`><form method=`post` action=`" ++
  link ("/applications/" +:+ itoa (a_ID (ci_App item)) +:+ "/cloudflare/sync") ++
  markup "`><input type=`hidden` name=`csrf_token` value=`" ++
  token (cd_CSRFToken data) ++
  markup "`> <button type=`submit` class=`button`>Verificar / Sync DNS</button></form></div></td></tr>".

Definition CloudflareDashboard_dns (data : CloudflareData) : page :=
  markup "<p class=`hint`>Las credenciales no se escriben en <code>.env</code> ni se muestran en " ++
  markup "comandos o registros de MiniDock.</p>" ++
  markup "</section><section><h2>Publicar aplicaciones</h2>" ++
  markup "<p class=`muted`>Asigna un dominio público a cada aplicación. En modo automático, MiniDock " ++
  markup "configura tanto la ruta del túnel como el registro DNS.</p>" ++
  (if negb (cf_TunnelID (cd_Config data) =? "")%string then
    markup "<div class=`notice` style=`margin-bottom: 18px;`>" ++
    markup "<span class=`label`>Target CNAME del Túnel</span><br>" ++
    markup "<code style=`font-size: 1.1rem; user-select: all;`>" ++
    text (cf_TunnelID (cd_Config data) +:+ ".cfargotunnel.com") ++
    markup "</code></div>"
   else []) ++
  (if (0 <? length (cd_Apps data))%nat then
    markup "<div class=`table-wrap`><table><thead><tr><th>Aplicación</th><th>Dominio Público</th>" ++
    markup "<th>CNAME Esperado</th><th>CNAME Actual (DNS)</th><th>Estado DNS</th><th>Acciones</th></tr>" ++
    markup "</thead> <tbody>" ++
    flat_map (CloudflareDashboard_row data) (cd_Apps data) ++
    markup "</tbody></table></div>"
   else
    markup "<p class=`muted`>No hay aplicaciones registradas actualmente.</p>").

Definition CloudflareDashboard_guide (data : CloudflareData) : page :=
  markup "</section><section class=`phase`><span class=`label`>Guía Rápida UI/UX</span><br>" ++
  markup "<strong>¿Cómo probar tu aplicación 'demo' desde Internet?</strong>" ++
  markup "<ol style=`margin-top: 10px; padding-left: 20px; line-height: 1.6;`>" ++
  markup "<li>En tu panel de Cloudflare DNS, añade un registro de tipo <code>CNAME</code>.</li><li>" ++
  markup "<strong>Nombre (Host):</strong> Subdominio de tu app (ej. <code>demo</code>).</li><li>" ++
  markup "<strong>Destino (Target):</strong> El valor <code>" ++
  text (cf_TunnelID (cd_Config data) +:+ ".cfargotunnel.com") ++
  markup "</code> de arriba.</li><li>" ++
  markup "<strong>Proxy status:</strong> Déjalo en <strong>Proxied (Nube Naranja)</strong>.</li>" ++
  markup "<li>Una vez guardado, haz clic en <strong>Verificar / Sync DNS</strong> para confirmar que tu " ++
  markup "PC responda las peticiones públicas.</li>" ++
  markup "</ol></section>" ++
  BrandFooter ++
  line "</main></div><script>" ++
  line "				function toggleModeFields(mode) {" ++
  line "					var tunnelField = document.getElementById('field-tunnel-token');" ++
  line "					var apiField = document.getElementById('field-api-token');" ++
  line "					var accountID = document.getElementById('account_id');" ++
  line "					var submit = document.getElementById('cloudflare-submit');" ++
  line "					if (mode === 'api_token') {" ++
  line "						apiField.style.display = 'block';" ++
  line "						tunnelField.style.display = 'none';" ++
  line "						accountID.required = true;" ++
  line "						submit.textContent = 'Guardar y conectar automáticamente';" ++
  line "					} else if (mode === 'tunnel_token') {" ++
  line "						apiField.style.display = 'none';" ++
  line "						tunnelField.style.display = 'block';" ++
  line "						accountID.required = false;" ++
  line "						submit.textContent = 'Guardar e iniciar conector';" ++
  line "					} else {" ++
  line "						apiField.style.display = 'none';" ++
  line "						tunnelField.style.display = 'none';" ++
  line "						accountID.required = false;" ++
  line "						submit.textContent = 'Desactivar túnel';" ++
  line "					}" ++
  line "				}" ++
  line "				toggleModeFields(document.getElementById('mode').value);" ++
  line "				document.getElementById('cloudflare-config-form').addEventListener('submit', function() {" ++
  line "					var submit = document.getElementById('cloudflare-submit');" ++
  line "					submit.disabled = true;" ++
  line "					submit.textContent = 'Configurando… la primera descarga puede tardar';" ++
  line "				});" ++
  markup "			</script></body></html>".

Definition CloudflareDashboard (data : CloudflareData) : page :=
  CloudflareDashboard_head data ++
  CloudflareDashboard_status data ++
  CloudflareDashboard_connect data ++
  CloudflareDashboard_dns data ++
  CloudflareDashboard_guide data.
