(* ===== verification/Components.v ===== *)
(** * The documents of the panel (internal/app/views, server.go: renderComponent, securityHeaders)

    Every component is a document: its elements are balanced, a form that posts carries the token
    of the session, values stand in the text or in quotes, addresses stay in the panel or go over
    TLS.  The structure of what is sent is that of the template, whatever the data. *)

From S2P Require Import Prelude GoStrings StoreTypes Executor Views.
From S2P Require Import Html PanelPages ApplicationPages OperationPages.

Definition page_of (c : Component) : page :=
  match c with
  | SetupView errMsg => Setup errMsg
  | UnlockView errMsg => Unlock errMsg
  | DashboardView data => Dashboard data
  | ApplicationFormView data => ApplicationForm data
  | ApplicationDetailView data => ApplicationDetail data
  | DeploymentDiffView data => DeploymentDiff data
  | OperationsView data => Operations data
  | OperationsCleanupPreviewView data => OperationsCleanupPreview data
  | SecretsView data => Secrets data
  | CloudflareDashboardView data => CloudflareDashboard data
  end.

(** ** What is sent *)

Definition renderComponent (EscapeString : string -> string) (CSSClasses : list (string * bool) -> string)
    (component : Component) : list (string * string) * string :=
  ([("Content-Type", "text/html; charset=utf-8")], render EscapeString CSSClasses (page_of component)).

Definition securityHeaders : list (string * string) :=
  [("Content-Security-Policy",
    "default-src 'self'; style-src 'self' 'unsafe-inline'; base-uri 'none'; frame-ancestors 'none'");
   ("X-Content-Type-Options", "nosniff");
   ("Referrer-Policy", "no-referrer")].

(** What a policy says of scripts in the document: [script-src], or [default-src] without it. *)
Definition directive (name policy : string) : option (list string) :=
  match List.filter (fun d => bool_decide (head d = Some name)) (map fields (split_on ";" policy)) with
  | d :: _ => Some (tail d)
  | [] => None
  end.
Definition inline_scripts_run (headers : list (string * string)) : bool :=
  forallb (fun '(name, policy) =>
    negb (name =? "Content-Security-Policy")%string ||
    match directive "script-src" policy, directive "default-src" policy with
    | Some sources, _ | None, Some sources => existsb (String.eqb "'unsafe-inline'") sources
    | None, None => true
    end) headers.

(** The pages before the session have no token to carry. *)
Definition posts_token (c : Component) : bool :=
  match c with SetupView _ | UnlockView _ => false | _ => true end.
(** The pages with scripts in their text. *)
Definition has_inline_script (c : Component) : bool :=
  match c with ApplicationDetailView _ | CloudflareDashboardView _ => true | _ => false end.

(** ** Every component is a document *)

(** The parts that every page shows, inside any elements. *)
Section shared.
Context (tokens strict : bool) (opened : list string) (form : option bool).
Definition among : place * checker := (Text, Checker strict opened form []).

Lemma ThemeStyle_moves : moves tokens among ThemeStyle among.
Proof. vm_compute. reflexivity. Qed.
Lemma BrandFooter_moves : moves tokens among BrandFooter among.
Proof. vm_compute. reflexivity. Qed.
Lemma HostReadiness_moves data : moves tokens among (HostReadiness data) among.
Proof. walk. Qed.
End shared.
#[local] Hint Extern 1 (moves _ _ ThemeStyle _) => eapply ThemeStyle_moves : components.
#[local] Hint Extern 1 (moves _ _ BrandFooter _) => eapply BrandFooter_moves : components.
#[local] Hint Extern 1 (moves _ _ (HostReadiness _) _) => eapply HostReadiness_moves : components.

Lemma Setup_document e : document false true (Setup e).
Proof. change (moves false (outside true) (Setup e) (outside true)). walk. Qed.
Lemma Unlock_document e : document false true (Unlock e).
Proof. change (moves false (outside true) (Unlock e) (outside true)). walk. Qed.

Lemma panel_document (c : Component) st : posts_token c = true -> st = outside (negb (has_inline_script c)) ->
  moves true st (page_of c) st.
Proof. destruct c; cbn [page_of posts_token has_inline_script negb]; intros Hp ->; try discriminate Hp; walk. Qed.

Lemma panel_scan (c : Component) :
  scan (posts_token c) (outside (negb (has_inline_script c))) (page_of c) = Some (outside (negb (has_inline_script c))).
Proof.
  destruct (posts_token c) eqn:Hp; [by apply panel_document|].
  destruct c; try discriminate; [apply Setup_document|apply Unlock_document].
Qed.

(** C7: every page of the panel is a document, whatever its data: what is opened is closed, each
    form that posts carries the token of the session, except on the pages of the setup and of the
    unlocking ([posts_token]), which are shown before there is a session; values stand only in the text or in quoted attributes and never in a script or a style,
    and every address is of the panel or goes over TLS.  All but two have no script in their
    text. *)
Theorem pages_are_documents (c : Component) :
  document (posts_token c) (negb (has_inline_script c)) (page_of c).
Proof. exact (panel_scan c). Qed.

(** C4: a value cannot change a page.  The tags, their attributes and their nesting that a
    browser reads in what is sent are those of the template and no tag is left open, for any
    escaping that gives no angle bracket and no quote. *)
Theorem values_keep_the_structure EscapeString CSSClasses (c : Component) :
  (forall s, inert (EscapeString s) = true) ->
  exists l l', lex_page Text (page_of c) = Some (Text, l)
    /\ lex Text (snd (renderComponent EscapeString CSSClasses c)) = (Text, l')
    /\ structure l' = structure l.
Proof.
  intros He. pose proof (panel_scan c) as (l & Hl)%scan_lexes. exists l. cbn [fst outside] in Hl.
  destruct (lex_render EscapeString CSSClasses He _ _ _ _ Hl) as (l' & E & S). by exists l'.
Qed.

(** ** The policy of the panel and the scripts of two pages *)

Ltac stop :=
  lazymatch goal with
  | |- scan _ _ (_ ++ _) = None => first [eapply stops_r; [solve [walk]|stop] | apply stops_l; stop]
  | |- scan _ _ (markup _) = None => vm_compute; reflexivity
  | |- scan _ _ (line _) = None => vm_compute; reflexivity
  | |- scan _ _ ?p = None => let h := head_of p in unfold h; stop
  end.

(** The confirmation of a rollback and of a stop, and the fields of the form of Cloudflare, are
    scripts that the policy the panel sends does not let run. *)
Lemma inline_scripts_blocked :
  inline_scripts_run securityHeaders = false
  /\ forall c, has_inline_script c = true -> scan true (outside true) (page_of c) = None.
Proof. split; [reflexivity|]. intros c Hc. destruct c; try discriminate; cbn [page_of]; stop. Qed.

(** ** The tokens of a page *)

Definition csrf_of (c : Component) : option string :=
  match c with
  | SetupView _ | UnlockView _ => None
  | DashboardView data => Some (db_CSRFToken data)
  | ApplicationFormView data => Some (af_CSRFToken data)
  | ApplicationDetailView data => Some (ad_CSRFToken data)
  | DeploymentDiffView data => Some (dd_CSRFToken data)
  | OperationsView data => Some (od_CSRFToken data)
  | OperationsCleanupPreviewView data => Some (cp_CSRFToken data)
  | SecretsView data => Some (sd_CSRFToken data)
  | CloudflareDashboardView data => Some (cd_CSRFToken data)
  end.

Section tokens.
Context (P : string -> Prop).
Definition all_tokens (p : page) : Prop := Forall P (tokens_of p).

Lemma all_tokens_app a b : all_tokens a -> all_tokens b -> all_tokens (a ++ b).
Proof. unfold all_tokens, tokens_of. rewrite omap_app. by apply Forall_app_2. Qed.
Lemma all_tokens_if (c : bool) a b : all_tokens a -> all_tokens b -> all_tokens (if c then a else b).
Proof. by destruct c. Qed.
Lemma all_tokens_flat_map {A} (f : A -> page) l : (forall x, all_tokens (f x)) -> all_tokens (flat_map f l).
Proof. intros Hf. induction l as [|x l IH]; [constructor|]. by apply all_tokens_app. Qed.
Lemma all_tokens_token t : P t -> all_tokens (token t).
Proof. by repeat constructor. Qed.
End tokens.

Ltac tokens :=
  lazymatch goal with
  | |- all_tokens _ (_ ++ _) => apply all_tokens_app; [tokens|tokens]
  | |- all_tokens _ (if _ then _ else _) => apply all_tokens_if; [tokens|tokens]
  | |- all_tokens _ (flat_map _ _) => apply all_tokens_flat_map; intros ?; cbv beta; tokens
  | |- all_tokens _ (token _) => apply all_tokens_token; reflexivity
  | |- all_tokens _ (markup _) => constructor
  | |- all_tokens _ (line _) => constructor
  | |- all_tokens _ (text _) => constructor
  | |- all_tokens _ (flag _) => constructor
  | |- all_tokens _ (link _) => constructor
  | |- all_tokens _ (classes _) => constructor
  | |- all_tokens _ [] => constructor
  | |- all_tokens _ ?p => let h := head_of p in unfold h; tokens
  end.

(** The tokens a page shows are the one its data holds. *)
Lemma page_tokens (c : Component) : all_tokens (fun t => csrf_of c = Some t) (page_of c).
Proof. destruct c; cbn [page_of]; tokens. Qed.

(** ** A concrete escaping: [html.EscapeString], and the names that are on *)

Definition escape_char (c : ascii) : string :=
  if Ascii.eqb c "<" then "&lt;" else if Ascii.eqb c ">" then "&gt;" else if Ascii.eqb c "&" then "&amp;"
  else if Ascii.eqb c "'" then "&#39;" else if Ascii.eqb c dquote then "&#34;" else String c "".
Fixpoint html_escape (s : string) : string :=
  match s with "" => "" | String c s => escape_char c +:+ html_escape s end.
Definition class_names (l : list (string * bool)) : string := join " " (map fst (List.filter snd l)).

Lemma html_escape_inert s : inert (html_escape s) = true.
Proof.
  unfold inert. induction s as [|c s IH]; [done|]. simpl. rewrite all_string_append, IH, andb_true_r.
  clear. by destruct c as [[] [] [] [] [] [] [] []].
Qed.

Definition hostile : string := raw "`><script>alert(1)</script>".
Lemma values_keep_the_structure_witness :
  inert hostile = false
  /\ exists l l', lex_page Text (page_of (UnlockView hostile)) = Some (Text, l)
    /\ lex Text (snd (renderComponent html_escape class_names (UnlockView hostile))) = (Text, l')
    /\ structure l' = structure l.
Proof.
  split; [reflexivity|]. apply (values_keep_the_structure html_escape class_names (UnlockView hostile)).
  exact html_escape_inert.
Defined.
