(* ===== verification/Proxy.v ===== *)
(** * The proxy adapter (internal/deploy/executor.go: Caddy)

    Routes are replaced through Caddy's admin API and read back; public traffic is
    verified by probing the route.  The HTTP exchanges are those of the machine. *)

From S2P Require Import Prelude GoStrings Json Net Host StoreTypes Executor.

Section proxy.
Context {H : Type} `{!Host H}.

(** [ProxyAdapter], with the optional richer probe. *)
Record ProxyAdapter := MkProxyAdapter {
  px_Name : string;
  px_Apply : Executor -> Application -> string -> EM H unit;
  px_Verify : Executor -> Application -> EM H unit;
  px_Probe : option (Executor -> Application -> EM H RouteProbe) }.

(** ** The admin API *)

Definition caddyRouteID (applicationID : Z) : string := "minidock-app-" +:+ itoa applicationID.

Definition is_slash (c : ascii) : bool := Ascii.eqb c "/".

(** [caddyClient.endpoint]. *)
Definition caddy_endpoint (baseURL path : string) : result string :=
  let base := trim_right is_slash (trim_space baseURL) in
  if (base =? "")%string then Err (ErrMsg "Caddy Admin API URL is not configured") else
  match parse_url base with
  | Some parsed =>
    if (url_scheme parsed =? "http")%string && negb (url_host parsed =? "")%string
    then Ok (base +:+ path) else Err (ErrMsg "invalid Caddy Admin API URL")
  | None => Err (ErrMsg "invalid Caddy Admin API URL")
  end.

(** The complete Caddy route of an application; a Go map is marshalled by key. *)
Definition caddy_route (application : Application) (target : string) : json :=
  JObj [("@id", JStr (caddyRouteID (a_ID application)));
        ("handle", JArr [JObj [("handler", JStr "reverse_proxy");
                               ("upstreams", JArr [JObj [("dial", JStr target)]])]]);
        ("match", JArr [JObj [("host", JArr [JStr (a_Domain application)])]])].

Definition admin_request (method endpoint : string) (body : json) : request :=
  Request method endpoint "" [("Content-Type", "application/json")] (Some body).
Definition read_request (endpoint : string) : request := Request "GET" endpoint "" [] None.

Definition status_ok (r : response) : bool := (200 <=? rs_status r) && (rs_status r <? 300).

(** The struct the applied route is decoded into: handlers with their upstreams. *)
Definition decode_dial : decoder string := fun s j =>
  kvs ← members j; decode_field "dial" decode_text s kvs.
Definition decode_handler : decoder (string * list string) := fun h j =>
  kvs ← members j;
  handler ← decode_field "handler" decode_text h.1 kvs;
  upstreams ← decode_field "upstreams" (decode_list "" decode_dial) h.2 kvs;
  Some (handler, upstreams).
Definition decode_route (j : json) : option (list (string * list string)) :=
  kvs ← members j; decode_field "handle" (decode_list ("", []) decode_handler) [] kvs.

(** The applied route, read from the first 64 KiB of an answer. *)
Definition probe_body_limit : nat := Z.to_nat (2 ^ 16).
Definition route_of (r : response) : option (list (string * list string)) :=
  match rs_body r with
  | Ok body => parse_first (take_string probe_body_limit body) ≫= decode_route
  | Err _ => None
  end.

(** Some reverse-proxy handler of the route dials the target. *)
Definition dials (target : string) (route : list (string * list string)) : bool :=
  existsb (fun h => (h.1 =? "reverse_proxy")%string
                    && existsb (fun dial => (dial =? target)%string) h.2) route.

Definition verifyRouteTarget (baseURL endpointOrPath target : string) : EM H unit :=
  endpoint ← lift (if has_prefix endpointOrPath "/" then caddy_endpoint baseURL endpointOrPath
                   else Ok endpointOrPath);
  response ← catch (http (read_request endpoint))
               (fun err => fail (ErrWrap "read applied Caddy route" err));
  if negb (status_ok response)
  then fail (ErrMsg ("read applied Caddy route: HTTP " +:+ itoa (rs_status response))) else
  match route_of response with
  | None => fail (ErrMsg "decode applied Caddy route")
  | Some route =>
    if dials target route then mret tt
    else fail (ErrMsg ("Caddy route did not retain candidate upstream " +:+ quote target))
  end.

Definition UpsertRoute (baseURL : string) (application : Application) (target : string)
    : EM H unit :=
  let body := caddy_route application target in
  let path := "/id/" +:+ caddyRouteID (a_ID application) in
  endpoint ← lift (caddy_endpoint baseURL path);
  response ← catch (http (admin_request "PATCH" endpoint body))
               (fun err => fail (ErrWrap "replace Caddy route" err));
  if status_ok response then verifyRouteTarget baseURL endpoint target else
  if negb (rs_status response =? 404)
  then fail (ErrMsg ("replace Caddy route: HTTP " +:+ itoa (rs_status response))) else
  endpoint ← lift (caddy_endpoint baseURL "/config/apps/http/servers/srv0/routes");
  response ← catch (http (admin_request "POST" endpoint body))
               (fun err => fail (ErrWrap "create Caddy route" err));
  if negb (status_ok response)
  then fail (ErrMsg ("create Caddy route: HTTP " +:+ itoa (rs_status response))) else
  verifyRouteTarget baseURL path target.

Definition Apply (e : Executor) (application : Application) (target : string) : EM H unit :=
  if (trim_space target =? "")%string then fail (ErrMsg "caddy target is empty") else
  UpsertRoute (CaddyAdminURL e) application target.

(** ** Probing a route *)

Definition expectedProxyStatus (e : Executor) : Z :=
  if 0 <? ProxyExpectedStatus e then ProxyExpectedStatus e else 200.

Definition routeServerName (domain : string) : string :=
  let domain := trim_space domain in
  match SplitHostPort domain with
  | Some (host, _) => trim_suffix host "."
  | None => trim_suffix domain "."
  end.

Definition validCaddyHTTPSRedirect (r : response) (application : Application) (endpoint : string)
    : bool :=
  (rs_status r =? 308)
  && match rs_location r with
     | None => false
     | Some location =>
       (url_scheme location =? "https")%string && (url_path location =? endpoint)%string
       && equal_fold (routeServerName (url_host location)) (routeServerName (a_Domain application))
     end.

Definition probe_endpoint (application : Application) : string :=
  let endpoint := trim_space (a_HealthEndpoint application) in
  if (endpoint =? "")%string then "/" else endpoint.

Definition proxy_url (e : Executor) : string :=
  if (ProxyURL e =? "")%string then "http://localhost" else ProxyURL e.

(** What one answer proves: nothing wrong, or the error of this attempt. *)
Definition judge_response (e : Executor) (application : Application) (endpoint : string) (r : response)
    : option error :=
  match rs_body r with
  | Err readErr => Some (ErrWrap "read proxy health response" readErr)
  | Ok body =>
    if validCaddyHTTPSRedirect r application endpoint && (expectedProxyStatus e =? 200)
       && (ProxyExpectedContent e =? "")%string then None
    else if negb (rs_status r =? expectedProxyStatus e)
    then Some (ErrMsg ("caddy proxy returned status " +:+ itoa (rs_status r) +:+ " for " +:+ endpoint
                       +:+ "; expected " +:+ itoa (expectedProxyStatus e)))
    else if negb (ProxyExpectedContent e =? "")%string
            && negb (contains (take_string probe_body_limit body) (ProxyExpectedContent e))
    then Some (ErrMsg ("caddy proxy response for " +:+ endpoint
                       +:+ " does not contain configured expected content"))
    else None
  end.

Definition probe_interval : Duration := 500 * Millisecond.

(** The body of the loop; [next] is its next round. *)
Definition probe_round (next : RouteProbe -> option error -> EM H RouteProbe) (e : Executor)
    (application : Application) (deadline : Time) (probe : RouteProbe) (lastErr : option error)
    : EM H RouteProbe :=
  t ← now;
  if negb (t <? deadline) then
    mret (probe <| rp_Detail := match lastErr with
                                | Some err => error_message err
                                | None => "caddy proxy route verification timed out for domain "
                                          +:+ quote (a_Domain application)
                                end |>)
  else
  let endpoint := probe_endpoint application in
  if negb (has_prefix endpoint "/") then
    mret (probe <| rp_Detail := "proxy health endpoint must start with /: " +:+ quote endpoint |>)
  else
  let address := trim_right is_slash (proxy_url e) +:+ endpoint in
  match parse_url address with
  | None => mret (probe <| rp_Detail := "parse " +:+ quote address |>)
  | Some _ =>
    answer ← attempt (http (Request "GET" address (a_Domain application) [] None));
    let '(probe, lastErr) :=
      match answer with
      | Err err => (probe, Some err)
      | Ok r => (probe <| rp_StatusCode := rs_status r |>, judge_response e application endpoint r)
      end in
    match lastErr with
    | None => mret (probe <| rp_Success := true |>)
    | Some _ =>
      waited ← attempt (sleep probe_interval);
      match waited with
      | Err err => mret (probe <| rp_Detail := error_message err |>)
      | Ok _ => next probe lastErr
      end
    end
  end.

Fixpoint probe_loop (fuel : nat) (e : Executor) (application : Application) (deadline : Time)
    (probe : RouteProbe) (lastErr : option error) : EM H RouteProbe :=
  match fuel with
  | O => fail (ErrPanic "probe_loop: out of fuel")
  | S fuel =>
    probe_round (probe_loop fuel e application deadline) e application deadline probe lastErr
  end.

(** One attempt at least every half second until the deadline. *)
Definition probe_fuel (e : Executor) : nat := Z.to_nat (healthTimeout e / probe_interval) + 2.

Definition Probe (e : Executor) (application : Application) : EM H RouteProbe :=
  start ← now;
  checked ← now;
  probe_loop (probe_fuel e) e application (start + healthTimeout e)
    (MkRouteProbe false 0 checked ("caddy via " +:+ proxy_url e) "") None.

Definition Verify (e : Executor) (application : Application) : EM H unit :=
  probe ← Probe e application;
  if rp_Success probe then mret tt
  else fail (ErrMsg ("caddy proxy route verification failed for domain "
                     +:+ quote (a_Domain application) +:+ ": " +:+ rp_Detail probe)).

Definition CaddyProxyAdapter : ProxyAdapter := MkProxyAdapter "caddy" Apply Verify (Some Probe).

(** [Executor.ProbeRoute] for the configured adapter. *)
Definition ProbeRoute (proxy : ProxyAdapter) (e : Executor) (application : Application)
    : EM H RouteProbe :=
  match px_Probe proxy with
  | Some probe => probe e application
  | None =>
    verified ← attempt (px_Verify proxy e application);
    t ← now;
    mret (MkRouteProbe (is_ok verified) 0 t (px_Name proxy)
            (errorDetail (match verified with Ok _ => None | Err err => Some err end)))
  end.
End proxy.
Arguments ProxyAdapter : clear implicits.

(** ** What a confirmed route and a successful probe prove *)

Section proxy_facts.
Context {H : Type} `{!Host H}.
Implicit Types w : world (site H).

Lemma http_run (rq : request) w r w' :
  http rq w = (Ok r, w') -> host_http rq (site_host (w_state w)) = (Ok r, site_host (w_state w')).
Proof.
  intros E%step_run. unfold on_host in E. destruct (host_http rq _) as [x h].
  by injection E as -> <-.
Qed.

(** An endpoint is an absolute URL, so it is not taken for a path. *)
Lemma caddy_endpoint_absolute baseURL path endpoint :
  caddy_endpoint baseURL path = Ok endpoint -> has_prefix endpoint "/" = false.
Proof.
  unfold caddy_endpoint. destruct (trim_right is_slash (trim_space baseURL)) as [|c base]; [done|].
  simpl (String c base =? "")%string. cbv iota.
  destruct (parse_url (String c base)) as [u|] eqn:E; [|done].
  destruct (_ && _) eqn:Eu; [|done]. intros [= <-]. simpl.
  destruct (Ascii.eqb_spec "/" c) as [<-|]; [|done]. exfalso. bools.
  unfold parse_url in E. destruct (negb (all_string _ _)); [done|].
  simpl in E. destruct (break_at (fun c => Ascii.eqb c "#") base) as [s1 ?].
  simpl in E. destruct (break_at (fun c => Ascii.eqb c "?") s1) as [s2 ?].
  simpl in E. destruct (cut_first ":" s2) as [[a b]|]; simpl in E.
  all: destruct (has_prefix s2 "/"); simpl in E;
    repeat match type of E with context [match ?x with _ => _ end] => destruct x end; simplify_eq/=.
Qed.

Lemma dials_spec target route :
  dials target route = true -> exists dials, In ("reverse_proxy", dials) route /\ In target dials.
Proof.
  unfold dials. rewrite existsb_exists. intros ([handler ds] & Hin & [Hh Hd]%andb_prop).
  apply existsb_exists in Hd as (d & Hd & Ed). simpl in *. bools. subst. by exists ds.
Qed.

(** A verified route was read from the endpoint. *)
Lemma verifyRouteTarget_run baseURL path target w u w' :
  verifyRouteTarget baseURL path target w = (Ok u, w') ->
  exists h endpoint r route,
    host_http (read_request endpoint) h = (Ok r, site_host (w_state w'))
    /\ (if has_prefix path "/" then caddy_endpoint baseURL path else Ok path) = Ok endpoint
    /\ status_ok r = true /\ route_of r = Some route
    /\ exists dials, In ("reverse_proxy", dials) route /\ In target dials.
Proof.
  unfold verifyRouteTarget. intros (endpoint & w1 & E1 & E)%bind_run.
  apply bind_run in E as (r & w2 & E2 & E).
  assert (http (read_request endpoint) w1 = (Ok r, w2)) as Eh%http_run.
  { unfold catch in E2. by destruct (http _ w1) as [[]]. }
  destruct (negb (status_ok r)) eqn:Es; [done|]. bools.
  destruct (route_of r) as [route|] eqn:Ej; [|done].
  destruct (dials target route) eqn:Ed; [|done]. injection E as _ ->. injection E1 as E1 _.
  apply dials_spec in Ed. by exists (site_host (w_state w1)), endpoint, r, route.
Qed.

(** C37: a route reported as applied was read back.  When [Apply] succeeds, its last
    exchange with Caddy was a read of that application's route, and the answer listed
    the requested target among the upstreams of a reverse-proxy handler. *)
Theorem apply_confirmed e application target w :
  eval (Apply e application target) w = Ok tt ->
  exists h endpoint r route,
    host_http (read_request endpoint) h = (Ok r, site_host (exec (Apply e application target) w))
    /\ caddy_endpoint (CaddyAdminURL e) ("/id/" +:+ caddyRouteID (a_ID application)) = Ok endpoint
    /\ status_ok r = true /\ route_of r = Some route
    /\ exists dials, In ("reverse_proxy", dials) route /\ In target dials.
Proof.
  intros E%eval_run. unfold Apply in E at 1. destruct (trim_space target =? "")%string; [done|].
  unfold UpsertRoute in E. apply bind_run in E as (endpoint & w1 & E1 & E).
  injection E1 as E1 _. apply bind_run in E as (r & w2 & _ & E).
  destruct (status_ok r).
  - apply verifyRouteTarget_run in E as (h & ep & r' & route & Hh & He & Hrest).
    rewrite (caddy_endpoint_absolute _ _ _ E1) in He. injection He as <-.
    by exists h, endpoint, r', route.
  - destruct (negb (rs_status r =? 404)); [done|]. apply bind_run in E as (e2 & w3 & _ & E).
    apply bind_run in E as (r2 & w4 & _ & E). destruct (negb (status_ok r2)); [done|].
    apply verifyRouteTarget_run in E as (h & ep & r' & route & Hh & He & Hrest).
    by exists h, ep, r', route.
Qed.

(** What a probe sends: the health endpoint through the proxy, for the application's
    domain. *)
Definition probe_request (e : Executor) (application : Application) : request :=
  Request "GET" (trim_right is_slash (proxy_url e) +:+ probe_endpoint application)
    (a_Domain application) [] None.

(** What a good answer is. *)
Definition good_answer (e : Executor) (application : Application) (r : response) : Prop :=
  (rs_status r = expectedProxyStatus e
   /\ exists body, rs_body r = Ok body
       /\ (ProxyExpectedContent e <> "" ->
           contains (take_string probe_body_limit body) (ProxyExpectedContent e) = true))
  \/ (rs_status r = 308 /\ expectedProxyStatus e = 200 /\ ProxyExpectedContent e = ""
      /\ validCaddyHTTPSRedirect r application (probe_endpoint application) = true).

Lemma judge_good e application r :
  judge_response e application (probe_endpoint application) r = None -> good_answer e application r.
Proof.
  unfold judge_response, good_answer. generalize probe_body_limit. intros limit.
  destruct (rs_body r) as [body|]; [|done].
  destruct (validCaddyHTTPSRedirect _ _ _ && _ && _) eqn:Er.
  - intros _. right. bools. repeat split; try done.
    match goal with H : validCaddyHTTPSRedirect _ _ _ = true |- _ =>
      unfold validCaddyHTTPSRedirect in H end. by bools.
  - destruct (negb (rs_status r =? expectedProxyStatus e)) eqn:Es; [done|]. bools.
    destruct (negb (ProxyExpectedContent e =? "")%string) eqn:Ec; simpl.
    + destruct (contains _ _) eqn:Ek; [|done]. intros _. left. eauto.
    + intros _. left. bools. split; [done|]. by exists body.
Qed.

Lemma probe_loop_success fuel e application deadline probe lastErr w p w' :
  probe_loop fuel e application deadline probe lastErr w = (Ok p, w') ->
  rp_Success probe = false -> rp_Success p = true ->
  exists h r, host_http (probe_request e application) h = (Ok r, site_host (w_state w'))
    /\ judge_response e application (probe_endpoint application) r = None
    /\ rp_StatusCode p = rs_status r.
Proof.
  revert probe lastErr w. induction fuel as [|fuel IH]; intros probe lastErr w E Hf Hp; [done|].
  cbn [probe_loop] in E. unfold probe_round in E. apply bind_run in E as (t & w1 & _ & E).
  destruct (negb (t <? deadline)); [injection E as <- _; simpl in Hp; congruence|].
  destruct (negb (has_prefix _ _)); [injection E as <- _; simpl in Hp; congruence|].
  destruct (parse_url _); [|injection E as <- _; simpl in Hp; congruence].
  apply bind_run in E as (answer & w2 & E2%attempt_run & E).
  destruct answer as [r|err].
  - destruct (judge_response _ _ _ r) eqn:Ej.
    + apply bind_run in E as (waited & w3 & _ & E).
      destruct waited; [|injection E as <- _; simpl in Hp; congruence]. by eapply IH.
    + injection E as <- <-. exists (site_host (w_state w1)), r. split; [|done]. by apply http_run.
  - apply bind_run in E as (waited & w3 & _ & E).
    destruct waited; [|injection E as <- _; simpl in Hp; congruence]. by eapply IH.
Qed.

(** A probe succeeds only on evidence: the last answer through the proxy, to a
    request for the application's domain and health endpoint, carried the expected
    status and content, or was the proxy's own redirect to HTTPS for the same host. *)
Theorem probe_success e application p w :
  eval (Probe e application) w = Ok p -> rp_Success p = true ->
  exists h r,
    host_http (probe_request e application) h
      = (Ok r, site_host (exec (Probe e application) w))
    /\ good_answer e application r /\ rp_StatusCode p = rs_status r.
Proof.
  intros E%eval_run Hp. unfold Probe in E at 1.
  apply bind_run in E as (start & w1 & _ & E). apply bind_run in E as (checked & w2 & _ & E).
  apply probe_loop_success in E as (h & r & Hh & Hj & Hs); [|done|done].
  exists h, r. split; [done|]. split; [by apply judge_good|done].
Qed.

(** The loop ends before its fuel does: every round takes half a second. *)
Lemma probe_loop_ends fuel e application deadline probe lastErr w :
  forward w -> deadline <= w_clock w + Z.of_nat fuel * probe_interval ->
  exists p, eval (probe_loop (S fuel) e application deadline probe lastErr) w = Ok p.
Proof.
  revert probe lastErr w. induction fuel as [|fuel IH]; intros probe lastErr w Hf Hd.
  all: match goal with |- context [probe_loop (S ?n) _ _ _ _ _] =>
         change (probe_loop (S n)) with (fun e a d => probe_round (probe_loop n e a d) e a d) end;
    cbv beta; unfold probe_round at 1;
    destruct (now_clock w Hf) as (t & w1 & E & Ht & Ht1 & Hf1); rewrite (eval_bind _ _ _ _ _ E).
  - rewrite (proj2 (Z.ltb_ge t deadline)) by lia. by eexists.
  - destruct (negb (t <? deadline)); [by eexists|].
    destruct (negb (has_prefix _ _)); [by eexists|]. cbv zeta. destruct (parse_url _); [|by eexists].
    rewrite (eval_bind _ _ _ _ _ (eval_attempt _ _)).
    pose proof (step_clock (on_host (host_http (probe_request e application))) w1) as [Hc Htk].
    change (step _) with (http (probe_request e application)) in Hc, Htk.
    match goal with |- context [http ?rq] => change rq with (probe_request e application) end.
    destruct (http (probe_request e application) w1) as [answer w2]. simpl in Hc, Htk |- *.
    assert (forward w2) as Hf2 by (unfold forward; by rewrite Htk).
    destruct (match answer with Ok r => _ | Err err => _ end) as [probe' lastErr'].
    destruct lastErr'; [|by eexists].
    rewrite (eval_bind _ _ _ _ _ (eval_attempt _ _)).
    destruct (sleep_clock probe_interval w2 Hf2) as [(w3 & -> & Hc3 & Hf3)|(err & w3 & ->)];
      [|by eexists].
    apply IH; [done|]. simpl. lia.
Qed.

(** A probe always returns: with a clock that does not go back, the loop reaches
    its deadline, whatever the proxy answers and whatever fails. *)
Theorem probe_returns e application w :
  forward w -> exists p, eval (Probe e application) w = Ok p.
Proof.
  intros Hf. unfold Probe.
  destruct (now_clock w Hf) as (t1 & w1 & E1 & _ & Ht1 & Hf1).
  destruct (now_clock w1 Hf1) as (t2 & w2 & E2 & Hle & Ht2 & Hf2).
  rewrite (eval_bind _ _ _ _ _ E1), (eval_bind _ _ _ _ _ E2).
  unfold probe_fuel. rewrite Nat.add_comm. apply probe_loop_ends; [done|].
  assert (0 < probe_interval) as Hi by done.
  assert (0 <= healthTimeout e) as Hh.
  { unfold healthTimeout. destruct (0 <? HealthTimeout e) eqn:E; [by bools; lia|done]. }
  pose proof (Z.mul_succ_div_gt (healthTimeout e) probe_interval Hi).
  pose proof (Z.div_pos (healthTimeout e) probe_interval Hh Hi). nia.
Qed.

(** C38: other failures of the replacement are not hidden by a second mutation: unless
    Caddy answered 404, one request was made and the machine is as it left it. *)
Theorem no_second_mutation e application target w r h :
  let rq endpoint := admin_request "PATCH" endpoint (caddy_route application target) in
  w_faults w = [] -> trim_space target <> "" ->
  (forall endpoint, host_http (rq endpoint) (site_host (w_state w)) = (Ok r, h)) ->
  status_ok r = false -> rs_status r <> 404 ->
  is_ok (eval (Apply e application target) w) = false
  /\ (site_host (exec (Apply e application target) w) = h
      \/ site_host (exec (Apply e application target) w) = site_host (w_state w)).
Proof.
  intros rq Hn Ht Hr Hs H404. unfold eval, exec, Apply.
  rewrite (proj2 (String.eqb_neq _ _) Ht). unfold UpsertRoute, mbind, M_bind, lift.
  destruct (caddy_endpoint _ _) as [endpoint|err]; simpl; [|by auto].
  unfold catch, http, host_step, step, step_with, next_fault, on_host. rewrite Hn.
  fold (rq endpoint). rewrite Hr, Hs. rewrite (proj2 (Z.eqb_neq _ _) H404). simpl. auto.
Qed.
End proxy_facts.
