(* ===== verification/BlueGreen.v ===== *)
(** * The Docker runtime adapter (internal/deploy/executor.go: DockerAdapter, Reconcile)

    The blue-green switch of a release: a staging container is started and proven
    healthy, Caddy is switched to its address, the public route is verified, the old
    colour is retired.  [Reconcile] converges the containers and the routes after a
    restart.  Every [docker] command and HTTP exchange may fail. *)

From S2P Require Import Prelude GoStrings Json Net Host Templates StoreTypes Executor.
From S2P Require Import Proxy.

(** ** Container names *)

Definition container_name (application : Application) : string := "minidock-" +:+ a_Name application.
Definition candidate_name (application : Application) : string :=
  container_name application +:+ "-candidate".
Definition next_name (application : Application) : string := container_name application +:+ "-next".
Definition previous_name (application : Application) : string :=
  container_name application +:+ "-previous".

Section docker.
Context {H : Type} `{!Host H} (proxy : ProxyAdapter H).

(** [RuntimeAdapter]. *)
Record RuntimeAdapter := MkRuntimeAdapter {
  ra_Name : string;
  ra_BuildCommand : string;
  ra_SupportsBuildSecrets : bool;
  ra_Start : Executor -> Application -> string -> gmap string string -> EM H string;
  ra_Control : Executor -> Application -> string -> EM H unit;
  ra_Logs : Executor -> Application -> EM H unit;
  ra_Status : Executor -> Application -> EM H ContainerStatus;
  ra_RemoveImage : Executor -> Application -> string -> EM H unit }.

(** ** Docker commands *)

Definition docker (args : list string) : EM H unit := run "docker" args.
Definition docker_output (args : list string) : EM H string := exec_output "docker" args.

Definition inspect_args (container : string) : list string := ["container"; "inspect"; container].
Definition remove_args (container : string) : list string := ["rm"; "--force"; container].
Definition rename_args (a b : string) : list string := ["rename"; a; b].
Definition health_args (container : string) : list string :=
  ["inspect"; "--format"; "{{if .State.Health}}{{.State.Health.Status}}{{else}}{{.State.Running}}{{end}}"; container].
Definition address_args (container : string) : list string :=
  ["inspect"; "--format"; "{{range .NetworkSettings.Networks}}{{.IPAddress}}{{end}}"; container].

Definition dockerContainerExists (container : string) : EM H bool :=
  inspected ← attempt (docker_output (inspect_args container));
  mret (is_ok inspected).

Definition dockerContainerTarget (container : string) (port : Z) : EM H string :=
  if (port <? 1) || (65535 <? port) then fail (ErrMsg ("invalid container port " +:+ itoa port)) else
  output ← catch (docker_output (address_args container))
             (fun err => fail (ErrWrap "inspect candidate address" err));
  let ip := trim_space output in
  if negb (is_ip ip)
  then fail (ErrMsg ("container " +:+ container +:+ " has no usable network address"))
  else mret (JoinHostPort ip (itoa port)).

Definition removeDockerContainerIfPresent (container : string) : EM H unit :=
  present ← dockerContainerExists container;
  if negb present then mret tt else
  say ("[reconcile] removing abandoned container " +:+ container) ;;
  catch (docker (remove_args container))
    (fun err => fail (ErrWrap ("remove Docker container " +:+ container) err)).

Definition dockerContainerID (container : string) : EM H string :=
  output ← attempt (docker_output ["inspect"; "--format"; "{{.Id}}"; container]);
  mret (match output with Ok id => trim_space id | Err _ => "" end).

Definition dockerContainerImage (container : string) : EM H string :=
  output ← attempt (docker_output ["inspect"; "--format"; "{{.Config.Image}}"; container]);
  mret (match output with Ok image => trim_space image | Err _ => "" end).

(** ** Health *)

(** One round of the loop of [waitHealthy]; [again] is the next one. *)
Definition health_round (again : EM H unit) (container : string) (deadline : Time) : EM H unit :=
  status ← docker_output (health_args container);
  let value := trim_space status in
  say ("health: " +:+ value) ;;
  if (value =? "healthy")%string || (value =? "true")%string then mret tt else
  let unhealthy := ErrMsg ("health check failed: " +:+ value) in
  if (value =? "unhealthy")%string then fail unhealthy else
  t ← now;
  if deadline <? t then fail unhealthy else
  sleep Second ;; again.

Fixpoint health_loop (fuel : nat) (container : string) (deadline : Time) : EM H unit :=
  match fuel with
  | O => fail (ErrPanic "waitHealthy: out of fuel")
  | S fuel => health_round (health_loop fuel container deadline) container deadline
  end.

(** One round per second until the deadline has passed. *)
Definition health_fuel (e : Executor) : nat := Z.to_nat (healthTimeout e / Second) + 3.

Definition waitHealthy (e : Executor) (container : string) : EM H unit :=
  start ← now;
  health_loop (health_fuel e) container (start + healthTimeout e).

(** ** Environment files *)

Definition runtimeEnvFile (directory : string) (environment : gmap string string) : EM H string :=
  if bool_decide (environment = ∅) then mret "" else
  directory ← (if (directory =? "")%string
               then query (fun s => Ok (let tmp := host_getenv "TMPDIR" (site_host s) in
                                        if (tmp =? "")%string then "/tmp" else tmp))
               else mret directory);
  catch (host_step (host_mkdir_all directory))
    (fun err => fail (ErrWrap "create runtime environment directory" err)) ;;
  path ← catch (host_step (host_create_temp directory ".minidock-runtime-*.env"))
           (fun err => fail (ErrWrap "create runtime environment file" err));
  catch (host_step (host_chmod path 384))
    (fun err => ignore (host_step (host_close path)) ;;
                ignore (host_step (host_remove path)) ;;
                fail (ErrWrap "protect runtime environment file" err)) ;;
  match env_lines environment (sortedNames environment) with
  | Err err =>
    ignore (host_step (host_close path)) ;; ignore (host_step (host_remove path)) ;; fail err
  | Ok data =>
    written ← attempt (host_step (host_write_file path data));
    closed ← attempt (host_step (host_close path));
    match written with
    | Err writeErr =>
      ignore (host_step (host_remove path)) ;;
      fail (ErrWrap "write runtime environment file" writeErr)
    | Ok _ =>
      match closed with
      | Err closeErr =>
        ignore (host_step (host_remove path)) ;;
        fail (ErrWrap "close runtime environment file" closeErr)
      | Ok _ => mret path
      end
    end
  end.

Fixpoint zeros (n : nat) : string := match n with O => "" | S n => String "000" (zeros n) end.

Definition removeRuntimeEnvFile (path : string) : EM H unit :=
  if (path =? "")%string then mret tt else
  size ← attempt (host_step (host_size path));
  match size with
  | Ok n => if 0 <? n then ignore (host_step (host_write_file path (zeros (Z.to_nat n)))) else mret tt
  | Err _ => mret tt
  end ;;
  ignore (host_step (host_remove path)).

(** ** Starting a container *)

(** The whole command line: flags, environment file, image. *)
Definition run_args (e : Executor) (application : Application) (image container envFile : string)
    : list string :=
  container_flags e application container
  ++ (if (envFile =? "")%string then [] else ["--env-file"; envFile]) ++ [image].

Definition runDockerContainer (e : Executor) (application : Application) (image : string)
    (environment : gmap string string) (container : string) (routed : bool) : EM H unit :=
  envFile ← runtimeEnvFile (LogPath e) environment;
  finally
    (let args := run_args e application image container envFile in
     _ ← lift (ValidateDockerContainerSecurityArgs args);
     docker args)
    (removeRuntimeEnvFile envFile).

Definition inspectDockerNetwork (e : Executor) : EM H unit :=
  result ← docker_output ["network"; "inspect"; Network e];
  lift (validateDockerNetwork result (Network e) (NetworkSubnet e)).

Definition ensureDockerNetwork (e : Executor) : EM H unit :=
  if (trim_space (Network e) =? "")%string then fail (ErrMsg "Docker network is not configured") else
  inspected ← attempt (inspectDockerNetwork e);
  if is_ok inspected then mret tt else
  say ("[runtime] creando red Docker " +:+ Network e) ;;
  let args := ["network"; "create"; "--driver"; "bridge"; "--internal"]
              ++ (if (trim_space (NetworkSubnet e) =? "")%string then []
                  else ["--subnet"; NetworkSubnet e]) ++ [Network e] in
  catch (docker args)
    (fun err =>
       inspected ← attempt (inspectDockerNetwork e);
       if is_ok inspected then mret tt
       else fail (ErrWrap ("create Docker network " +:+ quote (Network e)) err)) ;;
  inspectDockerNetwork e.

(** ** The switch *)

(** [tracker.X = time.Since(start)] reads the clock again. *)
Definition time_since (start : Time) : EM H Duration := t ← now; mret (t - start).

(** The colours of a switch: which container serves, which one is staged. *)
Definition colours (application : Application) (candidate_exists : bool) : string * string :=
  if candidate_exists then (candidate_name application, next_name application)
  else (container_name application, candidate_name application).

(** The staging container is started and proven healthy. *)
Definition stage_candidate (e : Executor) (application : Application) (image : string)
    (environment : gmap string string) (staging : string) : EM H unit :=
  ignore (docker (remove_args staging)) ;;
  OnStageChange "start" ;;
  OnEvent "start" "info" "Creando contenedor candidato para validación" ;;
  startStart ← now;
  or_failure "start" "candidate_start_failed"
    (runDockerContainer e application image environment staging false) ;;
  startDur ← time_since startStart;
  track (fun t => t <| StartDuration := StartDuration t + startDur |>) ;;
  OnStageChange "health" ;;
  OnEvent "health" "info" "Ejecutando health check en el contenedor candidato" ;;
  healthStart ← now;
  catch (waitHealthy e staging)
    (fun err => ignore (docker (remove_args staging)) ;;
                fail (failure "health" "health_check_failed" err)) ;;
  healthDur ← time_since healthStart;
  track (fun t => t <| HealthDuration := HealthDuration t + healthDur |>) ;;
  OnEvent "health" "info" ("Health check de candidato exitoso en " +:+ duration_text healthDur).

(** Caddy is switched to the staging container and the public route verified; when the
    verification fails the route of the active colour is restored. *)
Definition switch_route (e : Executor) (application : Application) (active staging : string)
    : EM H unit :=
  OnStageChange "route" ;;
  OnEvent "route" "info" "Health check superado; conmutando la ruta Blue-Green en Caddy" ;;
  routeStart ← now;
  target ← or_failure "route" "candidate_address_unavailable"
             (dockerContainerTarget staging (a_InternalPort application));
  say "[route] actualizando Caddy hacia candidato saludable" ;;
  catch (px_Apply proxy e application target)
    (fun err => ignore (docker (remove_args staging)) ;;
                fail (failure "route" "proxy_switch_failed" err)) ;;
  catch (px_Verify proxy e application)
    (fun err =>
       present ← dockerContainerExists active;
       (if (present : bool) then
          oldTarget ← attempt (dockerContainerTarget active (a_InternalPort application));
          match oldTarget with
          | Ok old => ignore (px_Apply proxy e application old)
          | Err _ => mret tt
          end
        else mret tt) ;;
       ignore (docker (remove_args staging)) ;;
       fail (failure "route" "proxy_validation_failed" err)) ;;
  routeDur ← time_since routeStart;
  track (fun t => t <| RouteDuration := routeDur |>) ;;
  OnEvent "route" "info" ("Dominio enrutado y disponible en " +:+ duration_text routeDur).

(** The old colour is retired and the staging container takes its durable name. *)
Definition retire_active (application : Application) (active staging : string) : EM H unit :=
  present ← dockerContainerExists active;
  (if present && negb (active =? staging)%string then
     or_failure "route" "previous_cleanup_failed" (removeDockerContainerIfPresent active)
   else mret tt) ;;
  if negb (staging =? candidate_name application)%string then
    or_failure "route" "candidate_promote_failed"
      (docker (rename_args staging (candidate_name application)))
  else mret tt.

(** The switch once the serving colour is known. *)
Definition replace_colour (e : Executor) (application : Application) (image : string)
    (environment : gmap string string) (candidate_exists : bool) : EM H string :=
  let '(active, staging) := colours application candidate_exists in
  stage_candidate e application image environment staging ;;
  switch_route e application active staging ;;
  retire_active application active staging ;;
  mret image.

Definition Start (e : Executor) (application : Application) (image : string)
    (environment : gmap string string) : EM H string :=
  or_failure "start" "network_unavailable" (ensureDockerNetwork e) ;;
  candidate_exists ← dockerContainerExists (candidate_name application);
  replace_colour e application image environment candidate_exists.

(** ** Restoring a preserved release *)

Definition restoreDockerRelease (e : Executor) (application : Application) : EM H unit :=
  say "[rollback] restaurando el contenedor anterior preservado" ;;
  let previous := previous_name application in
  present ← dockerContainerExists previous;
  if negb present then fail (ErrMsg "preserved previous container is missing") else
  docker ["start"; previous] ;;
  waitHealthy e previous ;;
  px_Verify proxy e application ;;
  docker (rename_args previous (container_name application)).

Definition switchFailure (e : Executor) (application : Application) (hasPrevious : bool)
    (stage code : string) (cause : error) : EM H unit :=
  if negb hasPrevious then fail (failure stage code cause) else
  catch (restoreDockerRelease e application)
    (fun err => fail (failure "rollback" "rollback_restore_failed"
       (ErrWrap (code +:+ " failed: " +:+ error_message cause
                 +:+ "; previous release was not restored") err))) ;;
  fail (failure stage code cause).

(** ** Reconciliation *)

(** One application of [Reconcile]; [true] when its preserved release was restored. *)
Definition reconcile_application (e : Executor) (application : Application) : EM H bool :=
  let container := container_name application in
  let candidate := candidate_name application in
  let next := next_name application in
  let previous := previous_name application in
  let restore_route name :=
    target ← dockerContainerTarget name (a_InternalPort application);
    catch (px_Apply proxy e application target)
      (fun err => fail (ErrWrap ("restore Caddy route for " +:+ a_Name application) err)) in
  candidate_exists ← dockerContainerExists candidate;
  if (candidate_exists : bool) then
    restore_route candidate ;; removeDockerContainerIfPresent next ;; mret false
  else
  primaryExists ← dockerContainerExists container;
  previousExists ← dockerContainerExists previous;
  (if (primaryExists : bool) then restore_route container ;; removeDockerContainerIfPresent next
   else mret tt) ;;
  if negb primaryExists && previousExists then
    say ("[reconcile] restoring interrupted switch for " +:+ a_Name application) ;;
    catch (docker ["start"; previous])
      (fun err => fail (ErrWrap ("restart previous " +:+ previous) err)) ;;
    catch (waitHealthy e previous)
      (fun err => fail (failure "rollback" "reconcile_restore_unhealthy"
                          (ErrWrap ("previous " +:+ previous +:+ " did not become healthy") err))) ;;
    catch (docker (rename_args previous container))
      (fun err => fail (ErrWrap ("rename restored " +:+ previous) err)) ;;
    restore_route container ;;
    mret true
  else
  (if primaryExists && previousExists then removeDockerContainerIfPresent previous else mret tt) ;;
  mret false.

(** [Executor.Reconcile]: the applications whose adapter is Docker, in order; the first
    error ends it. [is_docker] is the answer of [e.adapter(application)]. *)
Fixpoint Reconcile (is_docker : Application -> EM H bool) (e : Executor)
    (applications : list Application) : EM H (list Z * option error) :=
  match applications with
  | [] => mret ([], None)
  | application :: applications =>
    docker_app ← is_docker application;
    outcome ← (if (docker_app : bool) then attempt (reconcile_application e application)
               else mret (Ok false));
    match outcome with
    | Err err => mret ([], Some err)
    | Ok restored =>
      '(rest, err) ← Reconcile is_docker e applications;
      mret (if (restored : bool) then a_ID application :: rest else rest, err)
    end
  end.

(** ** Control, logs, status, images *)

Definition DockerControl (e : Executor) (application : Application) (action : string) : EM H unit :=
  docker [action; container_name application].

Definition DockerLogs (e : Executor) (application : Application) : EM H unit :=
  docker ["logs"; "--tail"; "200"; container_name application].

Definition status_format : string :=
  "{{.State.Status}}" +:+ String tab "{{if .State.Health}}{{.State.Health.Status}}{{else}}none{{end}}"
  +:+ String tab "{{.Config.Image}}" +:+ String tab "{{.State.StartedAt}}".

Definition DockerStatus (e : Executor) (application : Application) : EM H ContainerStatus :=
  let container := container_name application in
  output ← docker_output ["inspect"; "--format"; status_format; container];
  status ← lift (parseContainerInspect output);
  output ← docker_output ["stats"; "--no-stream"; "--format";
                          "{{.CPUPerc}}" +:+ String tab "{{.MemUsage}}"; container];
  '(cpu, memory) ← lift (parseContainerStats output);
  mret (status <| cs_CPU := cpu |> <| cs_Memory := memory |>).

Definition DockerRemoveImage (e : Executor) (application : Application) (image : string) : EM H unit :=
  docker ["image"; "rm"; image].

Definition DockerAdapter : RuntimeAdapter :=
  MkRuntimeAdapter "docker" "docker" true Start DockerControl DockerLogs DockerStatus DockerRemoveImage.

(** ** The Apple adapter (experimental) *)

Definition runApple (application : Application) (image name : string)
    (environment : gmap string string) : EM H string :=
  let port := itoa (a_InternalPort application) in
  run "container"
    (["run"; "--detach"; "--name"; name; "--publish"; "127.0.0.1:" +:+ port +:+ ":" +:+ port]
     ++ flat_map (fun kv => ["--env"; kv.1 +:+ "=" +:+ kv.2]) (map_to_list environment) ++ [image]) ;;
  say ("Apple Container started; reverse proxy must target 127.0.0.1:" +:+ port) ;;
  mret image.

Definition AppleStart (e : Executor) (application : Application) (image : string)
    (environment : gmap string string) : EM H string :=
  OnStageChange "start" ;;
  OnEvent "start" "info" "Levantando contenedor Apple" ;;
  startStart ← now;
  let container := container_name application in
  ignore (run "container" ["delete"; "--force"; container]) ;;
  result ← attempt (runApple application image container environment);
  duration ← time_since startStart;
  track (fun t => t <| StartDuration := duration |>) ;;
  match result with
  | Ok image => OnEvent "start" "info" "Contenedor Apple iniciado" ;; mret image
  | Err err => fail (failure "start" "container_start_failed" err)
  end.

Definition AppleControl (e : Executor) (application : Application) (action : string) : EM H unit :=
  let name := container_name application in
  if (action =? "restart")%string
  then run "container" ["stop"; name] ;; run "container" ["start"; name]
  else run "container" [action; name].

Definition AppleLogs (e : Executor) (application : Application) : EM H unit :=
  run "container" ["logs"; "-n"; "200"; container_name application].

Definition AppleContainerAdapter : RuntimeAdapter :=
  MkRuntimeAdapter "apple" "container" false AppleStart AppleControl AppleLogs
    (fun _ _ => fail (ErrMsg "resource metrics are not available for Apple Container yet"))
    (fun _ _ _ => fail (ErrMsg "image retention is not available for Apple Container yet")).
End docker.
Arguments RuntimeAdapter : clear implicits.
