(* ===== verification/Engine.v ===== *)
(** * What the Docker engine and Caddy's admin API promise

    [Engine] observes a machine: the containers it has, by name, and the upstream each
    managed Caddy route dials; its laws are the documented effect of the commands and
    requests MiniDock sends.  They leave open when a command fails: a failed command
    may or may not have taken effect, and a status question may fail at any time.
    [Sim] is an executable machine that satisfies them; the examples run on it. *)

From S2P Require Import Prelude GoStrings Json Net Host Templates StoreTypes Executor.
From S2P Require Import Proxy BlueGreen.

Record container := Container { c_id : Z; c_image : string; c_ip : string }.

Definition address (c : container) : string := trim_space (c_ip c).

(** Docker commands that change containers, by their first word. *)
Definition changes_containers (args : list string) : bool :=
  match args with
  | verb :: _ => bool_decide (verb ∈ ["run"; "rm"; "rename"; "start"; "stop"; "restart"])
  | [] => false
  end.

(** A new container of a name: the command line is that of [run_args]. *)
Definition starts (name image : string) (args : list string) : Prop :=
  exists flags, args = ["run"; "--detach"; "--name"; name] ++ flags ++ [image].

Definition docker_command (args : list string) : command := Command "docker" [] args.

(** A finished command that exited with 0. *)
Definition succeeded_with (r : result finished) (out : string) : Prop :=
  r = Ok (Finished out None).

Class Observation (H : Type) := {
  containers : H -> gmap string container;
  routes : H -> gmap string string }.

(** An operation that touches neither. *)
Definition quiet {H A} `{!Observation H} (f : H -> result A * H) : Prop :=
  forall h, containers (snd (f h)) = containers h /\ routes (snd (f h)) = routes h.

Class Engine (H : Type) `{!Host H, !Observation H} : Prop := {
  exec_routes : forall c h, routes (snd (host_exec c h)) = routes h;
  exec_quiet : forall c h, cmd_name c <> "docker" \/ changes_containers (cmd_args c) = false ->
    containers (snd (host_exec c h)) = containers h;

  exec_rm : forall name h,
    let '(r, h') := host_exec (docker_command (remove_args name)) h in
    (containers h' = containers h \/ containers h' = delete name (containers h))
    /\ (forall out, succeeded_with r out -> containers h' = delete name (containers h));
  exec_rename : forall a b h,
    let '(r, h') := host_exec (docker_command (rename_args a b)) h in
    let renamed := exists c, containers h !! a = Some c /\ containers h !! b = None
                     /\ containers h' = <[b := c]> (delete a (containers h)) in
    (containers h' = containers h \/ renamed) /\ (forall out, succeeded_with r out -> renamed);
  exec_run : forall args name image h, starts name image args ->
    let '(r, h') := host_exec (docker_command args) h in
    let started := exists c, containers h !! name = None /\ c_image c = image
                     /\ (forall n c', containers h !! n = Some c' -> c_id c' <> c_id c)
                     /\ containers h' = <[name := c]> (containers h) in
    (containers h' = containers h \/ started) /\ (forall out, succeeded_with r out -> started);
  exec_start : forall name h,
    let '(_, h') := host_exec (docker_command ["start"; name]) h in
    containers h' = containers h
    \/ exists c c', containers h !! name = Some c /\ c_id c' = c_id c /\ c_image c' = c_image c
         /\ containers h' = <[name := c']> (containers h);
  exec_inspect : forall name h out,
    succeeded_with (fst (host_exec (docker_command (inspect_args name)) h)) out ->
    is_Some (containers h !! name);
  exec_address : forall name h out,
    succeeded_with (fst (host_exec (docker_command (address_args name)) h)) out ->
    exists c, containers h !! name = Some c /\ trim_space out = address c;

  http_containers : forall rq h, containers (snd (host_http rq h)) = containers h;
  (** The replacement and the creation of a route are atomic. *)
  http_route : forall method endpoint application target h,
    method = "PATCH" \/ method = "POST" ->
    let '(r, h') := host_http (admin_request method endpoint (caddy_route application target)) h in
    let switched := routes h' = <[caddyRouteID (a_ID application) := target]> (routes h) in
    (routes h' = routes h \/ switched)
    /\ (forall resp, r = Ok resp -> status_ok resp = true -> switched)
    /\ (forall resp, r = Ok resp -> status_ok resp = false -> routes h' = routes h);

  mkdir_quiet : forall p, quiet (host_mkdir_all p);
  create_temp_quiet : forall d p, quiet (host_create_temp d p);
  chmod_quiet : forall p m, quiet (host_chmod p m);
  close_quiet : forall p, quiet (host_close p);
  size_quiet : forall p, quiet (host_size p);
  write_quiet : forall p d, quiet (host_write_file p d);
  remove_quiet : forall p, quiet (host_remove p);
  open_append_quiet : forall p, quiet (host_open_append p);
  stat_quiet : forall p, quiet (host_stat p);
  symlinks_quiet : forall p, quiet (host_eval_symlinks p);
  read_tree_quiet : forall p, quiet (host_read_tree p);
  read_file_quiet : forall p, quiet (host_read_file p);
  read_dir_quiet : forall p, quiet (host_read_dir p);
  statfs_quiet : forall p, quiet (host_statfs p);
  look_path_quiet : forall p, quiet (host_look_path p);
  (** A request without a body changes no route. *)
  http_read : forall rq h, rq_body rq = None -> routes (snd (host_http rq h)) = routes h }.

#[export] Hint Resolve mkdir_quiet create_temp_quiet chmod_quiet close_quiet size_quiet write_quiet
  remove_quiet open_append_quiet stat_quiet symlinks_quiet read_tree_quiet read_file_quiet read_dir_quiet statfs_quiet
  look_path_quiet : evolve.

(** ** A simulated machine *)

(** Containers of an image listed in [m_broken] report unhealthy; [m_public] is what
    the public listener answers; Caddy refuses upstreams named [refused]. *)
Record machine := Machine {
  m_containers : gmap string container; m_routes : gmap string string;
  m_broken : list string; m_public : response }.
#[export] Instance machine_eta : Eta machine := fun m =>
  Machine (m_containers m) (m_routes m) (m_broken m) (m_public m).

(** One more than every id. *)
Definition fresh_id (m : gmap string container) : Z :=
  1 + map_fold (fun _ c n => Z.max (c_id c) n) 1 m.

Definition done_with (out : string) : result finished := Ok (Finished out None).
Definition exit_error (text : string) : result finished := Ok (Finished "" (Some text)).

Definition sim_inspect (format : string) (m : machine) (c : container) : string :=
  if (format =? "{{.Id}}")%string then itoa (c_id c)
  else if (format =? "{{.Config.Image}}")%string then c_image c
  else if (format =? "{{range .NetworkSettings.Networks}}{{.IPAddress}}{{end}}")%string then c_ip c
  else if existsb (String.eqb (c_image c)) (m_broken m) then "unhealthy" else "healthy".

(** A command on an existing container. *)
Definition on_container (name : string) (m : machine)
    (f : container -> result finished * machine) : result finished * machine :=
  match m_containers m !! name with
  | Some c => f c
  | None => (exit_error "No such container", m)
  end.

Definition sim_run (name image : string) (m : machine) : result finished * machine :=
  match m_containers m !! name with
  | Some _ => (exit_error "Conflict. The container name is already in use", m)
  | None =>
    let id := fresh_id (m_containers m) in
    let c := Container id image ("10.0.0." +:+ itoa id) in
    (done_with (itoa id), m <| m_containers := <[name := c]> (m_containers m) |>)
  end.

Definition sim_rename (a b : string) (m : machine) : result finished * machine :=
  match m_containers m !! a, m_containers m !! b with
  | Some c, None => (done_with "", m <| m_containers := <[b := c]> (delete a (m_containers m)) |>)
  | _, _ => (exit_error "rename failed", m)
  end.

Definition network_text (name : string) : string :=
  marshal (JArr [JObj [("Name", JStr name); ("Driver", JStr "bridge"); ("Internal", JBool true)]]).

Definition sim_docker (args : list string) (m : machine) : result finished * machine :=
  match args with
  | [] => (exit_error "usage", m)
  | verb :: rest =>
    let last := List.last rest "" in
    if (verb =? "run")%string then sim_run (List.nth 2 rest "") last m
    else if (verb =? "rm")%string then
      on_container last m (fun _ =>
        (done_with last, m <| m_containers := delete last (m_containers m) |>))
    else if (verb =? "rename")%string then sim_rename (List.nth 0 rest "") last m
    else if (verb =? "container")%string || (verb =? "start")%string || (verb =? "stop")%string
            || (verb =? "restart")%string
    then on_container last m (fun _ => (done_with last, m))
    else if (verb =? "inspect")%string
    then on_container last m (fun c => (done_with (sim_inspect (List.nth 1 rest "") m c), m))
    else if (verb =? "network")%string then (done_with (network_text last), m)
    else if (verb =? "image")%string then (done_with ("sha256:" +:+ last), m)
    else (done_with "", m)
  end.

(** The identity and the upstream of a route document. *)
Definition route_identity (body : json) : option (string * string) :=
  kvs ← members body;
  id ← decode_field "@id" decode_text "" kvs;
  route ← decode_route body;
  dial ← head (flat_map snd route);
  Some (id, dial).

Definition answer (status : Z) (body : string) : result response := Ok (Response status None (Ok body)).

(** The last segment of an address. *)
Definition last_segment (address : string) : string := List.last (split_on "/" address) "".

Definition sim_http (rq : request) (m : machine) : result response * machine :=
  match rq_body rq with
  | Some body =>
    match route_identity body with
    | Some (id, dial) =>
      if contains dial "refused" then (answer 500 "", m) else
      if (rq_method rq =? "PATCH")%string && bool_decide (m_routes m !! id = None)
      then (answer 404 "", m)
      else (answer 200 "", m <| m_routes := <[id := dial]> (m_routes m) |>)
    | None => (answer 400 "", m)
    end
  | None =>
    if contains (rq_url rq) "/id/" then
      match m_routes m !! last_segment (rq_url rq) with
      | Some dial =>
        (answer 200 (marshal (JObj [("handle", JArr [JObj [("handler", JStr "reverse_proxy");
           ("upstreams", JArr [JObj [("dial", JStr dial)]])]])])), m)
      | None => (answer 404 "", m)
      end
    else (Ok (m_public m), m)
  end.

#[export] Instance machine_host : Host machine := {
  host_exec c m :=
    if (cmd_name c =? "docker")%string then sim_docker (cmd_args c) m else (done_with "", m);
  host_look_path name m := (Ok ("/usr/bin/" +:+ name), m);
  host_getenv _ _ := "";
  host_http := sim_http;
  host_stat _ m := (Ok false, m);
  host_is_socket _ m := (Ok false, m);
  host_read_dir _ m := (Ok [], m);
  host_eval_symlinks path m := (Ok path, m);
  host_mkdir_all _ m := (Ok tt, m);
  host_read_tree _ m := (Ok (Dir "work" []), m);
  host_read_file _ m := (Ok "", m);
  host_chmod _ _ m := (Ok tt, m);
  host_close _ m := (Ok tt, m);
  host_size _ m := (Ok 0, m);
  host_write_file _ _ m := (Ok tt, m);
  host_create_temp directory _ m := (Ok (directory +:+ "/tmp.1"), m);
  host_remove _ m := (Ok tt, m);
  host_mkdir_temp directory _ m := (Ok (directory +:+ "/tmp.2"), m);
  host_remove_all _ m := (Ok tt, m);
  host_open_append _ m := (Ok tt, m);
  host_open _ m := (Ok tt, m);
  host_statfs _ m := (Ok (Space (2 ^ 40) 100 50), m);
  host_mkdir _ m := (Ok tt, m);
  host_entries _ m := (Ok [], m);
  host_is_dir _ m := (Ok true, m);
  host_certificates _ m := (Ok [], m);
  host_hostname m := (Ok "minidock", m);
  host_getwd m := (Ok "/app", m);
  host_lookup_cname name m := (Ok (name +:+ "."), m) }.

#[export] Instance machine_observation : Observation machine := {
  containers := m_containers;
  routes := m_routes }.

Lemma fresh_id_fresh m n c : m !! n = Some c -> c_id c <> fresh_id m.
Proof.
  intros Hn. unfold fresh_id.
  enough (c_id c <= map_fold (fun _ c n => Z.max (c_id c) n) 1 m) by lia.
  revert n c Hn. apply (map_fold_weak_ind (fun r m => forall n c, m !! n = Some c -> c_id c <= r)).
  - intros n c Hn. by rewrite lookup_empty in Hn.
  - intros i x m' r Hi IH n c. destruct (decide (i = n)) as [->|].
    + rewrite lookup_insert_eq. intros [= ->]. lia.
    + rewrite lookup_insert_ne by done. intros Hn%IH. lia.
Qed.

Lemma route_identity_caddy application target :
  route_identity (caddy_route application target)
  = Some (caddyRouteID (a_ID application), target).
Proof. reflexivity. Qed.

Lemma sim_docker_routes args m : m_routes (snd (sim_docker args m)) = m_routes m.
Proof.
  unfold sim_docker, sim_run, sim_rename, on_container.
  repeat first [done | case_match]; done.
Qed.

Lemma sim_docker_quiet args m :
  changes_containers args = false -> m_containers (snd (sim_docker args m)) = m_containers m.
Proof.
  destruct args as [|verb rest]; [done|]. unfold changes_containers. intros H.
  apply bool_decide_eq_false in H. unfold sim_docker.
  do 3 (string_case verb; [exfalso; apply H; set_solver|]).
  unfold on_container. repeat first [done | case_match]; done.
Qed.

Lemma sim_docker_run args name image m :
  starts name image args -> sim_docker args m = sim_run name image m.
Proof.
  intros [flags ->]. pose proof (List.last_last flags image "") as E. simpl.
  destruct (flags ++ [image]) as [|x l] eqn:El; simpl in *; [by destruct flags|]. by rewrite E.
Qed.

Lemma sim_http_containers rq m : m_containers (snd (sim_http rq m)) = m_containers m.
Proof. unfold sim_http. repeat first [done | case_match]; done. Qed.

#[export] Instance machine_engine : Engine machine.
Proof.
  split; try (intros; unfold quiet; by simpl).
  - intros c h. simpl. destruct (cmd_name c =? "docker")%string; [apply sim_docker_routes|done].
  - intros c h Hc. simpl. destruct (String.eqb_spec (cmd_name c) "docker"); [|done].
    destruct Hc as [Hc|Hc]; [done|]. by apply sim_docker_quiet.
  - intros name h. simpl. unfold on_container.
    destruct (m_containers h !! name) eqn:E; simpl; split; auto; done.
  - intros a b h. simpl. unfold sim_rename.
    destruct (m_containers h !! a) as [c|] eqn:Ea; [|split; [by left|done]].
    destruct (m_containers h !! b) eqn:Eb; simpl; [split; [by left|done]|].
    split; [right|intros _ _]; by exists c.
  - intros args name image h Hs%(sim_docker_run _ _ _ h). simpl. rewrite Hs. clear Hs.
    unfold sim_run. destruct (m_containers h !! name) eqn:E; simpl; [split; [by left|done]|].
    split; [right|intros _ _]; eexists (Container _ _ _);
      (split; [done|split; [reflexivity|split; [|reflexivity]]]);
      intros n c' Hn; exact (fresh_id_fresh _ _ _ Hn).
  - intros name h. simpl. unfold on_container. destruct (m_containers h !! name); by left.
  - intros name h out. simpl. unfold on_container.
    destruct (m_containers h !! name) eqn:E; simpl; [by eexists|done].
  - intros name h out. simpl. unfold on_container.
    destruct (m_containers h !! name) as [c|] eqn:E; [|done]. intros [= <-]. by exists c.
  - intros rq h. apply sim_http_containers.
  - intros method endpoint application target h _. simpl.
    unfold sim_http, admin_request. cbn [rq_body]. rewrite route_identity_caddy. cbn [rq_method].
    destruct (contains target "refused"); simpl;
      [split; [by left|]; split; [|done]; by intros resp [= <-]|].
    destruct (_ && _); simpl.
    + split; [by left|]. split; [|done]. by intros resp [= <-].
    + split; [by right|]. split; [done|]. by intros resp [= <-].
  - intros rq h Hb. change (host_http rq h) with (sim_http rq h). unfold sim_http. rewrite Hb.
    destruct (contains _ _); [|done]. by destruct (m_routes h !! _).
Qed.
