(* ===== verification/BlueGreenFacts.v ===== *)
(** * What the blue-green switch guarantees

    On every machine that keeps the promises of [Engine], with every fault script:
    what a deployment may touch, what it leaves when it succeeds, when it fails and
    when the process dies, and what reconciliation restores.  A run with faults from
    some point on is a crash at that point, so a property of the final state under
    every script is a property of every intermediate state. *)

From S2P Require Import Prelude GoStrings Json Net Host Templates StoreTypes Executor.
From S2P Require Import Proxy BlueGreen Engine.

Section facts.
Context {H : Type} `{!Host H, !Observation H, !Engine H}.
Implicit Types (h : H) (w : world (site H)).

(** ** What an operation may touch *)

Definition same_except (names ids : list string) : relation H := fun a b =>
  (forall n, n ∉ names -> containers b !! n = containers a !! n)
  /\ (forall r, r ∉ ids -> routes b !! r = routes a !! r).

#[local] Instance same_except_preorder names ids : PreOrder (same_except names ids).
Proof.
  split; [by split|]. intros a b c [H1 H2] [H3 H4]. split; intros x Hx.
  - by rewrite H3, H1.
  - by rewrite H4, H2.
Qed.

Section rules.
Context (names ids : list string).
Abbreviation R := (on_machine (same_except names ids)).

Lemma same_except_refl h : same_except names ids h h.
Proof. reflexivity. Qed.

Lemma touch_quiet {A} (f : H -> result A * H) :
  quiet f -> evolves R (host_step f).
Proof.
  intros Hf. apply evolves_host_step; [exact _|]. intros h. destruct (Hf h) as [E1 E2].
  split; intros x _; [by rewrite E1|by rewrite E2].
Qed.

Lemma quiet_exec c h :
  cmd_name c <> "docker" \/ changes_containers (cmd_args c) = false ->
  same_except names ids h (snd (host_exec c h)).
Proof.
  intros Hc. split; intros x _; [by rewrite exec_quiet|by rewrite exec_routes].
Qed.

Lemma touch_output args : changes_containers args = false -> evolves R (docker_output args).
Proof.
  intros Ha. apply evolves_exec_output; [exact _|]. intros h. apply quiet_exec. by right.
Qed.

Lemma touch_read args : changes_containers args = false -> evolves R (docker args).
Proof. intros Ha. apply evolves_run; [exact _|]. intros h. apply quiet_exec. by right. Qed.

(** A change of the container map below the given names. *)
Lemma same_except_containers c h :
  (forall n, n ∉ names -> containers (snd (host_exec c h)) !! n = containers h !! n) ->
  same_except names ids h (snd (host_exec c h)).
Proof. intros Hc. split; [done|]. intros x _. by rewrite exec_routes. Qed.

Lemma touch_remove name : name ∈ names -> evolves R (docker (remove_args name)).
Proof.
  intros Hn. apply evolves_run; [exact _|]. intros h. apply same_except_containers. intros n Hx.
  pose proof (exec_rm name h) as Hl. unfold docker_command in Hl.
  destruct (host_exec _ h) as [r h']. simpl. destruct Hl as [[->| ->] _]; [done|].
  apply lookup_delete_ne. set_solver.
Qed.

Lemma touch_rename a b : a ∈ names -> b ∈ names -> evolves R (docker (rename_args a b)).
Proof.
  intros Ha Hb. apply evolves_run; [exact _|]. intros h. apply same_except_containers. intros n Hx.
  pose proof (exec_rename a b h) as Hl. unfold docker_command in Hl.
  destruct (host_exec _ h) as [r h']. simpl. destruct Hl as [[->|(c & _ & _ & ->)] _]; [done|].
  rewrite lookup_insert_ne by set_solver. apply lookup_delete_ne. set_solver.
Qed.

Lemma run_args_start e application image name envFile :
  starts name image (run_args e application image name envFile).
Proof.
  unfold starts, run_args, container_flags.
  generalize (match For (a_Type application) with
              | Some t => ["--cpus"; t_CPUs t; "--memory"; t_Memory t]
              | None => []
              end).
  generalize (if (envFile =? "")%string then [] else ["--env-file"; envFile]). intros env limits.
  exists (["--restart"; "unless-stopped"; "--network"; Network e; "--label";
           "minidock.application=" +:+ itoa (a_ID application)] ++ limits ++ env).
  by rewrite <- !app_assoc.
Qed.

Lemma touch_start e application image name envFile :
  name ∈ names -> evolves R (docker (run_args e application image name envFile)).
Proof.
  intros Hn. apply evolves_run; [exact _|]. intros h. apply same_except_containers. intros n Hx.
  pose proof (exec_run _ _ _ h (run_args_start e application image name envFile)) as Hl.
  unfold docker_command in Hl. destruct (host_exec _ h) as [r h']. simpl.
  destruct Hl as [[->|(c & _ & _ & _ & ->)] _]; [done|]. apply lookup_insert_ne. set_solver.
Qed.

Lemma touch_http_get endpoint host : evolves R (http (Request "GET" endpoint host [] None)).
Proof.
  apply touch_quiet. intros h. by rewrite http_containers, http_read.
Qed.

Lemma touch_route method endpoint application target :
  method = "PATCH" \/ method = "POST" -> caddyRouteID (a_ID application) ∈ ids ->
  evolves R (http (admin_request method endpoint (caddy_route application target))).
Proof.
  intros Hm Hid. apply evolves_host_step; [exact _|]. intros h.
  pose proof (http_route method endpoint application target h Hm) as Hl.
  pose proof (http_containers (admin_request method endpoint (caddy_route application target)) h) as Hc.
  destruct (host_http _ h) as [r h']. simpl in *. destruct Hl as [Hl _].
  split; intros x Hx; [by rewrite Hc|]. destruct Hl as [->| ->]; [done|].
  apply lookup_insert_ne. set_solver.
Qed.

Lemma touch_say line : evolves R (say line).
Proof. apply evolves_say. exact _. Qed.
Lemma touch_track f : evolves R (track f).
Proof. apply evolves_track. exact _. Qed.
End rules.

(** Traverse the code with the rules of the commands. *)
Ltac touch_step :=
  lazymatch goal with
  | |- evolves _ (say _) => refine (touch_say _ _ _)
  | |- evolves _ (track _) => refine (touch_track _ _ _)
  | |- evolves _ (OnStageChange _) => refine (touch_track _ _ _)
  | |- evolves _ (OnEvent _ _ _) => refine (touch_track _ _ _)
  | |- evolves _ (docker_output _) => refine (touch_output _ _ _ _); [reflexivity]
  | |- evolves _ (docker (remove_args _)) => refine (touch_remove _ _ _ _)
  | |- evolves _ (docker (rename_args _ _)) => refine (touch_rename _ _ _ _ _ _)
  | |- evolves _ (docker (run_args _ _ _ _ _)) => refine (touch_start _ _ _ _ _ _ _ _)
  | |- evolves _ (docker _) => refine (touch_read _ _ _ _); [reflexivity]
  | |- evolves _ (http (read_request _)) => refine (touch_http_get _ _ _ _)
  | |- evolves _ (http (Request "GET" _ _ [] None)) => refine (touch_http_get _ _ _ _)
  | |- evolves _ (http (admin_request _ _ (caddy_route _ _))) => refine (touch_route _ _ _ _ _ _ _ _)
  | |- evolves _ (host_step _) => refine (touch_quiet _ _ _ _)
  | |- evolves _ (or_failure _ _ _) => unfold or_failure
  | |- evolves _ (time_since _) => unfold time_since
  | _ => evolve_step
  end.
Ltac touch := repeat touch_step.

(** The parts that touch nothing. *)
Section quiet_parts.
Context (names ids : list string).
Abbreviation R := (on_machine (same_except names ids)).

Lemma touch_exists name : evolves R (dockerContainerExists name).
Proof. unfold dockerContainerExists. touch. Qed.

Lemma touch_target name port : evolves R (dockerContainerTarget name port).
Proof. unfold dockerContainerTarget. touch. Qed.

Lemma touch_health_loop fuel name deadline : evolves R (health_loop fuel name deadline).
Proof.
  induction fuel as [|fuel IH]; simpl; [touch|]. unfold health_round. touch. exact IH.
Qed.

Lemma touch_wait_healthy e name : evolves R (waitHealthy e name).
Proof. unfold waitHealthy. touch. apply touch_health_loop. Qed.

Lemma touch_env_file directory environment : evolves R (runtimeEnvFile directory environment).
Proof.
  unfold runtimeEnvFile. touch;
  first [apply mkdir_quiet | apply create_temp_quiet | apply chmod_quiet | apply close_quiet
        | apply remove_quiet | apply write_quiet].
Qed.

Lemma touch_remove_env_file path : evolves R (removeRuntimeEnvFile path).
Proof.
  unfold removeRuntimeEnvFile. touch;
  first [apply size_quiet | apply write_quiet | apply remove_quiet].
Qed.

Lemma touch_inspect_network e : evolves R (inspectDockerNetwork e).
Proof. unfold inspectDockerNetwork. touch. Qed.

Lemma touch_ensure_network e : evolves R (ensureDockerNetwork e).
Proof. unfold ensureDockerNetwork. cbv zeta. touch; apply touch_inspect_network. Qed.

Lemma touch_probe_loop fuel e application deadline probe lastErr :
  evolves R (probe_loop fuel e application deadline probe lastErr).
Proof.
  revert probe lastErr. induction fuel as [|fuel IH]; intros probe lastErr; simpl; [touch|].
  unfold probe_round. touch. apply IH.
Qed.

Lemma touch_verify e application : evolves R (Verify e application).
Proof. unfold Verify, Probe. touch. apply touch_probe_loop. Qed.

Lemma touch_verify_route baseURL path target : evolves R (verifyRouteTarget baseURL path target).
Proof. unfold verifyRouteTarget. touch. Qed.
End quiet_parts.

(** ** The phases of a switch *)

Section phases.
Context (names ids : list string).
Abbreviation R := (on_machine (same_except names ids)).

Lemma touch_apply e application target :
  caddyRouteID (a_ID application) ∈ ids -> evolves R (Apply e application target).
Proof.
  intros Hid. unfold Apply, UpsertRoute. touch; try done; try (by left); try (by right);
    apply touch_verify_route.
Qed.

Lemma touch_run_container e application image environment name routed :
  name ∈ names -> evolves R (runDockerContainer e application image environment name routed).
Proof.
  intros Hn. unfold runDockerContainer. cbv zeta. touch; try done.
  - apply touch_env_file.
  - apply touch_remove_env_file.
Qed.

Lemma touch_remove_if_present name :
  name ∈ names -> evolves R (removeDockerContainerIfPresent name).
Proof. intros Hn. unfold removeDockerContainerIfPresent. touch; [apply touch_exists|done]. Qed.

Lemma touch_stage e application image environment staging :
  staging ∈ names -> evolves R (stage_candidate e application image environment staging).
Proof.
  intros Hn. unfold stage_candidate. touch; try done.
  - by apply touch_run_container.
  - apply touch_wait_healthy.
Qed.

Lemma touch_switch e application active staging :
  staging ∈ names -> caddyRouteID (a_ID application) ∈ ids ->
  evolves R (switch_route CaddyProxyAdapter e application active staging).
Proof.
  intros Hn Hid. unfold switch_route. cbn [px_Apply px_Verify CaddyProxyAdapter]. touch; try done;
  first [apply touch_target | by apply touch_apply | apply touch_verify | apply touch_exists].
Qed.

Lemma touch_retire application active staging :
  active ∈ names -> staging ∈ names -> candidate_name application ∈ names ->
  evolves R (retire_active application active staging).
Proof.
  intros Ha Hs Hc. unfold retire_active. touch; try done.
  - apply touch_exists.
  - by apply touch_remove_if_present.
Qed.

Lemma touch_replace e application image environment flag :
  [container_name application; candidate_name application; next_name application] ⊆ names ->
  caddyRouteID (a_ID application) ∈ ids ->
  evolves R (replace_colour CaddyProxyAdapter e application image environment flag).
Proof.
  intros Hn Hid. unfold replace_colour, colours. destruct flag; touch;
  first [apply touch_stage | apply touch_switch | apply touch_retire]; try done;
  apply Hn; set_solver.
Qed.

Lemma touch_Start e application image environment :
  [container_name application; candidate_name application; next_name application] ⊆ names ->
  caddyRouteID (a_ID application) ∈ ids ->
  evolves R (Start CaddyProxyAdapter e application image environment).
Proof.
  intros Hn Hid. unfold Start. touch.
  - apply touch_ensure_network.
  - apply touch_exists.
  - by apply touch_replace.
Qed.
End phases.

(** ** Isolation between applications *)

(** Names that end like the colours of another application. *)
Definition colour_suffixes : list string := ["-candidate"; "-next"; "-previous"].
Definition reserved (name : string) : bool := existsb (has_suffix name) colour_suffixes.

Definition colour_names (application : Application) : list string :=
  [container_name application; candidate_name application; next_name application;
   previous_name application].

Lemma reserved_suffix a s : In s colour_suffixes -> reserved (a +:+ s) = true.
Proof. intros Hs. apply existsb_exists. exists s. split; [done|]. apply has_suffix_append. Qed.

Lemma suffix_apart a b s t :
  In s colour_suffixes -> In t colour_suffixes -> a +:+ s = b +:+ t -> a = b.
Proof.
  intros Hs Ht E.
  assert (last_byte s <> None /\ last_byte t <> None) as [Hls Hlt].
  { split; [destruct Hs as [<-|[<-|[<-|[]]]] | destruct Ht as [<-|[<-|[<-|[]]]]]; by vm_compute. }
  assert (last_byte s = last_byte t) as El.
  { by rewrite <- (last_byte_append a s), <- (last_byte_append b t), E. }
  destruct Hs as [<-|[<-|[<-|[]]]], Ht as [<-|[<-|[<-|[]]]]; try (by vm_compute in El);
    by eapply append_inj_r.
Qed.

Lemma colours_apart a b n :
  a_Name a <> a_Name b -> reserved (a_Name a) = false -> reserved (a_Name b) = false ->
  n ∈ colour_names b -> n ∉ colour_names a.
Proof.
  intros Hab Ha Hb Hn Hn'.
  assert (exists s, (s = "" \/ In s colour_suffixes) /\ n = "minidock-" +:+ (a_Name b +:+ s)) as (s & Hs & ->).
  { apply list_elem_of_In in Hn as [<-|Hn]; [exists ""; by rewrite append_nil_r; auto|].
    destruct Hn as [<-|[<-|[<-|[]]]]; eexists; (split; [|symmetry; apply append_assoc]); right; simpl; auto. }
  assert (exists t, (t = "" \/ In t colour_suffixes)
            /\ "minidock-" +:+ (a_Name b +:+ s) = "minidock-" +:+ (a_Name a +:+ t)) as (t & Ht & E).
  { apply list_elem_of_In in Hn' as [<-|Hn']; [exists ""; by rewrite append_nil_r; auto|].
    destruct Hn' as [<-|[<-|[<-|[]]]]; eexists; (split; [|symmetry; apply append_assoc]); right; simpl; auto. }
  apply append_inj_l in E. destruct Hs as [->|Hs], Ht as [->|Ht].
  - rewrite !append_nil_r in E. congruence.
  - rewrite append_nil_r in E. rewrite E, reserved_suffix in Hb; done.
  - rewrite append_nil_r in E. rewrite <- E, reserved_suffix in Ha; done.
  - apply Hab. symmetry. by apply (suffix_apart _ _ s t).
Qed.

Lemma caddyRouteID_inj a b : caddyRouteID a = caddyRouteID b -> a = b.
Proof. intros E%append_inj_l. by apply (inj pretty) in E. Qed.

(** C29: a deployment touches only its own application.  For two applications neither of
    whose names ends like a colour ([reserved]; [names_collide] shows the need), no fault can
    make [Start] of the one change a container of the other, or its route. *)
Theorem deployment_isolated e application other image environment w name :
  a_ID application <> a_ID other -> a_Name application <> a_Name other ->
  reserved (a_Name application) = false -> reserved (a_Name other) = false ->
  name ∈ colour_names other ->
  let h' := site_host (exec (Start CaddyProxyAdapter e application image environment) w) in
  containers h' !! name = containers (site_host (w_state w)) !! name
  /\ routes h' !! caddyRouteID (a_ID other)
     = routes (site_host (w_state w)) !! caddyRouteID (a_ID other).
Proof.
  intros Hid Hname Ha Hb Hn h'.
  destruct (touch_Start (colour_names application) [caddyRouteID (a_ID application)]
              e application image environment) with (w := w) as [Hc Hr].
  - intros x Hx. unfold colour_names. set_solver.
  - by apply list_elem_of_singleton.
  - split; [apply Hc, (colours_apart application other); auto|].
    apply Hr. intros E%list_elem_of_singleton. apply Hid. symmetry. by apply caddyRouteID_inj.
Qed.

(** ** Success *)

(** The container of a name serves the application: Caddy dials its address. *)
Definition upstream (application : Application) (c : container) : string :=
  JoinHostPort (address c) (itoa (a_InternalPort application)).
Definition serves (application : Application) (name : string) (h : H) : Prop :=
  exists c, containers h !! name = Some c
    /\ routes h !! caddyRouteID (a_ID application) = Some (upstream application c).

Abbreviation host_of w := (site_host (w_state w)).

Lemma same_except_nil h h' :
  same_except [] [] h h' ->
  (forall n, containers h' !! n = containers h !! n) /\ (forall r, routes h' !! r = routes h !! r).
Proof. intros [H1 H2]. split; intros x; [apply H1|apply H2]; apply not_elem_of_nil. Qed.

Lemma docker_ok args w u w' :
  docker args w = (Ok u, w') ->
  exists r out, host_exec (docker_command args) (host_of w) = (r, host_of w') /\ succeeded_with r out.
Proof.
  unfold docker, run, runWithEnv. intros (f & w1 & E & E1)%bind_run. apply step_run in E.
  unfold on_host in E. change (sorted_pairs ∅) with (@nil (string * string)) in E.
  destruct (host_exec _ (host_of w)) as [r h] eqn:Eh. injection E as -> E.
  apply bind_run in E1 as (v & w2 & E2 & E3). injection E2 as _ <-. simpl in E3.
  destruct f as [out [err|]]; simpl in E3; [done|]. injection E3 as _ <-. simpl.
  exists (Ok (Finished out None)), out. split; [|done]. by rewrite <- E.
Qed.

Lemma output_ok args w out w' :
  docker_output args w = (Ok out, w') ->
  exists r, host_exec (docker_command args) (host_of w) = (r, host_of w') /\ succeeded_with r out.
Proof.
  intros E%step_run. unfold on_host in E.
  change (Command "docker" [] args) with (docker_command args) in E.
  destruct (host_exec (docker_command args) (host_of w)) as [[f|e] h] eqn:Eh; [|done].
  destruct f as [o [err|]]; simpl in E; [done|]. injection E as -> E.
  exists (Ok (Finished out None)). by rewrite <- E.
Qed.

Lemma target_ok name application w target w' :
  dockerContainerTarget name (a_InternalPort application) w = (Ok target, w') ->
  same_except [] [] (host_of w) (host_of w')
  /\ exists c, containers (host_of w) !! name = Some c /\ target = upstream application c.
Proof.
  intros E. split; [exact (evolves_pair _ _ _ _ _ (touch_target [] [] _ _) E)|].
  unfold dockerContainerTarget in E. destruct (_ || _); [done|].
  apply bind_run in E as (out & w1 & E & E1).
  apply catch_cases in E as [(o & E & [= <-])|(e & w2 & _ & E)]; [|done].
  apply output_ok in E as (r & Eh & Hr). cbv zeta in E1.
  destruct (negb (is_ip (trim_space out))); [done|]. apply ret_run in E1 as [-> _].
  pose proof (exec_address name (host_of w) out) as Hl.
  rewrite Eh in Hl. destruct (Hl Hr) as (c & Hc & Ec). exists c. unfold upstream. by rewrite Ec.
Qed.

Lemma exists_true name w w' :
  dockerContainerExists name w = (Ok true, w') -> is_Some (containers (host_of w) !! name).
Proof.
  unfold dockerContainerExists. intros (r & w1 & E%attempt_run & E1)%bind_run.
  apply ret_run in E1 as [E1 _]. destruct r as [out|]; [|done].
  apply output_ok in E as (r & Eh & Hr). apply (exec_inspect name (host_of w) out).
  by rewrite Eh.
Qed.

(** A successful request changed the route. *)
Lemma route_request_ok method endpoint application target w r w' :
  method = "PATCH" \/ method = "POST" ->
  http (admin_request method endpoint (caddy_route application target)) w = (Ok r, w') ->
  status_ok r = true ->
  routes (host_of w') = <[caddyRouteID (a_ID application) := target]> (routes (host_of w)).
Proof.
  intros Hm E%http_run Hs.
  pose proof (http_route method endpoint application target (host_of w) Hm) as Hl.
  rewrite E in Hl. destruct Hl as (_ & Hl & _). by apply (Hl r).
Qed.

Lemma apply_ok_route e application target w u w' :
  Apply e application target w = (Ok u, w') ->
  routes (host_of w') !! caddyRouteID (a_ID application) = Some target.
Proof.
  unfold Apply. destruct (trim_space target =? "")%string; [done|]. unfold UpsertRoute.
  intros (endpoint & w1 & E1 & E)%bind_run. injection E1 as _ <-.
  apply bind_run in E as (r & w2 & E2 & E).
  apply catch_cases in E2 as [(r' & E2 & [= <-])|(err & w3 & _ & E2)]; [|done].
  assert (forall path w3 w4 v, verifyRouteTarget (CaddyAdminURL e) path target w3 = (Ok v, w4) ->
    routes (host_of w4) = routes (host_of w3)) as Hverify.
  { intros path w3 w4 v Ev. apply map_eq. intros x.
    by apply (evolves_pair _ _ _ _ _ (touch_verify_route [] [] _ _ _) Ev), not_elem_of_nil. }
  destruct (status_ok r) eqn:Es.
  - rewrite (Hverify _ _ _ _ E).
    rewrite (route_request_ok _ _ _ _ _ _ _ (or_introl eq_refl) E2 Es). apply lookup_insert_eq.
  - destruct (negb (rs_status r =? 404)); [done|]. apply bind_run in E as (ep & w3 & E3 & E).
    injection E3 as _ <-. apply bind_run in E as (r2 & w4 & E4 & E).
    apply catch_cases in E4 as [(r' & E4 & [= <-])|(err & w5 & _ & E4)]; [|done].
    destruct (status_ok r2) eqn:Es2; [|done]. cbn [negb] in E. rewrite (Hverify _ _ _ _ E).
    rewrite (route_request_ok _ _ _ _ _ _ _ (or_intror eq_refl) E4 Es2). apply lookup_insert_eq.
Qed.

(** A started container is the one of the image. *)
Lemma run_container_ok e application image environment name routed w u w' :
  runDockerContainer e application image environment name routed w = (Ok u, w') ->
  exists c, containers (host_of w') !! name = Some c /\ c_image c = image.
Proof.
  unfold runDockerContainer. intros (envFile & w1 & _ & E)%bind_run. cbv zeta in E.
  apply finally_run in E as (w2 & E & ->). apply bind_run in E as (v & w3 & _ & E).
  apply docker_ok in E as (r & out & Eh & Hr).
  pose proof (exec_run _ _ _ (host_of w3) (run_args_start e application image name envFile)) as Hl.
  rewrite Eh in Hl. destruct Hl as [_ Hl]. destruct (Hl out Hr) as (c & _ & Hi & _ & Hc).
  exists c. split; [|done].
  destruct (same_except_nil _ _ (touch_remove_env_file [] [] envFile w2)) as [Hn _].
  rewrite Hn, Hc. apply lookup_insert_eq.
Qed.

Lemma stage_ok e application image environment staging w u w' :
  stage_candidate e application image environment staging w = (Ok u, w') ->
  exists c, containers (host_of w') !! staging = Some c /\ c_image c = image.
Proof.
  unfold stage_candidate. intros E.
  apply bind_run in E as (? & w1 & _ & E). apply bind_run in E as (? & w2 & _ & E).
  apply bind_run in E as (? & w3 & _ & E). apply bind_run in E as (start & w4 & _ & E).
  apply bind_run in E as (v & w5 & E5 & E).
  apply catch_cases in E5 as [(? & E5 & _)|(? & ? & _ & E5)]; [|done].
  apply run_container_ok in E5 as (c & Hc & Hi). exists c. split; [|done]. rewrite <- Hc.
  refine (proj1 (same_except_nil _ _ (_ : on_machine (same_except [] []) _ _)) staging).
  refine ((_ : returns _ _) _ _ _ E). unfold or_failure. repeat return_step; touch.
  apply touch_wait_healthy.
Qed.

(** What a switch of the route leaves: the staging container serves, or nothing was
    touched, or the proxy reported a failure. *)
Definition proxy_failure (err : error) : Prop :=
  exists code cause, err = failure "route" code cause
    /\ (code = "proxy_switch_failed" \/ code = "proxy_validation_failed").

Lemma switch_ok e application active staging w u w' :
  switch_route CaddyProxyAdapter e application active staging w = (Ok u, w') ->
  (forall n, containers (host_of w') !! n = containers (host_of w) !! n)
  /\ serves application staging (host_of w').
Proof.
  unfold switch_route. intros E.
  apply bind_run in E as (? & w1 & E1 & E). apply bind_run in E as (? & w2 & E2 & E).
  apply bind_run in E as (start & w3 & E3 & E). apply bind_run in E as (target & w4 & E4 & E).
  apply catch_cases in E4 as [(t' & E4 & [= <-])|(? & ? & _ & E4)]; [|done].
  assert (same_except [] [] (host_of w) (host_of w3)) as [H03 _]%same_except_nil.
  { injection E1 as _ <-. injection E2 as _ <-. apply now_run in E3. by rewrite E3. }
  apply target_ok in E4 as [[H34 _]%same_except_nil (c & Hc & ->)].
  apply bind_run in E as (? & w5 & E5 & E). injection E5 as _ <-.
  apply bind_run in E as (? & w6 & E6 & E).
  apply catch_cases in E6 as [(? & E6 & _)|(? & ? & _ & E6)];
    [|by apply bind_run in E6 as (? & ? & _ & ?)].
  cbn [px_Apply CaddyProxyAdapter] in E6.
  assert (forall n, containers (host_of w6) !! n = containers (host_of w4) !! n) as H46.
  { intros n. refine (proj1 (evolves_pair _ _ _ _ _
      (touch_apply [] [caddyRouteID (a_ID application)] _ _ _ _) E6) n (not_elem_of_nil _)).
    by apply list_elem_of_singleton. }
  apply apply_ok_route in E6.
  assert (on_machine (same_except [] []) (w_state w6) (w_state w')) as [H67 R67]%same_except_nil.
  { refine ((_ : returns _ _) _ _ _ E). unfold or_failure. repeat return_step; touch.
    apply touch_verify. }
  assert (forall n, containers (host_of w') !! n = containers (host_of w) !! n) as Hall.
  { intros n. by rewrite H67, H46, H34, H03. }
  split; [done|]. exists c. split; [by rewrite Hall, <- H03|by rewrite R67].
Qed.

Lemma switch_err e application active staging w err w' :
  switch_route CaddyProxyAdapter e application active staging w = (Err err, w') ->
  same_except [] [] (host_of w) (host_of w') \/ proxy_failure err.
Proof.
  unfold switch_route. intros E.
  apply bind_cases in E as [(? & E & _)|(? & w1 & E1 & E)]; [done|].
  apply bind_cases in E as [(? & E & _)|(? & w2 & E2 & E)]; [done|].
  injection E1 as _ <-. injection E2 as _ <-.
  apply bind_cases in E as [(er & E & _)|(start & w3 & E3 & E)].
  { unfold now in E. by destruct (w_ticks _). }
  apply now_run in E3.
  apply bind_cases in E as [(er & E & _)|(target & w4 & E4 & E)].
  { left. assert (on_machine (same_except [] []) (w_state w3) (w_state w')) as Ht.
    { refine (evolves_pair _ _ _ _ _ _ E). unfold or_failure. touch. apply touch_target. }
    unfold on_machine in Ht. by rewrite E3 in Ht. }
  right. refine ((_ : errors proxy_failure _) _ _ _ E).
  unfold time_since, dockerContainerExists, say, track, OnEvent; repeat errors_step;
  try (by intros ? ? ?);
  by (eexists _, _; (split; [reflexivity|]); auto).
Qed.

(** Whatever happens to a command, it took effect once or not at all. *)
Lemma docker_any args w r w' :
  docker args w = (r, w') ->
  host_of w' = host_of w \/ host_of w' = snd (host_exec (docker_command args) (host_of w)).
Proof.
  unfold docker, run, runWithEnv. intros E.
  assert (forall f w1, (say (fin_output f) ;; match fin_error f with
            | None => mret tt | Some e => fail (ErrEnv e) end) w1 = (r, w') ->
          host_of w' = host_of w1) as Htail.
  { intros f w1 [(? & E1 & _)|(? & w2 & E1 & E2)]%bind_cases; [done|]. injection E1 as _ <-.
    destruct (fin_error f); by injection E2 as _ <-. }
  assert (forall x w1, host_step (host_exec (Command "docker" (sorted_pairs ∅) args)) w = (x, w1) ->
    host_of w1 = host_of w \/ host_of w1 = snd (host_exec (docker_command args) (host_of w))) as Hstep.
  { intros x w1. unfold host_step, step, step_with. pose proof (next_fault_state w) as En.
    destruct (next_fault w) as [[|m|m] w0]; simpl in En; unfold on_host; rewrite ?En.
    all: change (sorted_pairs ∅) with (@nil (string * string));
      change (Command "docker" [] args) with (docker_command args).
    - destruct (host_exec (docker_command args) (host_of w)) as [y h]. intros [= _ <-]. by right.
    - intros [= _ E0]. left. by rewrite <- E0, En.
    - destruct (host_exec (docker_command args) (host_of w)) as [y h]. intros [= _ <-]. by right. }
  apply bind_cases in E as [(e & E & _)|(f & w1 & E1 & E2)]; [by eapply Hstep|].
  rewrite (Htail _ _ E2). by eapply Hstep.
Qed.

Definition serves_with (application : Application) (c : container) (name : string) (h : H) : Prop :=
  containers h !! name = Some c
  /\ routes h !! caddyRouteID (a_ID application) = Some (upstream application c).

Lemma serves_same application c name h h' names :
  same_except names [] h h' -> name ∉ names -> serves_with application c name h ->
  serves_with application c name h'.
Proof.
  intros [Hc Hr] Hn [H1 H2]. split; [by rewrite Hc|]. rewrite Hr; [done|apply not_elem_of_nil].
Qed.

Lemma rename_serves application c a b w r w' :
  docker (rename_args a b) w = (r, w') -> serves_with application c a (host_of w) ->
  (serves_with application c a (host_of w') \/ serves_with application c b (host_of w'))
  /\ (is_ok r = true -> serves_with application c b (host_of w')).
Proof.
  intros E [Hc Hr]. pose proof (exec_rename a b (host_of w)) as Hl.
  pose proof (exec_routes (docker_command (rename_args a b)) (host_of w)) as Hrt.
  assert (forall h', containers h' = <[b := c]> (delete a (containers (host_of w))) ->
            routes h' = routes (host_of w) -> serves_with application c b h') as Hb.
  { intros h' H1 H2. split; [rewrite H1; apply lookup_insert_eq|by rewrite H2]. }
  split.
  - destruct (docker_any _ _ _ _ E) as [Eh|Eh]; [left; by rewrite Eh|].
    destruct (host_exec _ (host_of w)) as [x h'] eqn:Ex. simpl in *. subst h'.
    destruct Hl as [[Hs|(c' & Ha & _ & Hs)] _].
    + left. split; [by rewrite Hs|by rewrite Hrt].
    + right. apply Hb; [|done]. congruence.
  - destruct r as [u|]; [|done]. intros _. apply docker_ok in E as (x & out & Ex & Hx).
    rewrite Ex in Hl, Hrt. destruct Hl as [_ Hl]. destruct (Hl out Hx) as (c' & Ha & _ & Hs).
    apply Hb; [congruence|done].
Qed.

Lemma retire_serves application c active staging w r w' :
  retire_active application active staging w = (r, w') ->
  active <> staging -> serves_with application c staging (host_of w) ->
  (serves_with application c staging (host_of w')
   \/ serves_with application c (candidate_name application) (host_of w'))
  /\ (is_ok r = true -> serves_with application c (candidate_name application) (host_of w')).
Proof.
  intros E Hne Hs. unfold retire_active in E.
  assert (forall w1, on_machine (same_except [active] []) (w_state w) (w_state w1) ->
            serves_with application c staging (host_of w1)) as Hkeep.
  { intros w1 H1. refine (serves_same _ _ _ _ _ _ H1 _ Hs). set_solver. }
  apply bind_cases in E as [(e & E & ->)|(present & w1 & E1 & E)].
  { split; [|done]. left. apply Hkeep. exact (evolves_pair _ _ _ _ _ (touch_exists _ _ _) E). }
  assert (on_machine (same_except [active] []) (w_state w) (w_state w1)) as H1
    by exact (evolves_pair _ _ _ _ _ (touch_exists _ _ _) E1).
  assert (forall b : bool, evolves (on_machine (same_except [active] []))
    (if b then or_failure "route" "previous_cleanup_failed" (removeDockerContainerIfPresent active)
     else mret tt)) as Hrm.
  { intros b. unfold or_failure. touch. apply touch_remove_if_present. by apply list_elem_of_singleton. }
  apply bind_cases in E as [(e & E & ->)|(u & w2 & E2 & E)].
  { split; [|done]. left. apply Hkeep. etrans; [exact H1|]. exact (evolves_pair _ _ _ _ _ (Hrm _) E). }
  assert (serves_with application c staging (host_of w2)) as Hs2.
  { apply Hkeep. etrans; [exact H1|]. exact (evolves_pair _ _ _ _ _ (Hrm _) E2). }
  destruct (String.eqb_spec staging (candidate_name application)) as [->|Hn]; cbn [negb] in E.
  - injection E as <- <-. auto.
  - unfold or_failure in E. apply catch_cases in E as [(a & E & ->)|(e & w3 & E & [= <- <-])].
    + destruct (rename_serves _ _ _ _ _ _ _ E Hs2) as [Ha Hb]. split; [done|]. intros _. by apply Hb.
    + destruct (rename_serves _ _ _ _ _ _ _ E Hs2) as [Ha _]. split; [done|]. done.
Qed.

Lemma colours_distinct application flag active staging :
  colours application flag = (active, staging) -> active <> staging.
Proof.
  unfold colours, next_name, candidate_name. generalize (container_name application). intros name.
  destruct flag; intros [= <- <-] E.
  - apply append_inj_l in E. done.
  - apply (f_equal String.length) in E. rewrite length_append in E. simpl in E. lia.
Qed.

Lemma replace_ok e application image environment flag w img w' :
  replace_colour CaddyProxyAdapter e application image environment flag w = (Ok img, w') ->
  img = image /\ exists c, c_image c = image
    /\ serves_with application c (candidate_name application) (host_of w').
Proof.
  unfold replace_colour. destruct (colours application flag) as [active staging] eqn:Ec.
  intros (u & w1 & E1 & E)%bind_run. apply bind_run in E as (u2 & w2 & E2 & E).
  apply bind_run in E as (u3 & w3 & E3 & E). apply ret_run in E as [-> ->]. split; [done|].
  apply stage_ok in E1 as (c & Hc & Hi). apply switch_ok in E2 as [Hsame (c' & Hc' & Hr)].
  rewrite Hsame, Hc in Hc'. injection Hc' as <-. exists c. split; [done|].
  eapply retire_serves; [exact E3|by eapply colours_distinct| |done].
  split; [by rewrite Hsame|done].
Qed.

(** A deployment that reports success serves the new image.  When [Start] returns
    without an error, the durable colour is a container of the requested image and
    Caddy dials its address. *)
Theorem deployment_success e application image environment w img :
  eval (Start CaddyProxyAdapter e application image environment) w = Ok img ->
  img = image /\ exists c, c_image c = image
    /\ serves_with application c (candidate_name application)
         (site_host (exec (Start CaddyProxyAdapter e application image environment) w)).
Proof.
  intros E%eval_run. unfold Start in E at 1.
  apply bind_run in E as (u & w1 & _ & E). apply bind_run in E as (flag & w2 & _ & E).
  apply replace_ok in E. exact E.
Qed.

(** The application is live: one of its colours serves. *)
Definition live (application : Application) (h : H) : Prop :=
  exists name, name ∈ colour_names application /\ serves application name h.

Lemma serves_with_live application c name h :
  name ∈ colour_names application -> serves_with application c name h -> live application h.
Proof. intros Hn Hs. exists name. split; [done|by exists c]. Qed.

(** From a state where the active colour serves, whatever fails and wherever the process
    stops, the application is served at the end, unless the proxy itself reported a failure
    of the switch.  Before the switch the active colour is untouched; after it the staged
    container serves under one of its two names. *)
Lemma served_or_reported e application image environment flag active staging w :
  colours application flag = (active, staging) ->
  serves application active (host_of w) ->
  let m := replace_colour CaddyProxyAdapter e application image environment flag in
  live application (site_host (exec m w))
  \/ exists err, eval m w = Err err /\ proxy_failure err.
Proof.
  intros Ec (c & Hc & Hr) m. pose proof (colours_distinct _ _ _ _ Ec) as Hne.
  assert (active ∈ colour_names application /\ staging ∈ colour_names application) as [Ha Hst].
  { unfold colours in Ec. destruct flag; injection Ec as <- <-; unfold colour_names; set_solver. }
  assert (serves_with application c active (host_of w)) as Hs by done.
  unfold exec, eval. destruct (m w) as [r w'] eqn:E. simpl. unfold m, replace_colour in E.
  rewrite Ec in E. assert (active ∉ [staging]) as Hn by set_solver.
  pose proof (touch_stage [staging] [] e application image environment staging
                (proj2 (list_elem_of_singleton _ _) eq_refl)) as Hstage.
  apply bind_cases in E as [(err & E & ->)|(u & w1 & E1 & E)].
  { left. eapply serves_with_live; [exact Ha|].
    exact (serves_same _ _ _ _ _ _ (evolves_pair _ _ _ _ _ Hstage E) Hn Hs). }
  pose proof (serves_same _ _ _ _ _ _ (evolves_pair _ _ _ _ _ Hstage E1) Hn Hs) as Hs1.
  apply bind_cases in E as [(err & E & ->)|(u2 & w2 & E2 & E)].
  { apply switch_err in E as [Hsame|Hp]; [left|right; eauto].
    eapply serves_with_live; [exact Ha|]. by apply (serves_same _ _ _ _ _ _ Hsame (not_elem_of_nil _)). }
  apply switch_ok in E2 as [_ (c' & Hc' & Hr')].
  assert (candidate_name application ∈ colour_names application) as Hcand
    by (unfold colour_names; set_solver).
  left. apply bind_cases in E as [(err & E & ->)|(u3 & w3 & E3 & E)].
  - destruct (retire_serves _ c' _ _ _ _ _ E Hne (conj Hc' Hr')) as [[Hl|Hl] _];
      by (eapply serves_with_live; [|exact Hl]).
  - apply ret_run in E as [_ ->] || injection E as _ <-.
    destruct (retire_serves _ c' _ _ _ _ _ E3 Hne (conj Hc' Hr')) as [_ Hl].
    eapply serves_with_live; [exact Hcand|by apply Hl].
Qed.

(** ** Reconciliation *)

(** The route of a container is restored: it serves, no container changed. *)
Lemma restore_route_ok e application name err w u w' :
  (target ← dockerContainerTarget name (a_InternalPort application);
   catch (px_Apply CaddyProxyAdapter e application target) (fun x => fail (err x))) w = (Ok u, w') ->
  (forall n, containers (host_of w') !! n = containers (host_of w) !! n)
  /\ serves application name (host_of w').
Proof.
  intros (target & w1 & E1 & E)%bind_run.
  apply target_ok in E1 as [[H1 _]%same_except_nil (c & Hc & ->)].
  apply catch_cases in E as [(? & E & _)|(? & ? & _ & E)]; [|done].
  cbn [px_Apply CaddyProxyAdapter] in E.
  assert (forall n, containers (host_of w') !! n = containers (host_of w) !! n) as Hn.
  { intros n. rewrite <- H1. refine (proj1 (evolves_pair _ _ _ _ _
      (touch_apply [] [caddyRouteID (a_ID application)] _ _ _ _) E) n (not_elem_of_nil _)).
    by apply list_elem_of_singleton. }
  split; [done|]. exists c. split; [by rewrite Hn|by eapply apply_ok_route].
Qed.

(** Reconciliation keeps the serving colour.  When the candidate is seen and the
    reconciliation succeeds, Caddy dials it again, and no container but an interrupted
    staging one was touched. *)
Theorem reconcile_keeps_candidate e application w r :
  eval (dockerContainerExists (candidate_name application)) w = Ok true ->
  eval (reconcile_application CaddyProxyAdapter e application) w = Ok r ->
  let h' := site_host (exec (reconcile_application CaddyProxyAdapter e application) w) in
  r = false /\ serves application (candidate_name application) h'
  /\ forall n, n <> next_name application -> containers h' !! n = containers (host_of w) !! n.
Proof.
  intros Hseen%eval_run Hr. unfold eval in Hr. unfold exec.
  destruct (reconcile_application _ e application w) as [r0 w'] eqn:E. simpl in Hr. subst r0.
  cbv zeta. simpl. unfold reconcile_application in E. apply bind_run in E as (seen & w1 & E1 & E).
  rewrite Hseen in E1. injection E1 as <- E1.
  assert (same_except [] [] (host_of w) (host_of w1)) as [H1 _]%same_except_nil.
  { rewrite <- E1. exact (touch_exists [] [] _ w). }
  apply bind_run in E as (u & w2 & E2 & E). apply restore_route_ok in E2 as [H2 (c & Hc & Hr)].
  apply bind_run in E as (u' & w3 & E3 & E). apply ret_run in E as [-> ->]. split; [done|].
  assert (on_machine (same_except [next_name application] []) (w_state w2) (w_state w3)) as [H3 R3].
  { refine (evolves_pair _ _ _ _ _ _ E3). apply touch_remove_if_present.
    by apply list_elem_of_singleton. }
  assert (candidate_name application <> next_name application) as Hne.
  { exact (colours_distinct application true _ _ eq_refl). }
  split.
  - exists c. split; [rewrite H3 by (by rewrite list_elem_of_singleton); done|].
    rewrite R3; [done|apply not_elem_of_nil].
  - intros n Hn. rewrite H3 by (by rewrite list_elem_of_singleton). by rewrite H2, H1.
Qed.

(** An interrupted switch is undone to the preserved release.  When reconciliation
    reports an application as restored, the preserved container, with its identity and
    image, runs under the durable name and Caddy dials it. *)
Theorem reconcile_restores_previous e application w :
  eval (reconcile_application CaddyProxyAdapter e application) w = Ok true ->
  exists c c', containers (host_of w) !! previous_name application = Some c
    /\ c_id c' = c_id c /\ c_image c' = c_image c
    /\ serves_with application c' (container_name application)
         (site_host (exec (reconcile_application CaddyProxyAdapter e application) w)).
Proof.
  intros Hr. unfold eval in Hr. unfold exec.
  destruct (reconcile_application _ e application w) as [r0 w'] eqn:E. simpl in Hr. subst r0.
  simpl. unfold reconcile_application in E. apply bind_run in E as (seen & w1 & E1 & E).
  destruct seen.
  { apply bind_run in E as (? & w2 & _ & E). apply bind_run in E as (? & w3 & _ & E). done. }
  apply bind_run in E as (primary & w2 & E2 & E). apply bind_run in E as (previous & w3 & E3 & E).
  assert (same_except [] [] (host_of w) (host_of w3)) as [H3 _]%same_except_nil.
  { etrans; [exact (evolves_pair _ _ _ _ _ (touch_exists [] [] _) E1)|].
    etrans; [exact (evolves_pair _ _ _ _ _ (touch_exists [] [] _) E2)|].
    exact (evolves_pair _ _ _ _ _ (touch_exists [] [] _) E3). }
  apply bind_run in E as (u & w4 & E4 & E).
  destruct primary, previous; cbn [negb andb] in E;
    try (apply bind_run in E as (? & ? & _ & E); done).
  injection E4 as _ <-. apply bind_run in E as (? & w5 & E5 & E). injection E5 as _ <-.
  set (prev := previous_name application) in *. set (prim := container_name application) in *.
  apply bind_run in E as (u5 & w6 & E6 & E).
  apply catch_cases in E6 as [(? & E6 & _)|(? & ? & _ & E6)]; [|done].
  simpl in E6. apply docker_ok in E6 as (rx & outx & Ex & _).
  apply bind_run in E as (u6 & w7 & E7 & E).
  apply catch_cases in E7 as [(? & E7 & _)|(? & ? & _ & E7)]; [|done].
  assert (same_except [] [] (host_of w6) (host_of w7)) as [H7 _]%same_except_nil
    by exact (evolves_pair _ _ _ _ _ (touch_wait_healthy [] [] _ _) E7).
  apply bind_run in E as (u7 & w8 & E8 & E).
  apply catch_cases in E8 as [(? & E8 & _)|(? & ? & _ & E8)]; [|done].
  apply docker_ok in E8 as (ry & outy & Ey & Hy).
  apply bind_run in E as (u8 & w9 & E9 & E). apply restore_route_ok in E9 as [H9 (c9 & Hc9 & Hr9)].
  apply ret_run in E as [_ ->].
  pose proof (exec_rename prev prim (host_of w7)) as Hl. rewrite Ey in Hl.
  destruct Hl as [_ Hl]. destruct (Hl _ Hy) as (c' & Hc' & _ & Hs).
  assert (c9 = c') as ->.
  { rewrite H9, Hs, lookup_insert_eq in Hc9. by injection Hc9. }
  pose proof (exec_start prev (host_of w3)) as Hst. simpl in Ex. rewrite Ex in Hst.
  rewrite H7 in Hc'. destruct Hst as [Hst|(c & c2 & Hc & Hid & Him & Hst)]; rewrite Hst in Hc'.
  - exists c', c'. rewrite <- H3. by repeat (split; [done|]).
  - rewrite lookup_insert_eq in Hc'. injection Hc' as ->. exists c, c'. rewrite <- H3.
    by repeat (split; [done|]).
Qed.

(** A staged container alone is not reconciled.  If a process dies after retiring
    the old colour and before renaming the staged one, only the [-next] container is
    left: reconciliation reports nothing, restores no route and removes no container. *)
Theorem reconcile_ignores_next e application w r :
  containers (host_of w) !! candidate_name application = None ->
  containers (host_of w) !! container_name application = None ->
  containers (host_of w) !! previous_name application = None ->
  eval (reconcile_application CaddyProxyAdapter e application) w = Ok r ->
  let h' := site_host (exec (reconcile_application CaddyProxyAdapter e application) w) in
  r = false /\ (forall n, containers h' !! n = containers (host_of w) !! n)
  /\ forall id, routes h' !! id = routes (host_of w) !! id.
Proof.
  intros Hc Hp Hv Hr. unfold eval in Hr. unfold exec.
  destruct (reconcile_application _ e application w) as [r0 w'] eqn:E. simpl in Hr. subst r0. simpl.
  assert (forall name w1 b w2, containers (host_of w1) !! name = None ->
    dockerContainerExists name w1 = (Ok b, w2) ->
    b = false /\ same_except [] [] (host_of w1) (host_of w2)) as Habsent.
  { intros name w1 b w2 Hn E1. split; [|exact (evolves_pair _ _ _ _ _ (touch_exists [] [] _) E1)].
    destruct b; [|done]. apply exists_true in E1. rewrite Hn in E1. by destruct E1. }
  unfold reconcile_application in E. apply bind_run in E as (b1 & w1 & E1 & E).
  apply Habsent in E1 as [-> S1]; [|done]. destruct (same_except_nil _ _ S1) as [C1 _].
  apply bind_run in E as (b2 & w2 & E2 & E).
  apply Habsent in E2 as [-> S2]; [|by rewrite C1]. destruct (same_except_nil _ _ S2) as [C2 _].
  apply bind_run in E as (b3 & w3 & E3 & E).
  apply Habsent in E3 as [-> S3]; [|by rewrite C2, C1].
  apply bind_run in E as (u & w4 & E4 & E). injection E4 as _ <-. cbn [negb andb] in E.
  apply bind_run in E as (u2 & w5 & E5 & E). injection E5 as _ <-. apply ret_run in E as [-> ->].
  split; [done|]. apply same_except_nil. etrans; [exact S1|]. by etrans.
Qed.

(** ** The health check ends *)

Lemma output_clock args w :
  w_clock (snd (docker_output args w)) = w_clock w /\ w_ticks (snd (docker_output args w)) = w_ticks w.
Proof. apply step_clock. Qed.

(** A round depends on the next one only on worlds a second later, and only while the
    deadline has not passed. *)
Lemma health_round_ext (a1 a2 : EM H unit) name deadline w :
  forward w ->
  (forall w', w_clock w <= deadline -> forward w' -> w_clock w + Second <= w_clock w' ->
     a1 w' = a2 w') ->
  health_round a1 name deadline w = health_round a2 name deadline w.
Proof.
  intros Hf Ha. unfold health_round. apply bind_ext. intros out w1 E1.
  pose proof (output_clock (health_args name) w) as [Hc Ht]. rewrite E1 in Hc, Ht. simpl in Hc, Ht.
  cbv zeta. apply bind_ext. intros u w2 E2. injection E2 as _ <-.
  destruct (_ || _); [done|]. destruct (_ =? "unhealthy")%string; [done|].
  apply bind_ext. intros t w3 E3.
  match type of E3 with now ?w2 = _ => assert (forward w2) as Hf2
    by (unfold forward; simpl; by rewrite Ht); destruct (now_clock w2 Hf2) as (t' & w3' & E & Hle & Ht3 & Hf3) end.
  rewrite E in E3. injection E3 as -> ->. simpl in Hle.
  destruct (deadline <? t) eqn:Ed; [done|]. bools. apply bind_ext. intros v w4 E4.
  destruct (sleep_clock Second w3 Hf3) as [(w4' & E' & Hc4 & Hf4)|(err & w4' & E')];
    rewrite E' in E4; [|done]. injection E4 as _ <-. apply Ha; [lia|done|lia].
Qed.

Lemma health_loop_enough f k name deadline w :
  forward w -> deadline < w_clock w + Z.of_nat f * Second ->
  health_loop (S f + k) name deadline w = health_loop (S f) name deadline w.
Proof.
  revert w. induction f as [|f IH]; intros w Hf Hd.
  - change (health_loop (1 + k)) with (fun n d => health_round (health_loop k n d) n d).
    change (health_loop 1) with (fun n d => health_round (health_loop 0 n d) n d).
    apply health_round_ext; [done|]. intros w' ? _ _. lia.
  - change (health_loop (S (S f) + k)) with (fun n d => health_round (health_loop (S f + k) n d) n d).
    change (health_loop (S (S f))) with (fun n d => health_round (health_loop (S f) n d) n d).
    apply health_round_ext; [done|]. intros w' _ Hf' Hc. apply IH; [done|]. lia.
Qed.

(** The time the clock still moves by itself: what the commands take. *)
Definition pending (w : world (site H)) : Z := foldr Z.add 0 (w_ticks w).

Lemma pending_nonneg w : forward w -> 0 <= pending w.
Proof. unfold forward, pending. induction 1; simpl; lia. Qed.

Lemma now_pending w t w' : now w = (Ok t, w') -> w_clock w' + pending w' = w_clock w + pending w /\ t = w_clock w'.
Proof. unfold now, pending. destruct (w_ticks w) as [|x l] eqn:E; intros [= <- <-]; simpl; rewrite ?E; simpl; lia. Qed.

(** Only a round that begins before the deadline waits, for a second. *)
Lemma health_loop_clock f name deadline : forall w, forward w ->
  let w' := snd (health_loop f name deadline w) in
  w_clock w' + pending w' <= Z.max (w_clock w) (deadline + Second) + pending w /\ forward w'.
Proof.
  assert (0 < Second) as Hsec by (unfold Second, Millisecond; lia).
  assert (forall w w', forward w -> w_clock w' = w_clock w -> w_ticks w' = w_ticks w ->
    w_clock w' + pending w' <= Z.max (w_clock w) (deadline + Second) + pending w /\ forward w') as Hsame.
  { intros w w' Hf Hc Ht. unfold pending, forward in *. rewrite Hc, Ht. split; [lia|done]. }
  induction f as [|f IH]; intros w Hf w'; subst w'; [by apply Hsame|].
  destruct (health_loop (S f) name deadline w) as [r w'] eqn:E. simpl.
  change (health_round (health_loop f name deadline) name deadline w = (r, w')) in E. unfold health_round in E.
  pose proof (output_clock (health_args name) w) as [Hc Ht].
  apply bind_cases in E as [(err & E & ->)|(out & w1 & E1 & E)]; [by rewrite E in Hc, Ht; apply Hsame|].
  rewrite E1 in Hc, Ht. simpl in Hc, Ht. cbv zeta in E.
  apply bind_cases in E as [(err & E & ->)|(u & w2 & E2 & E)]; [done|]. injection E2 as _ <-.
  match type of E with _ ?x = _ => set (w2 := x) in * end.
  assert (w_clock w2 = w_clock w /\ w_ticks w2 = w_ticks w) as [Hc2 Ht2] by done. clearbody w2.
  destruct (_ || _); [injection E as _ <-; by apply Hsame|].
  destruct (_ =? "unhealthy")%string; [injection E as _ <-; by apply Hsame|].
  assert (forward w2) as Hf2 by (unfold forward; by rewrite Ht2).
  destruct (now_clock w2 Hf2) as (t & w3 & E3 & Hle & _ & Hf3). rewrite (bind_ok _ _ _ _ _ E3) in E.
  assert (pending w2 = pending w) as Hp2 by (unfold pending; by rewrite Ht2).
  apply now_pending in E3 as [Hp ->]. rewrite Hc2, Hp2 in Hp. rewrite Hc2 in Hle.
  destruct (Z.ltb_spec deadline (w_clock w3)); [injection E as _ <-; split; [lia|done]|].
  assert (w_clock (snd (sleep Second w3)) <= w_clock w3 + Second
          /\ w_ticks (snd (sleep Second w3)) = w_ticks w3) as [Hc3 Ht3].
  { unfold sleep, next_fault. destruct (w_faults w3) as [|[] fs]; simpl; split; try done; lia. }
  assert (forall w4, w_ticks w4 = w_ticks w3 -> pending w4 = pending w3 /\ forward w4) as Hsleep.
  { intros w4 Ht4. unfold pending, forward. by rewrite Ht4. }
  apply bind_cases in E as [(err & E & ->)|(v & w4 & E4 & E)].
  { rewrite E in Hc3, Ht3. cbn [snd] in Hc3, Ht3. destruct (Hsleep _ Ht3). split; [lia|done]. }
  rewrite E4 in Hc3, Ht3. cbn [snd] in Hc3, Ht3. destruct (Hsleep _ Ht3) as [Hp4 Hf4].
  destruct (IH w4 Hf4) as [IHc IHf]. rewrite E in IHc, IHf. cbn [snd] in IHc, IHf. split; [lia|done].
Qed.

Lemma healthTimeout_nonneg e : 0 <= healthTimeout e.
Proof. unfold healthTimeout. destruct (0 <? HealthTimeout e) eqn:Eh; [by bools; lia|done]. Qed.

(** C39: the health check always ends by itself, in time.  With a clock that does not go back, on
    every machine and under every fault, its loop never needs more rounds than the fuel of the
    model, so more fuel gives the same run; and it ends at most one second after its timeout,
    besides the time that the commands and readings of the clock themselves take. *)
Theorem health_check_ends e name w :
  forward w ->
  (forall k start w1, now w = (Ok start, w1) ->
     health_loop (health_fuel e + k) name (start + healthTimeout e) w1
     = health_loop (health_fuel e) name (start + healthTimeout e) w1)
  /\ w_clock (snd (waitHealthy e name w)) <= w_clock w + healthTimeout e + Second + pending w.
Proof.
  intros Hf. destruct (now_clock w Hf) as (t & w2 & E & _ & Hc & Hf2). pose proof (healthTimeout_nonneg e) as Hh.
  split.
  - intros k start w1 E1. rewrite E in E1. injection E1 as <- <-. unfold health_fuel.
    replace (Z.to_nat (healthTimeout e / Second) + 3)%nat
      with (S (Z.to_nat (healthTimeout e / Second) + 2)) by lia.
    apply health_loop_enough; [done|].
    pose proof (Z.mul_succ_div_gt (healthTimeout e) Second eq_refl).
    pose proof (Z.div_pos (healthTimeout e) Second Hh eq_refl). nia.
  - unfold waitHealthy. rewrite (bind_ok _ _ _ _ _ E). apply now_pending in E as [Hp ->].
    destruct (health_loop_clock (health_fuel e) name (w_clock w2 + healthTimeout e) w2 Hf2) as [Hl Hf'].
    pose proof (pending_nonneg _ Hf'). assert (0 < Second) by (unfold Second, Millisecond; lia). lia.
Qed.
End facts.

#[export] Instance same_except_is_preorder {H} `{!Observation H} names ids :
  PreOrder (same_except (H := H) names ids).
Proof. apply same_except_preorder. Qed.

(** ** Runs on the simulated machine *)

Definition demo : Executor :=
  MkExecutor "/work" "/logs" "minidock" "" "docker" "" "" "" "" "http://caddy" "http://caddy:2019"
    0 "" 0 0 0 0 0.
Definition demo_app (id : Z) (name : string) : Application :=
  MkApplication id name "https://github.com/acme/site" "main" "." "go" "" "" 8080
    (name +:+ ".example.com") "auto" false true false 0 "/healthz" 0.
Definition blog : Application := demo_app 7 "blog".
Definition public_ok : response := Response 200 None (Ok "ok").

(** One release of blog is serving. *)
Definition serving_blog (broken : list string) : machine :=
  Machine {["minidock-blog-candidate" := Container 1 "minidock/blog:1" "10.0.0.1"]}
    {["minidock-app-7" := "10.0.0.1:8080"]} broken public_ok.

Definition run_on (m : machine) (faults : list fault) : world (site machine) :=
  World (Site m [] None) faults 0 [].

Abbreviation start_blog := (Start CaddyProxyAdapter demo blog "minidock/blog:2" ∅).

Lemma deployment_success_witness :
  exists c, c_image c = "minidock/blog:2"
    /\ serves_with blog c "minidock-blog-candidate"
         (site_host (exec start_blog (run_on (serving_blog []) []))).
Proof.
  assert (eval start_blog (run_on (serving_blog []) []) = Ok "minidock/blog:2") as E
    by (vm_compute; reflexivity).
  exact (proj2 (deployment_success _ _ _ _ _ _ E)).
Defined.

Lemma deployment_isolated_witness :
  routes (site_host (exec start_blog (run_on (serving_blog []) [NoFault; FailAfter "x"])))
    !! caddyRouteID 8 = None.
Proof.
  exact (proj2 (deployment_isolated demo blog (demo_app 8 "shop") "minidock/blog:2" ∅
    (run_on (serving_blog []) [NoFault; FailAfter "x"]) "minidock-shop"
    ltac:(done) ltac:(done) eq_refl eq_refl ltac:(by apply list_elem_of_In; left))).
Defined.

Lemma serving_blog_serves broken : serves blog "minidock-blog-candidate" (serving_blog broken).
Proof. eexists. split; reflexivity. Qed.

Lemma reconcile_keeps_candidate_witness :
  serves blog "minidock-blog-candidate"
    (site_host (exec (reconcile_application CaddyProxyAdapter demo blog) (run_on (serving_blog []) []))).
Proof.
  assert (eval (reconcile_application CaddyProxyAdapter demo blog) (run_on (serving_blog []) [])
          = Ok false) as E by (vm_compute; reflexivity).
  assert (eval (dockerContainerExists (candidate_name blog)) (run_on (serving_blog []) []) = Ok true)
    as Es by (vm_compute; reflexivity).
  exact (proj1 (proj2 (reconcile_keeps_candidate demo blog (run_on (serving_blog []) []) false Es E))).
Defined.

(** A machine whose last switch was interrupted after the old release was stopped. *)
Definition interrupted_blog : machine :=
  Machine {["minidock-blog-previous" := Container 1 "minidock/blog:1" "10.0.0.1"]} ∅ [] public_ok.

Lemma reconcile_restores_previous_witness :
  exists c c', containers interrupted_blog !! "minidock-blog-previous" = Some c
    /\ c_id c' = c_id c /\ c_image c' = c_image c
    /\ serves_with blog c' "minidock-blog"
         (site_host (exec (reconcile_application CaddyProxyAdapter demo blog)
                       (run_on interrupted_blog []))).
Proof.
  assert (eval (reconcile_application CaddyProxyAdapter demo blog) (run_on interrupted_blog [])
          = Ok true) as E by (vm_compute; reflexivity).
  exact (reconcile_restores_previous demo blog (run_on interrupted_blog []) E).
Defined.

(** The process dies when it is about to rename the staged container: the rename and
    all that follows never happen. *)
Definition crash_before_rename : list fault :=
  repeat NoFault 12 ++ repeat (FailBefore "killed") 3.
Definition stranded_blog : machine :=
  Machine {["minidock-blog-next" := Container 2 "minidock/blog:2" "10.0.0.2"]} ∅ [] public_ok.

Lemma crash_leaves_next :
  containers (site_host (exec start_blog (run_on (serving_blog []) crash_before_rename)))
  = containers stranded_blog.
Proof. vm_compute. reflexivity. Qed.

Lemma reconcile_ignores_next_witness :
  routes (site_host (exec (reconcile_application CaddyProxyAdapter demo blog) (run_on stranded_blog [])))
    !! "minidock-app-7" = None.
Proof.
  assert (eval (reconcile_application CaddyProxyAdapter demo blog) (run_on stranded_blog [])
          = Ok false) as E by (vm_compute; reflexivity).
  exact (proj2 (proj2 (reconcile_ignores_next demo blog (run_on stranded_blog []) false
           eq_refl eq_refl eq_refl E)) "minidock-app-7").
Defined.

(** Nothing serves an application none of whose colours is dialled. *)
Lemma not_live {H} `{!Observation H} application (h : H) :
  forallb (fun name => match containers h !! name with
                       | None => true
                       | Some c => negb (bool_decide (routes h !! caddyRouteID (a_ID application)
                                                      = Some (upstream application c)))
                       end) (colour_names application) = true ->
  ~ live application h.
Proof.
  rewrite forallb_forall. intros Hall (name & Hn & c & Hc & Hr).
  apply list_elem_of_In in Hn. specialize (Hall name Hn). rewrite Hc, Hr in Hall.
  by rewrite bool_decide_eq_true_2 in Hall.
Qed.

(** One lost answer takes a healthy application down.  Caddy switches to the
    healthy staged container, the read-back of the route is lost, and the failure path
    removes the container Caddy now dials without restoring the old route. *)
Theorem lost_readback_is_an_outage :
  let w := run_on (serving_blog []) (repeat NoFault 7 ++ [FailBefore "timeout"]) in
  live blog (site_host (w_state w))
  /\ eval start_blog w
     = Err (failure "route" "proxy_switch_failed"
              (ErrWrap "read applied Caddy route" (ErrEnv "timeout")))
  /\ routes (site_host (exec start_blog w)) !! "minidock-app-7" = Some "10.0.0.2:8080"
  /\ ~ live blog (site_host (exec start_blog w)).
Proof.
  split; [|split; [vm_compute; reflexivity|split; [vm_compute; reflexivity|]]].
  - exists "minidock-blog-candidate". split; [|apply serving_blog_serves].
    apply list_elem_of_In. simpl. auto.
  - apply not_live. vm_compute. reflexivity.
Qed.

(** One failed [docker container inspect] destroys the serving release.  The failure
    is taken for the absence of the candidate, so the serving container is removed as
    if it were a leftover; a release that then fails its health check leaves nothing. *)
Theorem failed_inspect_is_an_outage :
  let w := run_on (serving_blog ["minidock/blog:2"]) [NoFault; FailBefore "timeout"] in
  live blog (site_host (w_state w))
  /\ eval start_blog w
     = Err (failure "health" "health_check_failed" (ErrMsg "health check failed: unhealthy"))
  /\ containers (site_host (exec start_blog w)) = ∅
  /\ ~ live blog (site_host (exec start_blog w)).
Proof.
  split; [|split; [vm_compute; reflexivity|split; [vm_compute; reflexivity|]]].
  - exists "minidock-blog-candidate". split; [|apply serving_blog_serves].
    apply list_elem_of_In. simpl. auto.
  - apply not_live. vm_compute. reflexivity.
Qed.

(** Without the restriction on names, isolation fails: a deployment of [blog]
    replaces the container of an application named [blog-candidate]. *)
Theorem names_collide :
  let other := demo_app 8 "blog-candidate" in
  let m := Machine {["minidock-blog-candidate" := Container 1 "minidock/other:1" "10.0.0.1"]}
             {["minidock-app-8" := "10.0.0.1:8080"]} [] public_ok in
  safeName (a_Name blog) && safeName (a_Name other) = true
  /\ serves other (container_name other) (site_host (w_state (run_on m [])))
  /\ eval start_blog (run_on m []) = Ok "minidock/blog:2"
  /\ ~ live other (site_host (exec start_blog (run_on m []))).
Proof.
  split; [reflexivity|split; [eexists; split; reflexivity|split; [vm_compute; reflexivity|]]].
  apply not_live. vm_compute. reflexivity.
Qed.

(** After a deployment the controls address a container that no longer exists: the
    live one is the candidate, but start, stop, logs and status use the plain name. *)
Theorem control_misses_live_container :
  let s := w_state (snd (start_blog (run_on (serving_blog []) []))) in
  live blog (site_host s)
  /\ eval (DockerControl demo blog "restart") (World s [] 0 []) = Err (ErrEnv "No such container")
  /\ eval (DockerStatus demo blog) (World s [] 0 []) = Err (ErrEnv "No such container")
  /\ eval (dockerContainerID (container_name blog)) (World s [] 0 []) = Ok "".
Proof.
  split; [|repeat split; vm_compute; reflexivity].
  exists "minidock-blog-candidate". split; [apply list_elem_of_In; simpl; auto|].
  eexists. split; vm_compute; reflexivity.
Qed.

(** ** Witnesses of the proxy's properties *)

Lemma apply_confirmed_witness :
  exists h endpoint r route,
    host_http (read_request endpoint) h
      = (Ok r, site_host (exec (Apply demo blog "10.0.0.9:8080") (run_on (serving_blog []) [])))
    /\ route_of r = Some route
    /\ exists dials, In ("reverse_proxy", dials) route /\ In "10.0.0.9:8080" dials.
Proof.
  assert (eval (Apply demo blog "10.0.0.9:8080") (run_on (serving_blog []) []) = Ok tt) as E
    by (vm_compute; reflexivity).
  destruct (apply_confirmed _ _ _ _ E) as (h & endpoint & r & route & H1 & _ & _ & H2 & H3).
  exists h, endpoint, r, route. exact (conj H1 (conj H2 H3)).
Defined.

Lemma probe_success_witness :
  exists h r, host_http (probe_request demo blog) h
      = (Ok r, site_host (exec (Probe demo blog) (run_on (serving_blog []) [])))
    /\ good_answer demo blog r.
Proof.
  assert (exists p, eval (Probe demo blog) (run_on (serving_blog []) []) = Ok p
            /\ rp_Success p = true) as (p & E & Hp)
    by (eexists; split; vm_compute; reflexivity).
  destruct (probe_success _ _ _ _ E Hp) as (h & r & H1 & H2 & _). exists h, r. exact (conj H1 H2).
Defined.

Lemma probe_returns_witness :
  exists p, eval (Probe demo blog) (run_on (serving_blog []) [FailBefore "refused"]) = Ok p.
Proof. exact (probe_returns demo blog (run_on (serving_blog []) [FailBefore "refused"]) (Forall_nil_2 _)). Defined.

Lemma health_check_ends_witness :
  let w := World (Site (serving_blog ["minidock/blog:1"]) [] None) [] 0 [Second; Second; 2 * Second] in
  w_clock (snd (waitHealthy demo "minidock-blog-candidate" w)) <= 0 + healthTimeout demo + Second + 4 * Second.
Proof.
  intros w. refine (proj2 (health_check_ends demo "minidock-blog-candidate" w _)).
  repeat constructor; vm_compute; discriminate.
Defined.

Lemma no_second_mutation_witness :
  is_ok (eval (Apply demo blog "refused:1") (run_on (serving_blog []) [])) = false.
Proof.
  refine (proj1 (no_second_mutation demo blog "refused:1" (run_on (serving_blog []) [])
    (Response 500 None (Ok "")) (serving_blog []) eq_refl _ _ eq_refl _)); [done| |done].
  intros endpoint. reflexivity.
Defined.
