(* ===== verification/NoDowntime.v ===== *)
(** * The application stays up while a release is switched

    [BlueGreenFacts] shows what a switch leaves under every fault.  This file adds what the
    failure paths of [switch_route] restore when nothing fails but the release itself: the
    machine answers its commands ([Answers]), and the upstream of the serving container is put
    back when the public route of the new one is not confirmed. *)

From S2P Require Import Prelude GoStrings Json Net Host Templates StoreTypes Executor.
From S2P Require Import Proxy BlueGreen Engine BlueGreenFacts.

(** A machine that answers: status questions about a container that exists succeed, and the
    admin API answers every request, with whatever status. *)
Class Answers (H : Type) `{!Host H, !Observation H} : Prop := {
  answers_inspect : forall name h, is_Some (containers h !! name) ->
    exists out, succeeded_with (fst (host_exec (docker_command (inspect_args name)) h)) out;
  answers_address : forall name h, is_Some (containers h !! name) ->
    exists out, succeeded_with (fst (host_exec (docker_command (address_args name)) h)) out;
  answers_admin : forall method endpoint application target h,
    is_ok (fst (host_http (admin_request method endpoint (caddy_route application target)) h)) = true }.

Section facts.
Context {H : Type} `{!Host H, !Observation H, !Engine H, !Answers H}.
Implicit Types (h : H) (w : world (site H)).
Abbreviation host_of w := (site_host (w_state w)).

(** ** Without faults *)

Lemma faultless_docker_output args : faultless (docker_output (H := H) args).
Proof. apply faultless_step. Qed.
Lemma faultless_http rq : faultless (http (H := H) rq).
Proof. apply faultless_step. Qed.
Lemma faultless_track f : faultless (track (H := H) f).
Proof. by intros w. Qed.
Lemma faultless_say line : faultless (say (H := H) line).
Proof. by intros w. Qed.
Lemma faultless_sleep d : faultless (sleep (S := site H) d).
Proof. intros w Hw. unfold sleep, next_fault. by rewrite Hw. Qed.

Ltac faultless :=
  repeat lazymatch goal with
  | |- faultless (host_step _) => refine (faultless_step _)
  | |- faultless (docker_output _) => refine (faultless_step _)
  | |- faultless (http _) => refine (faultless_step _)
  | |- faultless (say _) => refine (faultless_say _)
  | |- faultless (track _) => refine (faultless_track _)
  | |- faultless (OnStageChange _) => refine (faultless_track _)
  | |- faultless (OnEvent _ _ _) => refine (faultless_track _)
  | |- faultless (sleep _) => refine (faultless_sleep _)
  | |- faultless (or_failure _ _ _) => unfold or_failure
  | |- faultless (time_since _) => unfold time_since
  | |- faultless (docker _) => unfold docker, run, runWithEnv
  | |- _ => faultless_step
  end.

Lemma faultless_health_loop fuel name deadline : faultless (health_loop (H := H) fuel name deadline).
Proof. induction fuel as [|fuel IH]; simpl; [faultless|]. unfold health_round. cbv zeta. faultless. exact IH. Qed.

Lemma faultless_probe_loop fuel e application deadline probe lastErr :
  faultless (probe_loop (H := H) fuel e application deadline probe lastErr).
Proof.
  revert probe lastErr. induction fuel as [|fuel IH]; intros probe lastErr; simpl; [faultless|].
  unfold probe_round. cbv zeta. faultless. apply IH.
Qed.

Lemma faultless_verify_route baseURL path target : faultless (verifyRouteTarget (H := H) baseURL path target).
Proof. unfold verifyRouteTarget. faultless. Qed.

Lemma faultless_apply e application target : faultless (Apply (H := H) e application target).
Proof. unfold Apply, UpsertRoute. cbv zeta. faultless; apply faultless_verify_route. Qed.

Lemma faultless_verify e application : faultless (Verify (H := H) e application).
Proof. unfold Verify, Probe. faultless. apply faultless_probe_loop. Qed.

Lemma faultless_exists name : faultless (dockerContainerExists (H := H) name).
Proof. unfold dockerContainerExists. faultless. Qed.

Lemma faultless_target name port : faultless (dockerContainerTarget (H := H) name port).
Proof. unfold dockerContainerTarget. cbv zeta. faultless. Qed.

Lemma faultless_stage e application image environment staging :
  faultless (stage_candidate (H := H) e application image environment staging).
Proof.
  unfold stage_candidate, runDockerContainer, runtimeEnvFile, removeRuntimeEnvFile, waitHealthy. cbv zeta.
  faultless; apply faultless_health_loop.
Qed.

(** ** What a quiet machine answers *)

Lemma calm_step {A} (f : H -> result A * H) w r h' :
  w_faults w = [] -> f (host_of w) = (r, h') ->
  exists w', host_step f w = (r, w') /\ host_of w' = h' /\ w_faults w' = [].
Proof.
  intros Hw E. unfold host_step, step, step_with, next_fault, on_host. rewrite Hw, E. by eexists.
Qed.

Lemma calm_output args w out :
  w_faults w = [] -> succeeded_with (fst (host_exec (docker_command args) (host_of w))) out ->
  exists w', docker_output args w = (Ok out, w') /\ w_faults w' = [].
Proof.
  intros Hw Hs. destruct (host_exec (docker_command args) (host_of w)) as [r h'] eqn:E. simpl in Hs.
  destruct (calm_step (fun h => let '(r, h') := host_exec (docker_command args) h in
              (f ← r; command_result f, h')) w (Ok out) h' Hw) as (w' & E' & _ & Hw').
  { rewrite E. by rewrite Hs. }
  by exists w'.
Qed.

Lemma calm_exists name w :
  w_faults w = [] -> is_Some (containers (host_of w) !! name) ->
  exists w', dockerContainerExists name w = (Ok true, w').
Proof.
  intros Hw (out & Hs)%answers_inspect. destruct (calm_output _ _ _ Hw Hs) as (w' & E & _).
  unfold dockerContainerExists. rewrite (bind_ok _ _ w (Ok out) w'); [by exists w'|].
  unfold attempt. by rewrite E.
Qed.

(** The port of an application whose staging container had an address. *)
Definition valid_port (application : Application) : Prop :=
  1 <= a_InternalPort application <= 65535.

Lemma target_port name application w target w' :
  dockerContainerTarget name (a_InternalPort application) w = (Ok target, w') -> valid_port application.
Proof. unfold dockerContainerTarget, valid_port. destruct (_ || _) eqn:E; [done|]. intros _. bools. lia. Qed.

Lemma calm_target name application w c :
  w_faults w = [] -> containers (host_of w) !! name = Some c -> valid_port application ->
  is_ip (address c) = true ->
  exists w', dockerContainerTarget name (a_InternalPort application) w = (Ok (upstream application c), w').
Proof.
  intros Hw Hc Hp Hip. destruct (answers_address name (host_of w) ltac:(by eexists)) as (out & Hs).
  destruct (calm_output _ _ _ Hw Hs) as (w' & E & _). exists w'. unfold dockerContainerTarget, valid_port in *.
  replace (a_InternalPort application <? 1) with false by (symmetry; apply Z.ltb_ge; lia).
  replace (65535 <? a_InternalPort application) with false by (symmetry; apply Z.ltb_ge; lia).
  cbn [orb]. rewrite (bind_ok _ _ _ _ _ (catch_ok _ _ _ _ _ E)). cbv zeta.
  apply exec_address in Hs as (c' & Hc' & Ea). assert (c' = c) as -> by congruence.
  rewrite Ea, Hip. done.
Qed.

(** ** Routes *)

Lemma trim_left_blank p s : all_string p (trim_left p s) = true -> all_string p s = true.
Proof. induction s as [|c s IH]; simpl; [done|]. destruct (p c) eqn:E; simpl; [auto|]. by rewrite E. Qed.

Lemma trim_blank p s : trim p s = "" -> all_string p s = true.
Proof.
  intros E. apply trim_left_blank. revert E. unfold trim. induction (trim_left p s) as [|c t IH]; simpl; [done|].
  destruct (trim_right p t); [|done]. destruct (p c); [|done]. simpl. auto.
Qed.

(** An upstream is never blank. *)
Lemma upstream_solid application c : (trim_space (upstream application c) =? "")%string = false.
Proof.
  apply String.eqb_neq. intros E%trim_blank. revert E. unfold upstream, JoinHostPort.
  destruct (contains _ _); rewrite ?all_string_append; simpl; [done|]. by rewrite andb_false_r.
Qed.

(** An error of the read-back of an applied route. *)
Definition unconfirmed (cause : error) : bool :=
  existsb (has_prefix (error_message cause))
    ["read applied Caddy route"; "decode applied Caddy route"; "Caddy route did not retain candidate upstream "].

Lemma verify_route_err baseURL path target endpoint w err w' :
  (if has_prefix path "/" then caddy_endpoint baseURL path else Ok path) = Ok endpoint ->
  verifyRouteTarget baseURL path target w = (Err err, w') -> unconfirmed err = true.
Proof.
  unfold verifyRouteTarget. intros -> E. rewrite (bind_ok _ _ w endpoint w) in E by done.
  apply bind_cases in E as [(err' & E & [= ->])|(r & w1 & _ & E)].
  { apply catch_cases in E as [(? & _ & [=])|(e' & w1 & _ & [= <- _])]. done. }
  destruct (negb (status_ok r)); [by injection E as <- _|].
  destruct (route_of r); [|by injection E as <- _].
  destruct (dials _ _); [done|by injection E as <- _].
Qed.

(** A request to the admin API is answered: accepted it changes the route, refused nothing. *)
Lemma calm_admin method endpoint application target w :
  w_faults w = [] -> method = "PATCH" \/ method = "POST" ->
  exists r w1, http (admin_request method endpoint (caddy_route application target)) w = (Ok r, w1)
    /\ w_faults w1 = []
    /\ routes (host_of w1) = if status_ok r then <[caddyRouteID (a_ID application) := target]> (routes (host_of w))
                              else routes (host_of w).
Proof.
  intros Hw Hm. pose proof (answers_admin method endpoint application target (host_of w)) as Ha.
  pose proof (http_route method endpoint application target (host_of w) Hm) as Hr.
  destruct (host_http _ (host_of w)) as [[r|err] h'] eqn:E; [|done]. destruct Hr as (_ & Hok & Hno).
  destruct (calm_step _ _ _ _ Hw E) as (w1 & E1 & <- & Hw1). exists r, w1.
  split; [done|]. split; [done|]. destruct (status_ok r) eqn:Es; [by apply (Hok r)|by apply (Hno r)].
Qed.

(** A refused switch changed no route; an accepted one that fails was not confirmed. *)
Lemma apply_refused e application target w err w' :
  w_faults w = [] -> Apply e application target w = (Err err, w') ->
  routes (host_of w') = routes (host_of w) \/ unconfirmed err = true.
Proof.
  intros Hw. unfold Apply. destruct (trim_space target =? "")%string; [intros [= _ <-]; by left|].
  unfold UpsertRoute. intros E.
  apply bind_cases in E as [(? & E & _)|(endpoint & w1 & E1 & E)]; [injection E as _ <-; by left|].
  injection E1 as E1 <-. destruct (calm_admin "PATCH" endpoint application target w Hw (or_introl eq_refl))
    as (r & w2 & E2 & Hw2 & Hr).
  rewrite (bind_ok _ _ _ _ _ (catch_ok _ _ _ _ _ E2)) in E. destruct (status_ok r).
  { right. refine (verify_route_err _ _ _ endpoint _ _ _ _ E). by rewrite (caddy_endpoint_absolute _ _ _ E1). }
  destruct (negb (rs_status r =? 404)); [injection E as _ <-; by left|].
  apply bind_cases in E as [(? & E & _)|(endpoint' & w3 & E3 & E)]; [injection E as _ <-; by left|].
  injection E3 as _ <-. destruct (calm_admin "POST" endpoint' application target w2 Hw2 (or_intror eq_refl))
    as (r' & w4 & E4 & _ & Hr').
  rewrite (bind_ok _ _ _ _ _ (catch_ok _ _ _ _ _ E4)) in E.
  destruct (status_ok r'); [|injection E as _ <-; left; congruence].
  right. refine (verify_route_err _ _ _ endpoint _ _ _ _ E). exact E1.
Qed.

Lemma apply_endpoint e application target w u w' :
  Apply e application target w = (Ok u, w') ->
  exists endpoint, caddy_endpoint (CaddyAdminURL e) ("/id/" +:+ caddyRouteID (a_ID application)) = Ok endpoint.
Proof.
  unfold Apply. destruct (trim_space target =? "")%string; [done|]. unfold UpsertRoute.
  intros (endpoint & w1 & E & _)%bind_run. injection E as E _. by exists endpoint.
Qed.

(** Caddy takes an upstream for a route it has. *)
Definition accepts (application : Application) (target : string) : Prop :=
  forall endpoint h, is_Some (routes h !! caddyRouteID (a_ID application)) ->
    exists r, fst (host_http (admin_request "PATCH" endpoint (caddy_route application target)) h) = Ok r
              /\ status_ok r = true.

(** Putting an accepted upstream back works, whether or not its read-back does. *)
Lemma apply_restores e application c endpoint w r w' :
  w_faults w = [] -> is_Some (routes (host_of w) !! caddyRouteID (a_ID application)) ->
  accepts application (upstream application c) ->
  caddy_endpoint (CaddyAdminURL e) ("/id/" +:+ caddyRouteID (a_ID application)) = Ok endpoint ->
  Apply e application (upstream application c) w = (r, w') ->
  routes (host_of w') !! caddyRouteID (a_ID application) = Some (upstream application c).
Proof.
  intros Hw Hr Ha He E. unfold Apply in E. rewrite upstream_solid in E. unfold UpsertRoute in E.
  rewrite (bind_ok _ _ w endpoint w) in E by (by rewrite He).
  destruct (calm_admin "PATCH" endpoint application (upstream application c) w Hw (or_introl eq_refl))
    as (r2 & w2 & E2 & _ & Hr2).
  rewrite (bind_ok _ _ _ _ _ (catch_ok _ _ _ _ _ E2)) in E.
  destruct (Ha endpoint _ Hr) as (r3 & E3 & Hs). apply http_run in E2. rewrite E2 in E3. simpl in E3.
  injection E3 as ->. rewrite Hs in E, Hr2.
  destruct (same_except_nil _ _ (evolves_pair _ _ _ _ _ (touch_verify_route [] [] _ _ _) E)) as [_ ->].
  rewrite Hr2. apply lookup_insert_eq.
Qed.

(** ** The failure paths of the switch *)

(** The switch of a route Caddy accepted whose read-back did not confirm it: the one failure
    after which [Start] removes the container Caddy dials. *)
Definition unconfirmed_switch (err : error) : Prop :=
  exists cause, err = failure "route" "proxy_switch_failed" cause /\ unconfirmed cause = true.

Lemma rm_keeps_serving application c active staging w r w' :
  active <> staging -> serves_with application c active (host_of w) ->
  ignore (docker (remove_args staging)) w = (r, w') -> serves_with application c active (host_of w').
Proof.
  intros Hne Hs E. refine (serves_same application c active _ _ [staging] (_ : on_machine _ _ _) _ Hs).
  - refine (evolves_pair _ _ _ _ _ (evolves_ignore _ _ (touch_remove _ _ _ _)) E). by apply list_elem_of_singleton.
  - by intros ->%list_elem_of_singleton.
Qed.

(** The handler of a failed verification puts the serving container back. *)
Lemma restore_serves e application c active staging endpoint err w r w' :
  w_faults w = [] -> active <> staging -> valid_port application -> is_ip (address c) = true ->
  containers (host_of w) !! active = Some c -> is_Some (routes (host_of w) !! caddyRouteID (a_ID application)) ->
  accepts application (upstream application c) ->
  caddy_endpoint (CaddyAdminURL e) ("/id/" +:+ caddyRouteID (a_ID application)) = Ok endpoint ->
  (present ← dockerContainerExists active;
   (if (present : bool) then
      oldTarget ← attempt (dockerContainerTarget active (a_InternalPort application));
      match oldTarget with
      | Ok old => ignore (px_Apply CaddyProxyAdapter e application old)
      | Err _ => mret tt
      end
    else mret tt) ;;
   ignore (docker (remove_args staging)) ;;
   fail (failure "route" "proxy_validation_failed" err) : EM H unit) w = (r, w') ->
  serves_with application c active (host_of w').
Proof.
  intros Hw Hne Hp Hip Hc Hr Ha He E.
  destruct (calm_exists active w Hw ltac:(by eexists)) as (w1 & E1).
  rewrite (bind_ok _ _ _ _ _ E1) in E.
  pose proof (faultless_pair _ _ _ _ (faultless_exists _) E1 Hw) as Hw1.
  destruct (same_except_nil _ _ (evolves_pair _ _ _ _ _ (touch_exists [] [] _) E1)) as [Hc1 Hr1].
  destruct (calm_target active application w1 c Hw1 ltac:(by rewrite Hc1) Hp Hip) as (w2 & E2).
  pose proof (faultless_pair _ _ _ _ (faultless_target _ _) E2 Hw1) as Hw2.
  destruct (same_except_nil _ _ (evolves_pair _ _ _ _ _ (touch_target [] [] _ _) E2)) as [Hc2 Hr2].
  cbv iota in E. apply bind_cases in E as [(? & E & _)|(u & w3 & E3 & E)].
  { rewrite (bind_ok _ _ w1 (Ok (upstream application c)) w2) in E; [|unfold attempt; by rewrite E2].
    unfold ignore in E. by destruct (px_Apply _ _ _ _ _). }
  rewrite (bind_ok _ _ w1 (Ok (upstream application c)) w2) in E3; [|unfold attempt; by rewrite E2].
  unfold ignore in E3. destruct (px_Apply _ _ _ _ w2) as [r3 w3'] eqn:E4. injection E3 as _ <-.
  cbn [px_Apply CaddyProxyAdapter] in E4.
  assert (serves_with application c active (host_of w3')) as Hs.
  { split.
    - rewrite (proj1 (evolves_pair _ _ _ _ _ (touch_apply [] [caddyRouteID (a_ID application)] _ _ _
        (proj2 (list_elem_of_singleton _ _) eq_refl)) E4) active (not_elem_of_nil _)). by rewrite Hc2, Hc1.
    - refine (apply_restores _ _ _ _ _ _ _ Hw2 _ Ha He E4). by rewrite Hr2, Hr1. }
  apply bind_cases in E as [(? & E & _)|(u5 & w5 & E5 & E)].
  - exact (rm_keeps_serving _ _ _ _ _ _ _ Hne Hs E).
  - injection E as _ <-. exact (rm_keeps_serving _ _ _ _ _ _ _ Hne Hs E5).
Qed.

Lemma switch_restores e application c active staging w err w' :
  w_faults w = [] -> active <> staging -> is_ip (address c) = true ->
  serves_with application c active (host_of w) -> accepts application (upstream application c) ->
  switch_route CaddyProxyAdapter e application active staging w = (Err err, w') ->
  serves_with application c active (host_of w') \/ unconfirmed_switch err.
Proof.
  intros Hw Hne Hip Hs Ha E. unfold switch_route in E.
  apply bind_cases in E as [(? & E & _)|(? & w1 & E1 & E)]; [done|].
  apply bind_cases in E as [(? & E & _)|(? & w2 & E2 & E)]; [done|].
  assert (host_of w2 = host_of w /\ w_faults w2 = []) as [H2 Hw2].
  { injection E1 as _ <-. by injection E2 as _ <-. }
  clear E1 E2. apply bind_cases in E as [(? & E & _)|(start & w3 & E3 & E)].
  { unfold now in E. by destruct (w_ticks _). }
  pose proof (faultless_pair _ _ _ _ faultless_now E3 Hw2) as Hw3. apply now_run in E3.
  assert (serves_with application c active (host_of w3)) as Hs3 by (rewrite E3; congruence).
  apply bind_cases in E as [(? & E & _)|(target & w4 & E4 & E)].
  { left. apply catch_cases in E as [(? & _ & [=])|(? & w4 & E & [= _ <-])].
    destruct (same_except_nil _ _ (evolves_pair _ _ _ _ _ (touch_target [] [] _ _) E)) as [Hc Hr].
    split; [rewrite Hc|rewrite Hr]; apply Hs3. }
  apply catch_cases in E4 as [(? & E4 & [= <-])|(? & ? & _ & [=])].
  pose proof (target_port _ _ _ _ _ E4) as Hp.
  pose proof (faultless_pair _ _ _ _ (faultless_target _ _) E4 Hw3) as Hw4.
  destruct (same_except_nil _ _ (evolves_pair _ _ _ _ _ (touch_target [] [] _ _) E4)) as [Hc4 Hr4].
  apply bind_cases in E as [(? & E & _)|(? & w5 & E5 & E)]; [done|].
  assert (host_of w5 = host_of w4 /\ w_faults w5 = []) as [H5 Hw5] by (by injection E5 as _ <-). clear E5.
  assert (serves_with application c active (host_of w5)) as Hs5.
  { rewrite H5. split; [rewrite Hc4|rewrite Hr4]; apply Hs3. }
  cbn [px_Apply px_Verify CaddyProxyAdapter] in E.
  assert (forall r w6, Apply e application target w5 = (r, w6) ->
    containers (host_of w6) !! active = Some c /\ w_faults w6 = []) as Hkeep.
  { intros r w6 E6. split; [|exact (faultless_pair _ _ _ _ (faultless_apply _ _ _) E6 Hw5)].
    rewrite (proj1 (evolves_pair _ _ _ _ _ (touch_apply [] [caddyRouteID (a_ID application)] _ _ _
      (proj2 (list_elem_of_singleton _ _) eq_refl)) E6) active (not_elem_of_nil _)). apply Hs5. }
  apply bind_cases in E as [(? & E & [= <-])|(? & w6 & E6 & E)].
  { apply catch_cases in E as [(? & _ & [=])|(cause & w6 & E6 & E)].
    destruct (Hkeep _ _ E6) as [Hc6 _]. destruct (apply_refused _ _ _ _ _ _ Hw5 E6) as [Hr6|Hu].
    - left. assert (serves_with application c active (host_of w6)) as Hs6
        by (split; [done|rewrite Hr6; apply Hs5]).
      apply bind_cases in E as [(? & E & _)|(? & w7 & E7 & E)].
      + exact (rm_keeps_serving _ _ _ _ _ _ _ Hne Hs6 E).
      + injection E as _ <-. exact (rm_keeps_serving _ _ _ _ _ _ _ Hne Hs6 E7).
    - right. apply bind_cases in E as [(? & E & _)|(? & w7 & E7 & E)].
      + unfold ignore in E. by destruct (docker _ _).
      + injection E as <- _. by exists cause. }
  apply catch_cases in E6 as [(? & E6 & _)|(? & ? & _ & E6)];
    [|by apply bind_run in E6 as (? & ? & _ & [=])].
  destruct (Hkeep _ _ E6) as [Hc6 Hw6]. destruct (apply_endpoint _ _ _ _ _ _ E6) as [endpoint He].
  apply apply_ok_route in E6. left.
  apply bind_cases in E as [(? & E & _)|(? & w7 & _ & E)].
  - apply catch_cases in E as [(? & _ & [=])|(cause & w7 & E7 & E)].
    pose proof (faultless_pair _ _ _ _ (faultless_verify _ _) E7 Hw6) as Hw7.
    destruct (same_except_nil _ _ (evolves_pair _ _ _ _ _ (touch_verify [] [] _ _) E7)) as [Hc7 Hr7].
    refine (restore_serves _ _ _ _ _ _ _ _ _ _ Hw7 Hne Hp Hip _ _ Ha He E); [by rewrite Hc7|].
    rewrite Hr7, E6. by eexists.
  - exfalso. apply bind_cases in E as [(? & E & _)|(? & ? & _ & E)]; [|apply bind_cases in E as [(? & E & _)|(? & ? & _ & E)]].
    + unfold time_since in E. apply bind_cases in E as [(? & E & _)|(? & ? & _ & [=])].
      unfold now in E. by destruct (w_ticks _).
    + done.
    + done.
Qed.
End facts.

(** C9: no downtime.  [Start] has found which colour serves ([failed_inspect_is_an_outage] shows
    what a failed inspection does before that), and replaces it.  Whatever fails and wherever the process stops, the application is served at the end by
    one of its containers, unless the proxy itself reported a failure of the switch or of
    its verification.  And where nothing fails but the release itself (the machine answers
    its commands, Caddy takes back the upstream it had), it is served after such a failure
    too: a refused switch leaves the serving container routed, and a failed verification
    puts it back.  The one exception is a switch that Caddy accepted and then did not
    confirm when it was read back. *)
Theorem no_downtime {H} `{!Host H, !Observation H, !Engine H} e application image environment flag
    active staging c (w : world (site H)) :
  colours application flag = (active, staging) ->
  serves_with application c active (site_host (w_state w)) ->
  let m := replace_colour CaddyProxyAdapter e application image environment flag in
  (live application (site_host (exec m w)) \/ exists err, eval m w = Err err /\ proxy_failure err)
  /\ (Answers H -> w_faults w = [] -> is_ip (address c) = true ->
      accepts application (upstream application c) ->
      live application (site_host (exec m w)) \/ exists err, eval m w = Err err /\ unconfirmed_switch err).
Proof.
  intros Ec Hs m. pose proof (served_or_reported e application image environment flag _ _ w Ec
    ltac:(by exists c)) as Hany.
  split; [exact Hany|]. intros Hans Hw Hip Ha. fold m in Hany.
  destruct Hany as [Hl|(err & E & Hp)]; [by left|]. pose proof (colours_distinct _ _ _ _ Ec) as Hne.
  assert (active ∈ colour_names application) as Hin.
  { unfold colours in Ec. destruct flag; injection Ec as <- <-; unfold colour_names; set_solver. }
  revert E. unfold exec, eval. destruct (m w) as [r w'] eqn:E. simpl. intros ->.
  unfold m, replace_colour in E. rewrite Ec in E.
  assert (active ∉ [staging]) as Hn by set_solver.
  pose proof (touch_stage [staging] [] e application image environment staging
                (proj2 (list_elem_of_singleton _ _) eq_refl)) as Hstage.
  apply bind_cases in E as [(err' & E & _)|(u & w1 & E1 & E)].
  { left. eapply serves_with_live; [exact Hin|].
    exact (serves_same _ _ _ _ _ _ (evolves_pair _ _ _ _ _ Hstage E) Hn Hs). }
  pose proof (serves_same _ _ _ _ _ _ (evolves_pair _ _ _ _ _ Hstage E1) Hn Hs) as Hs1.
  pose proof (faultless_pair _ _ _ _ (faultless_stage _ _ _ _ _) E1 Hw) as Hw1.
  apply bind_cases in E as [(err' & E & [= <-])|(u2 & w2 & E2 & E)].
  { destruct (switch_restores _ _ _ _ _ _ _ _ Hw1 Hne Hip Hs1 Ha E) as [Hs'|Hu].
    - left. exact (serves_with_live _ _ _ _ Hin Hs').
    - right. by exists err. }
  apply switch_ok in E2 as [_ (c' & Hc' & Hr')].
  apply bind_cases in E as [(err' & E & _)|(u3 & w3 & _ & E)]; [|done].
  left. assert (staging ∈ colour_names application /\ candidate_name application ∈ colour_names application) as [].
  { unfold colours in Ec. destruct flag; injection Ec as <- <-; unfold colour_names; set_solver. }
  destruct (retire_serves _ c' _ _ _ _ _ E Hne (conj Hc' Hr')) as [[Hl|Hl] _];
    by (eapply serves_with_live; [|exact Hl]).
Qed.

(** ** A failed verification on the simulated machine *)

#[export] Instance machine_answers : Answers machine.
Proof.
  split.
  - intros name h [c Hc]. exists name. cbn in *. unfold on_container. by rewrite Hc.
  - intros name h [c Hc]. exists (c_ip c). cbn in *. unfold on_container. by rewrite Hc.
  - intros method endpoint application target h. cbn [host_http machine_host]. unfold sim_http.
    cbn [rq_body admin_request]. rewrite route_identity_caddy.
    destruct (contains _ _); [done|]. by destruct (_ && _).
Qed.

Lemma sim_accepts application target :
  contains target "refused" = false -> accepts (H := machine) application target.
Proof.
  intros Ht endpoint h [dial Hd]. cbn [host_http machine_host]. unfold sim_http.
  cbn [rq_body admin_request]. rewrite route_identity_caddy, Ht. cbn [rq_method].
  rewrite bool_decide_eq_false_2 by (intros E; simpl in Hd; congruence).
  by eexists.
Qed.

(** The new release answers 502 through the proxy. *)
Definition bad_release : machine :=
  Machine (m_containers (serving_blog [])) (m_routes (serving_blog [])) [] (Response 502 None (Ok "")).
Definition blog_container : container := Container 1 "minidock/blog:1" "10.0.0.1".

Lemma no_downtime_witness :
  let m := replace_colour CaddyProxyAdapter demo blog "minidock/blog:2" ∅ true in
  let w := run_on bad_release [] in
  is_ok (eval m w) = false
  /\ (live blog (site_host (exec m w)) \/ exists err, eval m w = Err err /\ unconfirmed_switch err).
Proof.
  split; [vm_compute; reflexivity|].
  exact (proj2 (no_downtime demo blog "minidock/blog:2" ∅ true _ _ blog_container (run_on bad_release [])
    eq_refl (conj eq_refl eq_refl)) machine_answers eq_refl eq_refl (sim_accepts blog "10.0.0.1:8080" eq_refl)).
Defined.
