(* ===== verification/Release.v ===== *)
(** * Building and starting a release (internal/deploy/executor.go: Deploy, Rollback)

    Runtime adapters and their selection, local sources, GitHub credentials, the source
    tree and its evidence, the image build, and the start through the adapter.  [Deploy]
    returns its partial result together with its error, as the code does. *)

From S2P Require Import Prelude GoStrings Json Net Base64 Host Templates Detect.
From S2P Require Import StoreTypes Executor Proxy BlueGreen.

Section release.
Context {H : Type} `{!Host H}.
(** [crypto/sha256] in hexadecimal; parsing an RSA key and signing with it. *)
Context (sha256 : string -> string) (Key : Type) (parseRSAPrivateKey : string -> result Key)
  (SignPKCS1v15 : Key -> string -> result string).
(** [Executor.Adapters] and [Executor.Proxy]; empty and [None] select the built-in ones. *)
Context (adapterOverride : gmap string (RuntimeAdapter H)) (proxyOverride : option (ProxyAdapter H)).

Definition proxy : ProxyAdapter H := default CaddyProxyAdapter proxyOverride.

Definition adapters : gmap string (RuntimeAdapter H) :=
  if bool_decide (map_to_list adapterOverride = []) then
    <["docker" := DockerAdapter proxy]> {["apple" := AppleContainerAdapter]}
  else adapterOverride.

Definition SupportsRuntime (name : string) : bool := bool_decide (is_Some (adapters !! name)).

(** ** Runtime diagnostics *)

Definition hasContainerKernel (root : string) : EM H bool :=
  entries ← attempt (host_step (host_read_dir (Join root "kernels")));
  mret (match entries with Ok (_ :: _) => true | _ => false end).

(** [exec.Command(...).CombinedOutput()]: the output and whether it failed. *)
Definition combined_output (name : string) (args : list string) : EM H (string * option error) :=
  finished ← attempt (host_step (host_exec (Command name [] args)));
  mret (match finished with
        | Ok f => (fin_output f, ErrEnv <$> fin_error f)
        | Err err => ("", Some err)
        end).

Definition appleRuntimeDiagnostic : EM H RuntimeDiagnostic :=
  path ← attempt (host_step (host_look_path "container"));
  match path with
  | Err _ => mret (MkRuntimeDiagnostic "apple" "Apple Container no está instalado." "" false false)
  | Ok path =>
    '(output, err) ← combined_output path ["system"; "status"];
    match err with
    | Some _ => mret (MkRuntimeDiagnostic "apple" "Apple Container está instalado, pero aún no está preparado. Inicia su servicio; si solicita un kernel predeterminado, completa esa instalación." "container system start" true false)
    | None =>
      let root := containerAppRoot output in
      kernel ← (if (root =? "")%string then mret false else hasContainerKernel root);
      if negb kernel
      then mret (MkRuntimeDiagnostic "apple" "Apple Container está activo, pero no tiene un kernel predeterminado. Configúralo antes de desplegar." "container system kernel set --recommended" true false)
      else mret (MkRuntimeDiagnostic "apple" "Apple Container está listo." "" true true)
    end
  end.

Definition runtimeDiagnostic (name command : string) (arguments : list string) (setup label : string)
    : EM H RuntimeDiagnostic :=
  path ← attempt (host_step (host_look_path command));
  match path with
  | Err _ => mret (MkRuntimeDiagnostic name (label +:+ " no está instalado.") "" false false)
  | Ok path =>
    '(output, err) ← combined_output path arguments;
    match err with
    | None => mret (MkRuntimeDiagnostic name (label +:+ " está listo.") "" true true)
    | Some _ =>
      let detail := trim_space output in
      mret (MkRuntimeDiagnostic name
              (if (detail =? "")%string then label +:+ " no responde." else detail) setup true false)
    end
  end.

Definition RuntimeDiagnostics : EM H (list RuntimeDiagnostic) :=
  apple ← appleRuntimeDiagnostic;
  docker ← runtimeDiagnostic "docker" "docker" ["info"] "" "Docker";
  mret [apple; docker].

Definition Available : EM H (gmap string bool) :=
  diagnostics ← RuntimeDiagnostics;
  mret (foldl (fun m d => <[rd_Name d := rd_Ready d]> m)
          (<["docker" := false]> {["apple" := false]}) diagnostics).

Definition DockerProxyConfigured : EM H unit :=
  environment ← query (fun s => Ok (host_getenv "MINIDOCK_ENVIRONMENT" (site_host s)));
  if (environment =? "development")%string then mret tt else
  host ← query (fun s => Ok (trim_space (host_getenv "DOCKER_HOST" (site_host s))));
  if negb (has_prefix host "tcp://")
  then fail (ErrMsg "DOCKER_HOST must point to the private Docker socket proxy using tcp://") else
  socket ← attempt (host_step (host_is_socket "/var/run/docker.sock"));
  match socket with
  | Ok true => fail (ErrMsg "raw Docker socket is present; remove the mount and use the socket proxy")
  | _ => mret tt
  end.

Definition DockerReady : EM H unit :=
  DockerProxyConfigured ;;
  '(output, err) ← combined_output "docker" ["info"];
  match err with
  | None => mret tt
  | Some err =>
    let detail := trim_space output in
    let detail := if (detail =? "")%string then error_message err else detail in
    fail (ErrMsg ("Docker socket or daemon is not usable: " +:+ detail))
  end.

(** ** Selecting the adapter *)

(** [Executor.runtime]: every configured adapter counts as available. *)
Definition runtime (e : Executor) (application : Application) : EM H string :=
  let wanted := a_Runtime application in
  let wanted := if (wanted =? "")%string || (wanted =? "auto")%string then Runtime e else wanted in
  let wanted := if (wanted =? "")%string then "auto" else wanted in
  available ← Available;
  lift (selectRuntime wanted (((fun _ => true) <$> adapters) ∪ available)).

Definition adapter (e : Executor) (application : Application) : EM H (RuntimeAdapter H) :=
  name ← runtime e application;
  match adapters !! name with
  | Some adapter => mret adapter
  | None => fail (ErrMsg ("runtime adapter " +:+ quote name +:+ " is not configured"))
  end.

Definition Control (e : Executor) (application : Application) (action : string) : EM H unit :=
  if negb ((action =? "start")%string || (action =? "stop")%string || (action =? "restart")%string)
  then fail (ErrMsg "invalid action") else
  adapter ← adapter e application; ra_Control adapter e application action.

Definition Logs (e : Executor) (application : Application) : EM H unit :=
  adapter ← adapter e application; ra_Logs adapter e application.

Definition Status (e : Executor) (application : Application) : EM H ContainerStatus :=
  adapter ← adapter e application; ra_Status adapter e application.

Definition RemoveImage (e : Executor) (application : Application) (image : string) : EM H unit :=
  adapter ← adapter e application; ra_RemoveImage adapter e application image.

(** ** Local repositories *)

Definition LocalRepositoryPath (root repository : string) : EM H string :=
  if (root =? "")%string then fail (ErrMsg "local repository root is not configured") else
  let repository := trim_prefix repository "file://" in
  root ← host_step (host_eval_symlinks root);
  path ← host_step (host_eval_symlinks repository);
  if negb (path =? root)%string && negb (has_prefix path (root +:+ "/"))
  then fail (ErrMsg "local repository is outside the configured root")
  else mret path.

Definition ValidLocalRepository (root repository : string) : EM H bool :=
  path ← attempt (LocalRepositoryPath root repository); mret (is_ok path).

Definition LocalRepositoryIsGit (root repository : string) : EM H bool :=
  path ← attempt (LocalRepositoryPath root repository);
  match path with
  | Err _ => mret false
  | Ok path =>
    present ← attempt (host_step (host_stat (Join path ".git")));
    mret (match present with Ok true => true | _ => false end)
  end.

(** ** GitHub credentials *)

Definition githubJWT (appID : string) (key : Key) : EM H string :=
  t ← now;
  let header := RawURLEncoding (raw "{`alg`:`RS256`,`typ`:`JWT`}") in
  let payload := marshal (JObj [("exp", JNum (unix (t + 9 * Minute))); ("iat", JNum (unix (t - Minute)));
                                ("iss", JStr appID)]) in
  let unsigned := header +:+ "." +:+ RawURLEncoding payload in
  signature ← lift (SignPKCS1v15 key unsigned);
  mret (unsigned +:+ "." +:+ RawURLEncoding signature).

Definition decode_token (j : json) : option string :=
  kvs ← members j; decode_field "token" decode_text "" kvs.

Definition githubInstallationToken (e : Executor) (installationID : Z) : EM H string :=
  if (GitHubAppID e =? "")%string || (GitHubAppPrivateKeyPath e =? "")%string
  then fail (ErrMsg "GitHub App is not configured") else
  keyBytes ← catch (host_step (host_read_file (GitHubAppPrivateKeyPath e)))
               (fun err => fail (ErrWrap "read GitHub App key" err));
  key ← lift (parseRSAPrivateKey keyBytes);
  jwt ← githubJWT (GitHubAppID e) key;
  let base := trim_right is_slash (GitHubAPIURL e) in
  let base := if (base =? "")%string then "https://api.github.com" else base in
  response ← catch (http (Request "POST"
                 (base +:+ "/app/installations/" +:+ itoa installationID +:+ "/access_tokens") ""
                 [("Authorization", "Bearer " +:+ jwt); ("Accept", "application/vnd.github+json");
                  ("X-GitHub-Api-Version", "2022-11-28")] None))
               (fun err => fail (ErrWrap "request GitHub installation token" err));
  if negb (rs_status response =? 201)
  then fail (ErrMsg ("GitHub installation token request failed: " +:+ itoa (rs_status response))) else
  match rs_body response with
  | Ok body =>
    match parse_first body ≫= decode_token with
    | Some token => if (token =? "")%string then fail (ErrMsg "read GitHub installation token")
                    else mret token
    | None => fail (ErrMsg "read GitHub installation token")
    end
  | Err _ => fail (ErrMsg "read GitHub installation token")
  end.

Definition is_local_source (repository : string) : bool :=
  IsAbs repository || has_prefix repository "file://".

Definition cloneEnvironment (e : Executor) (application : Application) : EM H (gmap string string) :=
  if is_local_source (a_Repository application) then
    valid ← ValidLocalRepository (LocalRepositoriesPath e) (a_Repository application);
    if negb valid then fail (ErrMsg "local repository is outside MINIDOCK_LOCAL_REPOSITORIES_PATH")
    else mret ∅
  else if a_GitHubInstallationID application =? 0 then mret ∅ else
  token ← githubInstallationToken e (a_GitHubInstallationID application);
  match parse_url (a_Repository application) with
  | Some repository =>
    if negb (url_scheme repository =? "https")%string || (url_host repository =? "")%string
    then fail (ErrMsg "GitHub App requires an HTTPS repository URL")
    else mret (<["GIT_CONFIG_COUNT" := "1"]>
               (<["GIT_CONFIG_KEY_0" := "http.https://" +:+ url_host repository +:+ "/.extraheader"]>
               {["GIT_CONFIG_VALUE_0" := "AUTHORIZATION: basic "
                                         +:+ StdEncoding ("x-access-token:" +:+ token)]}))
  | None => fail (ErrMsg "GitHub App requires an HTTPS repository URL")
  end.

(** ** Evidence *)

Definition directoryFingerprint (root : string) : EM H string :=
  tree ← host_step (host_read_tree root);
  mret ("sha256:" +:+ sha256 (fingerprint_input tree)).

Definition directorySize (root : string) : EM H Z :=
  tree ← host_step (host_read_tree root); mret (directory_size tree).

(** The revision is set even when the fingerprint fails. *)
Definition sourceEvidence (repository work : string) : EM H (string * result string) :=
  output ← attempt (exec_output "git" ["-C"; repository; "rev-parse"; "HEAD"]);
  fingerprint ← attempt (directoryFingerprint work);
  mret (match output with Ok text => trim_space text | Err _ => "" end, fingerprint).

Definition artifactDigest (runtimeName image : string) : EM H string :=
  if negb (runtimeName =? "docker")%string then mret "" else
  output ← attempt (docker_output ["image"; "inspect"; "--format"; "{{.Id}}"; image]);
  mret (match output with
        | Ok text => let digest := trim_space text in
                     if has_prefix digest "sha256:" then digest else ""
        | Err _ => ""
        end).

(** ** The generated Dockerfile *)

(** [Detect] reads one state of the directory. *)
Definition detect_now (work : string) : EM H Detection :=
  query (fun s => Ok (Detect
    (fun p => match fst (host_stat p (site_host s)) with Ok true => true | _ => false end)
    (fun p => match fst (host_read_file p (site_host s)) with Ok c => Some c | Err _ => None end)
    work)).

(** The path of the Dockerfile; empty when the repository has its own. *)
Definition generatedDockerfile (application : Application) (work : string) : EM H string :=
  present ← host_step (host_stat (Join work "Dockerfile"));
  if (present : bool) then mret "" else
  detected ← (if (a_Type application =? "node_ssr")%string
              then detect_now work else mret (MkDetection "" "" ""));
  let kind := if (a_Type application =? "node_ssr")%string
                 && (dt_Type detected =? "vite_ssr")%string
              then "vite_ssr" else a_Type application in
  match Templates.Dockerfile kind (a_InternalPort application) (a_HealthEndpoint application) with
  | None => fail (ErrMsg "Dockerfile required for custom application")
  | Some contents =>
    name ← catch (host_step (host_create_temp "" ("minidock-" +:+ a_Name application +:+ "-Dockerfile-*")))
             (fun err => fail (ErrWrap "create runtime template" err));
    catch (host_step (host_write_file name contents))
      (fun err => ignore (host_step (host_close name)) ;; ignore (host_step (host_remove name)) ;;
                  fail (ErrWrap "write runtime template" err)) ;;
    catch (host_step (host_close name))
      (fun err => ignore (host_step (host_remove name)) ;; fail err) ;;
    mret name
  end.

(** ** Deploy *)

(** [m] with its error returned next to the partial result. *)
Definition or_return {A} (result : ReleaseResult) (m : EM H A)
    (k : A -> EM H (ReleaseResult * option error)) : EM H (ReleaseResult * option error) :=
  r ← attempt m;
  match r with
  | Ok a => k a
  | Err err => mret (result, Some err)
  end.

(** The repository on disk: a plain local folder, or a clone at the requested ref. *)
Definition fetch_source (e : Executor) (application : Application) : EM H string :=
  or_failure "source" "workspace_unavailable" (host_step (host_mkdir_all (WorkspacePath e))) ;;
  let repo := Join (WorkspacePath e) (a_Name application) in
  cloneEnv ← or_failure "source" "authentication_failed" (cloneEnvironment e application);
  isGit ← (if is_local_source (a_Repository application)
           then LocalRepositoryIsGit (LocalRepositoriesPath e) (a_Repository application)
           else mret true);
  if negb isGit then
    or_failure "source" "local_source_invalid"
      (LocalRepositoryPath (LocalRepositoriesPath e) (a_Repository application))
  else
  present ← attempt (host_step (host_stat (Join repo ".git")));
  (match present with
   | Ok false =>
     let cloneArgs := if isCommitSHA (a_Branch application)
                      then ["clone"; a_Repository application; repo]
                      else ["clone"; "--branch"; a_Branch application; "--single-branch";
                            a_Repository application; repo] in
     or_failure "source" "clone_failed" (runWithEnv cloneEnv "git" cloneArgs)
   | _ => mret tt
   end) ;;
  or_failure "source" "fetch_failed"
    (runWithEnv cloneEnv "git" ["-C"; repo; "fetch"; "origin"; a_Branch application]) ;;
  or_failure "source" "checkout_failed"
    (run "git" ["-C"; repo; "checkout"; "--force"; "FETCH_HEAD"]) ;;
  mret repo.

(** The directory to build, which must stay inside the repository. *)
Definition work_directory (repo workDir : string) : result string :=
  let work := Clean (Join repo workDir) in
  if negb (work =? repo)%string && negb (has_prefix work (repo +:+ "/"))
  then Err (failure "source" "work_directory_invalid" (ErrMsg "work directory escapes repository"))
  else Ok work.

Definition megabyte : Z := 1024 * 1024.
Definition gigabyte : Z := 1024 * megabyte.

(** The size of the context, its quota and the warnings about it. *)
Definition measure_context (e : Executor) (work : string) (hasCustomDockerIgnore : bool) : EM H unit :=
  size ← or_failure "source" "workspace_measure_failed" (directorySize work);
  say ("[source] tamaño del contexto de build: " +:+ fixed 2 size megabyte +:+ " MB") ;;
  (if (0 <? WorkspaceMaxBytes e) && (WorkspaceMaxBytes e <? size) then
     fail (failure "source" "workspace_quota_exceeded"
             (ErrMsg ("workspace is " +:+ itoa size +:+ " bytes; limit is "
                      +:+ itoa (WorkspaceMaxBytes e) +:+ " bytes")))
   else mret tt) ;;
  if (50 * megabyte <? size) && negb hasCustomDockerIgnore then
    say "[source] ADVERTENCIA: el tamaño del contexto de construcción es alto (>50MB) y no existe un .dockerignore personalizado." ;;
    OnEvent "source" "warning" ("Contexto de construcción es alto (" +:+ fixed 2 size megabyte
                                +:+ " MB) sin .dockerignore")
  else mret tt.

Definition report_disk (work : string) : EM H unit :=
  disk ← attempt (host_step (host_statfs work));
  match disk with
  | Ok space =>
    if sp_blocks space =? 0 then mret tt else
    let available := fixed 2 (sp_available_bytes space) gigabyte in
    say ("[source] espacio en disco disponible en host: " +:+ available +:+ " GB ("
         +:+ fixed 1 ((sp_blocks space - sp_available_blocks space) * 100) (sp_blocks space)
         +:+ "% usado)") ;;
    if sp_available_bytes space <? 2 * gigabyte then
      say "[source] ADVERTENCIA: el espacio en disco disponible en el host es extremadamente bajo (<2GB)" ;;
      OnEvent "source" "warning" ("Espacio en disco bajo: " +:+ available +:+ " GB")
    else mret tt
  | Err _ => mret tt
  end.

Definition managed_ignore : string :=
  join (String newline "") [".git"; "node_modules"; ".next"; ".nuxt"; "dist"; "build"; "tmp"; ".gemini"; ""].

(** The managed [.dockerignore]; [true] when it must be removed afterwards. *)
Definition write_ignore (path : string) (hasCustomDockerIgnore : bool) : EM H bool :=
  if hasCustomDockerIgnore then
    say "[source] usando archivo .dockerignore existente en el repositorio" ;; mret false
  else
  say "[source] aplicando .dockerignore gestionado para omitir directorios innecesarios" ;;
  written ← attempt (host_step (host_write_file path managed_ignore));
  match written with
  | Ok _ => mret true
  | Err err =>
    say ("[source] advertencia: no se pudo crear el archivo .dockerignore gestionado: "
         +:+ error_message err) ;;
    mret false
  end.

(** The arguments of the image build. *)
Definition build_args (image dockerfile work : string) (configuration : DeploymentConfiguration)
    : list string :=
  ["build"; "--tag"; image]
  ++ (if (dockerfile =? "")%string then [] else ["--file"; dockerfile])
  ++ flat_map (fun name => ["--build-arg"; name +:+ "=" +:+ default "" (dc_BuildArgs configuration !! name)])
       (sortedNames (dc_BuildArgs configuration))
  ++ flat_map (fun name => ["--secret"; "id=" +:+ name +:+ ",env=" +:+ name])
       (sortedNames (dc_BuildSecrets configuration))
  ++ [work].

(** The release is started through its adapter and observed. *)
Definition start_release (adapter : RuntimeAdapter H) (e : Executor) (application : Application)
    (image : string) (configuration : DeploymentConfiguration) (result : ReleaseResult)
    : EM H (ReleaseResult * option error) :=
  started ← attempt (ra_Start adapter e application image (dc_Runtime configuration));
  match started with
  | Err err => mret (result <| rr_Image := image |>, Some err)
  | Ok started =>
    let result := result <| rr_Image := started |> in
    digest ← artifactDigest (ra_Name adapter) image;
    let result := result <| rr_ArtifactDigest := digest |> in
    if (ra_Name adapter =? "docker")%string then
      id ← dockerContainerID (container_name application);
      mret (result <| rr_ObservedContainerID := id |>, None)
    else mret (result, None)
  end.

(** The image build of a prepared directory. *)
Definition build_image (adapter : RuntimeAdapter H) (e : Executor) (application : Application)
    (configuration : DeploymentConfiguration) (work dockerfile : string) (sourceStart : Time)
    (result : ReleaseResult) : EM H (ReleaseResult * option error) :=
  sourceDuration ← time_since sourceStart;
  track (fun t => t <| SourceDuration := sourceDuration |>) ;;
  OnEvent "source" "info" ("Código fuente preparado en " +:+ duration_text sourceDuration) ;;
  OnStageChange "build" ;;
  OnEvent "build" "info" "Iniciando compilación y empaquetado de la imagen Docker" ;;
  buildStart ← now;
  say "[build] construyendo la imagen; aquí aparecerán las dependencias y el build del proyecto" ;;
  t ← now;
  let image := "minidock/" +:+ a_Name application +:+ ":" +:+ itoa (unix t) in
  let result := result <| rr_Image := image |> in
  if negb (ra_SupportsBuildSecrets adapter) && negb (bool_decide (dc_BuildSecrets configuration = ∅))
  then mret (result, Some (failure "build" "build_secrets_unsupported"
               (ErrMsg ("runtime " +:+ ra_Name adapter +:+ " does not support build secrets"))))
  else
  or_return result (or_failure "build" "build_failed"
    (runWithEnv (dc_BuildSecrets configuration) (ra_BuildCommand adapter)
       (build_args image dockerfile work configuration)))
  (fun _ =>
     buildDuration ← time_since buildStart;
     track (fun t => t <| BuildDuration := buildDuration |>) ;;
     OnEvent "build" "info" ("Imagen construida con éxito en " +:+ duration_text buildDuration) ;;
     start_release adapter e application image configuration result).

(** Source, evidence and build; the deferred removals run after the start. *)
Definition deploy_source (adapter : RuntimeAdapter H) (e : Executor) (application : Application)
    (configuration : DeploymentConfiguration) (result : ReleaseResult)
    : EM H (ReleaseResult * option error) :=
  OnStageChange "source" ;;
  OnEvent "source" "info" "Iniciando descarga y preparación del código fuente" ;;
  sourceStart ← now;
  say "[source] preparando el código fuente" ;;
  or_return result (fetch_source e application) (fun repo =>
  match work_directory repo (a_WorkDir application) with
  | Err err => mret (result, Some err)
  | Ok work =>
    '(revision, fingerprint) ← sourceEvidence repo work;
    match fingerprint with
    | Err err =>
      mret (result <| rr_SourceRevision := revision |> <| rr_SourceFingerprint := "" |>,
            Some (failure "source" "source_fingerprint_failed" err))
    | Ok fingerprint =>
      let result := result <| rr_SourceRevision := revision |>
                           <| rr_SourceFingerprint := fingerprint |> in
      (if negb (revision =? "")%string then
         say ("[source] revisión Git detectada: " +:+ revision) ;;
         OnEvent "source" "info" ("Revisión Git: " +:+ revision)
       else say "[source] no hay reproducibilidad Git para esta fuente") ;;
      say ("[source] huella del árbol de fuentes: " +:+ fingerprint) ;;
      say "[source] analizando el contexto de construcción y espacio en disco" ;;
      let ignorePath := Join work ".dockerignore" in
      custom ← attempt (host_step (host_stat ignorePath));
      let hasCustomDockerIgnore := match custom with Ok true => true | _ => false end in
      or_return result (measure_context e work hasCustomDockerIgnore) (fun _ =>
      report_disk work ;;
      managed ← write_ignore ignorePath hasCustomDockerIgnore;
      finally
        (or_return result (or_failure "build" "contract_invalid" (generatedDockerfile application work))
           (fun dockerfile =>
              finally (build_image adapter e application configuration work dockerfile sourceStart result)
                (if (dockerfile =? "")%string then mret tt
                 else ignore (host_step (host_remove dockerfile)))))
        (if (managed : bool) then ignore (host_step (host_remove ignorePath)) else mret tt))
    end
  end).

Definition Deploy (e : Executor) (application : Application) (configuration : DeploymentConfiguration)
    : EM H (ReleaseResult * option error) :=
  say "[preflight] verificando el runtime de contenedores" ;;
  or_return ReleaseResult0
    (catch (adapter e application)
       (fun err => fail (failure "start" "runtime_unavailable" (ErrWrap "runtime preflight" err))))
  (fun adapter =>
  let result := ReleaseResult0 <| rr_Runtime := ra_Name adapter |> in
  say ("[preflight] runtime seleccionado: " +:+ ra_Name adapter) ;;
  if negb (safeName (a_Name application))
  then mret (result, Some (ErrMsg "invalid application name")) else
  if negb (dc_ReuseImage configuration =? "")%string then
    OnStageChange "start" ;;
    OnEvent "start" "info" ("Reusando imagen construida previamente: " +:+ dc_ReuseImage configuration) ;;
    start_release adapter e application (dc_ReuseImage configuration) configuration
      (result <| rr_Image := dc_ReuseImage configuration |>
              <| rr_SourceRevision := dc_ReuseSourceRevision configuration |>
              <| rr_SourceFingerprint := dc_ReuseSourceFingerprint configuration |>)
  else deploy_source adapter e application configuration result).

(** ** Rollback *)

Definition Rollback (e : Executor) (application : Application) (image : string)
    (configuration : DeploymentConfiguration) : EM H (ReleaseResult * option error) :=
  let result := ReleaseResult0 <| rr_Image := image |> in
  or_return result (adapter e application) (fun adapter =>
    start_release adapter e application image configuration (result <| rr_Runtime := ra_Name adapter |>)).

Definition VerifyArtifact (e : Executor) (application : Application) (image digest : string)
    : EM H unit :=
  if (image =? "")%string || (digest =? "")%string
  then fail (failure "rollback" "artifact_evidence_missing"
               (ErrMsg "rollback release has no immutable artifact digest")) else
  adapter ← or_failure "rollback" "runtime_unavailable" (adapter e application);
  actual ← artifactDigest (ra_Name adapter) image;
  if (actual =? "")%string
  then fail (failure "rollback" "artifact_missing"
               (ErrMsg ("image " +:+ quote image +:+ " is not available in runtime " +:+ ra_Name adapter)))
  else if negb (actual =? digest)%string
  then fail (failure "rollback" "artifact_digest_mismatch"
               (ErrMsg ("image " +:+ quote image +:+ " digest " +:+ actual
                        +:+ " does not match recorded digest " +:+ digest)))
  else mret tt.
End release.
