(* ===== verification/ReleaseFacts.v ===== *)
(** * What a release guarantees

    Containment of the build directory, the automatic runtime choice, releases that fail
    before they start, and releases that succeed. *)

From S2P Require Import Prelude GoStrings Json Net Base64 Host Templates Detect.
From S2P Require Import StoreTypes Executor Proxy BlueGreen Engine BlueGreenFacts Release.

(** ** The build directory *)

Lemma clean_without p : forallb (without "/") (clean_components p) = true.
Proof.
  unfold clean_components. rewrite forallb_rev. pose proof (split_without "/" p) as Hs.
  assert (forallb (without "/") [] = true) as Hacc by done. revert Hacc Hs.
  generalize (split_on "/" p), (@nil string). intros cs.
  induction cs as [|c cs IH]; intros acc Hacc Hs; [done|]. simpl in *. apply andb_prop in Hs as [Hc Hs].
  apply IH; [|done]. unfold push_component.
  destruct (_ || _); [done|]. destruct (c =? "..")%string; [|by cbn [forallb]; rewrite Hc].
  destruct acc as [|d acc]; [destruct (IsAbs p); [done|by cbn [forallb]; rewrite Hc]|].
  destruct (d =? "..")%string; [by cbn [forallb] in *; rewrite Hc|].
  cbn [forallb] in Hacc. by apply andb_prop in Hacc as [_ Hacc].
Qed.

(** A cleaned path climbs before it descends: no [..] follows another component. *)
Definition climbs (cs : list string) : Prop :=
  exists n l, cs = repeat ".." n ++ l /\ ~ In ".." l.

Lemma climbs_after l1 l2 c : climbs (l1 ++ l2) -> In c l1 -> c <> ".." -> ~ In ".." l2.
Proof.
  induction l1 as [|x l1 IH]; intros (n & l & E & Hl) Hin Hc; [done|]. destruct n as [|n]; simpl in E.
  - subst l. intros H. apply Hl. right. apply in_or_app. by right.
  - injection E as -> E. destruct Hin as [Hx|Hin]; [by destruct Hc|]. apply IH; [by exists n, l|done..].
Qed.

(** The same of the stack, which has the last component on top. *)
Definition climbing (stack : list string) : Prop :=
  exists n l, stack = l ++ repeat ".." n /\ ~ In ".." l.

Lemma push_climbing rooted stack c : climbing stack -> climbing (push_component rooted stack c).
Proof.
  intros (n & l & -> & Hl). unfold push_component. destruct (_ || _); [by exists n, l|].
  destruct (String.eqb_spec c "..") as [->|Hc].
  - destruct l as [|x l]; simpl.
    + destruct n as [|n]; simpl; [destruct rooted; [exists 0%nat, []|exists 1%nat, []]|exists (S (S n)), []]; by split; [|intros []].
    + destruct (String.eqb_spec x "..") as [->|]; [destruct Hl; by left|].
      exists n, l. split; [done|]. intros H. apply Hl. by right.
  - exists n, (c :: l). split; [done|]. intros [E|H]; [by destruct Hc|by apply Hl].
Qed.

Lemma clean_climbs p : climbs (clean_components p).
Proof.
  unfold clean_components. assert (climbing []) as H by (exists 0%nat, []; by split; [|intros []]). revert H.
  generalize (@nil string). induction (split_on "/" p) as [|c cs IH]; intros stack H; simpl.
  - destruct H as (n & l & -> & Hl). exists n, (rev l). rewrite rev_app_distr, rev_repeat.
    split; [done|]. by rewrite <- in_rev.
  - apply IH. by apply push_climbing.
Qed.

Lemma split_clean p : clean_components p <> [] -> clean_components p <> [""] ->
  split_on "/" (Clean p) = (if IsAbs p then [""] else []) ++ clean_components p.
Proof.
  intros Hn He. pose proof (split_join _ (clean_without p) Hn) as Hs. unfold Clean.
  destruct (IsAbs p); simpl; [by rewrite Hs|].
  destruct (String.eqb_spec (join "/" (clean_components p)) "") as [Ej|]; [|done].
  rewrite Ej in Hs. by destruct He.
Qed.

Lemma Clean_climbs p : climbs (split_on "/" (Clean p)).
Proof.
  destruct (decide (clean_components p = [] \/ clean_components p = [""])) as [Hd|Hd].
  - exists 0%nat, (split_on "/" (Clean p)). split; [done|]. unfold Clean.
    assert (join "/" (clean_components p) = "") as -> by (by destruct Hd as [->| ->]).
    destruct (IsAbs p); simpl; naive_solver.
  - rewrite split_clean by tauto. destruct (IsAbs p) eqn:Hp; [|apply clean_climbs].
    exists 0%nat, ("" :: clean_components p). split; [done|]. intros [?|Hin]; [done|].
    pose proof (clean_rooted p Hp) as Ho. rewrite forallb_forall in Ho. by apply Ho in Hin.
Qed.

(** The last element of a path that is joined is a component of the result. *)
Lemma split_append (a : ascii) u v : split_on a (u +:+ String a v) = split_on a u ++ split_on a v.
Proof.
  induction u as [|c u IH]; simpl; [by rewrite Ascii.eqb_refl|].
  destruct (Ascii.eqb c a); rewrite IH; [done|].
  by destruct (split_on a u) as [|x l] eqn:E; [destruct u; simpl in E; repeat case_match|].
Qed.

Lemma split_components p name : ordinary name = true -> In name (clean_components p) ->
  In name (split_on "/" (Clean p)).
Proof.
  intros Ho Hin. rewrite split_clean; [apply in_or_app; by right|by intros E; rewrite E in Hin|].
  intros E. rewrite E in Hin. destruct Hin as [<-|[]]. done.
Qed.

Lemma clean_last p name cs : ordinary name = true -> split_on "/" p = cs ++ [name] ->
  In name (clean_components p).
Proof.
  intros Ho E. unfold clean_components. rewrite E, foldl_app. simpl. apply in_rev. rewrite rev_involutive.
  unfold push_component, ordinary in *. destruct (name =? "")%string, (name =? ".")%string, (name =? "..")%string;
    try done. by left.
Qed.

Lemma join_named workspace name : ordinary name = true -> without "/" name = true ->
  In name (split_on "/" (Join workspace name)).
Proof.
  intros Ho Hw. assert (name <> "") as Hne by (by intros ->). unfold Join.
  rewrite (proj2 (String.eqb_neq _ _) Hne). destruct (workspace =? "")%string; apply split_components; try done.
  - apply (clean_last _ _ [] Ho). by apply split_single.
  - apply (clean_last _ _ (split_on "/" workspace) Ho).
    change ("/" +:+ name) with (String "/" name). by rewrite split_append, (split_single "/" name).
Qed.

(** The name of an application is a component of a path. *)
Lemma safeName_component name : safeName name = true -> ordinary name = true /\ without "/" name = true.
Proof.
  unfold safeName. destruct name as [|c s]; [done|]. intros [[Hc _]%andb_prop Hs]%andb_prop. split.
  - unfold ordinary. destruct (Ascii.eqb_spec c ".") as [->|Hd]; [by vm_compute in Hc|].
    apply Ascii.eqb_neq in Hd. simpl. by rewrite Hd.
  - assert (forall d, name_tail d = true -> negb (Ascii.eqb d "/") = true) as Hd.
    { intros d. destruct (Ascii.eqb_spec d "/") as [->|]; [by vm_compute|done]. }
    unfold without. simpl. rewrite (all_string_impl _ _ s Hd Hs), Hd; [done|].
    unfold name_tail, name_head in *. by rewrite Hc.
Qed.

(** C34: a release never builds outside its repository.  For the repository of an application under
    the workspace, relative or not, and for any absolute path, the directory accepted for the
    build is the repository or a path below it in which no [..] is left.  Links are not followed. *)
Theorem work_directory_contained repo workDir work :
  IsAbs repo = true \/ (exists workspace name, safeName name = true /\ repo = Join workspace name) ->
  work_directory repo workDir = Ok work ->
  work = repo \/ exists rest, work = repo +:+ "/" +:+ rest /\ ~ In ".." (split_on "/" rest).
Proof.
  intros Hrepo. unfold work_directory. destruct (_ && _) eqn:E; [done|]. intros [= <-].
  apply andb_false_iff in E as [E|E]; bools; [by left|right].
  apply has_prefix_spec in E as [rest E]. exists rest. rewrite <- append_assoc in E. split; [done|].
  pose proof (Clean_climbs (Join repo workDir)) as Hc. rewrite E in Hc.
  change ("/" +:+ rest) with (String "/" rest) in Hc. rewrite split_append in Hc.
  destruct Hrepo as [Ha|(workspace & name & Hn & ->)].
  - apply (climbs_after _ _ "" Hc); [|done]. destruct repo as [|c repo]; [done|].
    apply has_prefix_spec in Ha as [t Ht]. rewrite Ht. by left.
  - apply safeName_component in Hn as [Ho Hw]. apply (climbs_after _ _ name Hc); [by apply join_named|].
    by intros ->.
Qed.

Lemma work_directory_contained_witness :
  exists rest, "data/apps/blog/web" = "data/apps/blog" +:+ "/" +:+ rest /\ ~ In ".." (split_on "/" rest).
Proof.
  destruct (work_directory_contained "data/apps/blog" "packages/../web" "data/apps/blog/web") as [H|H].
  - right. exists "./data/apps", "blog". split; vm_compute; reflexivity.
  - vm_compute. reflexivity.
  - discriminate H.
  - exact H.
Defined.

Section release_facts.
Context {H : Type} `{!Host H, !Observation H, !Engine H}.
Context (sha256 : string -> string) (Key : Type) (parseRSAPrivateKey : string -> result Key)
  (SignPKCS1v15 : Key -> string -> result string).
Implicit Types (h : H) (w : world (site H)).

(** The executor as the server configures it: built-in adapters and proxy. *)
Abbreviation runtime := (runtime ∅ None).
Abbreviation adapter := (adapter ∅ None).
Abbreviation Deploy := (Deploy sha256 Key parseRSAPrivateKey SignPKCS1v15 ∅ None).
Abbreviation deploy_source := (deploy_source sha256 Key parseRSAPrivateKey SignPKCS1v15).
Abbreviation host_of w := (site_host (w_state w)).

(** ** The automatic runtime *)

Lemma available_total w : exists available w', Available w = (Ok available, w').
Proof.
  assert (errors (fun _ => False) (Available (H := H))) as He.
  { unfold Available, RuntimeDiagnostics, appleRuntimeDiagnostic, runtimeDiagnostic, combined_output,
      hasContainerKernel.
    repeat errors_step. }
  destruct (Available w) as [[a|e] w'] eqn:E; [eauto|]. by apply He in E.
Qed.

(** The runtime preflight cannot fail.  The diagnostics of the host are computed and
    then overridden by the presence of the built-in adapters: Docker is selected whether
    or not it is installed, on every host and under every fault. *)
Theorem preflight_never_refuses_docker e application w :
  let wanted := a_Runtime application in
  wanted = "docker" \/ ((wanted = "" \/ wanted = "auto") /\ In (Runtime e) [""; "auto"; "docker"]) ->
  eval (runtime e application) w = Ok "docker".
Proof.
  intros wanted Hw. unfold Release.runtime. destruct (available_total w) as (available & w' & E).
  rewrite (eval_bind _ _ _ _ _ E). unfold lift, eval. simpl fst.
  assert (((fun _ => true) <$> Release.adapters (H := H) ∅ None : gmap string bool) !! "docker" = Some true) as Hd.
  { unfold Release.adapters. rewrite bool_decide_eq_true_2 by (by rewrite map_to_list_empty).
    by rewrite lookup_fmap, lookup_insert_eq. }
  assert (forall wanted, wanted = "auto" \/ wanted = "docker" ->
    selectRuntime wanted (((fun _ => true) <$> Release.adapters (H := H) ∅ None) ∪ available) = Ok "docker") as Hs.
  { intros x [->| ->]; unfold selectRuntime; cbv zeta; by rewrite (lookup_union_Some_l _ _ _ _ Hd). }
  apply Hs. fold wanted. destruct Hw as [->|[[->| ->] Hr]]; simpl; [by right|..];
    destruct Hr as [<-|[<-|[<-|[]]]]; simpl; auto.
Qed.

(** ** Releases that fail before they start *)

(** The stage of a classified failure. *)
Definition stage_of (err : error) : string := (FailureDetails (Some err)).1.1.

Section quiet_parts.
Abbreviation R := (on_machine (same_except [] [])).

Lemma quiet_run env name args :
  name <> "docker" \/ changes_containers args = false ->
  evolves R (runWithEnv env name args).
Proof.
  intros Hc. unfold runWithEnv. apply evolves_bind; [exact _| |intros f; apply evolves_bind; [exact _| |intros _]].
  - apply evolves_host_step; [exact _|]. intros h. by apply quiet_exec.
  - apply touch_say.
  - destruct (fin_error f); evolve.
Qed.

Lemma quiet_output name args :
  name <> "docker" \/ changes_containers args = false ->
  evolves R (exec_output name args).
Proof.
  intros Hc. apply evolves_exec_output; [exact _|]. intros h. by apply quiet_exec.
Qed.

Lemma quiet_exec_step name env args :
  name <> "docker" \/ changes_containers args = false -> quiet (host_exec (Command name env args)).
Proof. intros Hc h. by rewrite exec_quiet, exec_routes. Qed.

Lemma quiet_http rq : rq_body rq = None -> evolves R (http rq).
Proof.
  intros Hb. apply touch_quiet. intros h. by rewrite http_containers, http_read.
Qed.
End quiet_parts.

Ltac quiet_step :=
  lazymatch goal with
  | |- _ \/ changes_containers _ = false => first [right; reflexivity | left; discriminate]
  | |- evolves _ (host_step (host_exec (Command _ _ _))) =>
    simple apply touch_quiet; apply quiet_exec_step
  | |- evolves _ (say _) => simple apply touch_say
  | |- evolves _ (track _) => simple apply touch_track
  | |- evolves _ (OnStageChange _) => apply touch_track
  | |- evolves _ (OnEvent _ _ _) => apply touch_track
  | |- evolves _ (runWithEnv _ _ _) => apply quiet_run
  | |- evolves _ (run _ _) => apply quiet_run
  | |- evolves _ (exec_output _ _) => apply quiet_output
  | |- evolves _ (docker_output _) => apply quiet_output
  | |- evolves _ (http _) => apply quiet_http; reflexivity
  | |- evolves _ (host_step _) => simple apply touch_quiet; auto with evolve
  | |- evolves _ (or_failure _ _ _) => unfold or_failure
  | |- evolves _ (time_since _) => unfold time_since
  | |- evolves _ (or_return _ _ _) => unfold or_return
  | _ => evolve_step
  end.
Ltac quiet := repeat quiet_step.

Section quiet_deploy.
Abbreviation R := (on_machine (same_except [] [])).

Lemma quiet_adapter e application : evolves R (adapter e application).
Proof.
  unfold Release.adapter, Release.runtime, Available, RuntimeDiagnostics, appleRuntimeDiagnostic,
    runtimeDiagnostic, combined_output, hasContainerKernel. quiet.
Qed.

Lemma quiet_local_path root repository : evolves R (LocalRepositoryPath root repository).
Proof. unfold LocalRepositoryPath. quiet. Qed.

Lemma quiet_local_git root repository : evolves R (LocalRepositoryIsGit root repository).
Proof. unfold LocalRepositoryIsGit. quiet. apply quiet_local_path. Qed.

Lemma quiet_clone_environment e application :
  evolves R (cloneEnvironment Key parseRSAPrivateKey SignPKCS1v15 e application).
Proof.
  unfold cloneEnvironment, ValidLocalRepository, githubInstallationToken, githubJWT. quiet.
  apply quiet_local_path.
Qed.

Lemma quiet_fetch e application :
  evolves R (fetch_source Key parseRSAPrivateKey SignPKCS1v15 e application).
Proof.
  unfold fetch_source. quiet; first [apply quiet_clone_environment | apply quiet_local_git
    | apply quiet_local_path | idtac].
Qed.

Lemma quiet_evidence repo work : evolves R (sourceEvidence sha256 repo work).
Proof. unfold sourceEvidence, directoryFingerprint. quiet. Qed.

Lemma quiet_measure e work custom : evolves R (measure_context e work custom).
Proof. unfold measure_context, directorySize. quiet. Qed.

Lemma quiet_disk work : evolves R (report_disk work).
Proof. unfold report_disk. quiet. Qed.

Lemma quiet_ignore path custom : evolves R (write_ignore path custom).
Proof. unfold write_ignore. quiet. Qed.

Lemma quiet_dockerfile application work : evolves R (generatedDockerfile application work).
Proof. unfold generatedDockerfile, detect_now. quiet. Qed.
End quiet_deploy.

(** The stages a started release can fail in. *)
Lemma start_errors e application image environment :
  errors (fun err => In (stage_of err) ["start"; "health"; "route"])
    (Start (H := H) CaddyProxyAdapter e application image environment).
Proof.
  unfold Start, replace_colour, colours, stage_candidate, switch_route, retire_active,
    dockerContainerExists, or_failure, time_since, say, track, OnEvent, OnStageChange.
  repeat errors_step; try (by intros ? ? ?); by (simpl; auto).
Qed.

(** Computations that, when they return a failure of the source or build stage, have
    touched neither containers nor routes. *)
Definition harmless (m : EM H (ReleaseResult * option error)) : Prop :=
  forall w r err w', m w = (Ok (r, Some err), w') -> In (stage_of err) ["source"; "build"] ->
    same_except [] [] (host_of w) (host_of w').
Abbreviation R := (on_machine (same_except [] [])).

Lemma harmless_evolves m : evolves R m -> harmless m.
Proof. intros Hm w r err w' E _. exact (evolves_pair _ _ _ _ _ Hm E). Qed.

Lemma harmless_bind {A} (m : EM H A) f : evolves R m -> (forall a, harmless (f a)) -> harmless (m ≫= f).
Proof.
  intros Hm Hf w r err w' (a & w1 & E1 & E2)%bind_run Hs.
  etrans; [exact (evolves_pair _ _ _ _ _ Hm E1)|by eapply Hf].
Qed.

Lemma harmless_or_return {A} result (m : EM H A) k :
  evolves R m -> (forall a, harmless (k a)) -> harmless (or_return result m k).
Proof.
  intros Hm Hk. apply harmless_bind; [by evolve_step|]. intros [a|err]; [apply Hk|].
  apply harmless_evolves. evolve.
Qed.

Lemma harmless_finally m c : harmless m -> evolves R c -> harmless (finally m c).
Proof.
  intros Hm Hc w r err w' (w1 & E & ->)%finally_run Hs.
  etrans; [by eapply Hm|]. exact (Hc w1).
Qed.

(** The adapters of the server. *)
Definition built_in (a : RuntimeAdapter H) : Prop := a = DockerAdapter CaddyProxyAdapter \/ a = AppleContainerAdapter.

Lemma adapter_built_in e application w a w' : adapter e application w = (Ok a, w') -> built_in a.
Proof.
  unfold Release.adapter. intros (name & w1 & _ & E)%bind_run. unfold Release.adapters in E.
  rewrite bool_decide_eq_true_2 in E by (by rewrite map_to_list_empty).
  destruct (_ !! name) as [b|] eqn:El; [|done]. injection E as -> _.
  apply lookup_insert_Some in El as [[_ <-]|[_ El]]; [by left|].
  apply lookup_singleton_Some in El as [_ <-]. by right.
Qed.

Lemma quiet_apple e application image environment : evolves R (AppleStart (H := H) e application image environment).
Proof. unfold AppleStart, runApple. quiet. Qed.

Lemma harmless_start a e application image configuration result : built_in a ->
  harmless (start_release a e application image configuration result).
Proof.
  intros [->| ->].
  2:{ apply harmless_evolves. apply evolves_bind; [exact _|apply evolves_attempt, quiet_apple|].
      intros [started|err]; simpl; quiet. by unfold artifactDigest; quiet. }
  unfold start_release. cbn [ra_Start ra_Name DockerAdapter].
  intros w r err w' E Hs. apply bind_run in E as (started & w1 & E1%attempt_run & E).
  destruct started as [img|err'].
  - apply bind_run in E as (digest & w2 & _ & E). apply bind_run in E as (id & w3 & _ & E). done.
  - injection E as _ -> _. apply start_errors in E1.
    destruct E1 as [E1|[E1|[E1|[]]]], Hs as [Hs|[Hs|[]]]; congruence.
Qed.

Lemma harmless_build a e application configuration work dockerfile start result : built_in a ->
  harmless (build_image a e application configuration work dockerfile start result).
Proof.
  intros Ha. assert (ra_BuildCommand a = "docker" \/ ra_BuildCommand a <> "docker") as Hc
    by (destruct Ha as [->| ->]; [by left|by right]).
  unfold build_image. do 8 (apply harmless_bind; [by quiet|intros ?]). cbv zeta.
  destruct (_ && _); [apply harmless_evolves; by evolve_step|].
  apply harmless_or_return.
  { unfold or_failure. evolve_step; [|evolve]. apply quiet_run. by destruct Hc; [right|left]. }
  intros _. repeat (apply harmless_bind; [by quiet|intros ?]). by apply harmless_start.
Qed.

Lemma harmless_source a e application configuration result : built_in a ->
  harmless (deploy_source a e application configuration result).
Proof.
  intros Ha. unfold Release.deploy_source. repeat (apply harmless_bind; [by quiet|intros ?]).
  apply harmless_or_return; [apply quiet_fetch|]. intros repo.
  destruct (work_directory _ _) as [work|err]; [|apply harmless_evolves; by evolve_step].
  apply harmless_bind; [apply quiet_evidence|]. intros [revision [fingerprint|err]];
    [|apply harmless_evolves; by evolve_step].
  repeat (apply harmless_bind; [by quiet|intros ?]). cbv zeta.
  apply harmless_or_return; [apply quiet_measure|]. intros _.
  apply harmless_bind; [apply quiet_disk|]. intros _.
  apply harmless_bind; [apply quiet_ignore|]. intros managed.
  apply harmless_finally; [|destruct managed; by quiet].
  apply harmless_or_return; [unfold or_failure; evolve_step; [apply quiet_dockerfile|evolve]|].
  intros dockerfile. apply harmless_finally; [by apply harmless_build|].
  destruct (dockerfile =? "")%string; by quiet.
Qed.

(** The adapter the server selects is Docker's. *)
Lemma adapter_docker e application w a w' :
  adapter e application w = (Ok a, w') ->
  eval (runtime e application) w = Ok "docker" -> a = DockerAdapter CaddyProxyAdapter.
Proof.
  unfold Release.adapter. intros (name & w1 & E1 & E)%bind_run Hr. unfold eval in Hr.
  rewrite E1 in Hr. injection Hr as ->. unfold Release.adapters in E.
  rewrite bool_decide_eq_true_2 in E by (by rewrite map_to_list_empty).
  rewrite lookup_insert_eq in E. injection E as -> _. done.
Qed.

(** C35: a release that fails before it starts touches nothing: when [Deploy], on whatever runtime
    of the server (Docker or Apple Container, given or automatic), ends with a failure of its
    source or build stage, every Docker container and every route is as it was, whatever failed on
    the way. *)
Theorem failed_build_is_harmless e application configuration w r err :
  eval (Deploy e application configuration) w = Ok (r, Some err) ->
  In (stage_of err) ["source"; "build"] ->
  let h' := host_of (snd (Deploy e application configuration w)) in
  (forall n, containers h' !! n = containers (host_of w) !! n)
  /\ forall id, routes h' !! id = routes (host_of w) !! id.
Proof.
  intros E%eval_run Hs. apply same_except_nil. revert E. set (w' := snd _). clearbody w'.
  unfold Release.Deploy. intros (u & w1 & E1 & E)%bind_run. unfold or_return in E.
  apply bind_run in E as (a & w2 & E2%attempt_run & E).
  injection E1 as _ <-. match type of E2 with _ ?x = _ => set (w0 := x) in * end.
  assert (same_except [] [] (host_of w0) (host_of w2)) as H02.
  { refine (evolves_pair (on_machine (same_except [] [])) _ _ _ _ _ E2). evolve_step;
    [apply quiet_adapter|evolve]. }
  destruct a as [a|err']; [|by injection E as _ <- <-].
  apply catch_cases in E2 as [(? & E2 & [= <-])|(? & ? & _ & E2)]; [|done].
  apply adapter_built_in in E2. change (host_of w) with (host_of w0). etrans; [exact H02|].
  refine ((_ : harmless _) _ _ _ _ E Hs).
  apply harmless_bind; [by quiet|]. intros _.
  destruct (negb (safeName _)); [apply harmless_evolves; by evolve_step|].
  destruct (negb _); [|by apply harmless_source].
  repeat (apply harmless_bind; [by quiet|intros ?]). by apply harmless_start.
Qed.

(** ** Releases that succeed *)

(** The released image serves under the durable name. *)
Definition released (application : Application) (r : ReleaseResult) (h : H) : Prop :=
  exists c, c_image c = rr_Image r /\ serves_with application c (candidate_name application) h.

Lemma released_same application r h h' :
  same_except [] [] h h' -> released application r h -> released application r h'.
Proof.
  intros Hs (c & Hi & Hc). exists c. split; [done|].
  exact (serves_same _ _ _ _ _ _ Hs (not_elem_of_nil _) Hc).
Qed.

(** Computations whose error-free results are releases. *)
Definition releases (application : Application) (m : EM H (ReleaseResult * option error)) : Prop :=
  forall w r w', m w = (Ok (r, None), w') -> released application r (host_of w').

Lemma releases_bind {A} application (m : EM H A) f :
  (forall a, releases application (f a)) -> releases application (m ≫= f).
Proof. intros Hf w r w' (a & w1 & _ & E)%bind_run. by eapply Hf. Qed.

Lemma releases_error application r err : releases application (mret (r, Some err)).
Proof. done. Qed.

Lemma releases_or_return {A} application result (m : EM H A) k :
  (forall a, releases application (k a)) -> releases application (or_return result m k).
Proof. intros Hk. apply releases_bind. intros [a|err]; [apply Hk|apply releases_error]. Qed.

Lemma releases_finally application m c :
  releases application m -> evolves R c -> releases application (finally m c).
Proof.
  intros Hm Hc w r w' (w1 & E & ->)%finally_run. apply (released_same _ _ _ _ (Hc w1)). by eapply Hm.
Qed.

Lemma releases_start e application image configuration result :
  releases application
    (start_release (DockerAdapter CaddyProxyAdapter) e application image configuration result).
Proof.
  unfold start_release. cbn [ra_Start ra_Name DockerAdapter].
  intros w r w' E. apply bind_run in E as (started & w1 & E1%attempt_run & E).
  destruct started as [img|err']; [|done].
  destruct (deployment_success e application image (dc_Runtime configuration) w img) as [-> (c & Hi & Hc)].
  { unfold eval. by rewrite E1. }
  unfold exec in Hc. rewrite E1 in Hc. simpl in Hc.
  apply bind_run in E as (digest & w2 & E2 & E). apply bind_run in E as (id & w3 & E3 & E).
  injection E as <- <-.
  apply (released_same application _ (host_of w1)); [|by exists c].
  etrans; [refine (evolves_pair (on_machine (same_except [] [])) _ _ _ _ _ E2)
          |refine (evolves_pair (on_machine (same_except [] [])) _ _ _ _ _ E3)].
  - unfold artifactDigest. by quiet.
  - unfold dockerContainerID. by quiet.
Qed.

Lemma releases_build e application configuration work dockerfile start result :
  releases application (build_image (DockerAdapter CaddyProxyAdapter) e application configuration
    work dockerfile start result).
Proof.
  unfold build_image. do 8 (apply releases_bind; intros ?). cbv zeta.
  destruct (_ && _); [apply releases_error|]. apply releases_or_return. intros _.
  do 3 (apply releases_bind; intros ?). apply releases_start.
Qed.

Lemma releases_source e application configuration result :
  releases application (deploy_source (DockerAdapter CaddyProxyAdapter) e application configuration result).
Proof.
  unfold Release.deploy_source. do 4 (apply releases_bind; intros ?).
  apply releases_or_return. intros repo.
  destruct (work_directory _ _) as [work|err]; [|apply releases_error].
  apply releases_bind. intros [revision [fingerprint|err]]; [|apply releases_error].
  do 4 (apply releases_bind; intros ?). cbv zeta.
  apply releases_or_return. intros _. do 2 (apply releases_bind; intros ?).
  apply releases_finally; [|case_match; by quiet].
  apply releases_or_return. intros dockerfile.
  apply releases_finally; [|destruct (dockerfile =? "")%string; by quiet].
  apply releases_build.
Qed.

(** A release that succeeds is the one that serves: when [Deploy] returns no error,
    Caddy dials a container of the image the result names, under the durable name. *)
Theorem deploy_serves e application configuration w r :
  a_Runtime application = "docker" ->
  eval (Deploy e application configuration) w = Ok (r, None) ->
  released application r (host_of (snd (Deploy e application configuration w))).
Proof.
  intros Hdocker E%eval_run. revert E. set (w' := snd _). clearbody w'.
  unfold Release.Deploy. intros (u & w1 & E1 & E)%bind_run. unfold or_return in E.
  apply bind_run in E as (a & w2 & E2%attempt_run & E). destruct a as [a|err']; [|done].
  apply catch_cases in E2 as [(? & E2 & [= <-])|(? & ? & _ & E2)]; [|done].
  apply adapter_docker in E2 as ->; [|by apply preflight_never_refuses_docker; left].
  refine ((_ : releases _ _) _ _ _ E). apply releases_bind. intros _.
  destruct (negb (safeName _)); [apply releases_error|].
  destruct (negb _); [|apply releases_source].
  do 2 (apply releases_bind; intros ?). apply releases_start.
Qed.

Lemma artifact_digest_docker image w digest w' :
  artifactDigest "docker" image w = (Ok digest, w') ->
  digest <> "" -> has_prefix digest "sha256:" = true /\ exists h out,
    succeeded_with (fst (host_exec (docker_command ["image"; "inspect"; "--format"; "{{.Id}}"; image]) h)) out
    /\ trim_space out = digest.
Proof.
  change (artifactDigest "docker" image) with
    (output ← attempt (docker_output ["image"; "inspect"; "--format"; "{{.Id}}"; image]);
     mret (M := EM H) (match output with
        | Ok text => let digest := trim_space text in
                     if has_prefix digest "sha256:" then digest else ""
        | Err _ => ""
        end)).
  intros (output & w3 & E3%attempt_run & E)%bind_run Hn. apply ret_run in E as [-> ->].
  destruct output as [text|]; [|done]. apply output_ok in E3 as (x & Ex & Hx).
  cbv beta iota zeta in Hn |- *. destruct (has_prefix (trim_space text) "sha256:") eqn:Ep; [|done].
  split; [done|]. exists (host_of w), text. by rewrite Ex.
Qed.

(** A rollback target is verified by content: [VerifyArtifact] accepts only when the
    engine, asked for the image, answered the recorded digest, which is a SHA-256. *)
Theorem verified_artifact e application image digest w :
  a_Runtime application = "docker" ->
  eval (VerifyArtifact ∅ None e application image digest) w = Ok tt ->
  image <> "" /\ has_prefix digest "sha256:" = true
  /\ exists h out,
      succeeded_with (fst (host_exec (docker_command ["image"; "inspect"; "--format"; "{{.Id}}"; image]) h)) out
      /\ trim_space out = digest.
Proof.
  intros Hdocker E%eval_run. revert E. set (w' := snd _). clearbody w'. unfold VerifyArtifact.
  destruct (String.eqb_spec image "") as [|Hi]; [done|].
  destruct (String.eqb_spec digest "") as [|Hd]; [done|]. cbn [orb].
  intros (a & w1 & E1 & E)%bind_run.
  apply catch_cases in E1 as [(? & E1 & [= <-])|(? & ? & _ & E1)]; [|done].
  apply adapter_docker in E1 as ->; [|by apply preflight_never_refuses_docker; left].
  apply bind_run in E as (actual & w2 & E2 & E).
  destruct (String.eqb_spec actual "") as [|Ha]; [done|].
  destruct (String.eqb_spec actual digest) as [->|]; [|done].
  split; [done|]. exact (artifact_digest_docker _ _ _ _ E2 Ha).
Qed.
End release_facts.

(** ** Runs *)

Definition text_digest (s : string) : string := hex_encode s.
Definition no_key (s : string) : result unit := Err (ErrMsg "invalid GitHub App private key").
Definition no_signature (k : unit) (s : string) : result string := Err (ErrMsg "no key").
Definition docker_app : Application := (demo_app 7 "blog") <| a_Runtime := "docker" |>.

Abbreviation deploy_demo := (Deploy (H := machine) text_digest unit no_key no_signature ∅ None demo).
Definition reuse : DeploymentConfiguration :=
  DeploymentConfiguration0 <| dc_ReuseImage := "minidock/blog:2" |>.

Lemma preflight_never_refuses_docker_witness :
  eval (runtime (H := machine) ∅ None demo docker_app)
    (run_on (serving_blog []) [FailBefore "no docker"; FailBefore "no docker"]) = Ok "docker".
Proof. exact (preflight_never_refuses_docker demo docker_app _ (or_introl eq_refl)). Defined.

Lemma deploy_serves_witness :
  exists r, rr_Image r = "minidock/blog:2"
    /\ released docker_app r
         (site_host (w_state (snd (deploy_demo docker_app reuse (run_on (serving_blog []) []))))).
Proof.
  assert (exists r, eval (deploy_demo docker_app reuse) (run_on (serving_blog []) []) = Ok (r, None)
            /\ rr_Image r = "minidock/blog:2") as (r & E & Ei)
    by (eexists; split; vm_compute; reflexivity).
  exists r. split; [exact Ei|].
  exact (deploy_serves _ _ _ _ demo docker_app reuse (run_on (serving_blog []) []) r eq_refl E).
Defined.

(** The checkout of the source fails. *)
Definition failing_checkout : world (site machine) :=
  run_on (serving_blog []) (repeat NoFault 8 ++ [FailBefore "checkout"]).

Lemma failed_build_is_harmless_witness :
  exists r err, eval (deploy_demo docker_app DeploymentConfiguration0) failing_checkout = Ok (r, Some err)
    /\ forall n, containers (site_host (w_state (snd (deploy_demo docker_app DeploymentConfiguration0
                    failing_checkout)))) !! n = containers (serving_blog []) !! n.
Proof.
  assert (exists r err, eval (deploy_demo docker_app DeploymentConfiguration0) failing_checkout
            = Ok (r, Some err) /\ stage_of err = "source") as (r & err & E & Es)
    by (do 2 eexists; split; vm_compute; reflexivity).
  exists r, err. split; [exact E|].
  exact (proj1 (failed_build_is_harmless _ _ _ _ demo docker_app DeploymentConfiguration0
    failing_checkout r err E (or_introl (eq_sym Es)))).
Defined.

Lemma verified_artifact_witness :
  has_prefix "sha256:minidock/blog:2" "sha256:" = true.
Proof.
  assert (eval (VerifyArtifact ∅ None demo docker_app "minidock/blog:2" "sha256:minidock/blog:2")
            (run_on (serving_blog []) []) = Ok tt) as E by (vm_compute; reflexivity).
  exact (proj1 (proj2 (verified_artifact demo docker_app "minidock/blog:2" "sha256:minidock/blog:2"
    (run_on (serving_blog []) []) eq_refl E))).
Defined.
