(* ===== verification/StoreSettings.v ===== *)
(** * Settings, secrets and configuration of the store (internal/store/store.go)

    The security parameters of the installation, the encrypted secrets of the
    applications with their audit trail, and the public configuration values. *)

From S2P Require Import Prelude GoStrings StoreTypes.

(** ** Settings *)

Definition security_keys : list string :=
  ["security.salt"; "security.verifier_nonce"; "security.verifier_cipher"].

Definition security_values (config : SecurityConfigT) : list (string * string) :=
  [("security.salt", sc_Salt config); ("security.verifier_nonce", sc_VerifierNonce config);
   ("security.verifier_cipher", sc_VerifierCipher config)].

Definition IsInitialized : DB bool :=
  query (fun db => Ok (bool_decide (is_Some (t_settings db !! "security.salt")))).

(** [INSERT INTO settings]. *)
Definition insert_setting (key value : string) : DB unit :=
  step (fun db =>
    match t_settings db !! key with
    | Some _ => (Err (unique_failed "settings.key"), db)
    | None => (Ok tt, db <| t_settings := <[key := value]> (t_settings db) |>)
    end).

Definition InitializeSecurity (config : SecurityConfigT) : DB unit :=
  transaction (for_each (security_values config) (fun '(key, value) =>
    catch (insert_setting key value) (fun err => fail (ErrWrap ("store " +:+ key) err)))).

(** [UPDATE settings]: a key that is not there stays away, without an error. *)
Definition update_setting (key value : string) : DB unit :=
  update (fun db => match t_settings db !! key with
                    | Some _ => db <| t_settings := <[key := value]> (t_settings db) |>
                    | None => db
                    end).

Definition UpdateSecurityConfig (config : SecurityConfigT) : DB unit :=
  transaction (for_each (security_values config) (fun '(key, value) =>
    catch (update_setting key value) (fun err => fail (ErrWrap ("update " +:+ key) err)))).

Definition SecurityConfig : DB SecurityConfigT :=
  query (fun db =>
    match t_settings db !! "security.salt" with
    | None => Err ErrNotFound
    | Some salt =>
      match t_settings db !! "security.verifier_nonce" with
      | None => Err ErrNotFound
      | Some nonce =>
        match t_settings db !! "security.verifier_cipher" with
        | None => Err ErrNotFound
        | Some cipher => Ok (MkSecurityConfig salt nonce cipher)
        end
      end
    end).

Definition SetSettingString (key value : string) : DB unit :=
  update (fun db => db <| t_settings := <[key := value]> (t_settings db) |>).

Definition SettingString (key : string) : DB string :=
  query (fun db => Ok (default "" (t_settings db !! key))).

(** ** Secrets *)

Definition PutSecret (scope name nonce ciphertext : string) : DB unit :=
  t ← now;
  update (fun db => db <| t_secrets := <[(scope, name) := SecretRow nonce ciphertext t]> (t_secrets db) |>).

Definition Secret (scope name : string) : DB (string * string) :=
  query (fun db => match t_secrets db !! (scope, name) with
                   | Some r => Ok (s_nonce r, s_ciphertext r)
                   | None => Err ErrNotFound
                   end).

Definition applicationSecretScope (applicationID : Z) (environment target : string) : string :=
  "application:" +:+ itoa applicationID +:+ ":" +:+ environment +:+ ":" +:+ target.

Definition validEnvironmentAndTarget (environment target : string) : bool :=
  ((environment =? "production")%string || (environment =? "staging")%string)
  && ((target =? "runtime")%string || (target =? "build")%string).

(** [SELECT EXISTS] on the two tables a name may be in. *)
Definition secret_exists (applicationID : Z) (environment target name : string) : DB bool :=
  query (fun db => Ok (bool_decide (is_Some
    (t_secrets db !! (applicationSecretScope applicationID environment target, name))))).
Definition configuration_exists (applicationID : Z) (environment target name : string) : DB bool :=
  query (fun db => Ok (bool_decide (is_Some
    (t_configuration db !! (applicationID, environment, target, name))))).

(** [INSERT INTO secret_audit]. *)
Definition insert_secret_audit (applicationID : Z) (environment target name action : string) : DB unit :=
  t ← now;
  step (fun db =>
    if has_application db applicationID then
      (Ok tt, db <| t_secret_audit := t_secret_audit db
        ++ [SecretAuditRow (next_rowid sa_id (t_secret_audit db)) applicationID environment target
              name action t] |>)
    else (Err foreign_key_failed, db)).

Definition PutApplicationSecret (applicationID : Z) (environment target name nonce ciphertext : string)
    : DB unit :=
  if negb (validEnvironmentAndTarget environment target)
  then fail (ErrMsg "invalid secret environment or target") else
  configurationExists ← configuration_exists applicationID environment target name;
  if (configurationExists : bool)
  then fail (ErrMsg "a public configuration already uses this name") else
  exists_ ← secret_exists applicationID environment target name;
  PutSecret (applicationSecretScope applicationID environment target) name nonce ciphertext ;;
  insert_secret_audit applicationID environment target name
    (if (exists_ : bool) then "rotated" else "created").

(** The secrets of a scope, by name. *)
Definition scope_secrets (scope : string) (db : database) : list (string * secret_row) :=
  order_by_name fst
    (omap (fun '((s, n), r) => if (s =? scope)%string then Some (n, r) else None)
       (map_to_list (t_secrets db))).

Definition ApplicationSecrets (applicationID : Z) (environment target : string)
    : DB (list SecretMetadata) :=
  query (fun db => Ok (map (fun '(n, r) => MkSecretMetadata n environment target (s_updated_at r))
    (scope_secrets (applicationSecretScope applicationID environment target) db))).

Definition ApplicationSecret (applicationID : Z) (environment target name : string)
    : DB (string * string) :=
  Secret (applicationSecretScope applicationID environment target) name.

(** [scope LIKE 'application:<id>:%']; LIKE ignores case. *)
Definition HasSecrets (applicationID : Z) : DB bool :=
  query (fun db => Ok (existsb
    (fun '((scope, _), _) => has_prefix (to_lower scope) ("application:" +:+ itoa applicationID +:+ ":"))
    (map_to_list (t_secrets db)))).

Definition DeleteApplicationSecret (applicationID : Z) (environment target name : string) : DB unit :=
  let key := (applicationSecretScope applicationID environment target, name) in
  step (fun db => match t_secrets db !! key with
                  | Some _ => (Ok tt, db <| t_secrets := delete key (t_secrets db) |>)
                  | None => (Err ErrNotFound, db)
                  end) ;;
  insert_secret_audit applicationID environment target name "deleted".

Definition RecordSecretUse (applicationID : Z) (environment target : string) (names : list string)
    : DB unit :=
  for_each names (fun name => insert_secret_audit applicationID environment target name "used").

Definition SecretAudit (applicationID : Z) : DB (list SecretAuditT) :=
  query (fun db => Ok
    (map (fun r => MkSecretAudit (sa_action r) (sa_name r) (sa_environment r) (sa_target r) (sa_created_at r))
       (take 30 (rev (select_where (fun r => sa_application_id r =? applicationID) (t_secret_audit db)))))).

(** ** Public configuration *)

Definition PutApplicationConfiguration (applicationID : Z) (environment target name value : string)
    : DB unit :=
  if negb (validEnvironmentAndTarget environment target)
  then fail (ErrMsg "invalid configuration environment or target") else
  secretExists ← secret_exists applicationID environment target name;
  if (secretExists : bool) then fail (ErrMsg "a secret already uses this name") else
  t ← now;
  step (fun db =>
    if has_application db applicationID then
      (Ok tt, db <| t_configuration :=
        <[(applicationID, environment, target, name) := (value, t)]> (t_configuration db) |>)
    else (Err foreign_key_failed, db)).

Definition ApplicationConfiguration (applicationID : Z) (environment target : string)
    : DB (list Configuration) :=
  query (fun db => Ok (order_by_name co_Name
    (omap (fun '((app, e, tg, n), (v, t)) =>
             if (app =? applicationID) && (e =? environment)%string && (tg =? target)%string
             then Some (MkConfiguration n v environment target t) else None)
       (map_to_list (t_configuration db))))).

Definition DeleteApplicationConfiguration (applicationID : Z) (environment target name : string)
    : DB unit :=
  let key := (applicationID, environment, target, name) in
  step (fun db => match t_configuration db !! key with
                  | Some _ => (Ok tt, db <| t_configuration := delete key (t_configuration db) |>)
                  | None => (Err ErrNotFound, db)
                  end).
