(* ===== verification/DevWatch.v ===== *)
(** * The development watcher (cmd/devwatch/main.go)

    It watches the directories of the repository, builds the program when a source has changed
    and replaces the running server.  What happens to it is a sequence of occurrences with their
    times; what it does is a list of actions on processes. *)

From S2P Require Import Prelude GoStrings Net.

Definition binaryPath : string := "./tmp/minidock".

Definition ignored (path : string) : bool :=
  existsb (fun part => (part =? ".git")%string || (part =? "data")%string || (part =? "tmp")%string)
    (split_on "/" (Clean path)).

(** [filepath.Ext]: from the last dot of the last element. *)
Fixpoint Ext (path : string) : string :=
  match path with
  | "" => ""
  | String c rest =>
    if Ascii.eqb c "." && negb (existsb (fun d => contains rest d) ["."; "/"]) then path else Ext rest
  end.

Definition relevant (path : string) : bool :=
  if ignored path then false else
  let extension := Ext path in
  (extension =? ".go")%string || (extension =? ".html")%string || (extension =? ".templ")%string.

(** ** The directories *)

(** What a walk finds; the entries of a directory may not be readable. *)
Inductive tree := File | Dir (entries : result (list (string * tree))).

Section watching.
Context (watcher_Add : string -> result unit).

(** [filepath.WalkDir] with the function of [watchTree]: what is watched, in order. *)
Fixpoint watchTree (root : string) (t : tree) (watched : list string) : result unit * list string :=
  match t with
  | File => (Ok tt, watched)
  | Dir entries =>
    if ignored root then (Ok tt, watched) else
    match watcher_Add root with
    | Err err => (Err err, watched)
    | Ok _ =>
      let watched := watched ++ [root] in
      match entries with
      | Err err => (Err err, watched)
      | Ok entries =>
        (fix walk (l : list (string * tree)) (watched : list string) :=
           match l with
           | [] => (Ok tt, watched)
           | (name, t) :: l =>
             match watchTree (Join root name) t watched with
             | (Ok _, watched) => walk l watched
             | (Err err, watched) => (Err err, watched)
             end
           end) entries watched
      end
    end
  end.

(** ** The server *)

Inductive action :=
  | Started (pid : Z)
  | Terminated (pid : Z)
  | Killed (pid : Z)
  | Waited (pid : Z).

(** [stop]: [SIGTERM], and [SIGKILL] to a process that lasts five seconds more. *)
Definition stop (stubborn : bool) (command : option Z) : list action :=
  match command with
  | None => []
  | Some pid => [Terminated pid] ++ (if stubborn then [Killed pid] else []) ++ [Waited pid]
  end.

(** What building and starting answer. *)
Record attempted := Attempted { at_build : result unit; at_start : result Z; at_stubborn : bool }.

Definition restart (a : attempted) (command : option Z) : result unit * option Z * list action :=
  match at_build a with
  | Err err => (Err err, command, [])
  | Ok _ =>
    let stopped := stop (at_stubborn a) command in
    match at_start a with
    | Err err => (Err err, None, stopped)
    | Ok pid => (Ok tt, Some pid, stopped ++ [Started pid])
    end
  end.

(** ** The loop of [main] *)

Record state := State { st_watched : list string; st_command : option Z; st_rebuild : option Time }.

Inductive occurrence :=
  | Interrupt (stubborn : bool)
  | WatchError
  (** An event: whether it creates the name, and what is there. *)
  | Event (create : bool) (name : string) (found : option tree)
  | Rebuild (a : attempted).

Definition delay : Duration := 350 * Millisecond.

(** One round of [select] at a time; [None] when it cannot happen, and no state at the end. *)
Definition select (t : Time) (o : occurrence) (s : state) : option (option state * list action) :=
  match o with
  | Interrupt stubborn => Some (None, stop stubborn (st_command s))
  | WatchError => Some (Some s, [])
  | Event create name found =>
    let watched := match found with
                   | Some (Dir entries) =>
                     if create && negb (ignored name) then snd (watchTree name (Dir entries) (st_watched s))
                     else st_watched s
                   | _ => st_watched s
                   end in
    Some (Some (State watched (st_command s) (if relevant name then Some (t + delay) else st_rebuild s)), [])
  | Rebuild a =>
    match st_rebuild s with
    | Some deadline =>
      if t <? deadline then None else
      let '(_, command, actions) := restart a (st_command s) in
      Some (Some (State (st_watched s) command None), actions)
    | None => None
    end
  end.

(** [main]: the state before the loop. *)
Definition start (found : tree) (a : attempted) : result state * list action :=
  match watchTree "." found [] with
  | (Err err, _) => (Err err, [])
  | (Ok _, watched) => let '(_, command, actions) := restart a None in (Ok (State watched command None), actions)
  end.

(** The rounds of the loop, until one cannot happen or ends it. *)
Fixpoint exec (s : state) (l : list (Time * occurrence)) : option (option state * list action) :=
  match l with
  | [] => Some (Some s, [])
  | (t, o) :: l =>
    '(next, actions) ← select t o s;
    match next with
    | None => match l with [] => Some (None, actions) | _ => None end
    | Some s => '(final, more) ← exec s l; Some (final, actions ++ more)
    end
  end.

(** ** What is watched *)

Lemma watchTree_kept root t : forall watched, Forall (fun d => ignored d = false) watched ->
  Forall (fun d => ignored d = false) (snd (watchTree root t watched)).
Proof.
  revert root t. fix IH 2. intros root [|[entries|err]] watched Hw; cbn [watchTree]; [done| |].
  - destruct (ignored root) eqn:Hi; [done|]. destruct (watcher_Add root); [|done].
    assert (Forall (fun d => ignored d = false) (watched ++ [root])) as Hw' by (by apply Forall_app_2; [|constructor]).
    revert Hw'. generalize (watched ++ [root]). clear watched Hw.
    induction entries as [|[name t] entries IHe]; intros watched Hw; [done|].
    pose proof (IH (Join root name) t watched Hw) as Ht.
    destruct (watchTree (Join root name) t watched) as [[|] watched']; [by apply IHe|done].
  - destruct (ignored root) eqn:Hi; [done|]. destruct (watcher_Add root); [|done].
    by apply Forall_app_2; [|constructor].
Qed.

(** Nothing of the repository's metadata, of the data and of the builds is watched. *)
Theorem watched_is_never_ignored s l s' actions :
  Forall (fun d => ignored d = false) (st_watched s) -> exec s l = Some (Some s', actions) ->
  Forall (fun d => ignored d = false) (st_watched s').
Proof.
  revert s actions. induction l as [|[t o] l IH]; intros s actions Hs; cbn [exec]; [by intros [= <- <-]|].
  destruct (select t o s) as [[[s1|] more]|] eqn:E; [|by destruct l|done]. cbn [mbind option_bind].
  destruct (exec s1 l) as [[f more']|] eqn:El; [|done]. intros [= -> <-]. eapply IH; [|exact El].
  destruct o as [| |create name found|a]; simpl in E; simplify_eq; try done.
  - destruct found as [[|entries]|]; try done. destruct (create && negb (ignored name)); [|done].
    exact (watchTree_kept name (Dir entries) _ Hs).
  - destruct (st_rebuild s); [|done]. destruct (t <? _); [done|]. by destruct (restart a _) as [[? ?] ?]; simplify_eq.
Qed.

(** ** One server at a time *)

(** The processes that were started and not waited for. *)
Definition track (running : list Z) (a : action) : list Z :=
  match a with
  | Started pid => pid :: running
  | Waited pid => filter (fun p => p <> pid) running
  | _ => running
  end.
Definition alive (running : list Z) (l : list action) : list Z := foldl track running l.
Definition of_command (command : option Z) : list Z := from_option (fun pid => [pid]) [] command.
Definition serving (s : option state) : list Z := match s with Some s => of_command (st_command s) | None => [] end.

Lemma alive_app running a b : alive running (a ++ b) = alive (alive running a) b.
Proof. apply foldl_app. Qed.
Lemma alive_stop stubborn command : alive (of_command command) (stop stubborn command) = [].
Proof.
  destruct command as [pid|]; [|done]. unfold alive, stop. rewrite !foldl_app.
  destruct stubborn; simpl; by rewrite filter_cons_False; [|intros Hp; apply Hp].
Qed.
Lemma alive_restart a command r command' l :
  restart a command = (r, command', l) -> alive (of_command command) l = of_command command'.
Proof.
  unfold restart. destruct (at_build a); [|by intros [= <- <- <-]].
  destruct (at_start a); intros [= <- <- <-]; [|apply alive_stop]. by rewrite alive_app, alive_stop.
Qed.

Lemma alive_select t o s next l : select t o s = Some (next, l) -> alive (serving (Some s)) l = serving next.
Proof.
  destruct o as [stubborn| |create name found|a]; simpl; [|by intros [= <- <-]..|].
  - intros [= <- <-]. apply alive_stop.
  - destruct (st_rebuild s) as [deadline|]; [|done]. destruct (t <? deadline); [done|].
    destruct (restart a (st_command s)) as [[r command'] l'] eqn:E. intros [= <- <-]. by eapply alive_restart.
Qed.

(** Whatever happens, one server runs: the one the watcher holds; none is left when it ends. *)
Theorem one_server s l final actions :
  exec s l = Some (final, actions) -> alive (serving (Some s)) actions = serving final.
Proof.
  revert s final actions. induction l as [|[t o] l IH]; intros s final actions; cbn [exec]; [by intros [= <- <-]|].
  destruct (select t o s) as [[[s1|] more]|] eqn:E; [| |done]; apply alive_select in E; cbn [mbind option_bind].
  - destruct (exec s1 l) as [[f more']|] eqn:El; [|done]. intros [= <- <-].
    rewrite alive_app, E. by apply IH.
  - destruct l; [|done]. by intros [= <- <-].
Qed.

(** ** A pause before a build *)

Definition changes (o : occurrence) : bool := match o with Event _ name _ => relevant name | _ => false end.
Definition quiet (x : Time * occurrence) : Prop :=
  changes (snd x) = false /\ match snd x with Rebuild _ => False | _ => True end.

Lemma exec_snoc s l t o final actions : exec s (l ++ [(t, o)]) = Some (final, actions) ->
  exists s1 before more, exec s l = Some (Some s1, before) /\ select t o s1 = Some (final, more).
Proof.
  revert s actions. induction l as [|[t' o'] l IH]; intros s actions; cbn [exec app].
  - destruct (select t o s) as [[[s1|] more]|] eqn:E; [| |done]; simpl; intros [= <- <-];
      exists s, [], more; done.
  - destruct (select t' o' s) as [[[s1|] more]|] eqn:E; [| |done]; simpl.
    + destruct (exec s1 (l ++ [(t, o)])) as [[f more']|] eqn:El; [|done]. intros [= <- <-].
      apply IH in El as (s2 & before & more2 & E2 & Es). exists s2, (more ++ before), more2. by rewrite E2.
    + by destruct l.
Qed.

Lemma pending_since s l s1 before deadline :
  st_rebuild s = None -> exec s l = Some (Some s1, before) -> st_rebuild s1 = Some deadline ->
  exists l1 t o l2, l = l1 ++ (t, o) :: l2 /\ changes o = true /\ deadline = t + delay /\ Forall quiet l2.
Proof.
  intros Hs. revert s1 before deadline. induction l as [|[t o] l IH] using rev_ind; intros s1 before deadline.
  { intros [= <- <-]. by rewrite Hs. }
  intros (s2 & before2 & more & El & Es)%exec_snoc Hd.
  assert (changes o = false -> (st_rebuild s1 = st_rebuild s2 /\ match o with Rebuild _ => False | _ => True end)) as Hq.
  { intros Hc. destruct o as [| |create name found|a]; simpl in Es, Hc; [done|by injection Es as <- <-| |].
    - rewrite Hc in Es. by injection Es as <- <-.
    - destruct (st_rebuild s2) as [d|]; [|done]. destruct (t <? d); [done|].
      destruct (restart a (st_command s2)) as [[? ?] ?]. by injection Es as <- <-. }
  destruct (changes o) eqn:Hc.
  - exists l, t, o, []. repeat split; [done| |constructor].
    destruct o as [| |create name found|a]; simpl in Es, Hc; try done. rewrite Hc in Es.
    injection Es as <- <-. by injection Hd as <-.
  - destruct Hq as [Hk Hn]; [done|]. rewrite Hk in Hd.
    destruct (IH _ _ _ El Hd) as (l1 & t1 & o1 & l2 & -> & H1 & H2 & H3).
    exists l1, t1, o1, (l2 ++ [(t, o)]). rewrite <- app_assoc. repeat split; [done..|].
    apply Forall_app_2; [done|]. by repeat constructor.
Qed.

(** A build follows a change of a source, and no other change came in the 350 milliseconds
    before it. *)
Theorem builds_after_a_pause s l t a final actions :
  st_rebuild s = None -> exec s (l ++ [(t, Rebuild a)]) = Some (final, actions) ->
  exists l1 t0 o l2, l = l1 ++ (t0, o) :: l2 /\ changes o = true /\ t0 + delay <= t /\ Forall quiet l2.
Proof.
  intros Hs (s1 & before & more & El & Es)%exec_snoc. simpl in Es.
  destruct (st_rebuild s1) as [deadline|] eqn:Hd; [|done]. destruct (Z.ltb_spec t deadline); [done|].
  destruct (pending_since _ _ _ _ _ Hs El Hd) as (l1 & t0 & o & l2 & -> & Hc & -> & Hq).
  by exists l1, t0, o, l2.
Qed.

(** The program that a build writes is no source. *)
Lemma own_program_is_ignored : relevant binaryPath = false.
Proof. reflexivity. Qed.
End watching.
