(* ===== verification/BackupCommand.v ===== *)
(** * The backup command (cmd/minidock/backup.go)

    [minidock backup|seal|open|verify|restore|kms-export]: flags, the key of the backups, and
    the files.  Opening a SQLite file with its migrations, running a statement
    and the integrity check of the driver are parameters.  Zeroing memory is not represented. *)

From S2P Require Import Prelude GoStrings Json Net Base64 Security BackupFormat Host.
From S2P Require Import StoreTypes StoreSettings.

(** ** Flags (package flag) *)

(** The string flags and the boolean ones, by name, with their values. *)
Record flags := Flags { f_strings : gmap string string; f_bools : gmap string bool }.

Definition parse_bool (s : string) : option bool :=
  if bool_decide (s ∈ ["1"; "t"; "T"; "TRUE"; "true"; "True"]) then Some true
  else if bool_decide (s ∈ ["0"; "f"; "F"; "FALSE"; "false"; "False"]) then Some false
  else None.

(** The name and the value of [name=value]; the name is not empty. *)
Definition split_value (s : string) : string * option string :=
  match s with
  | String c rest => match cut rest "=" with
                     | Some (name, value) => (String c name, Some value)
                     | None => (s, None)
                     end
  | "" => ("", None)
  end.

(** [FlagSet.Parse]: the first argument that is not a flag, or [--], ends the flags. *)
Fixpoint parse_flags (fs : flags) (args : list string) : result flags :=
  match args with
  | [] => Ok fs
  | s :: args =>
    if (String.length s <? 2)%nat || negb (has_prefix s "-") || (s =? "--")%string then Ok fs else
    let name := drop_string (if has_prefix s "--" then 2 else 1) s in
    if has_prefix name "-" || has_prefix name "=" then Err (ErrMsg ("bad flag syntax: " +:+ s)) else
    let '(name, value) := split_value name in
    match f_bools fs !! name, f_strings fs !! name with
    | Some _, _ =>
      match value with
      | None => parse_flags (Flags (f_strings fs) (<[name := true]> (f_bools fs))) args
      | Some text =>
        match parse_bool text with
        | Some b => parse_flags (Flags (f_strings fs) (<[name := b]> (f_bools fs))) args
        | None => Err (ErrMsg ("invalid boolean value " +:+ quote text +:+ " for -" +:+ name +:+ ": parse error"))
        end
      end
    | None, Some _ =>
      match value, args with
      | Some text, _ => parse_flags (Flags (<[name := text]> (f_strings fs)) (f_bools fs)) args
      | None, text :: args => parse_flags (Flags (<[name := text]> (f_strings fs)) (f_bools fs)) args
      | None, [] => Err (ErrMsg ("flag needs an argument: -" +:+ name))
      end
    | None, None =>
      Err (ErrMsg (if (name =? "help")%string || (name =? "h")%string then "flag: help requested"
                   else "flag provided but not defined: -" +:+ name))
    end
  end.

Definition flag (fs : flags) (name : string) : string := default "" (f_strings fs !! name).

Definition command_flags : gmap string string :=
  list_to_map [("database", "./data/minidock.db"); ("kms-config", ""); ("file", ""); ("input", ""); ("output", "")].

(** ** The KMS configuration *)

(** A []byte: base64 without its line breaks, or an array of bytes. *)
Definition decode_bytes : decoder string := fun s j =>
  match j with
  | JStr text => StdDecoding (join "" (map (fun line => join "" (split_on "013" line)) (split_on "010" text)))
  | JNull => Some ""
  | JArr xs =>
    bytes ← decode_elements 0 decode_int xs;
    if forallb (fun n => (0 <=? n) && (n <? 256)) bytes
    then Some (foldr (fun n s => String (byte n) s) "" bytes) else None
  | _ => None
  end.

Definition kms_json (cfg : SecurityConfigT) : json :=
  JObj [("Salt", JStr (StdEncoding (sc_Salt cfg))); ("VerifierNonce", JStr (StdEncoding (sc_VerifierNonce cfg)));
        ("VerifierCipher", JStr (StdEncoding (sc_VerifierCipher cfg)))].

Definition decode_kms (text : string) : option SecurityConfigT :=
  j ← parse text;
  match j with
  | JNull => Some (MkSecurityConfig "" "" "")
  | JObj kvs =>
    salt ← decode_field "Salt" decode_bytes "" kvs;
    nonce ← decode_field "VerifierNonce" decode_bytes "" kvs;
    cipher ← decode_field "VerifierCipher" decode_bytes "" kvs;
    Some (MkSecurityConfig salt nonce cipher)
  | _ => None
  end.

(** ** The statement of a backup *)

Definition vacuum_statement (destPath : string) : string :=
  let escapedPath := replace_all destPath "'" "''" in "VACUUM INTO '" +:+ escapedPath +:+ "'".

Section command.
Context {H : Type} `{!Host H} `{!Crypto}.
Context (sqlite_open : string -> H -> result database * H)
  (sqlite_exec : database -> string -> H -> result unit * H)
  (sqlite_integrity : string -> H -> result string * H).

(** A part with a file: the machine is the state. *)
Abbreviation CM := (M H).

(** [store.Open]. *)
Definition Open_store (path : string) : CM database :=
  catch (step (host_mkdir_all (Net.Dir path))) (fun err => fail (ErrWrap "create database directory" err)) ;;
  step (sqlite_open path).

(** [Store.Backup]: one statement, with the path as a literal. *)
Definition Backup (db : database) (destPath : string) : CM unit :=
  step (sqlite_exec db (vacuum_statement destPath)).

(** A query of the database of a file. *)
Definition in_store {A} (db : database) (m : DB A) : CM A := fun w =>
  let '(r, u) := m (World db (w_faults w) (w_clock w) (w_ticks w)) in
  (r, World (w_state w) (w_faults u) (w_clock u) (w_ticks u)).

Definition IntegrityCheck (path : string) : CM unit :=
  answer ← step (sqlite_integrity path);
  if negb (answer =? "ok")%string then fail (ErrMsg ("sqlite integrity check: " +:+ answer)) else mret tt.

Definition backupKey (databasePath configPath password : string) : CM string :=
  cfg ← (if negb (configPath =? "")%string then
           data ← step (host_read_file configPath);
           match decode_kms data with
           | Some cfg => mret cfg
           | None => fail (ErrMsg "read KMS config")
           end
         else db ← Open_store databasePath; in_store db SecurityConfig);
  key ← lift (DeriveKey password (sc_Salt cfg));
  match ValidateKey key (sc_VerifierNonce cfg) (sc_VerifierCipher cfg) with
  | Err _ => fail (ErrMsg "KMS password rejected")
  | Ok _ => mret key
  end.

Definition exportKMSConfig (databasePath destination : string) : CM unit :=
  db ← Open_store databasePath;
  cfg ← in_store db SecurityConfig;
  step (host_write_file destination (marshal (kms_json cfg))).

Definition sealFile (random : result string) (databasePath configPath input destination password : string)
    : CM unit :=
  key ← backupKey databasePath configPath password;
  plain ← catch (step (host_read_file input)) (fun err => fail (ErrWrap "read input" err));
  encoded ← lift (Seal random key plain);
  step (host_write_file destination encoded).

Definition createBackup (random : result string) (databasePath destination password : string) : CM unit :=
  key ← backupKey databasePath "" password;
  db ← Open_store databasePath;
  step (host_mkdir_all (Net.Dir destination)) ;;
  tmp ← step (host_create_temp (Net.Dir destination) ".minidock-backup-*.db");
  ignore (step (host_close tmp)) ;;
  finally
    (Backup db tmp ;;
     plain ← step (host_read_file tmp);
     encoded ← lift (Seal random key plain);
     step (host_write_file destination encoded))
    (ignore (step (host_remove tmp))).

Definition verifySQLite (plain : string) : CM unit :=
  dir ← step (host_mkdir_temp "" "minidock-restore-verify-");
  finally
    (let path := Join dir "minidock.db" in
     step (host_write_file path plain) ;;
     _ ← catch (Open_store path) (fun err => fail (ErrWrap "open restored database" err));
     IntegrityCheck path)
    (ignore (step (host_remove_all dir))).

Definition restore (plain destination : string) : CM unit :=
  found ← attempt (step (host_stat destination));
  match found with
  | Ok true => fail (ErrMsg "restore destination already exists")
  | _ =>
    step (host_mkdir_all (Net.Dir destination)) ;;
    catch (step (host_write_file destination plain)) (fun err => fail (ErrWrap "write restored database" err))
  end.

(** The commands that read a backup. *)
Definition read_backup (command : string) (fs : flags) (destination password : string) : CM unit :=
  encoded ← catch (step (host_read_file (flag fs "file"))) (fun err => fail (ErrWrap "read backup" err));
  key ← backupKey (flag fs "database") (flag fs "kms-config") password;
  match Open key encoded with
  | Err err => fail (ErrWrap "authenticate backup" err)
  | Ok plain =>
    if (command =? "open")%string then
      if (flag fs "output" =? "")%string then fail (ErrMsg "--output is required for open") else
      catch (step (host_write_file (flag fs "output") plain)) (fun err => fail (ErrWrap "write decrypted file" err))
    else
    verifySQLite plain ;;
    if (command =? "verify")%string then mret tt
    else if negb (command =? "restore")%string then fail (ErrMsg "unknown backup command")
    else restore plain destination
  end.

Definition backupCommand (random : result string) (args : list string) (stdin : result string) : CM unit :=
  match args with
  | [] => fail (ErrMsg "usage: minidock backup|verify|restore|seal|open --database PATH --file PATH --password-stdin")
  | command :: args =>
    if (command =? "kms-export")%string then
      fs ← lift (parse_flags (Flags command_flags ∅) args);
      if (flag fs "file" =? "")%string then fail (ErrMsg "--file is required for kms-export")
      else exportKMSConfig (flag fs "database") (flag fs "file")
    else
    let restoring := (command =? "restore")%string in
    fs ← lift (parse_flags (Flags (if restoring then <["destination" := ""]> command_flags else command_flags)
                                  {["password-stdin" := false]}) args);
    let destination := flag fs (if restoring then "destination" else "database") in
    if (flag fs "file" =? "")%string || (flag fs "database" =? "")%string || (destination =? "")%string
       || negb (default false (f_bools fs !! "password-stdin"))
    then fail (ErrMsg "--file, --database, database/destination and --password-stdin are required") else
    password ← catch (lift stdin) (fun err => fail (ErrWrap "read password" err));
    let password := trim_space password in
    if (password =? "")%string then fail (ErrMsg "empty KMS password")
    else if (command =? "backup")%string then createBackup random (flag fs "database") (flag fs "file") password
    else if (command =? "seal")%string then
      if (flag fs "input" =? "")%string then fail (ErrMsg "--input is required for seal")
      else sealFile random (flag fs "database") (flag fs "kms-config") (flag fs "input") (flag fs "file") password
    else read_backup command fs destination password
  end.
End command.
