(* ===== verification/RestoreFacts.v ===== *)
(** * What the backup command guarantees

    The exported key configuration is read back as it was, and a restore only ever writes an
    authenticated database whose integrity was checked, to a place where there was none. *)

From S2P Require Import Prelude GoStrings Json JsonFacts Net Base64 Security BackupFormat Host.
From S2P Require Import StoreTypes StoreSettings BackupCommand.

(** ** Base64 *)

Lemma lor_sum a b k : 0 <= k -> 0 <= b < 2 ^ k -> Z.lor (Z.shiftl a k) b = a * 2 ^ k + b.
Proof.
  intros Hk Hb. rewrite Z.shiftl_mul_pow2 by done.
  assert (Z.land (a * 2 ^ k) b = 0) as Hland.
  { apply Z.bits_inj'. intros i Hi. rewrite Z.land_spec, Z.bits_0.
    destruct (Z.lt_ge_cases i k); [by rewrite Z.mul_pow2_bits_low|].
    rewrite <- (Z.mod_small b (2 ^ k)) by done. by rewrite Z.mod_pow2_bits_high, andb_false_r. }
  by rewrite <- Z.lxor_lor, Z.add_nocarry_lxor.
Qed.

Lemma byte_value_bounds c : 0 <= byte_value c < 256.
Proof. unfold byte_value. pose proof (Ascii.N_ascii_bounded c). lia. Qed.

Lemma byte_of_value n c : n = byte_value c -> byte_of n = c.
Proof. intros ->. unfold byte_of, byte_value. by rewrite N2Z.id, Ascii.ascii_N_embedding. Qed.

Lemma alphabet_value url n : 0 <= n < 64 ->
  digit_value url (alphabet url n) = Some n /\ alphabet url n <> "="%char.
Proof.
  intros Hn. set (ok n := bool_decide (digit_value url (alphabet url n) = Some n)
    && negb (Ascii.eqb (alphabet url n) "=")).
  assert (forallb ok (map Z.of_nat (seq 0 64)) = true) as Hall by (destruct url; vm_compute; reflexivity).
  rewrite forallb_forall in Hall. specialize (Hall n). unfold ok in Hall.
  apply andb_prop in Hall as [H1 H2]; [|apply in_map_iff; exists (Z.to_nat n); split; [lia|apply in_seq; lia]].
  split; [by apply bool_decide_eq_true in H1|]. apply negb_true_iff in H2. by apply Ascii.eqb_neq.
Qed.

(** The four digits of three bytes. *)
Lemma group_digits a b c :
  let n := Z.lor (Z.lor (Z.shiftl (byte_value a) 16) (Z.shiftl (byte_value b) 8)) (byte_value c) in
  let digit k := Z.land (Z.shiftr n k) 63 in
  (0 <= digit 18 < 64 /\ 0 <= digit 12 < 64 /\ 0 <= digit 6 < 64 /\ 0 <= digit 0 < 64)
  /\ byte_of (Z.lor (Z.shiftl (digit 18) 2) (Z.shiftr (digit 12) 4)) = a
  /\ byte_of (Z.lor (Z.shiftl (Z.land (digit 12) 15) 4) (Z.shiftr (digit 6) 2)) = b
  /\ byte_of (Z.lor (Z.shiftl (Z.land (digit 6) 3) 6) (digit 0)) = c.
Proof.
  pose proof (byte_value_bounds a) as Ha. pose proof (byte_value_bounds b) as Hb.
  pose proof (byte_value_bounds c) as Hc. set (A := byte_value a) in *. set (B := byte_value b) in *.
  set (C := byte_value c) in *. cbv zeta.
  assert (Z.lor (Z.lor (Z.shiftl A 16) (Z.shiftl B 8)) C = A * 65536 + B * 256 + C) as ->.
  { rewrite (lor_sum A (Z.shiftl B 8) 16) by (rewrite ?Z.shiftl_mul_pow2 by done; lia).
    rewrite Z.shiftl_mul_pow2 by done.
    replace (A * 2 ^ 16 + B * 2 ^ 8) with (Z.shiftl (A * 256 + B) 8) by (rewrite Z.shiftl_mul_pow2 by done; lia).
    rewrite lor_sum by lia. lia. }
  set (n := A * 65536 + B * 256 + C).
  assert (forall m k, 0 <= k -> Z.land m (2 ^ k - 1) = m mod 2 ^ k) as Hland.
  { intros m k Hk. rewrite <- Z.land_ones by done. by rewrite Z.ones_equiv, Z.sub_1_r. }
  change 63 with (2 ^ 6 - 1). change 15 with (2 ^ 4 - 1). change 3 with (2 ^ 2 - 1).
  rewrite !Hland, !Z.shiftr_div_pow2 by done.
  repeat rewrite lor_sum by (split_and?; lia || (Z.to_euclidean_division_equations; lia)).
  split_and!; try apply byte_of_value; subst n A B C; Z.to_euclidean_division_equations; lia.
Qed.

Lemma digit_parts url n : 0 <= n < 64 ->
  digit_value url (alphabet url n) = Some n /\ Ascii.eqb (alphabet url n) "=" = false.
Proof. intros [H1 H2]%(alphabet_value url). split; [done|by apply Ascii.eqb_neq]. Qed.

(** Decoding what was encoded, in both alphabets, with and without padding. *)
Lemma base64_round_trip url padded s : decode_groups url padded (encode_groups url padded s) = Some s.
Proof.
  enough (forall n s, (String.length s <= n)%nat -> decode_groups url padded (encode_groups url padded s) = Some s) as Hall
    by by apply (Hall (String.length s)).
  clear s. induction n as [|n IH]; intros s Hn; [by destruct s; [|simpl in Hn; lia]|].
  destruct s as [|a [|b [|c s]]]; [done| | |].
  - destruct (group_digits a "000" "000") as ((H1 & H2 & _) & Ea & _). cbv zeta in *.
    change (byte_value "000") with 0 in *. rewrite Z.lor_0_r in *. change (Z.shiftl 0 8) with 0 in *.
    rewrite Z.lor_0_r in *.
    apply (digit_parts url) in H1 as [D1 N1], H2 as [D2 N2].
    destruct padded; cbn [encode_groups decode_groups]; rewrite D1, D2; cbn; by rewrite Ea.
  - destruct (group_digits a b "000") as ((H1 & H2 & H3 & _) & Ea & Eb & _). cbv zeta in *.
    change (byte_value "000") with 0 in *. rewrite Z.lor_0_r in *.
    apply (digit_parts url) in H1 as [D1 N1], H2 as [D2 N2], H3 as [D3 N3].
    destruct padded; cbn [encode_groups decode_groups]; rewrite D1, D2; cbn; rewrite ?N3, D3; cbn; by rewrite Ea, Eb.
  - destruct (group_digits a b c) as ((H1 & H2 & H3 & H4) & Ea & Eb & Ec). cbv zeta in *.
    apply (digit_parts url) in H1 as [D1 N1], H2 as [D2 N2], H3 as [D3 N3], H4 as [D4 N4].
    cbn [encode_groups decode_groups]. rewrite D1, D2. cbn. rewrite N4, andb_false_r. cbn.
    rewrite D3. cbn. rewrite D4. cbn. rewrite IH by (simpl in Hn; lia). cbn. by rewrite Ea, Eb, Ec.
Qed.

(** ** The exported configuration *)

Lemma alphabet_plain n : 0 <= n < 64 -> is_space (alphabet false n) = false.
Proof.
  intros Hn. assert (forallb (fun n => negb (is_space (alphabet false n))) (map Z.of_nat (seq 0 64)) = true) as Hall
    by (vm_compute; reflexivity).
  rewrite forallb_forall in Hall. apply negb_true_iff, Hall, in_map_iff.
  exists (Z.to_nat n). split; [lia|apply in_seq; lia].
Qed.

(** No digit ends a line, so decoding does not drop any. *)
Lemma encoded_plain padded s : all_string (fun c => negb (is_space c)) (encode_groups false padded s) = true.
Proof.
  enough (forall n s, (String.length s <= n)%nat ->
    all_string (fun c => negb (is_space c)) (encode_groups false padded s) = true) as Hall
    by by apply (Hall (String.length s)).
  clear s. assert (forall n, negb (is_space (alphabet false (Z.land n 63))) = true) as Hdigit.
  { intros n. rewrite alphabet_plain; [done|]. change 63 with (Z.ones 6).
    rewrite Z.land_ones by done. by apply Z.mod_pos_bound. }
  induction n as [|n IH]; intros s Hn; [by destruct s; [|simpl in Hn; lia]|].
  destruct s as [|a [|b [|c s]]]; [done| | |]; cbn [encode_groups all_string]; rewrite !Hdigit;
    [by destruct padded..|].
  apply IH. simpl in Hn. lia.
Qed.

Lemma decode_encoded_bytes b s : decode_bytes b (JStr (StdEncoding s)) = Some s.
Proof.
  unfold decode_bytes, StdEncoding. pose proof (encoded_plain true s) as Hp.
  assert (forall a, is_space a = true -> without a (encode_groups false true s) = true) as Hw.
  { intros a Ha. refine (all_string_impl _ _ _ _ Hp). intros c Hc. apply negb_true_iff, Ascii.eqb_neq.
    intros ->. by rewrite Ha in Hc. }
  rewrite (split_single "010") by by apply Hw. cbn [map join].
  rewrite (split_single "013") by by apply Hw. apply base64_round_trip.
Qed.

(** C27: The KMS configuration that [minidock kms-export] writes is read back by the commands
    that take it, whatever bytes the salt and the verifier hold. *)
Theorem kms_config_round_trip cfg : decode_kms (marshal (kms_json cfg)) = Some cfg.
Proof.
  destruct cfg as [salt nonce cipher]. unfold decode_kms.
  rewrite parse_marshal by reflexivity. cbn [kms_json mbind option_bind sc_Salt sc_VerifierNonce sc_VerifierCipher].
  assert (forall name k b s kvs, decode_field name decode_bytes b ((k, JStr (StdEncoding s)) :: kvs)
    = if equal_fold k name then decode_field name decode_bytes s kvs else decode_field name decode_bytes b kvs) as Hf.
  { intros. cbn [decode_field]. by rewrite decode_encoded_bytes. }
  by rewrite !Hf.
Qed.

(** ** The statement of a backup *)

(** A SQL literal after its opening quote: its value, and what follows; a doubled quote is one. *)
Fixpoint sql_literal (s : string) : option (string * string) :=
  match s with
  | "" => None
  | String c s =>
    if Ascii.eqb c "'" then
      match s with
      | String c' s' => if Ascii.eqb c' "'" then '(v, rest) ← sql_literal s'; Some (String c' v, rest) else Some ("", s)
      | "" => Some ("", "")
      end
    else '(v, rest) ← sql_literal s; Some (String c v, rest)
  end.

Lemma escaped_literal s : sql_literal (replace_all s "'" "''" +:+ "'") = Some (s, "").
Proof.
  unfold replace_all. induction s as [|c s IH]; [done|]. cbn [replace_from].
  destruct (Ascii.eqb_spec c "'") as [->|Hc].
  - change (has_prefix (String "'" s) "'") with true. cbn [String.length Nat.sub String.append sql_literal].
    change (Ascii.eqb "'" "'") with true. cbv iota. by rewrite IH.
  - assert (has_prefix (String c s) "'" = false) as -> by (simpl; by destruct (Ascii.eqb_spec "'" c)).
    cbn [String.append sql_literal]. apply Ascii.eqb_neq in Hc. by rewrite Hc, IH.
Qed.

(** The path of a backup cannot leave its literal: whatever it holds, the statement is one
    VACUUM INTO of that path. *)
Theorem backup_statement_reads_back destPath : exists literal,
  vacuum_statement destPath = "VACUUM INTO '" +:+ literal /\ sql_literal literal = Some (destPath, "").
Proof.
  exists (replace_all destPath "'" "''" +:+ "'"). split; [done|apply escaped_literal].
Qed.

(** ** Restoring

    [content] is what the destination holds, if it exists; [apart] are the paths whose files
    are other than it.  What the file system and the driver promise about them. *)
Section restoring.
Context {H : Type} `{!Host H} `{!Crypto}.
Context (sqlite_open : string -> H -> result database * H)
  (sqlite_exec : database -> string -> H -> result unit * H)
  (sqlite_integrity : string -> H -> result string * H).
Context (content : H -> option string) (destination : string) (apart : string -> Prop).

Class Elsewhere : Prop := {
  read_elsewhere p h : content (snd (host_read_file p h)) = content h;
  stat_elsewhere p h : content (snd (host_stat p h)) = content h;
  mkdir_elsewhere p h : content (snd (host_mkdir_all p h)) = content h;
  temp_elsewhere p q h : content (snd (host_mkdir_temp p q h)) = content h;
  temp_apart p q h d h' : host_mkdir_temp p q h = (Ok d, h') -> apart d /\ apart (Join d "minidock.db");
  remove_elsewhere p h : apart p -> content (snd (host_remove_all p h)) = content h;
  write_elsewhere p s h : apart p -> content (snd (host_write_file p s h)) = content h;
  open_elsewhere p h : apart p -> content (snd (sqlite_open p h)) = content h;
  check_elsewhere p h : content (snd (sqlite_integrity p h)) = content h;
  written s h h' : host_write_file destination s h = (Ok tt, h') -> content h' = Some s;
  found h : content h <> None -> fst (host_stat destination h) = Ok true }.

Definition untouched : relation H := fun h h' => content h' = content h.
#[local] Instance untouched_preorder : PreOrder untouched.
Proof. split; unfold untouched; [done|intros x y z; congruence]. Qed.

(** [m] succeeds, or what the destination holds has changed. *)
Definition proceeds {A} (m : M H A) (w : world H) : Prop :=
  is_ok (eval m w) = true \/ ~ untouched (w_state w) (exec m w).

Lemma proceeds_bind {A B} (m : M H A) (k : A -> M H B) w :
  evolves untouched m -> proceeds (m ≫= k) w ->
  exists a w1, m w = (Ok a, w1) /\ (m ≫= k) w = k a w1
    /\ untouched (w_state w) (w_state w1) /\ proceeds (k a) w1.
Proof.
  intros Hm. specialize (Hm w). unfold proceeds, exec, eval, mbind, M_bind.
  destruct (m w) as [[a|err] w1]; simpl in *; [|by intros [|[]]].
  intros Hp. exists a, w1. split_and!; [done..|]. destruct Hp as [Hp|Hp]; [by left|right].
  intros Hu. apply Hp. by etrans.
Qed.

Lemma proceeds_fail {A} err w : ~ proceeds (fail err : M H A) w.
Proof. intros [Hp|Hp]; [done|]. by apply Hp. Qed.

Context `{!Elsewhere}.

Ltac elsewhere :=
  evolve; try (unfold untouched; eauto using read_elsewhere, stat_elsewhere, mkdir_elsewhere,
    temp_elsewhere, remove_elsewhere, write_elsewhere, open_elsewhere, check_elsewhere).

Lemma in_store_untouched {A} db (m : DB A) : evolves untouched (in_store db m).
Proof. intros w. unfold in_store. destruct (m _). by unfold untouched. Qed.

Lemma in_store_faultless {A} db (m : DB A) :
  faultless (S := database) m -> faultless (S := H) (in_store db m).
Proof. intros Hm w Hw. specialize (Hm (World db (w_faults w) (w_clock w) (w_ticks w)) Hw). unfold in_store. by destruct (m _). Qed.

Lemma backupKey_faultless databasePath configPath password :
  faultless (backupKey sqlite_open databasePath configPath password).
Proof. unfold backupKey, Open_store. repeat faultless_step. apply in_store_faultless, faultless_step. Qed.

Lemma verifySQLite_faultless plain : faultless (verifySQLite sqlite_open sqlite_integrity plain).
Proof. unfold verifySQLite, Open_store, IntegrityCheck. repeat faultless_step. Qed.

Lemma Open_store_untouched path : apart path -> evolves untouched (Open_store sqlite_open path).
Proof. intros Hp. unfold Open_store. elsewhere. Qed.

Lemma backupKey_untouched databasePath configPath password :
  apart databasePath -> evolves untouched (backupKey sqlite_open databasePath configPath password).
Proof.
  intros Hp. unfold backupKey. elsewhere; [by apply Open_store_untouched|apply in_store_untouched].
Qed.

(** The plain database was written to a directory of its own, opened there, and found intact. *)
Definition intact (plain : string) : Prop :=
  exists dir h db h1 h2 h3 h4, let path := Join dir "minidock.db" in
    host_write_file path plain h = (Ok tt, h1) /\ host_mkdir_all (Net.Dir path) h1 = (Ok tt, h2)
    /\ sqlite_open path h2 = (Ok db, h3) /\ sqlite_integrity path h3 = (Ok "ok", h4).

Lemma verifySQLite_untouched plain : evolves untouched (verifySQLite sqlite_open sqlite_integrity plain).
Proof.
  refine (evolves_bind_value _ _ _ _ _); [elsewhere|].
  intros dir (w & w1 & [Hdir Hfile]%step_run%temp_apart). unfold IntegrityCheck. elsewhere.
  by apply Open_store_untouched.
Qed.

Lemma verifySQLite_intact plain w w' :
  verifySQLite sqlite_open sqlite_integrity plain w = (Ok tt, w') -> intact plain.
Proof.
  unfold verifySQLite, IntegrityCheck, Open_store. intros (dir & w1 & _ & Hrun)%bind_run.
  apply finally_run in Hrun as (w2 & Hrun & _).
  apply bind_run in Hrun as ([] & w3 & Hwrite%step_run & Hrun).
  apply bind_run in Hrun as (db & w4 & Hopen & Hrun).
  apply catch_cases in Hopen as [(? & Hopen & [= <-])|(err & w5 & _ & Hf)]; [|done].
  apply bind_run in Hopen as ([] & w5 & Hmkdir & Hopen%step_run).
  apply catch_cases in Hmkdir as [([] & Hmkdir%step_run & _)|(err & w6 & _ & Hf)]; [|done].
  apply bind_run in Hrun as (answer & w6 & Hcheck%step_run & Hrun).
  destruct (String.eqb_spec answer "ok") as [->|]; [|done]. unfold intact.
  by eauto 12.
Qed.

(** What a restore of [plain] from [encoded] rests on. *)
Definition authenticated (password encoded plain : string) : Prop :=
  exists cfg key, DeriveKey password (sc_Salt cfg) = Ok key
    /\ ValidateKey key (sc_VerifierNonce cfg) (sc_VerifierCipher cfg) = Ok tt
    /\ Open key encoded = Ok plain.

Lemma backupKey_run databasePath configPath password w key w' :
  backupKey sqlite_open databasePath configPath password w = (Ok key, w') ->
  exists cfg, DeriveKey password (sc_Salt cfg) = Ok key
    /\ ValidateKey key (sc_VerifierNonce cfg) (sc_VerifierCipher cfg) = Ok tt.
Proof.
  unfold backupKey. intros (cfg & w1 & _ & (k & w2 & Hk & Hrun)%bind_run)%bind_run. exists cfg.
  unfold lift in Hk. apply pair_equal_spec in Hk as [-> _].
  destruct (ValidateKey _ _ _) as [[]|] eqn:Hv; [|done]. apply ret_run in Hrun as [-> _]. done.
Qed.

Lemma restore_proceeds plain w :
  proceeds (restore plain destination) w ->
  (w_faults w = [] -> content (w_state w) = None)
  /\ (is_ok (eval (restore plain destination) w) = true ->
      content (exec (restore plain destination) w) = Some plain).
Proof.
  intros Hp. split.
  - intros Hf. destruct (content (w_state w)) as [s|] eqn:Hs; [exfalso|done].
    unfold restore in Hp. apply proceeds_bind in Hp as (r & w1 & Hr%attempt_run & _ & _ & Hp); [|elsewhere].
    unfold step, step_with, next_fault in Hr. rewrite Hf in Hr.
    pose proof (found (w_state w)) as Hfound. rewrite Hs in Hfound. specialize (Hfound ltac:(done)).
    destruct (host_stat _ _). simpl in Hfound. subst. injection Hr as <- <-. by apply proceeds_fail in Hp.
  - unfold eval, exec. destruct (restore plain destination w) as [[[]|err] w'] eqn:E; [|done]. intros _.
    simpl. unfold restore in E. apply bind_run in E as (r & w1 & _ & E).
    assert (forall w, (step (host_mkdir_all (Net.Dir destination)) ;;
      catch (step (host_write_file destination plain)) (fun err => fail (ErrWrap "write restored database" err))) w
        = (Ok tt, w') -> content (w_state w') = Some plain) as Hrest.
    { intros v ([] & v1 & _ & Hw)%bind_run.
      apply catch_cases in Hw as [([] & Hw%step_run%written & _)|(err & v2 & _ & Hf)]; done. }
    destruct r as [[]|]; [done|by apply Hrest in E..].
Qed.

(** Reading a backup to restore it. *)
Lemma read_restores fs password w :
  apart (flag fs "database") ->
  let m := read_backup sqlite_open sqlite_integrity "restore" fs destination password in
  proceeds m w ->
  exists encoded plain,
    (exists h, fst (host_read_file (flag fs "file") h) = Ok encoded)
    /\ authenticated password encoded plain /\ intact plain
    /\ (w_faults w = [] -> content (w_state w) = None)
    /\ (is_ok (eval m w) = true -> content (exec m w) = Some plain).
Proof.
  intros Hdb m Hp. unfold m, read_backup, exec, eval in *. clear m.
  apply proceeds_bind in Hp as (encoded & w1 & E & Em & U1 & Hp); [|elsewhere]. rewrite Em. clear Em.
  pose proof (fun Hm => faultless_pair _ _ _ _ Hm E) as F1.
  apply catch_cases in E as [(? & E%step_run & [= <-])|(err & w2 & _ & Hf)]; [|done].
  apply proceeds_bind in Hp as (key & w2 & K & Em & U2 & Hp); [|by apply backupKey_untouched].
  rewrite Em. clear Em. pose proof (faultless_pair _ _ _ _ (backupKey_faultless _ _ _) K) as F2.
  apply backupKey_run in K as (cfg & Hkey & Hvalid).
  destruct (Open key encoded) as [plain|] eqn:Hopen; [|by apply proceeds_fail in Hp].
  simpl (_ =? _)%string in *. cbv iota in *.
  apply proceeds_bind in Hp as ([] & w3 & V & Em & U3 & Hp); [|apply verifySQLite_untouched].
  rewrite Em. clear Em. simpl (negb _) in *. cbv iota in *.
  pose proof (faultless_pair _ _ _ _ (verifySQLite_faultless _) V) as F3. apply verifySQLite_intact in V.
  assert (untouched (w_state w) (w_state w3)) as U by (by repeat (etrans; [eassumption|])).
  apply restore_proceeds in Hp as [Hc Ho]. exists encoded, plain. split_and!; [|by exists cfg, key|done| |done].
  - exists (w_state w). by rewrite E.
  - intros Hf. rewrite <- U. apply Hc.
    apply F3, F2, F1; [repeat faultless_step|done].
Qed.

(** C12: [minidock restore] succeeds, or touches its destination at all, only for a backup that
    it authenticated: what it read opened under the key derived from the trimmed password, the
    key was the one the configuration verifies, and the database it holds was written aside,
    opened and found intact.  Nothing was there before, unless the look for it was itself hit by
    a fault, and after a success the destination holds exactly the authenticated database. *)
Theorem restore_only_authenticated random args fs stdin w :
  parse_flags (Flags (<["destination" := ""]> command_flags) {["password-stdin" := false]}) args = Ok fs ->
  flag fs "destination" = destination -> apart (flag fs "database") ->
  let m := backupCommand sqlite_open sqlite_exec sqlite_integrity random ("restore" :: args) stdin in
  is_ok (eval m w) = true \/ content (exec m w) <> content (w_state w) ->
  exists password encoded plain,
    stdin = Ok password /\ (exists h, fst (host_read_file (flag fs "file") h) = Ok encoded)
    /\ authenticated (trim_space password) encoded plain /\ intact plain
    /\ (w_faults w = [] -> content (w_state w) = None)
    /\ (is_ok (eval m w) = true -> content (exec m w) = Some plain).
Proof.
  intros Hflags Hdest Hdb m Hp. change (proceeds m w) in Hp.
  unfold m, backupCommand in *. clear m. simpl (_ =? _)%string in *. cbv zeta iota in *.
  apply proceeds_bind in Hp as (fs' & w1 & E & Em & U1 & Hp); [|elsewhere].
  unfold lift in E. rewrite Hflags in E. injection E as <- <-. unfold exec, eval. rewrite Em. clear Em U1.
  rewrite Hdest in *. destruct (_ || _); [by apply proceeds_fail in Hp|].
  apply proceeds_bind in Hp as (password & w1 & E & Em & U1 & Hp); [|elsewhere]. rewrite Em. clear Em.
  apply catch_cases in E as [(? & E & [= <-])|(err & w2 & _ & Hf)]; [|done].
  unfold lift in E. apply pair_equal_spec in E as [-> <-].
  destruct (_ =? _)%string; [by apply proceeds_fail in Hp|]. simpl (_ =? _)%string in *. cbv iota in *.
  apply read_restores in Hp as (encoded & plain & ? & ? & ? & ? & ?); [|done..].
  by exists password, encoded, plain.
Qed.
End restoring.

(** ** A file system, for the example *)

Abbreviation disk := (gmap string string).

Definition read_disk (path : string) (files : disk) : result string * disk :=
  (match files !! path with Some s => Ok s | None => Err ErrNotExist end, files).

#[local] Instance disk_host : Host disk := {
  host_exec _ d := (Err (ErrMsg "no such command"), d);
  host_look_path _ d := (Err (ErrMsg "not found"), d);
  host_getenv _ _ := "";
  host_http _ d := (Err (ErrMsg "no network"), d);
  host_stat path d := (match d !! path with Some _ => Ok true | None => Ok false end, d);
  host_is_socket _ d := (Ok false, d);
  host_read_dir _ d := (Ok [], d);
  host_eval_symlinks path d := (Ok path, d);
  host_mkdir_all _ d := (Ok tt, d);
  host_read_tree path d := (Ok (Dir path []), d);
  host_read_file := read_disk;
  host_chmod _ _ d := (Ok tt, d);
  host_close _ d := (Ok tt, d);
  host_size _ d := (Ok 0, d);
  host_write_file path s d := (Ok tt, <[path := s]> d);
  host_create_temp directory _ d := (Ok (directory +:+ "/tmp.1"), d);
  host_remove path d := (Ok tt, delete path d);
  host_mkdir_temp _ _ d := (Ok "/tmp/verify.1", d);
  host_remove_all path d := (Ok tt, delete (Join path "minidock.db") d);
  host_open_append _ d := (Ok tt, d);
  host_open _ d := (Ok tt, d);
  host_statfs _ d := (Ok (Space (2 ^ 40) 100 50), d);
  host_mkdir _ d := (Ok tt, d);
  host_entries _ d := (Ok [], d);
  host_is_dir _ d := (Ok true, d);
  host_certificates _ d := (Ok [], d);
  host_hostname d := (Ok "minidock", d);
  host_getwd d := (Ok "/app", d);
  host_lookup_cname name d := (Ok (name +:+ "."), d) }.

Definition sample_open (path : string) (d : disk) : result database * disk := (Ok database0, d).
Definition sample_vacuum (db : database) (statement : string) (d : disk) : result unit * disk := (Ok tt, d).
Definition sample_check (path : string) (d : disk) : result string * disk :=
  (match d !! path with Some _ => Ok "ok" | None => Ok "file is not a database" end, d).

Definition restored : string := "/srv/minidock.db".

(** Every other path is apart, but the place where the database is verified. *)
Lemma disk_elsewhere :
  Elsewhere sample_open sample_check (fun d => d !! restored) restored
    (fun p => p <> restored /\ Join p "minidock.db" <> restored).
Proof.
  split; simpl; try done.
  - intros _ _ h d h' [= <- _]. by vm_compute.
  - intros p h [_ Hp]. by rewrite lookup_delete_ne.
  - intros p s h [Hp _]. by rewrite lookup_insert_ne.
  - intros s h h' [= <-]. by rewrite lookup_insert_eq.
  - intros h Hh. unfold restored in *. by destruct (h !! _).
Qed.

Definition sample_kms : SecurityConfigT :=
  MkSecurityConfig blank_tag "nonce-12-byt" (verifier +:+ blank_tag).

Definition sample_disk : disk :=
  {["/etc/kms.json" := marshal (kms_json sample_kms);
    "/backups/daily.mdbk" := match Seal (Ok "nonce-12-byt") zero_key "the database" with Ok s => s | Err _ => "" end]}.

Definition sample_args : list string :=
  ["--file=/backups/daily.mdbk"; "-kms-config"; "/etc/kms.json"; "--destination"; restored; "--password-stdin"].

Definition sample_flags : flags :=
  match parse_flags (Flags (<["destination" := ""]> command_flags) {["password-stdin" := false]}) sample_args with
  | Ok fs => fs
  | Err _ => Flags ∅ ∅
  end.

Lemma restore_only_authenticated_witness :
  exists (m : M disk unit) w password encoded plain, w_faults w = [] /\ is_ok (eval m w) = true
    /\ authenticated (trim_space password) encoded plain
    /\ w_state w !! restored = None /\ exec m w !! restored = Some plain.
Proof.
  pose (w := calm sample_disk 0).
  pose (m := backupCommand sample_open sample_vacuum sample_check (Ok "nonce") ("restore" :: sample_args)
    (Ok (" secret" +:+ String "010" ""))).
  assert (is_ok (eval m w) = true) as Hok by (vm_compute; reflexivity).
  assert (parse_flags (Flags (<["destination" := ""]> command_flags) {["password-stdin" := false]}) sample_args
    = Ok sample_flags) as Hfs by (vm_compute; reflexivity).
  assert (flag sample_flags "destination" = restored) as Hd by (vm_compute; reflexivity).
  assert (flag sample_flags "database" = "./data/minidock.db") as Hb by (vm_compute; reflexivity).
  destruct (@restore_only_authenticated disk _ _ sample_open sample_vacuum sample_check (fun d => d !! restored)
    restored (fun p => p <> restored /\ Join p "minidock.db" <> restored) disk_elsewhere (Ok "nonce") sample_args sample_flags
    (Ok (" secret" +:+ String "010" "")) w Hfs Hd) as (password & encoded & plain & _ & _ & Ha & _ & Hnone & Hsome).
  - rewrite Hb. split; [discriminate|]. intros E. vm_compute in E. discriminate E.
  - by left.
  - exists m, w, password, encoded, plain. split_and!; [done|done|done|by apply Hnone|by apply Hsome].
Defined.
