(* ===== verification/StoreApplications.v ===== *)
(** * Applications, health evidence and alerts of the store (internal/store/store.go) *)

From S2P Require Import Prelude GoStrings StoreTypes.

(** ** Applications *)

(** The two [UNIQUE] columns. *)
Definition unique_applications (t : list Application) : result unit :=
  if negb (bool_decide (NoDup (map a_Name t))) then Err (unique_failed "applications.name")
  else if negb (bool_decide (NoDup (map a_Domain t))) then Err (unique_failed "applications.domain")
  else Ok tt.

Definition push_and_confirm (deployOnPush requireConfirmation : bool) : bool :=
  deployOnPush && requireConfirmation.

(** The row is stored with the time of the insertion; the value the code returns keeps the
    [CreatedAt] it was given. *)
Definition CreateApplication (application : Application) : DB Application :=
  if push_and_confirm (a_DeployOnPush application) (a_RequireConfirmation application)
  then fail (ErrMsg "push deployments require production confirmation to be disabled") else
  t ← now;
  id ← step (fun db =>
    let id := next_rowid a_ID (t_applications db) in
    let rows := t_applications db ++ [application <| a_ID := id |> <| a_CreatedAt := t |>] in
    match unique_applications rows with
    | Ok _ => (Ok id, db <| t_applications := rows |>)
    | Err e => (Err e, db)
    end);
  mret (application <| a_ID := id |>).

Definition Applications : DB (list Application) :=
  query (fun db => Ok (order_by_name a_Name (t_applications db))).

Definition Application (id : Z) : DB StoreTypes.Application :=
  query (fun db => match select_where (fun a => a_ID a =? id) (t_applications db) with
                   | a :: _ => Ok a
                   | [] => Err ErrNotFound
                   end).

(** [UPDATE applications SET f WHERE id = ?], not found when no row matches. *)
Definition update_application (id : Z) (f : StoreTypes.Application -> StoreTypes.Application) : DB unit :=
  step (fun db =>
    let p a := a_ID a =? id in
    let rows := update_where p f (t_applications db) in
    match unique_applications rows with
    | Ok _ => if (count_where p (t_applications db) =? 0)%nat then (Err ErrNotFound, db)
              else (Ok tt, db <| t_applications := rows |>)
    | Err e => (Err e, db)
    end).

Definition UpdateApplicationAutomation (applicationID : Z)
    (deployOnPush requireConfirmation autoRollback : bool) : DB unit :=
  if push_and_confirm deployOnPush requireConfirmation
  then fail (ErrMsg "push deployments require production confirmation to be disabled") else
  update_application applicationID (fun a =>
    a <| a_DeployOnPush := deployOnPush |> <| a_RequireConfirmation := requireConfirmation |>
      <| a_AutoRollback := autoRollback |>).

Definition UpdateApplicationDomain (applicationID : Z) (domain : string) : DB unit :=
  update_application applicationID (fun a => a <| a_Domain := domain |>).

(** ** Scheduled cleanup *)

Definition AutomationSettings : DB string :=
  query (fun db => Ok (default "manual" (t_automation db))).

Definition UpdateCleanupSchedule (schedule : string) : DB unit :=
  if negb ((schedule =? "manual")%string || (schedule =? "daily")%string || (schedule =? "weekly")%string)
  then fail (ErrMsg "invalid cleanup schedule") else
  update (fun db => db <| t_automation := Some schedule |>).

(** ** Health evidence *)

Definition UpsertHealthEvidence (evidence : HealthEvidenceT) : DB unit :=
  step (fun db =>
    if has_application db (h_ApplicationID evidence) then
      (Ok tt, db <| t_health := <[h_ApplicationID evidence := HealthRow
         (h_InternalStatus evidence) (nullTime (h_InternalCheckedAt evidence))
         (h_RouteStatus evidence) (nullTime (h_RouteCheckedAt evidence))
         (h_ExternalStatus evidence) (nullTime (h_ExternalCheckedAt evidence))
         (h_ExternalObserver evidence) (h_ExternalHTTPStatus evidence)
         (h_ExternalDetail evidence)]> (t_health db) |>)
    else (Err foreign_key_failed, db)).

(** A NULL column scanned into a [time.Time] field is an error of [Scan]. *)
Definition scan_time (column : string) (value : option Time) : result Time :=
  match value with
  | Some t => Ok t
  | None => Err (ErrWrap ("sql: Scan error on column " +:+ column)
                   (ErrMsg "unsupported Scan, storing driver.Value type <nil> into type *time.Time"))
  end.

Definition HealthEvidence (applicationID : Z) : DB HealthEvidenceT :=
  query (fun db =>
    match t_health db !! applicationID with
    | None => Ok (MkHealthEvidence applicationID "" "" "" 0 0 0 "" "" 0)
    | Some r =>
      internal ← scan_time "internal_checked_at" (hr_internal_checked_at r);
      route ← scan_time "route_checked_at" (hr_route_checked_at r);
      external ← scan_time "external_checked_at" (hr_external_checked_at r);
      Ok (MkHealthEvidence applicationID (hr_internal_status r) (hr_route_status r)
            (hr_external_status r) internal route external (hr_external_observer r)
            (hr_external_detail r) (hr_external_http_status r))
    end).

Definition RecordRouteProbe (applicationID : Z) (success : bool) (checkedAt : Time) (observer : string)
    (status : Z) (detail : string) : DB unit :=
  step (fun db =>
    if has_application db applicationID then
      (Ok tt, db <| t_probes := t_probes db
        ++ [ProbeRow (next_rowid p_id (t_probes db)) applicationID success checkedAt observer status detail] |>)
    else (Err foreign_key_failed, db)).

(** Successful and total probes; the code reports their ratio as a percentage, and 0
    when there is none. *)
Definition RoutingSLO (since : Time) : DB (nat * nat) :=
  query (fun db =>
    let recent := select_where (fun p => since <=? p_checked_at p) (t_probes db) in
    Ok (count_where p_success recent, length recent)).

(** ** Alerts *)

(** SQLite's [LIKE]: case is ignored for ASCII letters, [%] is any text and [_] one
    UTF-8 character. *)
Definition continuation (c : ascii) : bool := ascii_in "128" "191" c.
Fixpoint skip_character (s : string) : string :=
  match s with
  | String c s' => if continuation c then skip_character s' else s
  | "" => ""
  end.
Definition lead (c : ascii) : bool := ascii_in "192" "255" c.
Fixpoint like (pattern : string) (s : string) {struct pattern} : bool :=
  match pattern with
  | "" => (s =? "")%string
  | String p pattern =>
    if Ascii.eqb p "%" then
      (fix any (s : string) : bool :=
         like pattern s || match s with String _ s => any s | "" => false end) s
    else match s with
         | "" => false
         | String c s =>
           if Ascii.eqb p "_" then like pattern (if lead c then skip_character s else s)
           else Ascii.eqb (lower_ascii p) (lower_ascii c) && like pattern s
         end
  end.

(** [ORDER BY key DESC] where rows with the same key keep the table's order. *)
Fixpoint insert_desc {A} (key : A -> Z) (x : A) (xs : list A) : list A :=
  match xs with
  | [] => [x]
  | y :: ys => if key x <=? key y then y :: insert_desc key x ys else x :: xs
  end.
Definition order_desc {A} (key : A -> Z) (xs : list A) : list A :=
  fold_left (fun acc x => insert_desc key x acc) xs [].

Definition GetActiveAlerts : DB (list AlertRow) :=
  query (fun db => Ok (order_desc al_CreatedAt (select_where (fun a => negb (al_Resolved a)) (t_alerts db)))).

Definition GetResolvedAlerts : DB (list AlertRow) :=
  query (fun db => Ok (take 50 (order_desc (fun a => scanNullTime (al_ResolvedAt a))
    (select_where al_Resolved (t_alerts db))))).

(** [application_id = ?], or [IS NULL] when no application is given. *)
Definition about (appID : option Z) (a : AlertRow) : bool := bool_decide (al_ApplicationID a = appID).

Definition UpsertAlert (severity message : string) (appID depID : option Z) : DB unit :=
  exists_ ← query (fun db => Ok (existsb
    (fun a => negb (al_Resolved a) && (al_Message a =? message)%string && about appID a) (t_alerts db)));
  if (exists_ : bool) then mret tt else
  t ← now;
  step (fun db =>
    if match appID with Some id => has_application db id | None => true end
       && match depID with Some id => has_deployment db id | None => true end
    then (Ok tt, db <| t_alerts := t_alerts db
           ++ [MkAlert (next_rowid al_ID (t_alerts db)) severity message appID depID false t None] |>)
    else (Err foreign_key_failed, db)).

Definition resolve (t : Time) (a : AlertRow) : AlertRow :=
  a <| al_Resolved := true |> <| al_ResolvedAt := Some t |>.

Definition ResolveAlert (appID : option Z) (messagePrefix : string) : DB unit :=
  t ← now;
  update (fun db => db <| t_alerts := update_where
    (fun a => negb (al_Resolved a) && about appID a && like (messagePrefix +:+ "%") (al_Message a))
    (resolve t) (t_alerts db) |>).

Definition ResolveAllAlertsExcept (activeAlertMessages : list string) : DB unit :=
  t ← now;
  update (fun db => db <| t_alerts := update_where
    (fun a => negb (al_Resolved a) && negb (bool_decide (al_Message a ∈ activeAlertMessages)))
    (resolve t) (t_alerts db) |>).
