(* ===== verification/StoreAccess.v ===== *)
(** * Access control of the store (internal/store/store.go)

    Replay protection and rate limits of webhooks, password lockouts, enrolled nodes,
    federated identities and roles, and the Cloudflare row. *)

From S2P Require Import Prelude GoStrings StoreTypes.

(** ** Webhooks *)

(** [ON CONFLICT DO NOTHING]: true when the row is new. *)
Definition ClaimWebhookDelivery (provider deliveryHash : string) : DB bool :=
  t ← now;
  step (fun db =>
    match t_deliveries db !! (provider, deliveryHash) with
    | Some _ => (Ok false, db)
    | None => (Ok true, db <| t_deliveries := <[(provider, deliveryHash) := t]> (t_deliveries db) |>)
    end).

(** The upsert of a fixed window: an expired window restarts at one request. *)
Definition count_request (t window : Z) (row : option (Time * Z)) : Time * Z :=
  match row with
  | None => (t, 1)
  | Some (started, requests) => if started <=? t - window then (t, 1) else (started, requests + 1)
  end.

Definition AllowWebhookRequest (scope : string) (limit : Z) (window : Duration) : DB bool :=
  if (scope =? "")%string || (limit <? 1) || (window <=? 0)
  then fail (ErrMsg "invalid webhook rate limit") else
  t ← now;
  update (fun db => db <| t_rate_limits :=
    <[scope := count_request t window (t_rate_limits db !! scope)]> (t_rate_limits db) |>) ;;
  requests ← query (fun db => match t_rate_limits db !! scope with
                              | Some (_, requests) => Ok requests
                              | None => Err (ErrMsg "sql: no rows in result set")
                              end);
  mret (requests <=? limit).

(** ** Password lockouts *)

Definition unlock_scope_required : error := ErrMsg "unlock scope is required".

(** [until.Valid && until.Time.After(now)]. *)
Definition locked_at (now : Time) (row : option (Z * option Time)) : option Time :=
  match row with
  | Some (_, Some until) => if now <? until then Some until else None
  | _ => None
  end.

Definition UnlockLockoutUntil (scope : string) (now : Time) : DB Time :=
  if (scope =? "")%string then fail unlock_scope_required else
  query (fun db => Ok (default 0 (locked_at now (t_unlock db !! scope)))).

Definition RegisterFailedUnlock (scope : string) (now : Time) : DB Time :=
  if (scope =? "")%string then fail unlock_scope_required else
  transaction (
    row ← query (fun db => Ok (t_unlock db !! scope));
    match locked_at now row with
    | Some until => mret until
    | None =>
      let failures := match row with Some (n, _) => n | None => 0 end + 1 in
      let '(failures, lockedUntil) :=
        if 5 <=? failures then (0, now + 5 * Minute) else (failures, 0) in
      update (fun db => db <| t_unlock := <[scope := (failures, nullTime lockedUntil)]> (t_unlock db) |>) ;;
      mret lockedUntil
    end).

Definition ClearUnlockFailures (scope : string) : DB unit :=
  if (scope =? "")%string then fail unlock_scope_required else
  update (fun db => db <| t_unlock := delete scope (t_unlock db) |>).

(** ** Nodes *)

Definition UpsertNode (node : Node) : DB unit :=
  if (n_ID node =? "")%string || (n_Name node =? "")%string || (n_Version node =? "")%string
     || (n_CertificateFingerprint node =? "")%string
  then fail (ErrMsg "node identity, name, version and certificate fingerprint are required") else
  t ← now;
  changed ← step (fun db =>
    match t_nodes db !! n_ID node with
    | Some row =>
      if (n_CertificateFingerprint row =? n_CertificateFingerprint node)%string
      then (Ok true, db <| t_nodes := <[n_ID node :=
              MkNode (n_ID node) (n_Name node) (n_Version node) (n_Capabilities node)
                (n_CertificateFingerprint row) (n_CreatedAt row) t]> (t_nodes db) |>)
      else (Ok false, db)
    | None => (Ok false, db)
    end);
  if (changed : bool) then mret tt else
  known ← query (fun db => Ok (bool_decide (is_Some (t_nodes db !! n_ID node))));
  if (known : bool)
  then fail (ErrMsg "node certificate fingerprint does not match enrolled identity") else
  step (fun db =>
    match t_nodes db !! n_ID node with
    | Some _ => (Err (unique_failed "nodes.id"), db)
    | None => (Ok tt, db <| t_nodes := <[n_ID node :=
        MkNode (n_ID node) (n_Name node) (n_Version node) (n_Capabilities node)
          (n_CertificateFingerprint node) t t]> (t_nodes db) |>)
    end).

(** [ORDER BY name, id]. *)
Definition Nodes : DB (list Node) :=
  query (fun db => Ok (order_by_name n_Name (order_by_name n_ID (map snd (map_to_list (t_nodes db)))))).

(** ** Identities and roles *)

Definition UpsertFederatedIdentity (identity : FederatedIdentity) : DB Z :=
  if (fi_ProviderID identity =? "")%string || (fi_Subject identity =? "")%string
  then fail (ErrMsg "provider and subject are required") else
  let key := (fi_ProviderID identity, fi_Subject identity) in
  transaction (
    known ← query (fun db => Ok (fst <$> t_identities db !! key));
    userID ← match known with
             | Some userID =>
               update (fun db => db <| t_users := update_where (fun u => u_id u =? userID)
                 (fun u => u <| u_email := fi_Email identity |>
                             <| u_display_name := fi_DisplayName identity |>) (t_users db) |>) ;;
               mret userID
             | None =>
               t ← now;
               userID ← step (fun db =>
                 let id := next_rowid u_id (t_users db) in
                 (Ok id, db <| t_users := t_users db
                   ++ [UserRow id (fi_Email identity) (fi_DisplayName identity) t None] |>));
               t ← now;
               step (fun db =>
                 match t_identities db !! key with
                 | Some _ =>
                   (Err (unique_failed "federated_identities.provider_id, federated_identities.subject"), db)
                 | None =>
                   if bool_decide (is_Some (t_providers db !! fi_ProviderID identity))
                      && has_user db userID
                   then (Ok tt, db <| t_identities := <[key := (userID, t)]> (t_identities db) |>)
                   else (Err foreign_key_failed, db)
                 end) ;;
               mret userID
             end;
    t ← now;
    step (fun db =>
      if has_user db userID then
        (Ok tt, db <| t_identity_audit := t_identity_audit db
          ++ [IdentityAuditRow (next_rowid ia_id (t_identity_audit db)) userID "federated_login" t] |>)
      else (Err foreign_key_failed, db)) ;;
    mret userID).

Definition roles : list string :=
  [RoleViewer; RoleOperator; RoleDeployer; RoleAdmin; RoleSecurityAdmin].

(** [INSERT OR IGNORE] ignores a second binding; an unknown user is still a foreign key
    failure. *)
Definition SetRole (userID : Z) (role : string) : DB unit :=
  if negb (bool_decide (role ∈ roles)) then fail (ErrMsg "invalid role") else
  t ← now;
  step (fun db =>
    if negb (has_user db userID) then (Err foreign_key_failed, db) else
    match t_roles db !! (userID, role) with
    | Some _ => (Ok tt, db)
    | None => (Ok tt, db <| t_roles := <[(userID, role) := t]> (t_roles db) |>)
    end).

(** ** Cloudflare *)

Definition CloudflareConfig : DB CloudflareConfigT :=
  row ← query (fun db => Ok (t_cloudflare db));
  match row with
  | Some cfg => mret cfg
  | None => t ← now; mret (MkCloudflareConfig "disabled" "" "" "" "disabled" 0 "" t)
  end.

Definition SaveCloudflareConfig (cfg : CloudflareConfigT) : DB unit :=
  t ← now;
  update (fun db => db <| t_cloudflare := Some (cfg <| cf_UpdatedAt := t |>) |>).

Definition UpdateCloudflareStatus (status errorMessage : string) : DB unit :=
  t ← now;
  update (fun db => db <| t_cloudflare := (fun cfg =>
    cfg <| cf_Status := status |> <| cf_ErrorMessage := errorMessage |>
        <| cf_LastHealthCheck := t |> <| cf_UpdatedAt := t |>) <$> t_cloudflare db |>).
