(* ===== verification/AccessFacts.v ===== *)
(** * What the access control of the store guarantees

    How many passwords and how many webhooks an origin can try, replayed deliveries,
    enrolled nodes and federated identities, and the separation of secrets and public
    configuration. *)

From S2P Require Import Prelude GoStrings StoreTypes StoreSettings StoreApplications StoreAccess.

(** ** Guessing the password *)

Definition lockout : Duration := 5 * Minute.

(** The row after a guess at [t] that was tried. *)
Definition guessed (t : Time) (row : option (Z * option Time)) : Z * option Time :=
  let failures := match row with Some (n, _) => n | None => 0 end + 1 in
  if 5 <=? failures then (0, Some (t + lockout)) else (failures, None).

(** What the store answers and records while nothing fails: the row of the scope is the only one
    that changes, and time does not pass. *)
Lemma register_calm scope t db c ts : scope <> "" -> 0 < t -> locked_at t (t_unlock db !! scope) = None ->
  exists until, RegisterFailedUnlock scope t (World db [] c ts)
    = (Ok until, World (db <| t_unlock := <[scope := guessed t (t_unlock db !! scope)]> (t_unlock db) |>) [] c ts).
Proof.
  intros Hs Ht El. apply String.eqb_neq in Hs. unfold RegisterFailedUnlock. rewrite Hs. run_code. rewrite El.
  unfold guessed, lockout. destruct (5 <=? _); simpl; [|by eexists].
  unfold nullTime, IsZero. rewrite (proj2 (Z.eqb_neq _ _)); [by eexists|].
  unfold Minute, Second, Millisecond. lia.
Qed.

(** After [tried] passwords since [t0]: each lockout took five of them, and the next one
    waits for its end. *)
Definition throttled (t0 t tried : Z) (row : option (Z * option Time)) : Prop :=
  match row with
  | None => tried = 0 /\ t0 <= t
  | Some (n, Some until) => n = 0 /\ exists k, 1 <= k /\ tried = 5 * k /\ t0 + lockout * k <= until
      /\ t0 + lockout * (k - 1) <= t
  | Some (n, None) => 1 <= n <= 4 /\ exists k, 0 <= k /\ tried = 5 * k + n /\ t0 + lockout * k <= t
  end.

Lemma throttled_guess t0 t t' tried row :
  throttled t0 t tried row -> t <= t' -> locked_at t' row = None ->
  throttled t0 t' (tried + 1) (Some (guessed t' row)).
Proof.
  assert (0 < lockout) as Hl by (unfold lockout, Minute, Second, Millisecond; lia).
  unfold throttled, guessed, locked_at. intros Hr Htt Hn.
  destruct row as [[n [until|]]|]; simpl in *.
  - destruct (Z.ltb_spec t' until); [done|]. destruct Hr as (-> & k & Hk & -> & Hu & _). simpl.
    split; [lia|]. exists k. lia.
  - destruct Hr as (Hn' & k & Hk & -> & Hu). destruct (Z.leb_spec 5 (n + 1)).
    + split; [done|]. exists (k + 1). replace (k + 1 - 1) with k by lia. lia.
    + split; [lia|]. exists k. lia.
  - destruct Hr as [-> Ht]. split; [lia|]. exists 0. lia.
Qed.

Lemma throttled_wait t0 t t' tried row :
  throttled t0 t tried row -> t <= t' -> throttled t0 t' tried row.
Proof. unfold throttled. intros Hr Ht. destruct row as [[n [until|]]|]; naive_solver lia. Qed.

Lemma throttled_bound t0 t tried row :
  throttled t0 t tried row -> tried <= 5 * ((t - t0) / lockout + 1).
Proof.
  assert (0 < lockout) as Hl by (unfold lockout, Minute, Second, Millisecond; lia).
  assert (forall k, t0 + lockout * k <= t -> k <= (t - t0) / lockout) as Hdiv
    by (intros k Hk; apply Z.div_le_lower_bound; lia).
  unfold throttled. intros Hr. destruct row as [[n [until|]]|].
  - destruct Hr as (_ & k & Hk & -> & _ & Ht%Hdiv). lia.
  - destruct Hr as (Hn & k & Hk & -> & Ht%Hdiv). lia.
  - destruct Hr as [-> Ht]. pose proof (Z.div_pos (t - t0) lockout). lia.
Qed.

(** ** Webhook rates *)

(** [n] calls one after another, and how many of them were let through. *)
Fixpoint requests (scope : string) (limit : Z) (window : Duration) (n : nat) : DB Z :=
  match n with
  | O => mret 0
  | S n =>
    allowed ← attempt (AllowWebhookRequest scope limit window);
    k ← requests scope limit window n;
    mret (k + match allowed with Ok true => 1 | _ => 0 end)
  end.

Section rates.
Context (scope : string) (limit : Z) (window : Duration).
Hypotheses (Hscope : scope <> "") (Hlimit : 1 <= limit) (Hwindow : 0 < window).

Abbreviation rate_row w := (t_rate_limits (w_state w) !! scope).

(** Every call either leaves the row alone or counts itself; one that is let through
    counted itself within the limit. *)
Lemma allow_effect w : forward w ->
  let '(r, w') := AllowWebhookRequest scope limit window w in
  forward w' /\ w_clock w <= w_clock w'
  /\ (rate_row w' = rate_row w /\ r <> Ok true
      \/ rate_row w' = Some (count_request (w_clock w') window (rate_row w))
         /\ (r = Ok true -> snd (count_request (w_clock w') window (rate_row w)) <= limit)).
Proof.
  intros Hf. unfold AllowWebhookRequest.
  rewrite (proj2 (String.eqb_neq _ _) Hscope), (proj2 (Z.ltb_ge _ _)), (proj2 (Z.leb_gt _ _)) by lia.
  cbn [orb]. destruct (now_clock w Hf) as (t & w1 & E & Ht & E1 & Hf1).
  unfold mbind at 1, M_bind. rewrite E. pose proof (now_run _ _ _ E) as Hs. rewrite <- Hs.
  clear E Hs Hf. subst t. unfold update, query, step, step_with, mbind, M_bind, next_fault.
  unfold forward in *.
  destruct w1 as [db faults c ticks]. cbn [w_state w_faults w_clock w_ticks] in *.
  remember (count_request c window (t_rate_limits db !! scope)) as row eqn:Erow.
  destruct faults as [|[|m|m] [|[|m'|m'] fs]]; cbn; rewrite ?lookup_insert_eq, <- ?Erow;
    destruct row as [started n]; cbn; rewrite <- ?Erow.
  all: split; [done|].
  all: split; [done|].
  all: rewrite ?lookup_insert_eq.
  all: try (by left).
  all: right; split; [done|]; cbn; try done; try (by intros [= Hle%Z.leb_le]).
Qed.

(** After [n] requests let through since [t0]: the window of the row is the [k]-th that
    was opened, and each of them let through [limit] requests at most. *)
Definition metered (t0 t n : Z) (row : option (Time * Z)) : Prop :=
  match row with
  | None => n = 0 /\ t0 <= t
  | Some (started, r) => exists k, 0 <= k /\ t0 + window * k <= started <= t /\ 1 <= r
      /\ n <= limit * k + Z.min r limit
  end.

Lemma metered_wait t0 t t' n row : metered t0 t n row -> t <= t' -> metered t0 t' n row.
Proof. unfold metered. intros Hr Ht. destruct row as [[started r]|]; naive_solver lia. Qed.

Lemma metered_count t0 t t' n row (allowed : bool) :
  metered t0 t n row -> t <= t' ->
  (allowed = true -> snd (count_request t' window row) <= limit) ->
  metered t0 t' (n + if allowed then 1 else 0) (Some (count_request t' window row)).
Proof.
  unfold metered, count_request. intros Hr Ht Ha. destruct row as [[started r]|].
  - destruct Hr as (k & Hk & Hs & Hr & Hn). destruct (Z.leb_spec started (t' - window)).
    + exists (k + 1). destruct allowed; lia.
    + exists k. destruct allowed; simpl in *; [specialize (Ha eq_refl)|]; lia.
  - exists 0. destruct allowed; lia.
Qed.

Lemma metered_bound t0 t n row : metered t0 t n row -> n <= limit * ((t - t0) / window + 1).
Proof.
  unfold metered. intros Hr. destruct row as [[started r]|].
  - destruct Hr as (k & Hk & Hs & _ & Hn).
    assert (k <= (t - t0) / window) as Hd by (apply Z.div_le_lower_bound; lia). nia.
  - destruct Hr as [-> Ht]. pose proof (Z.div_pos (t - t0) window). nia.
Qed.

Lemma requests_metered t0 count : forall w n, forward w -> metered t0 (w_clock w) n (rate_row w) ->
  let '(r, w') := requests scope limit window count w in
  exists k, r = Ok k /\ metered t0 (w_clock w') (n + k) (rate_row w').
Proof.
  induction count as [|count IH]; intros w n Hf Hm; [exists 0; by rewrite Z.add_0_r|].
  cbn [requests]. unfold mbind, M_bind, attempt. pose proof (allow_effect w Hf) as He.
  destruct (AllowWebhookRequest scope limit window w) as [r w1]. destruct He as (Hf1 & Hc & Hrow).
  set (allowed := match r with Ok true => true | _ => false end).
  assert (metered t0 (w_clock w1) (n + if allowed then 1 else 0) (rate_row w1)) as Hm1.
  { destruct Hrow as [[-> Hr]|[-> Hr]].
    - replace (n + _) with n by (destruct r as [[]|]; simpl; [done|lia..]). by eapply metered_wait.
    - apply (metered_count _ (w_clock w)); [done|done|]. intros Ha. apply Hr. by destruct r as [[]|]. }
  specialize (IH w1 _ Hf1 Hm1). destruct (requests scope limit window count w1) as [r2 w2].
  destruct IH as (k & -> & Hm2). eexists. split; [done|].
  replace (n + (k + _)) with (n + (if allowed then 1 else 0) + k); [done|].
  destruct r as [[]|]; simpl; lia.
Qed.
End rates.

(** C32: signed webhooks cannot be processed faster than the limit.  For a scope that was not seen
    before, one call after the other, while the clock does not go back and whatever fails,
    of any number of requests at most [limit] are let through per window, plus
    the window that is open. *)
Theorem webhooks_are_throttled scope limit window count w :
  scope <> "" -> 1 <= limit -> 0 < window -> forward w -> t_rate_limits (w_state w) !! scope = None ->
  let '(r, w') := requests scope limit window count w in
  exists k, r = Ok k /\ k <= limit * ((w_clock w' - w_clock w) / window + 1).
Proof.
  intros Hs Hl Hw Hf Hr.
  pose proof (requests_metered scope limit window Hs Hl Hw (w_clock w) count w 0 Hf) as Hm.
  rewrite Hr in Hm. specialize (Hm (conj eq_refl (Z.le_refl _))).
  destruct (requests _ _ _ _ _) as [r w']. destruct Hm as (k & -> & Hm). exists k. split; [done|].
  by apply metered_bound in Hm.
Qed.

Definition burst : world database :=
  World database0 [NoFault; NoFault; FailAfter "disk"] 5 [1; 1; 1; 70; 1].

Lemma webhooks_are_throttled_witness :
  eval (requests "github:1" 2 60 5) burst = Ok 3
  /\ let '(r, w') := requests "github:1" 2 60 5 burst in
     exists k, r = Ok k /\ k <= 2 * ((w_clock w' - w_clock burst) / 60 + 1).
Proof.
  split; [vm_compute; reflexivity|].
  apply (webhooks_are_throttled "github:1" 2 60 5 burst); [discriminate|lia|lia| |reflexivity].
  repeat constructor; lia.
Defined.

(** ** What no operation takes back *)

Inductive access_op :=
  | OpClaim (provider hash : string)
  | OpAllow (scope : string) (limit : Z) (window : Duration)
  | OpFailedUnlock (scope : string) (now : Time)
  | OpClearUnlock (scope : string)
  | OpNode (node : Node)
  | OpIdentity (identity : FederatedIdentity)
  | OpRole (userID : Z) (role : string)
  | OpCloudflare (cfg : CloudflareConfigT)
  | OpCloudflareStatus (status message : string).

Definition run_access (op : access_op) : DB unit :=
  match op with
  | OpClaim provider hash => ignore (ClaimWebhookDelivery provider hash)
  | OpAllow scope limit window => ignore (AllowWebhookRequest scope limit window)
  | OpFailedUnlock scope t => ignore (RegisterFailedUnlock scope t)
  | OpClearUnlock scope => ignore (ClearUnlockFailures scope)
  | OpNode node => ignore (UpsertNode node)
  | OpIdentity identity => ignore (UpsertFederatedIdentity identity)
  | OpRole userID role => ignore (SetRole userID role)
  | OpCloudflare cfg => ignore (SaveCloudflareConfig cfg)
  | OpCloudflareStatus status message => ignore (UpdateCloudflareStatus status message)
  end.

(** Claimed deliveries stay claimed, enrolled nodes keep their certificate, and an
    identity keeps its user. *)
Record enrolled (db db' : database) : Prop := {
  enrolled_deliveries : forall key, is_Some (t_deliveries db !! key) -> is_Some (t_deliveries db' !! key);
  enrolled_nodes : forall id n, t_nodes db !! id = Some n -> exists n', t_nodes db' !! id = Some n'
    /\ n_CertificateFingerprint n' = n_CertificateFingerprint n /\ n_CreatedAt n' = n_CreatedAt n;
  enrolled_identities : forall key user t, t_identities db !! key = Some (user, t) ->
    t_identities db' !! key = Some (user, t) }.

#[export] Instance enrolled_preorder : PreOrder enrolled.
Proof.
  split.
  - intros db. by split; eauto.
  - intros a b c [Hd1 Hn1 Hi1] [Hd2 Hn2 Hi2]. split; [by auto| |by auto].
    intros id n (n1 & Hn & Hf & Hc)%Hn1. apply Hn2 in Hn as (n2 & Hn & Hf2 & Hc2).
    exists n2. split; [done|]. split; congruence.
Qed.

(** A write of the other tables. *)
Lemma enrolled_same db db' :
  t_deliveries db' = t_deliveries db -> t_nodes db' = t_nodes db -> t_identities db' = t_identities db ->
  enrolled db db'.
Proof. intros Hd Hn Hi. split; rewrite ?Hd, ?Hn, ?Hi; eauto. Qed.

Lemma enrolled_identity db key v :
  t_identities db !! key = None -> enrolled db (db <| t_identities := <[key := v]> (t_identities db) |>).
Proof.
  intros Hk. split; [by eauto..|]. intros key' user t Hu. cbn.
  rewrite lookup_insert_ne; [done|]. intros ->. congruence.
Qed.

Lemma enrolled_delivery db key t : enrolled db (db <| t_deliveries := <[key := t]> (t_deliveries db) |>).
Proof.
  split; [|by eauto|by eauto]. intros key' Hk. cbn.
  destruct (decide (key' = key)) as [->|]; [by rewrite lookup_insert_eq|by rewrite lookup_insert_ne].
Qed.

Lemma enrolled_node db id row :
  (forall n, t_nodes db !! id = Some n ->
     n_CertificateFingerprint row = n_CertificateFingerprint n /\ n_CreatedAt row = n_CreatedAt n) ->
  enrolled db (db <| t_nodes := <[id := row]> (t_nodes db) |>).
Proof.
  intros Hr. split; [done| |by eauto]. intros id' n Hn. cbn.
  destruct (decide (id' = id)) as [->|]; [rewrite lookup_insert_eq; eauto|].
  rewrite lookup_insert_ne by done. eauto.
Qed.

Lemma run_access_enrolled op : evolves enrolled (run_access op).
Proof.
  destruct op; cbn [run_access];
    unfold ClaimWebhookDelivery, AllowWebhookRequest, RegisterFailedUnlock, ClearUnlockFailures,
      UpsertNode, UpsertFederatedIdentity, SetRole, SaveCloudflareConfig, UpdateCloudflareStatus;
    evolve; cbn; repeat case_match; cbn; try (by apply enrolled_same).
  - apply enrolled_delivery.
  - apply enrolled_node. intros n' Hn. simplify_eq. done.
  - apply enrolled_node. intros n' Hn. congruence.
  - by apply enrolled_identity.
Qed.

Definition run_accesses (ops : list access_op) : DB unit := for_each ops run_access.

Lemma run_accesses_enrolled ops : evolves enrolled (run_accesses ops).
Proof. apply evolves_for_each; [exact _|]. apply run_access_enrolled. Qed.

(** A webhook delivery is accepted once.  After a delivery was claimed, no sequence of
    operations of this component, under any faults, lets it be claimed again. *)
Theorem delivery_claimed_once provider hash w w1 ops w2 :
  ClaimWebhookDelivery provider hash w = (Ok true, w1) ->
  snd (run_accesses ops w1) = w2 ->
  eval (ClaimWebhookDelivery provider hash) w2 <> Ok true.
Proof.
  intros E Ew2 Hagain%eval_run.
  assert (is_Some (t_deliveries (w_state w2) !! (provider, hash))) as [t Ht].
  { rewrite <- Ew2. apply (enrolled_deliveries _ _ (run_accesses_enrolled ops w1)).
    apply bind_run in E as (t & w' & _ & E%step_run). destruct (t_deliveries _ !! _); [done|].
    injection E as <-. cbn. by rewrite lookup_insert_eq. }
  apply bind_run in Hagain as (t' & w' & Hn%now_run & E'%step_run). by rewrite Hn, Ht in E'.
Qed.

Lemma delivery_claimed_once_witness :
  exists w1, ClaimWebhookDelivery "github" "d1" (calm database0 7) = (Ok true, w1)
  /\ eval (ClaimWebhookDelivery "github" "d1") (snd (run_accesses [OpClaim "github" "d2"] w1)) <> Ok true.
Proof.
  eexists. split; [vm_compute; reflexivity|].
  eapply (delivery_claimed_once "github" "d1" (calm database0 7) _ [OpClaim "github" "d2"]);
    [vm_compute; reflexivity|reflexivity].
Defined.

(** A database that enrolled the node under another certificate does not change. *)
Definition refuses (node : Node) : relation database := fun db db' =>
  (exists n, t_nodes db !! n_ID node = Some n
     /\ n_CertificateFingerprint n <> n_CertificateFingerprint node) -> db' = db.

#[export] Instance refuses_preorder node : PreOrder (refuses node).
Proof. split; [by intros ??|]. intros a b c Hab Hbc Ha. specialize (Hab Ha) as ->. auto. Qed.

Lemma upsert_refused node : evolves (refuses node) (UpsertNode node).
Proof.
  unfold UpsertNode. evolve; intros (n & Hn & Hf); rewrite Hn; [|done].
  by rewrite (proj2 (String.eqb_neq _ _) Hf).
Qed.

Lemma upsert_error node w w' n :
  t_nodes (w_state w) !! n_ID node = Some n -> n_CertificateFingerprint n <> n_CertificateFingerprint node ->
  UpsertNode node w <> (Ok tt, w').
Proof.
  intros Hn Hf. unfold UpsertNode. destruct (_ || _); [done|].
  intros (t & w1 & E1%now_run & (changed & w2 & E2%step_run & E)%bind_run)%bind_run.
  rewrite E1, Hn, (proj2 (String.eqb_neq _ _) Hf) in E2. injection E2 as <- Es2.
  apply bind_run in E as (known & w3 & [[= <-] _]%query_run & E). by rewrite <- Es2, Hn in E.
Qed.

(** An enrolled node cannot be taken over.  Whatever operations run, the certificate
    recorded for a node stays, and a heartbeat under another certificate is refused
    without a trace. *)
Theorem node_identity_pinned db0 n ops w node :
  t_nodes db0 !! n_ID node = Some n -> snd (run_accesses ops (calm db0 0)) = w ->
  n_CertificateFingerprint node <> n_CertificateFingerprint n ->
  (exists n', t_nodes (w_state w) !! n_ID node = Some n'
     /\ n_CertificateFingerprint n' = n_CertificateFingerprint n)
  /\ eval (UpsertNode node) w <> Ok tt
  /\ exec (UpsertNode node) w = w_state w.
Proof.
  intros Hn <- Hf. set (w := snd _).
  destruct (enrolled_nodes _ _ (run_accesses_enrolled ops (calm db0 0)) _ _ Hn) as (n' & Hn' & Hf' & _).
  fold w in Hn'. split; [by exists n'|]. split.
  - intros E%eval_run. apply (upsert_error _ _ _ _ Hn') in E; [done|congruence].
  - apply (upsert_refused node w). exists n'. split; [done|congruence].
Qed.

Definition sample_node (fingerprint : string) : Node := MkNode "n1" "edge" "1.0.0" [] fingerprint 0 0.

Lemma node_identity_pinned_witness :
  let db := exec (UpsertNode (sample_node "aa")) (calm database0 5) in
  eval (UpsertNode (sample_node "bb")) (snd (run_accesses [OpNode (sample_node "cc")] (calm db 0))) <> Ok tt.
Proof.
  refine (proj1 (proj2 (node_identity_pinned _ (MkNode "n1" "edge" "1.0.0" [] "aa" 5 5)
    [OpNode (sample_node "cc")] _ (sample_node "bb") _ eq_refl _))); [vm_compute; reflexivity|discriminate].
Defined.

(** ** Secrets and public configuration *)

Lemma split_scope applicationID environment target :
  without ":" environment = true ->
  split_on ":" (applicationSecretScope applicationID environment target)
  = "application" :: itoa applicationID :: environment :: split_on ":" target.
Proof.
  intros He. unfold applicationSecretScope.
  change ("application:" +:+ ?x) with ("application" +:+ String ":" x).
  rewrite split_line by done.
  change (":" +:+ ?x) with (String ":" x).
  rewrite split_line by (by apply itoa_without). f_equal. f_equal.
  change (":" +:+ target) with (String ":" target). by rewrite split_line.
Qed.

Lemma valid_pair environment target :
  validEnvironmentAndTarget environment target = true ->
  without ":" environment = true /\ without ":" target = true.
Proof.
  unfold validEnvironmentAndTarget. intros [[->%String.eqb_eq| ->%String.eqb_eq]%orb_prop
    [->%String.eqb_eq| ->%String.eqb_eq]%orb_prop]%andb_prop; done.
Qed.

(** Applications, environments and targets do not share a scope. *)
Lemma scope_injective a e t a' e' t' :
  validEnvironmentAndTarget e t = true -> validEnvironmentAndTarget e' t' = true ->
  applicationSecretScope a e t = applicationSecretScope a' e' t' -> a = a' /\ e = e' /\ t = t'.
Proof.
  intros [He Ht]%valid_pair [He' Ht']%valid_pair E.
  apply (f_equal (split_on ":")) in E. rewrite !split_scope, !split_single in E by done.
  injection E as Ha -> ->. by apply (inj pretty) in Ha.
Qed.

Inductive settings_op :=
  | OpPutSecret (app : Z) (environment target name nonce ciphertext : string)
  | OpDeleteSecret (app : Z) (environment target name : string)
  | OpUseSecrets (app : Z) (environment target : string) (names : list string)
  | OpPutConfiguration (app : Z) (environment target name value : string)
  | OpDeleteConfiguration (app : Z) (environment target name : string).

Definition run_setting (op : settings_op) : DB unit :=
  match op with
  | OpPutSecret a e t n nonce c => ignore (PutApplicationSecret a e t n nonce c)
  | OpDeleteSecret a e t n => ignore (DeleteApplicationSecret a e t n)
  | OpUseSecrets a e t names => ignore (RecordSecretUse a e t names)
  | OpPutConfiguration a e t n v => ignore (PutApplicationConfiguration a e t n v)
  | OpDeleteConfiguration a e t n => ignore (DeleteApplicationConfiguration a e t n)
  end.

(** No name is both a secret and a public value, and public values have a valid place. *)
Definition disjoint_names (db : database) : Prop :=
  forall a e t n v, t_configuration db !! (a, e, t, n) = Some v ->
    validEnvironmentAndTarget e t = true /\ t_secrets db !! (applicationSecretScope a e t, n) = None.

Lemma keeps_audit a e t n action : evolves (keeps disjoint_names) (insert_secret_audit a e t n action).
Proof. unfold insert_secret_audit. evolve. by destruct (has_application _ _); intros Hd; exact Hd. Qed.

Lemma disjoint_put_secret a e t n nonce c db now :
  validEnvironmentAndTarget e t = true -> t_configuration db !! (a, e, t, n) = None ->
  disjoint_names db ->
  disjoint_names (db <| t_secrets := <[(applicationSecretScope a e t, n) := SecretRow nonce c now]>
    (t_secrets db) |>).
Proof.
  intros Hv Hc Hd a' e' t' n' v Hv'.
  change (t_configuration db !! (a', e', t', n') = Some v) in Hv'.
  destruct (Hd _ _ _ _ _ Hv') as [Hvalid Hs]. split; [done|]. cbn. rewrite lookup_insert_ne; [done|]. intros Hk.
  pose proof (f_equal fst Hk) as E. pose proof (f_equal snd Hk) as En. cbn [fst snd] in E, En.
  apply scope_injective in E as (<- & <- & <-); [|done|done]. subst n'. congruence.
Qed.

Lemma disjoint_delete_secret db key :
  disjoint_names db -> disjoint_names (db <| t_secrets := delete key (t_secrets db) |>).
Proof.
  intros Hd a e t n v Hv. destruct (Hd _ _ _ _ _ Hv) as [Hvalid Hs]. split; [done|]. cbn.
  destruct (decide (key = (applicationSecretScope a e t, n))) as [->|];
    [by rewrite lookup_delete_eq|by rewrite lookup_delete_ne].
Qed.

Lemma disjoint_put_configuration a e t n v db :
  validEnvironmentAndTarget e t = true -> t_secrets db !! (applicationSecretScope a e t, n) = None ->
  disjoint_names db ->
  disjoint_names (db <| t_configuration := <[(a, e, t, n) := v]> (t_configuration db) |>).
Proof.
  intros Hv Hs Hd a' e' t' n' v'. cbn.
  destruct (decide ((a, e, t, n) = (a', e', t', n'))) as [[= -> -> -> ->]|Hk];
    [by rewrite lookup_insert_eq|rewrite lookup_insert_ne by done; apply Hd].
Qed.

Lemma disjoint_delete_configuration db key :
  disjoint_names db -> disjoint_names (db <| t_configuration := delete key (t_configuration db) |>).
Proof.
  intros Hd a e t n v. cbn. intros [_ Hv]%lookup_delete_Some. exact (Hd _ _ _ _ _ Hv).
Qed.

Lemma put_secret_disjoint a e t n nonce c :
  evolves (keeps disjoint_names) (PutApplicationSecret a e t n nonce c).
Proof.
  unfold PutApplicationSecret. destruct (validEnvironmentAndTarget e t) eqn:Hv; cbn [negb]; [|evolve_step].
  refine (proj1 (hoare_keeps _ _) _). eapply (hoare_bind _ (fun b db => (b = false -> t_configuration db !! (a, e, t, n) = None)
    /\ disjoint_names db)).
  { apply hoare_query. intros db Hd. split; [|done]. split; [|done].
    intros Hb%bool_decide_eq_false. by apply eq_None_not_Some. }
  intros [|]; [by apply hoare_fail; intros db [_ Hd]|].
  eapply (hoare_bind _ (fun _ db => t_configuration db !! (a, e, t, n) = None /\ disjoint_names db)).
  { apply hoare_query. intros db [Hc Hd]. auto. }
  intros exists_. eapply (hoare_bind _ (fun _ => disjoint_names)); [|intros _; refine (proj2 (hoare_keeps _ _) _); apply keeps_audit].
  unfold PutSecret. eapply (hoare_bind _ (fun _ db => t_configuration db !! (a, e, t, n) = None /\ disjoint_names db)).
  { apply hoare_now. auto. }
  intros now. apply hoare_step. intros db [Hc Hd].
  pose proof (disjoint_put_secret a e t n nonce c db now Hv Hc Hd). auto.
Qed.

Lemma put_configuration_disjoint a e t n v :
  evolves (keeps disjoint_names) (PutApplicationConfiguration a e t n v).
Proof.
  unfold PutApplicationConfiguration. destruct (validEnvironmentAndTarget e t) eqn:Hv; cbn [negb]; [|evolve_step].
  refine (proj1 (hoare_keeps _ _) _). eapply (hoare_bind _ (fun b db =>
    (b = false -> t_secrets db !! (applicationSecretScope a e t, n) = None) /\ disjoint_names db)).
  { apply hoare_query. intros db Hd. split; [|done]. split; [|done].
    intros Hb%bool_decide_eq_false. by apply eq_None_not_Some. }
  intros [|]; [by apply hoare_fail; intros db [_ Hd]|].
  eapply (hoare_bind _ (fun _ db => t_secrets db !! (applicationSecretScope a e t, n) = None /\ disjoint_names db)).
  { apply hoare_now. intros db _ [Hs Hd]. auto. }
  intros now. apply hoare_step. intros db [Hs Hd]. destruct (has_application _ _); [|by auto].
  pose proof (disjoint_put_configuration a e t n (v, now) db Hv Hs Hd). auto.
Qed.

Lemma run_setting_disjoint op : evolves (keeps disjoint_names) (run_setting op).
Proof.
  destruct op; cbn [run_setting]; apply evolves_ignore; try exact _.
  - apply put_secret_disjoint.
  - unfold DeleteApplicationSecret. evolve; [|apply keeps_audit].
    destruct (t_secrets _ !! _); [|by intros ?]. intros Hd. by apply disjoint_delete_secret.
  - apply evolves_for_each; [exact _|]. intros name. apply keeps_audit.
  - apply put_configuration_disjoint.
  - unfold DeleteApplicationConfiguration. evolve.
    destruct (t_configuration _ !! _); [|by intros ?]. intros Hd. by apply disjoint_delete_configuration.
Qed.

(** C18: a name is never both a secret and a public value.  Whatever secrets and values
    are stored and deleted, and whatever fails on the way, no variable of an application
    has a public value while a secret of that name exists in the same place. *)
Theorem secrets_stay_private ops w a e t n v :
  disjoint_names (w_state w) ->
  let db := exec (for_each ops run_setting) w in
  t_configuration db !! (a, e, t, n) = Some v ->
  t_secrets db !! (applicationSecretScope a e t, n) = None.
Proof.
  intros Hd db Hv. assert (disjoint_names db) as Hdb; [|exact (proj2 (Hdb _ _ _ _ _ Hv))].
  refine (evolves_for_each (keeps disjoint_names) ops run_setting _ w Hd). apply run_setting_disjoint.
Qed.

Definition one_app : database :=
  exec (CreateApplication (MkApplication 0 "blog" "" "" "" "" "" "" 80 "b" "" false false false 0 "" 0))
    (calm database0 0).

Lemma secrets_stay_private_witness :
  let ops := [OpPutConfiguration 1 "production" "runtime" "KEY" "public";
              OpPutSecret 1 "production" "runtime" "KEY" "nonce" "cipher"] in
  t_secrets (exec (for_each ops run_setting) (calm one_app 0))
    !! (applicationSecretScope 1 "production" "runtime", "KEY") = None.
Proof.
  cbv zeta. apply (secrets_stay_private [OpPutConfiguration 1 "production" "runtime" "KEY" "public";
              OpPutSecret 1 "production" "runtime" "KEY" "nonce" "cipher"] (calm one_app 0)
    1 "production" "runtime" "KEY" ("public", 0)).
  - intros a e t n v Hv.
    change (t_configuration one_app !! (a, e, t, n) = Some v) in Hv.
    assert (t_configuration one_app = ∅) as E by (vm_compute; reflexivity).
    rewrite E, lookup_empty in Hv. discriminate.
  - vm_compute. reflexivity.
Defined.
