(* ===== verification/Schema.v ===== *)
(** * The schema of the database and its migrations (internal/store/store.go)

    A schema is its tables with their columns in order, its indexes and the
    [user_version] pragma; of the rows, what the migrations read or rewrite is kept: the
    automation flags of the applications, the applications with an active deployment and
    whether the Cloudflare row is there.  Every SQL statement is one step, so a migration
    can be interrupted between any two of them. *)

From S2P Require Import Prelude GoStrings StoreTypes.

Record structure := Structure {
  st_tables : list (string * list string); st_indexes : list string; st_cloudflare : bool }.
#[export] Instance structure_eta : Eta structure := fun s =>
  Structure (st_tables s) (st_indexes s) (st_cloudflare s).
#[export] Instance structure_eq_dec : EqDecision structure.
Proof. solve_decision. Defined.

(** [deploy_on_push] and [require_confirmation] of every application; the application of
    every queued or running deployment. *)
Record contents := Contents { ct_flags : list (bool * bool); ct_active : list Z }.
#[export] Instance contents_eta : Eta contents := fun c => Contents (ct_flags c) (ct_active c).

Record schema := MkSchema { s_structure : structure; s_contents : contents; s_version : Z }.
#[export] Instance schema_eta : Eta schema := fun s =>
  MkSchema (s_structure s) (s_contents s) (s_version s).

Definition no_structure : structure := Structure [] [] false.

Inductive statement :=
  | CreateTable (table : string) (columns : list string)  (* IF NOT EXISTS *)
  | AddColumn (table column : string)
  | CreateIndex (index table : string)                    (* IF NOT EXISTS *)
  | CreateActiveIndex                  (* one_active_deployment_per_application *)
  | DisablePushWithConfirmation        (* UPDATE applications SET deploy_on_push = FALSE ... *)
  | SeedCloudflare.                    (* INSERT OR IGNORE INTO cloudflare_config *)

(** ** Statements *)

Definition columns_of (table : string) (s : structure) : option (list string) :=
  snd <$> find (fun t => (t.1 =? table)%string) (st_tables s).

Definition no_such_table (table : string) : error := ErrMsg ("no such table: " +:+ table).

Definition create_index (index table : string) (s : structure) : result structure :=
  match columns_of table s with
  | None => Err (no_such_table table)
  | Some _ => Ok (if bool_decide (index ∈ st_indexes s) then s
                  else s <| st_indexes := st_indexes s ++ [index] |>)
  end.

Definition exec_structure (q : statement) (s : structure) : result structure :=
  match q with
  | CreateTable table columns =>
    Ok (match columns_of table s with
        | Some _ => s
        | None => s <| st_tables := st_tables s ++ [(table, columns)] |>
        end)
  | AddColumn table column =>
    match columns_of table s with
    | None => Err (no_such_table table)
    | Some columns =>
      if bool_decide (column ∈ columns) then Err (ErrMsg ("duplicate column name: " +:+ column))
      else Ok (s <| st_tables := map (fun t => if (t.1 =? table)%string
                                             then (t.1, t.2 ++ [column]) else t) (st_tables s) |>)
    end
  | CreateIndex index table => create_index index table s
  | CreateActiveIndex => create_index "one_active_deployment_per_application" "deployments" s
  | DisablePushWithConfirmation =>
    match columns_of "applications" s with
    | None => Err (no_such_table "applications")
    | Some _ => Ok s
    end
  | SeedCloudflare =>
    match columns_of "cloudflare_config" s with
    | None => Err (no_such_table "cloudflare_config")
    | Some _ => Ok (s <| st_cloudflare := true |>)
    end
  end.

(** [UPDATE applications SET deploy_on_push = FALSE WHERE deploy_on_push = TRUE AND
    require_confirmation = TRUE]. *)
Definition manual_mode (flags : bool * bool) : bool * bool :=
  let '(push, confirm) := flags in if push && confirm then (false, confirm) else flags.

Definition exec_contents (q : statement) (c : contents) : contents :=
  match q with
  | DisablePushWithConfirmation => c <| ct_flags := map manual_mode (ct_flags c) |>
  | _ => c
  end.

(** A unique index is refused while two rows share its key. *)
Definition refused (q : statement) (s : schema) : bool :=
  match q with
  | CreateActiveIndex => negb (bool_decide (NoDup (ct_active (s_contents s))))
  | _ => false
  end.

Definition exec_statement (q : statement) (s : schema) : result unit * schema :=
  if refused q s then (Err (unique_failed "deployments.application_id"), s) else
  match exec_structure q (s_structure s) with
  | Ok st => (Ok tt, s <| s_structure := st |> <| s_contents := exec_contents q (s_contents s) |>)
  | Err e => (Err e, s)
  end.

Abbreviation SQL := (M schema).

Definition statement_step (q : statement) : SQL unit := step (exec_statement q).

(** [if err != nil && !strings.Contains(err.Error(), "duplicate column name")]. *)
Definition alter (q : statement) : SQL unit :=
  catch (statement_step q) (fun err =>
    if contains (error_message err) "duplicate column name" then mret tt else fail err).

(** ** Migrations *)

Definition MigrationV1 : list statement := [
  CreateTable "settings" ["key"; "value"];
  CreateTable "secrets" ["scope"; "name"; "nonce"; "ciphertext"; "updated_at"];
  CreateTable "secret_audit" ["id"; "application_id"; "environment"; "name"; "action"; "created_at"];
  CreateTable "application_configuration"
    ["application_id"; "environment"; "target"; "name"; "value"; "updated_at"];
  CreateTable "applications"
    ["id"; "name"; "repository"; "branch"; "work_dir"; "type"; "build_command"; "run_command";
     "internal_port"; "domain"; "created_at"];
  CreateTable "automation_settings" ["id"; "cleanup_schedule"];
  CreateTable "deployments"
    ["id"; "application_id"; "status"; "image"; "log_path"; "started_at"; "finished_at"]].
Definition applyMigrationV1 : SQL unit := for_each MigrationV1 statement_step.

Definition MigrationV2 : list statement :=
  map (AddColumn "applications")
    ["runtime"; "deploy_on_push"; "require_confirmation"; "auto_rollback"; "github_installation_id";
     "health_endpoint"]
  ++ [AddColumn "secret_audit" "target"]
  ++ map (AddColumn "deployments")
    ["action"; "requested_ref"; "source_revision"; "source_fingerprint"; "artifact_digest"; "runtime";
     "internal_port"; "health_endpoint"; "manifest"; "configuration_digest"; "failure_stage";
     "failure_code"; "failure_detail"; "attempt"; "heartbeat_at"; "lease_expires_at";
     "cancellation_requested_at"; "queue_duration_ms"; "source_duration_ms"; "build_duration_ms";
     "start_duration_ms"; "health_duration_ms"; "route_duration_ms"; "current_stage"].
Definition applyMigrationV2 : SQL unit := for_each MigrationV2 alter.

Definition MigrationV3 : list statement := [
  CreateTable "deployment_events"
    ["id"; "deployment_id"; "stage"; "event_type"; "message"; "created_at"];
  CreateTable "alerts"
    ["id"; "severity"; "message"; "application_id"; "deployment_id"; "resolved"; "created_at";
     "resolved_at"];
  CreateIndex "deployment_events_deployment_id" "deployment_events";
  CreateIndex "alerts_application_id" "alerts";
  DisablePushWithConfirmation;
  CreateActiveIndex].
Definition applyMigrationV3 : SQL unit := for_each MigrationV3 statement_step.

Definition MigrationV4 : list statement := [
  CreateTable "application_health"
    ["application_id"; "internal_status"; "internal_checked_at"; "route_status"; "route_checked_at";
     "external_status"; "external_checked_at"; "external_observer"; "external_http_status";
     "external_detail"];
  CreateTable "route_probes"
    ["id"; "application_id"; "success"; "checked_at"; "observer"; "http_status"; "detail"];
  CreateIndex "route_probes_checked_at" "route_probes"].
Definition applyMigrationV4 : SQL unit := for_each MigrationV4 statement_step.

Definition MigrationV5 : list statement := [
  CreateTable "webhook_deliveries" ["provider"; "delivery_hash"; "received_at"]].
Definition applyMigrationV5 : SQL unit := for_each MigrationV5 statement_step.

Definition MigrationV6 : list statement := [
  CreateTable "identity_providers" ["id"; "issuer"; "client_id"; "enabled"; "created_at"];
  CreateTable "users" ["id"; "email"; "display_name"; "created_at"; "disabled_at"];
  CreateTable "federated_identities" ["provider_id"; "subject"; "user_id"; "created_at"];
  CreateTable "role_bindings" ["user_id"; "role"; "created_at"];
  CreateTable "identity_audit" ["id"; "user_id"; "action"; "detail"; "created_at"]].
Definition applyMigrationV6 : SQL unit := for_each MigrationV6 statement_step.

Definition MigrationV7 : list statement := [
  CreateTable "nodes"
    ["id"; "name"; "version"; "capabilities"; "certificate_fingerprint"; "created_at"; "last_seen_at"];
  CreateIndex "nodes_last_seen_at" "nodes"].
Definition applyMigrationV7 : SQL unit := for_each MigrationV7 statement_step.

Definition MigrationV8 : list statement := [
  CreateTable "webhook_rate_limits" ["scope"; "window_started_at"; "requests"]].
Definition applyMigrationV8 : SQL unit := for_each MigrationV8 statement_step.

Definition MigrationV9 : list statement := [
  CreateTable "unlock_attempts" ["scope"; "failed_attempts"; "lockout_until"]].
Definition applyMigrationV9 : SQL unit := for_each MigrationV9 statement_step.

Definition MigrationV10 : list statement := [
  CreateTable "cloudflare_config"
    ["id"; "mode"; "account_id"; "tunnel_id"; "tunnel_name"; "status"; "last_health_check";
     "error_message"; "updated_at"];
  SeedCloudflare].
Definition applyMigrationV10 : SQL unit := for_each MigrationV10 statement_step.

(** The migration that leads to each version. *)
Definition migrations : list (Z * SQL unit) := [
  (1, applyMigrationV1); (2, applyMigrationV2); (3, applyMigrationV3); (4, applyMigrationV4);
  (5, applyMigrationV5); (6, applyMigrationV6); (7, applyMigrationV7); (8, applyMigrationV8);
  (9, applyMigrationV9); (10, applyMigrationV10)].

(** [PRAGMA user_version = n]. *)
Definition set_version (n : Z) : SQL unit := update (fun s => s <| s_version := n |>).

(** [SELECT COUNT( * ) FROM sqlite_master WHERE name = 'settings'] is positive. *)
Definition has_settings (s : schema) : bool := bool_decide (is_Some (columns_of "settings" (s_structure s))).

Definition sequential (version : Z) : SQL unit :=
  for_each migrations (fun '(n, migration) =>
    if version <? n then migration ;; set_version n else mret tt).

Definition migrate : SQL unit :=
  update id ;; (* PRAGMA foreign_keys = ON *)
  version ← query (fun s => Ok (s_version s));
  if version =? 0 then
    unversioned ← query (fun s => Ok (has_settings s));
    if (unversioned : bool)
    then for_each migrations (fun '(_, migration) => migration) ;; set_version 10
    else sequential version
  else sequential version.

(** ** Where a migration can stop

    The statements of all migrations in order; [structure_at k] is what the first [k] of
    them build, [offset v] how many of them version [v] has executed. *)

Definition versions : list (list statement) :=
  [MigrationV1; MigrationV2; MigrationV3; MigrationV4; MigrationV5; MigrationV6; MigrationV7;
   MigrationV8; MigrationV9; MigrationV10].
Definition statements : list statement := concat versions.
Definition offset (v : nat) : nat := length (concat (take v versions)).

Definition apply_structure (s : structure) (q : statement) : structure :=
  match exec_structure q s with Ok s' => s' | Err _ => s end.
Definition structure_at (k : nat) : structure := fold_left apply_structure (take k statements) no_structure.

Definition fixes_flags (q : statement) : bool :=
  match q with DisablePushWithConfirmation => true | _ => false end.
Definition contents_at (k : nat) (c : contents) : contents :=
  if existsb fixes_flags (take k statements) then exec_contents DisablePushWithConfirmation c else c.

Definition version_at (c : contents) (k v : nat) : schema :=
  MkSchema (structure_at k) (contents_at k c) (Z.of_nat v).

(** The databases a migration of [c] leaves behind, complete or interrupted: at least
    the statements of its version have run. *)
Definition migrating (c : contents) (s : schema) : Prop :=
  exists k v, s = version_at c k v /\ (k <= length statements)%nat /\ (v <= 10)%nat
    /\ (offset v <= k)%nat.

Definition migrated (c : contents) : schema := version_at c (length statements) 10.

(** One statement at index [i] of a database where [k] of them have run. *)
Definition statement_fits (i k : nat) : bool :=
  match statements !! i with
  | None => true
  | Some q =>
    if (k <? i)%nat then true else
    match exec_structure q (structure_at k) with
    | Ok s => bool_decide (s = structure_at (Nat.max k (S i)))
              && match q with AddColumn _ _ => (k =? i)%nat | _ => true end
    | Err e => match q with AddColumn _ _ => true | _ => false end
               && (i <? k)%nat && contains (error_message e) "duplicate column name"
    end
  end.

Lemma statements_fit i k : (k <= length statements)%nat -> statement_fits i k = true.
Proof.
  intros Hk. destruct (decide (i < length statements)%nat) as [Hi|Hi].
  - assert (forallb (fun i => forallb (statement_fits i) (seq 0 (S (length statements))))
              (seq 0 (length statements)) = true) as Hall by (vm_compute; reflexivity).
    rewrite forallb_forall in Hall. specialize (Hall i). rewrite forallb_forall in Hall.
    apply Hall; apply in_seq; lia.
  - unfold statement_fits. by rewrite lookup_ge_None_2 by lia.
Qed.

Lemma flags_fixed_once c :
  exec_contents DisablePushWithConfirmation (exec_contents DisablePushWithConfirmation c)
  = exec_contents DisablePushWithConfirmation c.
Proof.
  destruct c as [flags act]. unfold exec_contents, set_field. cbn. f_equal. rewrite map_map.
  apply map_ext. by intros [[] []].
Qed.

Lemma contents_fit c i k q :
  statements !! i = Some q -> (i <= k)%nat ->
  exec_contents q (contents_at k c) = contents_at (Nat.max k (S i)) c.
Proof.
  intros Hq Hik.
  assert (existsb fixes_flags (take (Nat.max k (S i)) statements)
          = existsb fixes_flags (take k statements) || fixes_flags q) as E.
  { destruct (decide (k = i)) as [->|].
    - rewrite Nat.max_r by lia. rewrite (take_S_r _ _ q) by done.
      rewrite existsb_app. simpl. by rewrite orb_false_r.
    - rewrite Nat.max_l by lia. destruct (fixes_flags q) eqn:Ef; [|by rewrite orb_false_r].
      rewrite orb_true_r. apply existsb_exists. exists q. split; [|done].
      apply list_elem_of_In, elem_of_take. exists i. split; [done|lia]. }
  unfold contents_at. rewrite E. clear E. destruct (existsb fixes_flags (take k statements)); cbn [orb].
  - destruct q; try reflexivity. apply flags_fixed_once.
  - by destruct q.
Qed.

Section migrating.
Context (c : contents) (Hactive : NoDup (ct_active c)).

Definition duplicate (e : error) : Prop := contains (error_message e) "duplicate column name" = true.

Lemma statement_runs i k v q :
  statements !! i = Some q -> (i <= k <= length statements)%nat ->
  exec_statement q (version_at c k v) = (Ok tt, version_at c (Nat.max k (S i)) v)
  \/ exists e, exec_statement q (version_at c k v) = (Err e, version_at c k v)
       /\ duplicate e /\ (i < k)%nat /\ exists t col, q = AddColumn t col.
Proof.
  intros Hq [Hik Hk]. pose proof (statements_fit i k Hk) as Hfit.
  unfold statement_fits in Hfit. rewrite Hq, (proj2 (Nat.ltb_ge _ _) Hik) in Hfit.
  unfold exec_statement. assert (refused q (version_at c k v) = false) as ->.
  { destruct q; try done. simpl. unfold contents_at.
    destruct (existsb _ _); simpl; by rewrite bool_decide_eq_true_2. }
  change (s_structure (version_at c k v)) with (structure_at k).
  destruct (exec_structure q (structure_at k)) as [s|e].
  - apply andb_prop in Hfit as [Hs%bool_decide_eq_true _]. left. rewrite Hs.
    unfold version_at. by rewrite <- (contents_fit c i k q Hq Hik).
  - apply andb_prop in Hfit as [[Hadd Hlt]%andb_prop Hd]. right. exists e.
    apply Nat.ltb_lt in Hlt. destruct q; try done. by eauto 10.
Qed.

(** An environment whose faults do not read like the error [alter] ignores. *)
Definition honest_fault (f : fault) : Prop :=
  match f with
  | NoFault => True
  | FailBefore m | FailAfter m => contains m "duplicate column name" = false
  end.
Definition honest (w : world schema) : Prop := Forall honest_fault (w_faults w).

(** [runs P m Q]: from a database where [P] holds, [m] reaches one where [Q] holds or
    stops at a fault, in a database that can be migrated again. *)
Definition runs {A} (P : schema -> Prop) (m : SQL A) (Q : A -> schema -> Prop) : Prop :=
  forall w, P (w_state w) -> honest w ->
    match m w with
    | (Ok a, w') => Q a (w_state w') /\ honest w' /\ (w_faults w = [] -> w_faults w' = [])
    | (Err _, w') => migrating c (w_state w') /\ w_faults w <> []
    end.

Lemma runs_ret {A} P (a : A) (Q : A -> schema -> Prop) :
  (forall s, P s -> Q a s) -> runs P (mret a) Q.
Proof. intros HQ w HP Hw. simpl. auto. Qed.

Lemma runs_weaken {A} (P P' : schema -> Prop) (m : SQL A) (Q : A -> schema -> Prop) :
  runs P' m Q -> (forall s, P s -> P' s) -> runs P m Q.
Proof. intros Hm HP w H Hw. apply Hm; auto. Qed.

Lemma runs_bind {A B} P Q (R : B -> schema -> Prop) (m : SQL A) (f : A -> SQL B) :
  runs P m Q -> (forall a, runs (Q a) (f a) R) -> runs P (m ≫= f) R.
Proof.
  intros Hm Hf w HP Hw. specialize (Hm w HP Hw). unfold mbind, M_bind.
  destruct (m w) as [[a|e] w1]; [|done]. destruct Hm as (HQ & Hw1 & Hn). specialize (Hf a w1 HQ Hw1).
  destruct (f a w1) as [[b|e] w2]; [naive_solver|]. destruct Hf as [? Hn']. split; [done|]. auto.
Qed.

Lemma runs_step {A} P (f : schema -> result A * schema) (Q : A -> schema -> Prop) :
  (forall s, P s -> migrating c s /\ exists a s', f s = (Ok a, s') /\ migrating c s' /\ Q a s') ->
  runs P (step f) Q.
Proof.
  intros Hf w HP Hw. destruct (Hf _ HP) as (Hs & a & s' & E & Hs' & HQ). revert Hw.
  unfold honest, step, step_with, next_fault.
  destruct (w_faults w) as [|[|?|?] fs] eqn:Ef; simpl; rewrite ?E; simpl;
    rewrite ?Ef; intros Hw; try (apply Forall_cons in Hw as [_ Hw]); repeat split; auto; done.
Qed.

(** At least [k] statements have run, and the version is [v]. *)
Definition from (v k : nat) (s : schema) : Prop :=
  exists k', s = version_at c k' v /\ (k <= k' <= length statements)%nat /\ (v <= 10)%nat
    /\ (offset v <= k')%nat.

Lemma from_migrating v k s : from v k s -> migrating c s.
Proof. intros (k' & -> & Hk & Hv & Ho). exists k', v. repeat split; lia. Qed.

Lemma runs_statement v i q :
  statements !! i = Some q -> (forall t col, q <> AddColumn t col) ->
  runs (from v i) (statement_step q) (fun _ => from v (S i)).
Proof.
  intros Hq Hn. apply runs_step. intros s Hs. split; [by eapply from_migrating|].
  destruct Hs as (k & -> & Hk & Hv & Ho).
  destruct (statement_runs i k v q Hq Hk) as [E|(e & _ & _ & _ & t & col & Eq)]; [|by apply Hn in Eq].
  assert (i < length statements)%nat by (by eapply lookup_lt_Some).
  assert (from v (S i) (version_at c (Nat.max k (S i)) v)) as Hf
    by (exists (Nat.max k (S i)); repeat split; lia).
  eexists _, _. split; [exact E|]. split; [by eapply from_migrating|done].
Qed.

Lemma runs_alter v i q :
  statements !! i = Some q -> runs (from v i) (alter q) (fun _ => from v (S i)).
Proof.
  intros Hq w Hs Hw. pose proof (from_migrating _ _ _ Hs) as Hm. destruct Hs as (k & Es & Hk & Hv & Ho).
  assert (i < length statements)%nat by (by eapply lookup_lt_Some).
  assert (forall k', (S i <= k' <= length statements)%nat -> (k <= k')%nat ->
    from v (S i) (version_at c k' v)) as Hf by (intros k' ??; exists k'; repeat split; lia).
  assert (exists k', snd (exec_statement q (w_state w)) = version_at c k' v /\ (S i <= k' <= length statements)%nat
    /\ (k <= k')%nat /\ (fst (exec_statement q (w_state w)) = Ok tt
        \/ exists e, fst (exec_statement q (w_state w)) = Err e /\ duplicate e)) as (k' & E' & Hk' & Hkk & Er).
  { destruct (statement_runs i k v q Hq Hk) as [E|(e & E & Hd & Hik & _)]; rewrite <- Es in E; rewrite E.
    - exists (Nat.max k (S i)). split; [done|]. split; [lia|]. split; [lia|]. by left.
    - exists k. split; [done|]. split; [lia|]. split; [lia|]. right. eauto. }
  revert Hw. unfold alter, catch, honest, statement_step, step, step_with, next_fault.
  destruct (w_faults w) as [|[|msg|msg] fs] eqn:Ef; simpl;
    destruct (exec_statement q (w_state w)) as [r s'] eqn:Eq; simpl in *; subst s'.
  - intros Hw. destruct Er as [->|(e & -> & Hd)]; simpl; rewrite ?Hd; simpl;
      (split; [by apply Hf|]); by rewrite Ef.
  - intros [_ Hw]%Forall_cons. destruct Er as [->|(e & -> & Hd)]; simpl; rewrite ?Hd; simpl;
      (split; [by apply Hf|]); done.
  - intros [Hmsg Hw]%Forall_cons. simpl in Hmsg. rewrite Hmsg. simpl. split; [|done]. by rewrite Es in Hm |- *.
  - intros [Hmsg Hw]%Forall_cons. simpl in Hmsg. rewrite Hmsg. simpl. split; [|done].
    by eapply from_migrating, Hf.
Qed.

(** A migration runs its statements from wherever the last one stopped. *)
Lemma runs_statements v (f : statement -> SQL unit) i qs :
  (forall j q, qs !! j = Some q -> statements !! (i + j)%nat = Some q
     /\ runs (from v (i + j)) (f q) (fun _ => from v (S (i + j)))) ->
  runs (from v i) (for_each qs f) (fun _ => from v (i + length qs)).
Proof.
  revert i. induction qs as [|q qs IH]; intros i Hqs; simpl.
  - apply runs_ret. intros s. by rewrite Nat.add_0_r.
  - eapply runs_bind.
    + pose proof (proj2 (Hqs 0%nat q eq_refl)) as Hq. rewrite Nat.add_0_r in Hq. exact Hq.
    + intros []. replace (i + S (length qs))%nat with (S i + length qs)%nat by lia. apply IH.
      intros j x Hx. destruct (Hqs (S j) x Hx) as [Hs Hr].
      replace (S i + j)%nat with (i + S j)%nat by lia. done.
Qed.

Lemma offset_S n qs : versions !! n = Some qs -> offset (S n) = (offset n + length qs)%nat.
Proof.
  intros Hq. unfold offset. rewrite (take_S_r _ _ _ Hq), concat_app, length_app. simpl.
  by rewrite app_nil_r.
Qed.

Lemma statements_lookup n qs j q :
  versions !! n = Some qs -> qs !! j = Some q -> statements !! (offset n + j)%nat = Some q.
Proof.
  intros Hn Hj.
  assert (statements = concat (take n versions) ++ qs ++ concat (drop (S n) versions)) as ->.
  { change (qs ++ concat (drop (S n) versions)) with (concat (qs :: drop (S n) versions)).
    by rewrite <- List.concat_app, (take_drop_middle _ _ _ Hn). }
  unfold offset. rewrite lookup_app_r by lia.
  replace (_ + j - _)%nat with j by lia. by apply lookup_app_l_Some.
Qed.

(** How each migration runs its statements; the second tolerates what is already there. *)
Definition runner (n : nat) : statement -> SQL unit := if (n =? 1)%nat then alter else statement_step.
Definition migration_at (n : nat) : SQL unit := for_each (nth n versions []) (runner n).

Lemma migrations_at : migrations = map (fun n => (Z.of_nat (S n), migration_at n)) (seq 0 10).
Proof. reflexivity. Qed.

Definition adds_column (q : statement) : bool := match q with AddColumn _ _ => true | _ => false end.

Lemma runs_migration v n : (n < 10)%nat ->
  runs (from v (offset n)) (migration_at n) (fun _ => from v (offset (S n))).
Proof.
  intros Hn. destruct (versions !! n) as [qs|] eqn:Hq; [|apply lookup_ge_None in Hq; simpl in Hq; lia].
  unfold migration_at. rewrite (nth_lookup_Some _ _ _ _ Hq), (offset_S _ _ Hq).
  apply runs_statements. intros j q Hj.
  pose proof (statements_lookup _ _ _ _ Hq Hj) as Hs. split; [done|].
  unfold runner. destruct (n =? 1)%nat eqn:E1; [by apply runs_alter|].
  apply runs_statement; [done|]. intros t col ->.
  assert (forallb (fun n => (n =? 1)%nat || forallb (fun q => negb (adds_column q)) (nth n versions []))
            (seq 0 10) = true) as Hall by reflexivity.
  rewrite forallb_forall in Hall. assert (In n (seq 0 10)) as Hin by (apply in_seq; lia).
  specialize (Hall n Hin).
  rewrite E1, (nth_lookup_Some _ _ _ _ Hq) in Hall. simpl in Hall. rewrite forallb_forall in Hall.
  specialize (Hall (AddColumn t col) (proj1 (list_elem_of_In _ _) (list_elem_of_lookup_2 _ _ _ Hj))).
  done.
Qed.

Lemma runs_upgrades (f : Z * SQL unit -> SQL unit) (P : nat -> schema -> Prop) :
  (forall n, (n < 10)%nat -> runs (P n) (f (Z.of_nat (S n), migration_at n)) (fun _ => P (S n))) ->
  runs (P 0%nat) (for_each migrations f) (fun _ => P 10%nat).
Proof.
  intros Hf.
  assert (forall m k, (k + m <= 10)%nat ->
    runs (P k) (for_each (map (fun n => (Z.of_nat (S n), migration_at n)) (seq k m)) f)
      (fun _ => P (k + m)%nat)) as Hall.
  { intros m. induction m as [|m IH]; intros k Hk; simpl.
    - apply runs_ret. intros s. by rewrite Nat.add_0_r.
    - eapply runs_bind; [apply Hf; lia|]. intros [].
      replace (k + S m)%nat with (S k + m)%nat by lia. apply IH. lia. }
  rewrite migrations_at. apply (Hall 10%nat 0%nat). lia.
Qed.

Lemma runs_set_version v v' k : (v' <= 10)%nat -> (offset v' <= k)%nat ->
  runs (from v k) (set_version (Z.of_nat v')) (fun _ => from v' k).
Proof.
  intros Hv Ho. apply runs_step. intros s Hs. split; [by eapply from_migrating|].
  destruct Hs as (k' & -> & Hk & _ & _). eexists _, _. split; [reflexivity|].
  assert (from v' k (version_at c k' v')) as Hf by (exists k'; repeat split; lia).
  split; [by eapply from_migrating|done].
Qed.

Lemma offset_mono n m : (n <= m)%nat -> (offset n <= offset m)%nat.
Proof.
  intros Hnm. unfold offset. replace m with (n + (m - n))%nat by lia.
  rewrite <- (take_drop n (take (n + (m - n)) versions)), take_take, Nat.min_l by lia.
  rewrite concat_app, length_app. lia.
Qed.

Lemma runs_sequential v : (v <= 10)%nat ->
  runs (from v 0) (sequential (Z.of_nat v)) (fun _ => from 10 (offset 10)).
Proof.
  intros Hv. pose (P n := from (v `max` n) (offset n)).
  apply (runs_weaken _ (P 0%nat)); [|unfold P; by rewrite Nat.max_0_r].
  assert (from 10 (offset 10) = P 10%nat) as -> by (unfold P; by rewrite Nat.max_r by lia).
  apply (runs_upgrades _ P).
  intros n Hn. unfold P. destruct (Z.ltb_spec (Z.of_nat v) (Z.of_nat (S n))).
  - rewrite !Nat.max_r by lia. eapply runs_bind; [by apply runs_migration|]. intros [].
    apply runs_set_version; lia.
  - rewrite !Nat.max_l by lia. apply runs_ret. intros s (k & -> & Hk & Hv' & Ho).
    exists k. pose proof (offset_mono (S n) v ltac:(lia)). repeat split; lia.
Qed.

Lemma runs_unversioned :
  runs (from 0 0) (for_each migrations (fun '(_, migration) => migration) ;; set_version 10)
    (fun _ => from 10 (offset 10)).
Proof.
  eapply runs_bind.
  - apply (runs_upgrades _ (fun n => from 0 (offset n))). intros n Hn. by apply runs_migration.
  - intros []. by apply (runs_set_version 0 10).
Qed.

Lemma runs_query {A} P (f : schema -> A) v :
  (forall s, from v 0 s -> P (f s)) -> runs (from v 0) (query (fun s => Ok (f s))) (fun a s => P a /\ from v 0 s).
Proof.
  intros HP. apply runs_step. intros s Hs. assert (migrating c s) by (by eapply from_migrating).
  eauto 10.
Qed.

Lemma runs_pure {A} (p : Prop) P (m : SQL A) Q : (p -> runs P m Q) -> runs (fun s => p /\ P s) m Q.
Proof. intros Hm w [Hp HP]. by apply Hm. Qed.

Lemma runs_migrate_from v : (v <= 10)%nat -> runs (from v 0) migrate (fun _ => from 10 (offset 10)).
Proof.
  intros Hv. unfold migrate. eapply runs_bind.
  { apply (runs_step _ _ (fun _ => from v 0)). intros s Hs.
    assert (migrating c s) by (by eapply from_migrating). eauto 10. }
  intros []. eapply runs_bind.
  { apply (runs_query (fun n => n = Z.of_nat v)). by intros s (k & -> & _). }
  intros version. apply runs_pure. intros ->.
  destruct (Z.eqb_spec (Z.of_nat v) 0) as [Ev|_]; [|by apply runs_sequential].
  assert (v = 0%nat) as -> by lia. eapply runs_bind; [by apply (runs_query (fun _ => True))|].
  intros unversioned. apply runs_pure. intros _.
  destruct unversioned; [apply runs_unversioned|by apply runs_sequential].
Qed.

(** [migrate] completes the schema from any version and any interruption. *)
Lemma runs_migrate : runs (migrating c) migrate (fun _ s => s = migrated c).
Proof.
  intros w (k & v & E & Hk & Hv & Ho) Hw.
  assert (from v 0 (w_state w)) as Hfrom by (exists k; repeat split; [done|lia..]).
  pose proof (runs_migrate_from v Hv w Hfrom Hw) as Hr.
  destruct (migrate w) as [[[]|e] w']; [|done]. destruct Hr as [(k' & -> & Hk' & _) Hr].
  split; [|done]. assert (offset 10 = length statements) by reflexivity.
  unfold migrated. f_equal. lia.
Qed.
End migrating.

(** Attempts to open the database, each with its own faults. *)
Definition attempts (runs : list (list fault)) (s : schema) : schema :=
  fold_left (fun s faults => exec migrate (World s faults 0 [])) runs s.

(** C17: migrations can be resumed.  However often opening the database was interrupted,
    at whichever statement, the next undisturbed opening succeeds and produces the same
    complete schema, and no application keeps both push deployments and interactive
    confirmation. *)
Theorem migrate_resumable c interrupted s :
  NoDup (ct_active c) -> migrating c s -> Forall (Forall honest_fault) interrupted ->
  let s' := attempts interrupted s in
  eval migrate (calm s' 0) = Ok tt /\ exec migrate (calm s' 0) = migrated c
  /\ Forall (fun flags => flags.1 && flags.2 = false) (ct_flags (s_contents (migrated c))).
Proof.
  intros Hc Hs Hf s'. assert (migrating c s') as Hs'.
  { subst s'. revert s Hs. induction Hf as [|faults fs Hh Hf IH]; intros s Hs; [done|]. simpl.
    apply IH. pose proof (runs_migrate c Hc (World s faults 0 []) Hs Hh) as Hr. unfold exec.
    destruct (migrate _) as [[[]|e] w']; [|by destruct Hr]. destruct Hr as [E _]. simpl. rewrite E.
    exists (length statements), 10%nat. repeat split; by vm_compute. }
  pose proof (runs_migrate c Hc (calm s' 0) Hs' (Forall_nil_2 _)) as Hr.
  unfold eval, exec. destruct (migrate _) as [[[]|e] w']; [|by destruct Hr]. destruct Hr as [E _].
  split; [done|]. split; [exact E|]. apply List.Forall_forall. intros [push confirm] Hin.
  change (In (push, confirm) (map manual_mode (ct_flags c))) in Hin.
  apply in_map_iff in Hin as ([[] []] & [= <- <-] & _); done.
Qed.

(** A new database, and one that the first statement of the unversioned code created. *)
Lemma migrate_resumable_witness :
  exec migrate (calm (attempts [repeat NoFault 9 ++ [FailAfter "disk I/O error"]]
    (MkSchema no_structure (Contents [] []) 0)) 0) = migrated (Contents [] []).
Proof.
  refine (proj1 (proj2 (migrate_resumable (Contents [] []) [repeat NoFault 9 ++ [FailAfter "disk I/O error"]]
    (MkSchema no_structure (Contents [] []) 0) (NoDup_nil_2) _ _))).
  - exists 0%nat, 0%nat. repeat split; by vm_compute; lia.
  - repeat constructor.
Defined.
