(* ===== verification/StoreDeployments.v ===== *)
(** * The deployment queue of the store (internal/store/store.go)

    Deployments move queued -> running -> successful, failed or cancelled.  The
    partial unique index [one_active_deployment_per_application] is checked by every
    write, as SQLite does.  Each method is the sequence of its SQL statements; the
    fault script of the world decides which of them the environment fails. *)

From S2P Require Import Prelude GoStrings StoreTypes.

(** ** Statements on the deployments table *)

Definition active (r : deployment_row) : bool :=
  (r_status r =? "queued")%string || (r_status r =? "running")%string.

(** [CREATE UNIQUE INDEX one_active_deployment_per_application ON
    deployments(application_id) WHERE status IN ('queued', 'running')]. *)
Definition one_active_index (t : list deployment_row) : bool :=
  bool_decide (NoDup (map r_application_id (select_where active t))).

(** A write of the table: the new rows, if the index accepts them. *)
Definition write_deployments {A} (a : A) (t : list deployment_row) (db : database)
    : result A * database :=
  if one_active_index t then (Ok a, db <| t_deployments := t |>)
  else (Err (unique_failed "deployments.application_id"), db).

(** [UPDATE deployments SET f WHERE p], with the number of rows it matched. *)
Definition update_deployments (p : deployment_row -> bool) (f : deployment_row -> deployment_row)
    : DB nat :=
  step (fun db =>
    write_deployments (count_where p (t_deployments db))
      (update_where p f (t_deployments db)) db).

(** [INSERT INTO deployments], with the new rowid. *)
Definition insert_deployment (row : Z -> deployment_row) : DB Z :=
  step (fun db =>
    let id := next_rowid r_id (t_deployments db) in
    let r := row id in
    match write_deployments id (t_deployments db ++ [r]) db with
    | (Ok id, db') =>
      if has_application db (r_application_id r) then (Ok id, db') else (Err foreign_key_failed, db)
    | other => other
    end).

(** [QueryRow(...).Scan(...)]; [sql.ErrNoRows] becomes [ErrNotFound]. *)
Definition query_deployment (find : list deployment_row -> option Deployment) : DB Deployment :=
  query (fun db => match find (t_deployments db) with
                   | Some d => Ok d
                   | None => Err ErrNotFound
                   end).

(** A row as [INSERT] leaves the columns it does not name. *)
Definition fresh_row (id applicationID : Z) (status image logPath : string) (now : Time)
    : deployment_row :=
  DeploymentRow id applicationID status image logPath now None "deploy" "" "" "" "" "" 0 ""
    "" "" "" "" "" 0 None None None 0 0 0 0 0 0 "".

(** ** Operations *)

Definition StartDeployment (applicationID : Z) (image logPath : string) : DB Deployment :=
  t ← now;
  let leaseExpiresAt := t + DeploymentLeaseDuration in
  id ← insert_deployment (fun id =>
         (fresh_row id applicationID "running" image logPath t)
           <| r_attempt := 1 |>
           <| r_heartbeat_at := Some t |>
           <| r_lease_expires_at := Some leaseExpiresAt |>);
  mret (Deployment0
    <| d_ID := id |> <| d_ApplicationID := applicationID |> <| d_Status := "running" |>
    <| d_Image := image |> <| d_LogPath := logPath |> <| d_StartedAt := t |>
    <| d_Attempt := 1 |> <| d_HeartbeatAt := t |> <| d_LeaseExpiresAt := leaseExpiresAt |>).

Definition valid_action (action : string) : bool :=
  (action =? "deploy")%string || (action =? "rollback")%string
  || (action =? "auto_rollback")%string.

Definition QueueDeployment (applicationID : Z) (action logPath : string) : DB Deployment :=
  if negb (valid_action action) then fail (ErrMsg "invalid deployment action") else
  t ← now;
  id ← insert_deployment (fun id =>
         (fresh_row id applicationID "queued" "" logPath t) <| r_action := action |>);
  mret (Deployment0
    <| d_ID := id |> <| d_ApplicationID := applicationID |> <| d_Status := "queued" |>
    <| d_LogPath := logPath |> <| d_StartedAt := t |> <| d_Action := action |>).

Definition queued (r : deployment_row) : bool := (r_status r =? "queued")%string.
Definition running (r : deployment_row) : bool := (r_status r =? "running")%string.

(** The [UPDATE] that reserves the oldest queued job. *)
Definition claim_row (t lease queue_ms : Z) (r : deployment_row) : deployment_row :=
  r <| r_status := "running" |> <| r_started_at := t |> <| r_attempt := r_attempt r + 1 |>
    <| r_heartbeat_at := Some t |> <| r_lease_expires_at := Some lease |>
    <| r_queue_duration_ms := queue_ms |> <| r_current_stage := "source" |>.

Definition NextQueuedDeployment : DB Deployment :=
  transaction (
    r ← query (fun db => match select_where queued (t_deployments db) with
                         | r :: _ => Ok r
                         | [] => Err ErrNotFound
                         end);
    let d := (scan_release r) <| d_Attempt := r_attempt r |> in
    t ← now;
    let leaseExpiresAt := t + DeploymentLeaseDuration in
    let queueMs := Z.quot (t - d_StartedAt d) Millisecond in
    count ← update_deployments (fun x => (r_id x =? r_id r) && queued x)
              (claim_row t leaseExpiresAt queueMs);
    if negb (count =? 1)%nat then fail ErrNotFound else
    mret (d <| d_Status := "running" |> <| d_StartedAt := t |> <| d_Attempt := d_Attempt d + 1 |>
            <| d_HeartbeatAt := t |> <| d_LeaseExpiresAt := leaseExpiresAt |>
            <| d_QueueDurationMs := queueMs |> <| d_CurrentStage := "source" |>)).

Definition DeploymentCancellationRequested (id : Z) : DB bool :=
  query (fun db => match select_where (fun r => r_id r =? id) (t_deployments db) with
                   | r :: _ => Ok (bool_decide (is_Some (r_cancellation_requested_at r)))
                   | [] => Err ErrNotFound
                   end).

Definition HeartbeatDeployment (id : Z) : DB unit :=
  t ← now;
  count ← update_deployments
            (fun r => (r_id r =? id) && running r
                      && bool_decide (r_cancellation_requested_at r = None))
            (fun r => r <| r_heartbeat_at := Some t |>
                        <| r_lease_expires_at := Some (t + DeploymentLeaseDuration) |>);
  if negb (count =? 1)%nat then
    cancelled ← attempt (DeploymentCancellationRequested id);
    match cancelled with
    | Ok true => fail ErrDeploymentCancelled
    | _ => fail ErrNotFound
    end
  else mret tt.

Definition CancelDeployment (applicationID id : Z) : DB unit :=
  t ← now;
  let own r := (r_id r =? id) && (r_application_id r =? applicationID) in
  count ← update_deployments (fun r => own r && queued r)
            (fun r => r <| r_status := "cancelled" |> <| r_finished_at := Some t |>
                        <| r_lease_expires_at := None |>);
  if (count =? 1)%nat then mret tt else
  count ← update_deployments
            (fun r => own r && running r && bool_decide (r_cancellation_requested_at r = None))
            (fun r => r <| r_cancellation_requested_at := Some t |>);
  if negb (count =? 1)%nat then fail ErrNotFound else mret tt.

Definition RecoverInterruptedDeployments : DB nat :=
  t ← now;
  update_deployments running
    (fun r => r <| r_status := "failed" |> <| r_finished_at := Some t |>
                <| r_failure_stage := "start" |> <| r_failure_code := "worker_restarted" |>
                <| r_failure_detail := "MiniDock restarted before this job completed" |>
                <| r_lease_expires_at := None |>).

(** [application_id = ? AND status = 'successful' AND image <> '']. *)
Definition successful_image (applicationID : Z) (r : deployment_row) : bool :=
  (r_application_id r =? applicationID) && (r_status r =? "successful")%string
  && negb (r_image r =? "")%string.

Definition PreviousSuccessfulDeployment (applicationID : Z) : DB Deployment :=
  query_deployment (fun t =>
    scan_release <$> nth_error (rev (select_where (successful_image applicationID) t)) 1).

Definition LatestSuccessfulDeployment (applicationID : Z) : DB Deployment :=
  query_deployment (fun t =>
    scan_release <$> nth_error (rev (select_where (successful_image applicationID) t)) 0).

Definition FinishDeployment (id : Z) (status : string) : DB unit :=
  t ← now;
  _ ← update_deployments (fun r => r_id r =? id)
        (fun r => r <| r_status := match r_cancellation_requested_at r with
                                   | Some _ => "cancelled"
                                   | None => status
                                   end |>
                    <| r_finished_at := Some t |> <| r_lease_expires_at := None |>);
  mret tt.

Definition SetDeploymentImage (id : Z) (image : string) : DB unit :=
  _ ← update_deployments (fun r => r_id r =? id) (fun r => r <| r_image := image |>); mret tt.

Definition SetDeploymentReleaseMetadata (id : Z) (m : ReleaseMetadata) : DB unit :=
  _ ← update_deployments (fun r => r_id r =? id)
        (fun r => r <| r_requested_ref := rm_RequestedRef m |>
                    <| r_source_revision := rm_SourceRevision m |>
                    <| r_source_fingerprint := rm_SourceFingerprint m |>
                    <| r_artifact_digest := rm_ArtifactDigest m |>
                    <| r_runtime := rm_Runtime m |>
                    <| r_internal_port := rm_InternalPort m |>
                    <| r_health_endpoint := rm_HealthEndpoint m |>
                    <| r_manifest := rm_Manifest m |>
                    <| r_configuration_digest := rm_ConfigurationDigest m |>);
  mret tt.

Definition SetDeploymentFailure (id : Z) (stage code detail : string) : DB unit :=
  _ ← update_deployments (fun r => r_id r =? id)
        (fun r => r <| r_failure_stage := stage |> <| r_failure_code := code |>
                    <| r_failure_detail := detail |>);
  mret tt.

Definition Deployments (applicationID : Z) : DB (list Deployment) :=
  query (fun db => Ok (map scan_deployment
    (rev (select_where (fun r => r_application_id r =? applicationID) (t_deployments db))))).

(** [store.Store.Deployment]: only a deployment of the given application. *)
Definition DeploymentOf (applicationID id : Z) : DB Deployment :=
  query_deployment (fun t =>
    scan_deployment <$>
      head (select_where (fun r => (r_application_id r =? applicationID) && (r_id r =? id)) t)).

(** The loop of [RetentionCandidates] over the history, newest first; [successful]
    counts the successful deployments seen. *)
Fixpoint retention_loop (before : Time) (retainSuccessful successful : Z)
    (deployments : list Deployment) : list Deployment :=
  match deployments with
  | [] => []
  | d :: ds =>
    let succeeded := (d_Status d =? "successful")%string in
    let successful := if succeeded then successful + 1 else successful in
    if (d_Status d =? "queued")%string || (d_Status d =? "running")%string
       || IsZero (d_FinishedAt d) || negb (d_FinishedAt d <? before)
    then retention_loop before retainSuccessful successful ds
    else if succeeded && (successful <=? retainSuccessful)
    then retention_loop before retainSuccessful successful ds
    else d :: retention_loop before retainSuccessful successful ds
  end.

Definition RetentionCandidates (applicationID : Z) (before : Time) (retainSuccessful : Z)
    : DB (list Deployment) :=
  deployments ← Deployments applicationID;
  mret (retention_loop before retainSuccessful 0 deployments).

(** [DELETE FROM deployments]: the events of a deleted deployment go with it, alerts
    lose their reference. *)
Definition DeleteDeployments (applicationID : Z) (ids : list Z) : DB unit :=
  match ids with
  | [] => mret tt
  | _ =>
    update (fun db =>
      let gone r := (r_application_id r =? applicationID) && bool_decide (r_id r ∈ ids) in
      let dead := map r_id (select_where gone (t_deployments db)) in
      db <| t_deployments := delete_where gone (t_deployments db) |>
         <| t_events := delete_where (fun e => bool_decide (e_DeploymentID e ∈ dead)) (t_events db) |>
         <| t_alerts := update_where
              (fun a => match al_DeploymentID a with
                        | Some id => bool_decide (id ∈ dead)
                        | None => false
                        end)
              (fun a => a <| al_DeploymentID := None |>) (t_alerts db) |>)
  end.

Definition SetDeploymentStage (id : Z) (stage : string) : DB unit :=
  _ ← update_deployments (fun r => r_id r =? id) (fun r => r <| r_current_stage := stage |>);
  mret tt.

Definition SetDeploymentStageDurations (id queue source build start health route : Z) : DB unit :=
  _ ← update_deployments (fun r => r_id r =? id)
        (fun r => r <| r_queue_duration_ms := queue |> <| r_source_duration_ms := source |>
                    <| r_build_duration_ms := build |> <| r_start_duration_ms := start |>
                    <| r_health_duration_ms := health |> <| r_route_duration_ms := route |>);
  mret tt.

Definition AddDeploymentEvent (deploymentID : Z) (stage eventType message : string) : DB unit :=
  t ← now;
  step (fun db =>
    if has_deployment db deploymentID then
      (Ok tt, db <| t_events := t_events db
        ++ [MkDeploymentEvent (next_rowid e_ID (t_events db)) deploymentID stage eventType message t] |>)
    else (Err foreign_key_failed, db)).

Definition DeploymentEvents (deploymentID : Z) : DB (list DeploymentEvent) :=
  query (fun db => Ok (select_where (fun e => e_DeploymentID e =? deploymentID) (t_events db))).

(** The query error other than [sql.ErrNoRows] is not returned: the code answers
    with the zero deployment and no error. *)
Definition LatestFailedDeployment (applicationID : Z) : DB Deployment :=
  catch (query_deployment (fun t =>
           scan_deployment <$>
             nth_error (rev (select_where (fun r => (r_application_id r =? applicationID)
                                                    && (r_status r =? "failed")%string) t)) 0))
    (fun e => match e with
              | ErrNotFound => fail ErrNotFound
              | _ => mret Deployment0
              end).

(** The two counts of [BuildDurationSLO]: compliant and total successful builds; a
    total of zero is reported as 100%. *)
Definition BuildDurationSLO (thresholdMs : Z) : DB (nat * nat) :=
  let measured r := (r_action r =? "deploy")%string && (r_status r =? "successful")%string
                    && (0 <? r_build_duration_ms r) in
  total ← query (fun db => Ok (count_where measured (t_deployments db)));
  if (total =? 0)%nat then mret (1%nat, 1%nat) else
  compliant ← query (fun db =>
    Ok (count_where (fun r => measured r && (r_build_duration_ms r <=? thresholdMs)) (t_deployments db)));
  mret (compliant, total).
