(* ===== verification/StoreQueueFacts.v ===== *)
(** * What the deployment queue guarantees

    The invariant of the deployments table under every sequence of store operations
    and every fault script; exclusive claims; durable cancellation; the branches of
    [QueueDeployment]; what retention may select. *)

From S2P Require Import Prelude GoStrings StoreTypes StoreDeployments.

(** ** The table invariant *)

Definition status_known (s : string) : bool :=
  bool_decide (s ∈ ["queued"; "running"; "successful"; "failed"; "cancelled"]).

(** A row is leased exactly while it runs. *)
Definition row_ok (r : deployment_row) : bool :=
  status_known (r_status r) && Bool.eqb (running r) (bool_decide (is_Some (r_lease_expires_at r))).

Definition table_inv (t : list deployment_row) : Prop :=
  rowids_sorted r_id t /\ one_active_index t = true /\ forallb row_ok t = true.

Definition db_inv (db : database) : Prop := table_inv (t_deployments db).

(** ** The operations as a step relation *)

Inductive final_status := Successful | Failed | Cancelled.
Definition final_text (s : final_status) : string :=
  match s with Successful => "successful" | Failed => "failed" | Cancelled => "cancelled" end.

Inductive deployment_op :=
  | OpStart (app : Z) (image log : string)
  | OpQueue (app : Z) (action log : string)
  | OpNext
  | OpHeartbeat (id : Z)
  | OpCancel (app id : Z)
  | OpRecover
  | OpFinish (id : Z) (s : final_status)
  | OpImage (id : Z) (image : string)
  | OpMetadata (id : Z) (m : ReleaseMetadata)
  | OpFailure (id : Z) (stage code detail : string)
  | OpStage (id : Z) (stage : string)
  | OpDurations (id q s b st h r : Z)
  | OpEvent (id : Z) (stage kind message : string)
  | OpDelete (app : Z) (ids : list Z).

Definition run_op (op : deployment_op) : DB unit :=
  match op with
  | OpStart app image log => ignore (StartDeployment app image log)
  | OpQueue app action log => ignore (QueueDeployment app action log)
  | OpNext => ignore NextQueuedDeployment
  | OpHeartbeat id => ignore (HeartbeatDeployment id)
  | OpCancel app id => ignore (CancelDeployment app id)
  | OpRecover => ignore RecoverInterruptedDeployments
  | OpFinish id s => ignore (FinishDeployment id (final_text s))
  | OpImage id image => ignore (SetDeploymentImage id image)
  | OpMetadata id m => ignore (SetDeploymentReleaseMetadata id m)
  | OpFailure id st c d => ignore (SetDeploymentFailure id st c d)
  | OpStage id st => ignore (SetDeploymentStage id st)
  | OpDurations id q s b st h r => ignore (SetDeploymentStageDurations id q s b st h r)
  | OpEvent id st k m => ignore (AddDeploymentEvent id st k m)
  | OpDelete app ids => ignore (DeleteDeployments app ids)
  end.

Definition run_ops (ops : list deployment_op) : DB unit := for_each ops run_op.

Definition is_delete (op : deployment_op) : bool :=
  match op with OpDelete _ _ => true | _ => false end.
Definition is_recover (op : deployment_op) : bool :=
  match op with OpRecover => true | _ => false end.
(** An operation that does not delete the row of [id]. *)
Definition spares (id : Z) (op : deployment_op) : bool :=
  match op with OpDelete _ ids => negb (bool_decide (id ∈ ids)) | _ => true end.

(** ** The two kinds of writes *)

(** A preorder on tables, lifted to databases. *)
Definition on_table (R : relation (list deployment_row)) : relation database :=
  fun a b => R (t_deployments a) (t_deployments b).

#[export] Instance on_table_preorder R `{!PreOrder R} : PreOrder (on_table R).
Proof. split; unfold on_table; [intros x; reflexivity | intros x y z; apply transitivity]. Qed.

Section writes.
Context (R : relation (list deployment_row)) `{!PreOrder R}.

Lemma evolves_update_deployments p f :
  (forall t, one_active_index (update_where p f t) = true -> R t (update_where p f t)) ->
  evolves (on_table R) (update_deployments p f).
Proof.
  intros H. refine (evolves_step _ _ _). intros db. unfold on_table, write_deployments.
  destruct (one_active_index _) eqn:E; simpl; [by apply H|reflexivity].
Qed.

Lemma evolves_insert_deployment row :
  (forall t, one_active_index (t ++ [row (next_rowid r_id t)]) = true ->
             R t (t ++ [row (next_rowid r_id t)])) ->
  evolves (on_table R) (insert_deployment row).
Proof.
  intros H. refine (evolves_step _ _ _). intros db. unfold on_table, write_deployments.
  destruct (one_active_index _) eqn:E; simpl; [|reflexivity].
  destruct (has_application _ _); simpl; [by apply H|reflexivity].
Qed.
End writes.

Ltac deployment_writes :=
  repeat lazymatch goal with
  | |- evolves _ (update_deployments _ _) => refine (evolves_update_deployments _ _ _ _); intros ?
  | |- evolves _ (insert_deployment _) => refine (evolves_insert_deployment _ _ _); intros ?
  | _ => evolve_step
  end.

(** ** The invariant *)

Lemma table_inv_update p f t :
  (forall r, r_id (f r) = r_id r) ->
  (forall r, row_ok r = true -> p r = true -> row_ok (f r) = true) ->
  one_active_index (update_where p f t) = true ->
  table_inv t -> table_inv (update_where p f t).
Proof.
  intros Hid Hok Hidx (Hs & _ & Hrows). split; [by apply rowids_sorted_update|].
  split; [done|]. unfold update_where. clear Hidx Hs. induction t as [|r t IH]; [done|].
  cbn [forallb map] in *. bools. rewrite IH by done. rewrite andb_true_r.
  destruct (p r) eqn:E; auto.
Qed.

Lemma table_inv_insert r t :
  r_id r = next_rowid r_id t -> row_ok r = true -> one_active_index (t ++ [r]) = true ->
  table_inv t -> table_inv (t ++ [r]).
Proof.
  intros Hid Hr Hidx (Hs & _ & Hrows). split; [by apply rowids_sorted_snoc|].
  split; [done|]. rewrite forallb_app. simpl. by rewrite Hrows, Hr.
Qed.

Lemma NoDup_filter_sub {A B} (g : A -> B) (p : A -> bool) (xs : list A) :
  NoDup (map g xs) -> NoDup (map g (List.filter p xs)).
Proof.
  induction xs as [|x xs IH]; [done|]. simpl. rewrite NoDup_cons. intros [Hx Hxs].
  destruct (p x); [|by apply IH]. simpl. apply NoDup_cons. split; [|by apply IH].
  rewrite list_elem_of_In, in_map_iff in *. intros (y & E & [Hy _]%filter_In). apply Hx. eauto.
Qed.

Lemma filter_comm {A} (p q : A -> bool) (xs : list A) :
  List.filter p (List.filter q xs) = List.filter q (List.filter p xs).
Proof.
  induction xs as [|x xs IH]; [done|]. simpl.
  destruct (q x) eqn:Eq, (p x) eqn:Ep; simpl; rewrite ?Eq, ?Ep, ?IH; done.
Qed.

Lemma table_inv_delete p t : table_inv t -> table_inv (delete_where p t).
Proof.
  intros (Hs & Hidx & Hrows). split; [by apply rowids_sorted_filter|]. split.
  - unfold one_active_index in *. rewrite bool_decide_eq_true in *.
    unfold select_where, delete_where in *. rewrite filter_comm. by apply NoDup_filter_sub.
  - unfold delete_where. rewrite forallb_forall in *. intros r [Hr _]%filter_In. auto.
Qed.

Lemma row_ok_running r : row_ok r = true -> running r = true -> is_Some (r_lease_expires_at r).
Proof.
  unfold row_ok. intros [_ H]%andb_prop Hr. rewrite Hr in H. apply Bool.eqb_prop in H.
  symmetry in H. by apply bool_decide_eq_true in H.
Qed.

(** An update of columns the invariant does not read. *)
Lemma row_ok_same r r' :
  r_status r' = r_status r -> r_lease_expires_at r' = r_lease_expires_at r ->
  row_ok r = true -> row_ok r' = true.
Proof. unfold row_ok, running. by intros -> ->. Qed.

Lemma run_op_keeps_inv op : evolves (on_table (keeps table_inv)) (run_op op).
Proof.
  destruct op; simpl; unfold StartDeployment, QueueDeployment, NextQueuedDeployment,
    HeartbeatDeployment, CancelDeployment, RecoverInterruptedDeployments, FinishDeployment,
    SetDeploymentImage, SetDeploymentReleaseMetadata, SetDeploymentFailure, SetDeploymentStage,
    SetDeploymentStageDurations, AddDeploymentEvent, DeleteDeployments,
    DeploymentCancellationRequested;
  deployment_writes; try reflexivity;
  try (intros Hidx Hinv; apply table_inv_update; try done; intros r Hr Hp;
       first [by apply (row_ok_same r)|unfold row_ok; simpl; try done]);
  try (intros Hidx Hinv; by apply table_inv_insert).
  - unfold row_ok, running in *. bools.
    match goal with H : r_status r = "running" |- _ => simpl; by rewrite H end.
  - by destruct s, (r_cancellation_requested_at r).
  - by destruct (has_deployment _ _); intros Hinv.
  - intros Hinv. by apply table_inv_delete.
Qed.

Lemma queue_invariant_step op w : db_inv (w_state w) -> db_inv (exec (run_op op) w).
Proof. exact (run_op_keeps_inv op w). Qed.

(** C10: whatever sequence of store operations runs and whichever statements the
    environment fails, deployment ids stay positive and increasing, an application
    has at most one queued or running deployment, every status is one of the five of
    the state machine, and a row holds a lease exactly while it is running. *)
Theorem queue_invariant ops (w : world database) :
  db_inv (w_state w) -> db_inv (exec (run_ops ops) w).
Proof.
  assert (evolves (on_table (keeps table_inv)) (run_ops ops)) as H.
  { unfold run_ops. evolve. apply run_op_keeps_inv. }
  exact (H w).
Qed.

Lemma queue_invariant_witness :
  db_inv (exec (run_ops [OpQueue 1 "deploy" "log"; OpNext; OpCancel 1 1; OpFinish 1 Successful])
            (calm database0 0)).
Proof. apply (queue_invariant _ (calm database0 0)). repeat split; constructor. Defined.

(** ** Claims *)

Lemma update_deployments_run p f w n w' :
  update_deployments p f w = (Ok n, w') ->
  n = count_where p (t_deployments (w_state w))
  /\ w_state w' = (w_state w) <| t_deployments := update_where p f (t_deployments (w_state w)) |>.
Proof.
  intros H%step_run. unfold write_deployments in H.
  destruct (one_active_index _); [|done]. injection H as <- <-. done.
Qed.

Lemma insert_deployment_run row w id w' :
  insert_deployment row w = (Ok id, w') ->
  id = next_rowid r_id (t_deployments (w_state w))
  /\ has_application (w_state w) (r_application_id (row id)) = true
  /\ w_state w' = (w_state w) <| t_deployments := t_deployments (w_state w) ++ [row id] |>.
Proof.
  intros H%step_run. unfold write_deployments in H.
  destruct (one_active_index _); [|done].
  destruct (has_application _ _) eqn:E; [|done]. by injection H as <- <-.
Qed.

(** The rows a claim rewrites. *)
Definition claimed (r x : deployment_row) : bool := (r_id x =? r_id r) && queued x.

Lemma claim_run w d w' :
  NextQueuedDeployment w = (Ok d, w') ->
  exists r rest t lease ms,
    select_where queued (t_deployments (w_state w)) = r :: rest
    /\ d_ID d = r_id r
    /\ t_deployments (w_state w')
       = update_where (claimed r) (claim_row t lease ms) (t_deployments (w_state w)).
Proof.
  unfold NextQueuedDeployment. intros H. invert_run.
  destruct (select_where queued _) as [|r rest] eqn:Eq; [done|]. simplify_eq.
  match goal with H : update_deployments _ _ _ = _ |- _ => apply update_deployments_run in H as [_ E] end.
  same_states. do 5 eexists. split; [exact Eq|]. split; reflexivity.
Qed.

Lemma select_head_least (p : deployment_row -> bool) t r rest :
  rowids_sorted r_id t -> select_where p t = r :: rest ->
  In r t /\ p r = true /\ forall x, In x t -> p x = true -> r_id r <= r_id x.
Proof.
  intros Hs E. assert (In r (select_where p t)) as Hin by (rewrite E; by left).
  apply select_where_In in Hin as [Hin Hp]. repeat split; [done|done|].
  intros x Hx Hpx. assert (In x (select_where p t)) as Hx' by (apply select_where_In; auto).
  apply (rowids_sorted_filter _ p) in Hs as [Hs _]. unfold select_where in E, Hx'. rewrite E in Hs, Hx'.
  apply StronglySorted_inv in Hs as [_ Hall]. rewrite List.Forall_forall in Hall.
  destruct Hx' as [<-|Hx']; [lia|]. specialize (Hall _ Hx'). simpl in Hall. lia.
Qed.

(** After a claim the claimed id is not queued any more, and it is still there. *)
Lemma claim_rows t r ts lease ms :
  rowids_sorted r_id t -> In r t -> queued r = true ->
  let t' := update_where (claimed r) (claim_row ts lease ms) t in
  (exists r', In r' t' /\ r_id r' = r_id r)
  /\ forall r', In r' t' -> r_id r' = r_id r -> running r' = true /\ r_attempt r' = r_attempt r + 1.
Proof.
  intros Hs Hin Hq t'. assert (claimed r r = true) as Hc by (unfold claimed; by rewrite Z.eqb_refl, Hq).
  split.
  - exists (claim_row ts lease ms r). split; [|done]. apply update_where_In. exists r. by rewrite Hc.
  - intros r' (r0 & H0 & ->)%update_where_In Hid.
    destruct (claimed r r0) eqn:E.
    + assert (r0 = r) as -> by (by apply (rowids_sorted_inj r_id t)). done.
    + assert (r0 = r) as -> by (by apply (rowids_sorted_inj r_id t)). congruence.
Qed.

(** A claim takes the queued deployment with the smallest id, and leaves it
    running with its attempt counter advanced. *)
Theorem claim_oldest w d :
  db_inv (w_state w) -> eval NextQueuedDeployment w = Ok d ->
  exists r, In r (t_deployments (w_state w)) /\ queued r = true /\ r_id r = d_ID d
  /\ (forall x, In x (t_deployments (w_state w)) -> queued x = true -> d_ID d <= r_id x)
  /\ (forall x, In x (t_deployments (exec NextQueuedDeployment w)) -> r_id x = d_ID d ->
        running x = true /\ r_attempt x = r_attempt r + 1).
Proof.
  intros (Hs & _ & _) H%eval_run. apply claim_run in H as (r & rest & t & l & ms & Hsel & Hid & Ht).
  destruct (select_head_least _ _ _ _ Hs Hsel) as (Hin & Hq & Hleast).
  exists r. rewrite Hid. repeat split; auto; unfold exec in *; rewrite Ht in *;
    by eapply (claim_rows _ r).
Qed.

Definition sample_app (id : Z) (name : string) : Application :=
  MkApplication id name "https://github.com/acme/site" "main" "." "go" "" "" 8080
    (name +:+ ".localhost") "auto" false true false 0 "/healthz" 0.
Definition sample_db : database :=
  database0 <| t_applications := [sample_app 1 "one"; sample_app 2 "two"] |>
    <| t_deployments :=
      [(fresh_row 1 1 "successful" "img" "log" 5) <| r_finished_at := Some 9 |>;
       fresh_row 2 1 "queued" "" "log" 10; fresh_row 3 2 "queued" "" "log" 11] |>.

Lemma sample_db_inv : db_inv sample_db.
Proof. split; [split; repeat constructor | split; reflexivity]. Qed.

Lemma claim_oldest_witness :
  exists r, In r (t_deployments sample_db) /\ r_id r = 2 /\ queued r = true.
Proof.
  destruct (claim_oldest (calm sample_db 20) _ sample_db_inv eq_refl) as (r & H1 & H2 & H3 & _).
  exists r. auto.
Defined.

(** An update that leaves a row active keeps the index. *)
Lemma index_after_claim p f t :
  (forall r, r_application_id (f r) = r_application_id r) ->
  (forall r, p r = true -> active (f r) = active r) ->
  one_active_index (update_where p f t) = one_active_index t.
Proof.
  intros Ha Hact. unfold one_active_index.
  enough (map r_application_id (select_where active (update_where p f t))
          = map r_application_id (select_where active t)) as -> by done.
  unfold select_where, update_where. induction t as [|r t IH]; [done|]. simpl.
  destruct (p r) eqn:Ep; simpl.
  - rewrite (Hact r Ep). destruct (active r); simpl; by rewrite ?Ha, IH.
  - destruct (active r); simpl; by rewrite IH.
Qed.

Lemma claimed_once t r :
  rowids_sorted r_id t -> In r t -> queued r = true -> count_where (claimed r) t = 1%nat.
Proof.
  intros Hs Hin Hq. unfold count_where.
  enough (select_where (claimed r) t = [r]) as -> by done.
  rewrite <- (select_key r_id t r Hs Hin). unfold select_where.
  apply filter_ext_in. intros x Hx. unfold claimed.
  destruct (r_id x =? r_id r) eqn:E; [|done]. bools.
  by rewrite (rowids_sorted_inj r_id t x r Hs Hx Hin E).
Qed.

(** As long as a job is queued and nothing fails, a worker gets one: the claim
    never ends empty-handed while there is work. *)
Theorem claim_progress db now :
  db_inv db -> existsb queued (t_deployments db) = true ->
  exists d, eval NextQueuedDeployment (calm db now) = Ok d /\ d_Status d = "running".
Proof.
  intros (Hs & Hidx & _) Hex.
  destruct (select_where queued (t_deployments db)) as [|r rest] eqn:E.
  { apply existsb_exists in Hex as (x & Hx & Hq).
    assert (In x []) as [] by (rewrite <- E; by apply select_where_In). }
  destruct (select_head_least _ _ _ _ Hs E) as (Hin & Hq & _).
  pose proof (claimed_once _ _ Hs Hin Hq) as Hcount.
  assert (one_active_index (update_where (claimed r)
            (claim_row now (now + DeploymentLeaseDuration) (Z.quot (now - r_started_at r) Millisecond))
            (t_deployments db)) = true) as Hidx'.
  { rewrite index_after_claim; [exact Hidx|done|].
    intros x [_ Hx]%andb_prop. unfold active, queued in *. by rewrite Hx. }
  eexists. split; [|shelve].
  unfold NextQueuedDeployment, update_deployments, write_deployments.
  run_code. rewrite E. simpl. change (fun x => (r_id x =? r_id r) && queued x) with (claimed r).
  rewrite Hidx'. simpl. rewrite Hcount. reflexivity.
  Unshelve. reflexivity.
Qed.

Lemma claim_progress_witness : exists d, eval NextQueuedDeployment (calm sample_db 20) = Ok d.
Proof.
  destruct (claim_progress sample_db 20 sample_db_inv eq_refl) as (d & H & _). by exists d.
Defined.

(** ** Nothing returns to the queue *)

(** A queued row of the new table was queued before under the same id, or is newer
    than every old row; and no row disappears. *)
Definition no_requeue (t t' : list deployment_row) : Prop :=
  (forall r', In r' t' -> queued r' = true ->
     (exists r, In r t /\ r_id r = r_id r' /\ queued r = true)
     \/ forall r, In r t -> r_id r < r_id r')
  /\ forall r, In r t -> exists r', In r' t' /\ r_id r' = r_id r.

#[export] Instance no_requeue_preorder : PreOrder no_requeue.
Proof.
  split.
  - intros t. split; [intros r Hr Hq; left; eauto | eauto].
  - intros a b c [Hab Kab] [Hbc Kbc]. split.
    + intros r Hr Hq. destruct (Hbc r Hr Hq) as [(r1 & H1 & E1 & Q1)|Hnew].
      * destruct (Hab r1 H1 Q1) as [(r2 & H2 & E2 & Q2)|Hnew]; [left; exists r2; by rewrite E2|].
        right. intros x Hx. rewrite <- E1. auto.
      * right. intros x Hx. destruct (Kab x Hx) as (y & Hy & <-). auto.
    + intros r Hr. destruct (Kab r Hr) as (r1 & H1 & E1). destruct (Kbc r1 H1) as (r2 & H2 & E2).
      exists r2. split; [done|congruence].
Qed.

Lemma no_requeue_update p f t :
  (forall r, r_id (f r) = r_id r) ->
  (forall r, p r = true -> queued (f r) = true -> queued r = true) ->
  no_requeue t (update_where p f t).
Proof.
  intros Hid Hq. split.
  - intros r' (r & Hr & ->)%update_where_In Hq'. left. exists r.
    destruct (p r) eqn:E; [|done]. split; [done|]. split; [by rewrite Hid|auto].
  - intros r Hr. exists (if p r then f r else r). split; [apply update_where_In; eauto|].
    by destruct (p r).
Qed.

Lemma no_requeue_insert r t : r_id r = next_rowid r_id t -> no_requeue t (t ++ [r]).
Proof.
  intros E. split.
  - intros r' Hr' Hq. apply in_app_or in Hr' as [Hr'|[<-|[]]]; [left; eauto|].
    right. intros x Hx. rewrite E. by apply next_rowid_fresh.
  - intros x Hx. exists x. split; [apply in_or_app; auto|done].
Qed.

Ltac deployment_op_cases :=
  unfold StartDeployment, QueueDeployment, NextQueuedDeployment,
    HeartbeatDeployment, CancelDeployment, RecoverInterruptedDeployments, FinishDeployment,
    SetDeploymentImage, SetDeploymentReleaseMetadata, SetDeploymentFailure, SetDeploymentStage,
    SetDeploymentStageDurations, AddDeploymentEvent, DeploymentCancellationRequested;
  deployment_writes; try reflexivity;
  try match goal with
      | |- on_table _ _ (snd (if has_deployment ?s ?id then _ else _)) =>
        unfold on_table; destruct (has_deployment s id); simpl; reflexivity
      end.

Lemma run_op_no_requeue op :
  is_delete op = false -> evolves (on_table no_requeue) (run_op op).
Proof.
  destruct op; intros Hdel; try done; simpl; deployment_op_cases;
  intros _; try (by apply no_requeue_insert);
  apply no_requeue_update; try done; intros r Hp Hq; unfold queued in Hq; simpl in Hq.
  by destruct s, (r_cancellation_requested_at r).
Qed.

(** A deletion that spares a row. *)
Lemma evolves_delete (R : relation (list deployment_row)) `{!PreOrder R} id app ids :
  spares id (OpDelete app ids) = true ->
  (forall p t, (forall r, r_id r = id -> p r = false) -> R t (delete_where p t)) ->
  evolves (on_table R) (run_op (OpDelete app ids)).
Proof.
  intros Hs HR. simpl in *. apply evolves_ignore. unfold DeleteDeployments.
  destruct ids as [|i ids]; [evolve|]. apply evolves_update; [exact _|]. intros db. unfold on_table.
  apply HR. intros r <-. by rewrite (proj1 (negb_true_iff _) Hs), andb_false_r.
Qed.

(** The deployment [id] is there, and does not wait in the queue. *)
Definition off_queue (id : Z) (t : list deployment_row) : Prop :=
  (exists r, In r t /\ r_id r = id) /\ forall r, In r t -> r_id r = id -> queued r = false.

Lemma no_requeue_off id t t' : no_requeue t t' -> off_queue id t -> off_queue id t'.
Proof.
  intros [Hq Hk] [(r & Hr & Er) Hall]. destruct (Hk r Hr) as (r' & Hr' & E).
  split; [exists r'; split; [done|congruence]|]. intros x Hx Ex. apply not_true_iff_false. intros Qx.
  destruct (Hq x Hx Qx) as [(y & Hy & Ey & Qy)|Hnew].
  - rewrite (Hall y Hy) in Qy; [done|congruence].
  - specialize (Hnew r Hr). lia.
Qed.

Lemma run_ops_off_queue id ops : forallb (spares id) ops = true ->
  evolves (on_table (keeps (off_queue id))) (run_ops ops).
Proof.
  intros H. unfold run_ops. induction ops as [|op ops IH]; simpl in *; [evolve|]. bools.
  evolve_step; [|by apply IH]. destruct (is_delete op) eqn:Ed.
  - destruct op; try done. eapply evolves_delete; [exact _|done|]. intros p t Hp [(r & Hr & Er) Hall].
    split; [exists r; split; [|done]; apply filter_In; by rewrite Hp|].
    intros x [Hx _]%filter_In. by apply Hall.
  - apply (evolves_weaken (on_table no_requeue)); [|by apply run_op_no_requeue].
    intros a b Hab Ha. exact (no_requeue_off _ _ _ Hab Ha).
Qed.

(** C31: a job is claimed once.  Whatever the other workers, operators, restarts and cleanups do
    between two successful claims, and whatever fails, the second one is for another deployment;
    only the deletion of the claimed row itself is excluded, since its id can be given again. *)
Theorem claims_exclusive w d1 ops d2 :
  db_inv (w_state w) ->
  forallb (spares (d_ID d1)) ops = true ->
  let w1 := snd (NextQueuedDeployment w) in
  let w2 := snd (run_ops ops w1) in
  eval NextQueuedDeployment w = Ok d1 ->
  eval NextQueuedDeployment w2 = Ok d2 ->
  d_ID d1 <> d_ID d2.
Proof.
  intros (Hs & _ & _) Hops w1 w2 H1%eval_run H2%eval_run.
  apply claim_run in H1 as (r1 & rest1 & t1 & l1 & ms1 & Hsel1 & Hid1 & Ht1).
  apply claim_run in H2 as (r2 & rest2 & t2 & l2 & ms2 & Hsel2 & Hid2 & _).
  destruct (select_head_least _ _ _ _ Hs Hsel1) as (Hin & Hq & _).
  destruct (claim_rows _ r1 t1 l1 ms1 Hs Hin Hq) as [(rc & Hrc & Erc) Hrun]. rewrite <- Ht1 in *.
  assert (off_queue (d_ID d1) (t_deployments (w_state w1))) as Hc.
  { split; [exists rc; split; [done|congruence]|]. intros r Hr Er.
    destruct (Hrun r Hr) as [Hrunning _]; [congruence|]. unfold running, queued in *. bools.
    apply String.eqb_neq. congruence. }
  destruct (run_ops_off_queue _ ops Hops w1 Hc) as [_ Hoff].
  assert (In r2 (select_where queued (t_deployments (w_state w2)))) as [Hin2 Hq2]%select_where_In
    by (rewrite Hsel2; by left).
  intros E. rewrite (Hoff r2 Hin2) in Hq2; [done|congruence].
Qed.

Lemma claims_exclusive_witness :
  let w := calm sample_db 20 in
  let w2 := snd (run_ops [OpCancel 1 2; OpFinish 2 Successful; OpDelete 1 [1]] (snd (NextQueuedDeployment w))) in
  exists d1 d2, eval NextQueuedDeployment w = Ok d1 /\ eval NextQueuedDeployment w2 = Ok d2
    /\ d_ID d1 <> d_ID d2.
Proof.
  eexists _, _. split; [vm_compute; reflexivity|]. split; [vm_compute; reflexivity|].
  eapply (claims_exclusive (calm sample_db 20) _ [OpCancel 1 2; OpFinish 2 Successful; OpDelete 1 [1]] _
            sample_db_inv); vm_compute; reflexivity.
Defined.

(** ** Cancellation *)

(** The statuses a cancelled job can have; only a restart records it as failed. *)
Definition fates (restarted : bool) : list string :=
  "running" :: "cancelled" :: if restarted then ["failed"] else [].

(** Every row of the deployment carries the cancellation request, and its status is
    one a cancelled job can have. *)
Definition doomed_row (restarted : bool) (r : deployment_row) : bool :=
  bool_decide (is_Some (r_cancellation_requested_at r)) && bool_decide (r_status r ∈ fates restarted).

Lemma doomed_intro restarted r status :
  r_status r = status -> is_Some (r_cancellation_requested_at r) ->
  bool_decide (status ∈ fates restarted) = true -> doomed_row restarted r = true.
Proof. unfold doomed_row. intros -> H ->. by rewrite bool_decide_eq_true_2. Qed.

Lemma doomed_requested restarted r : doomed_row restarted r = true -> is_Some (r_cancellation_requested_at r).
Proof. by intros [H%bool_decide_eq_true _]%andb_prop. Qed.

Definition doomed (restarted : bool) (id : Z) (t : list deployment_row) : Prop :=
  (exists r, In r t /\ r_id r = id)
  /\ forall r, In r t -> r_id r = id -> doomed_row restarted r = true.

Lemma doomed_update restarted id p f t :
  (forall r, r_id (f r) = r_id r) ->
  (forall r, p r = true -> doomed_row restarted r = true -> doomed_row restarted (f r) = true) ->
  doomed restarted id t -> doomed restarted id (update_where p f t).
Proof.
  intros Hid Hf [(r & Hr & E) Hall]. split.
  - exists (if p r then f r else r). split; [apply update_where_In; eauto|].
    destruct (p r); [by rewrite Hid|done].
  - intros x (y & Hy & ->)%update_where_In. destruct (p y) eqn:Ep; [rewrite Hid|]; auto.
Qed.

Lemma doomed_insert restarted id r t :
  r_id r = next_rowid r_id t -> doomed restarted id t -> doomed restarted id (t ++ [r]).
Proof.
  intros Hid [(x & Hx & E) Hall]. split; [exists x; split; [apply in_or_app; auto|done]|].
  intros y [Hy|[<-|[]]]%in_app_or Ey; [auto|].
  pose proof (next_rowid_fresh r_id t x Hx). lia.
Qed.

Lemma doomed_not_queued restarted r : doomed_row restarted r = true -> queued r = false.
Proof.
  unfold doomed_row, queued. intros [_ H]%andb_prop.
  apply String.eqb_neq. intros E. rewrite E in H. by destruct restarted; vm_compute in H.
Qed.

Lemma doomed_same restarted r r' :
  r_status r' = r_status r -> r_cancellation_requested_at r' = r_cancellation_requested_at r ->
  doomed_row restarted r = true -> doomed_row restarted r' = true.
Proof. unfold doomed_row. by intros -> ->. Qed.

Lemma run_op_doomed restarted id op :
  is_delete op = false -> (is_recover op = true -> restarted = true) ->
  evolves (on_table (keeps (doomed restarted id))) (run_op op).
Proof.
  destruct op; intros Hdel Hrec; try done; simpl; deployment_op_cases; try (intros ?; done);
  intros _ Hd; try (by apply doomed_insert);
  apply doomed_update; try done; intros r Hp Hr;
  first [by apply (doomed_same restarted r)|idtac].
  - apply doomed_not_queued in Hr. by rewrite Hr, andb_false_r in Hp.
  - apply doomed_not_queued in Hr. by rewrite Hr, andb_false_r in Hp.
  - apply (doomed_intro _ _ (r_status r)); [done|by eexists|by apply andb_prop in Hr as [_ Hr]].
  - rewrite Hrec in * by done. by apply (doomed_intro _ _ "failed"); [done|apply (doomed_requested true r)|].
  - apply (doomed_intro _ _ "cancelled"); [|by apply (doomed_requested restarted r)|done].
    by apply doomed_requested in Hr as [c Hc]; simpl; rewrite Hc.
Qed.

Lemma run_ops_doomed restarted id ops :
  forallb (spares id) ops = true -> (existsb is_recover ops = true -> restarted = true) ->
  evolves (on_table (keeps (doomed restarted id))) (run_ops ops).
Proof.
  intros H Hrec. unfold run_ops. induction ops as [|op ops IH]; simpl in *; [evolve|]. bools.
  evolve_step; [|apply IH; [done|intros E; apply Hrec; by rewrite E, orb_true_r]].
  destruct (is_delete op) eqn:Ed.
  - destruct op; try done. eapply evolves_delete; [exact _|done|]. intros p t Hp [(r & Hr & Er) Hall].
    split; [exists r; split; [|done]; apply filter_In; by rewrite Hp|].
    intros x [Hx _]%filter_In. by apply Hall.
  - apply run_op_doomed; [done|]. intros E. apply Hrec. by rewrite E.
Qed.

(** A heartbeat matches no row of a doomed deployment. *)
Lemma heartbeat_count restarted id t :
  doomed restarted id t ->
  count_where (fun r => (r_id r =? id) && running r
                        && bool_decide (r_cancellation_requested_at r = None)) t = 0%nat.
Proof.
  intros [_ H]. unfold count_where. rewrite select_where_none; [done|]. intros r Hr.
  destruct (Z.eqb_spec (r_id r) id) as [E|]; [|done]. specialize (H r Hr E).
  apply doomed_requested in H as [c ->]. apply andb_false_r.
Qed.


Lemma count_where_ex (p : deployment_row -> bool) t :
  count_where p t = 1%nat -> exists r, In r t /\ p r = true.
Proof.
  unfold count_where. intros H. destruct (select_where p t) as [|r l] eqn:E; [done|].
  exists r. apply select_where_In. rewrite E. by left.
Qed.

(** A condition on a key selects nothing when the row of that key does not meet it. *)
Lemma count_key_none (p : deployment_row -> bool) t r :
  rowids_sorted r_id t -> In r t -> p r = false ->
  (forall x, p x = true -> r_id x = r_id r) -> count_where p t = 0%nat.
Proof.
  intros Hs Hr Hp Hkey. unfold count_where. rewrite select_where_none; [done|]. intros x Hx.
  destruct (p x) eqn:E; [|done]. rewrite <- E, <- Hp. f_equal.
  apply (rowids_sorted_inj r_id t); auto.
Qed.

Lemma keeps_id (b : bool) f r :
  (forall r, r_id (f r) = r_id r) -> r_id (if b then f r else r) = r_id r.
Proof. intros H. by destruct b. Qed.

(** Cancelling a running job marks it. *)
Lemma cancel_dooms restarted app id w w' r :
  rowids_sorted r_id (t_deployments (w_state w)) ->
  In r (t_deployments (w_state w)) -> r_id r = id -> running r = true ->
  CancelDeployment app id w = (Ok tt, w') -> doomed restarted id (t_deployments (w_state w')).
Proof.
  intros Hs Hr Eid Hrun. unfold CancelDeployment. cbv zeta.
  intros (ts & w1 & E1%now_run & H)%bind_run.
  apply bind_run in H as (n & w2 & [Hn E2]%update_deployments_run & H). rewrite E1 in Hn, E2.
  set (t := t_deployments (w_state w)) in *.
  assert (count_where (fun r => (r_id r =? id) && (r_application_id r =? app) && queued r) t = 0%nat) as Hz.
  { apply (count_key_none _ t r Hs Hr).
    - unfold running, queued in *. bools. rewrite Hrun. apply andb_false_r.
    - intros x Hx. bools. congruence. }
  rewrite update_where_none in E2 by done. rewrite Hz in Hn. subst n.
  apply bind_run in H as (m & w3 & [Hm E3]%update_deployments_run & H).
  destruct (negb (m =? 1)%nat) eqn:Em; [by apply fail_run in H|]. apply ret_run in H as [_ ->].
  apply negb_false_iff, Nat.eqb_eq in Em. rewrite Em in Hm. symmetry in Hm.
  assert (t_deployments (w_state w2) = t) as Et by (by rewrite E2).
  rewrite E3. cbn [t_deployments]. rewrite Et in *.
  match goal with |- doomed _ _ (t_deployments ?d) =>
    change (t_deployments d) with
      (update_where (fun r => (r_id r =? id) && (r_application_id r =? app) && running r
                        && bool_decide (r_cancellation_requested_at r = None))
         (fun r => r <| r_cancellation_requested_at := Some ts |>) t) end.
  apply count_where_ex in Hm as (q & Hq & Hp).
  assert (q = r) as -> by (bools; by apply (rowids_sorted_inj r_id t); [| | |congruence]).
  split.
  - eexists. split; [apply update_where_In; exists r; split; [done|]; by rewrite Hp|done].
  - intros x (y & Hy & ->)%update_where_In Ex.
    rewrite keeps_id in Ex by done. pose proof Ex as Ey.
    assert (y = r) as -> by (by apply (rowids_sorted_inj r_id t); [| | |congruence]).
    rewrite Hp. unfold running in Hrun. bools. by apply (doomed_intro _ _ "running"); [|eexists|].
Qed.

(** C16: cancelling a running job is durable.  Once the request is accepted, whatever the workers,
    operators, restarts and cleanups do, short of deleting its row, the job is still running or it
    is cancelled; only the recovery of a restart records it as failed, and nothing as successful.
    Its heartbeat is refused for ever, and whatever status its worker reports at the end, the row
    is recorded as cancelled. *)
Theorem cancel_durable w app id r ops status :
  db_inv (w_state w) ->
  In r (t_deployments (w_state w)) -> r_id r = id -> running r = true ->
  eval (CancelDeployment app id) w = Ok tt ->
  forallb (spares id) ops = true ->
  let w2 := snd (run_ops ops (snd (CancelDeployment app id w))) in
  (forall x, In x (t_deployments (w_state w2)) -> r_id x = id ->
     r_status x ∈ ["running"; "cancelled"]
     \/ existsb is_recover ops = true /\ r_status x = "failed")
  /\ eval (HeartbeatDeployment id) w2 <> Ok tt
  /\ (eval (FinishDeployment id status) w2 = Ok tt ->
      forall x, In x (t_deployments (exec (FinishDeployment id status) w2)) -> r_id x = id ->
        r_status x = "cancelled").
Proof.
  intros (Hs & _) Hr Eid Hrun Hc%eval_run Hops w2.
  assert (doomed (existsb is_recover ops) id (t_deployments (w_state w2))) as Hd.
  { apply (run_ops_doomed _ id ops Hops); [done|]. by eapply cancel_dooms. }
  split; [|split].
  - intros x Hx Ex. destruct Hd as [_ Hd]. specialize (Hd x Hx Ex).
    apply andb_prop in Hd as [_ Hf%bool_decide_eq_true]. unfold fates in Hf.
    destruct (existsb is_recover ops); set_solver.
  - intros H%eval_run. unfold HeartbeatDeployment in H.
    apply bind_run in H as (ts & w3 & E%now_run & H).
    apply bind_run in H as (n & w4 & [Hn _]%update_deployments_run & H).
    rewrite E, (heartbeat_count _ _ _ Hd) in Hn. subst n.
    apply bind_run in H as (c & w5 & _ & H). by destruct c as [[]|].
  - intros H%eval_run x. unfold FinishDeployment in H at 1.
    apply bind_run in H as (ts & w3 & E%now_run & H).
    apply bind_run in H as (n & w4 & [_ E4]%update_deployments_run & H).
    apply ret_run in H as [_ Ew]. unfold exec. rewrite Ew, E4, E. cbn [t_deployments].
    intros (y & Hy & ->)%update_where_In Ex.
    assert (r_id y = id) as Ey by (destruct (r_id y =? id); exact Ex).
    rewrite (proj2 (Z.eqb_eq _ _) Ey). destruct Hd as [_ Hd]. specialize (Hd y Hy Ey).
    apply doomed_requested in Hd as [c Hc']. simpl. by rewrite Hc'.
Qed.

Definition sample_running_row : deployment_row :=
  (fresh_row 2 1 "running" "" "log" 10) <| r_lease_expires_at := Some 40 |>.
Definition sample_running : database := sample_db <| t_deployments := [sample_running_row] |>.

Lemma sample_running_inv : db_inv sample_running.
Proof. split; [split; repeat constructor | split; reflexivity]. Qed.

Lemma cancel_durable_witness :
  eval (HeartbeatDeployment 2)
    (snd (run_ops [OpRecover; OpFinish 2 Successful; OpDelete 1 [1]]
            (snd (CancelDeployment 1 2 (calm sample_running 20))))) <> Ok tt.
Proof.
  assert (eval (CancelDeployment 1 2) (calm sample_running 20) = Ok tt) as H by (vm_compute; reflexivity).
  exact (proj1 (proj2 (cancel_durable (calm sample_running 20) 1 2 sample_running_row
           [OpRecover; OpFinish 2 Successful; OpDelete 1 [1]] "" sample_running_inv
           (or_introl eq_refl) eq_refl eq_refl H eq_refl))).
Defined.

(** ** Queueing *)

(** The index accepts a new active row unless its application already has one. *)
Lemma index_insert t r :
  one_active_index t = true -> active r = true ->
  one_active_index (t ++ [r])
  = negb (existsb (fun x => active x && (r_application_id x =? r_application_id r)) t).
Proof.
  unfold one_active_index. rewrite bool_decide_eq_true. intros Hnd Hr.
  assert (select_where active (t ++ [r]) = select_where active t ++ [r]) as ->.
  { rewrite select_where_app. unfold select_where at 2. simpl. by rewrite Hr. }
  rewrite map_app. simpl. destruct (existsb _ t) eqn:E; simpl.
  - apply bool_decide_eq_false. rewrite NoDup_app. intros (_ & Hd & _).
    apply existsb_exists in E as (x & Hx & Hp). bools.
    apply (Hd (r_application_id r)); [|by apply list_elem_of_singleton].
    apply list_elem_of_In, in_map_iff. exists x. split; [done|]. by apply select_where_In.
  - apply bool_decide_eq_true. apply NoDup_app. split; [done|]. split; [|apply NoDup_singleton].
    intros a Ha ->%list_elem_of_singleton. apply list_elem_of_In, in_map_iff in Ha as (x & Ex & Hx).
    apply select_where_In in Hx as [Hx Hax].
    assert (existsb (fun x => active x && (r_application_id x =? r_application_id r)) t = true)
      as Ht; [|congruence].
    apply existsb_exists. exists x. by rewrite Hax, Ex, Z.eqb_refl.
Qed.

(** Queueing a deployment on every branch: an unknown action, an application that
    already has an active deployment (whatever else is wrong), an unknown application,
    and success; only success changes the database, by appending one queued row. *)
Theorem queue_deployment_branches db t app action log :
  db_inv db ->
  let busy := existsb (fun x => active x && (r_application_id x =? app)) (t_deployments db) in
  let id := next_rowid r_id (t_deployments db) in
  eval (QueueDeployment app action log) (calm db t)
  = (if negb (valid_action action) then Err (ErrMsg "invalid deployment action")
     else if busy then Err (unique_failed "deployments.application_id")
     else if negb (has_application db app) then Err foreign_key_failed
     else Ok (Deployment0 <| d_ID := id |> <| d_ApplicationID := app |> <| d_Status := "queued" |>
                <| d_LogPath := log |> <| d_StartedAt := t |> <| d_Action := action |>))
  /\ exec (QueueDeployment app action log) (calm db t)
     = if valid_action action && negb busy && has_application db app
       then db <| t_deployments := t_deployments db
                  ++ [(fresh_row id app "queued" "" log t) <| r_action := action |>] |>
       else db.
Proof.
  intros (_ & Hidx & _) busy id. unfold QueueDeployment.
  destruct (valid_action action); [|done].
  unfold insert_deployment, write_deployments. run_code. fold id.
  match goal with |- context [one_active_index (?t ++ [?r])] =>
    assert (one_active_index (t ++ [r]) = negb busy) as -> by exact (index_insert t r Hidx eq_refl) end.
  destruct busy; [done|]. simpl.
  by destruct (has_application db app).
Qed.

Lemma queue_deployment_branches_witness :
  eval (QueueDeployment 1 "deploy" "log") (calm sample_db 30)
  = Err (unique_failed "deployments.application_id").
Proof. exact (proj1 (queue_deployment_branches sample_db 30 1 "deploy" "log" sample_db_inv)). Defined.

(** A retry is never queued: the action the HTTP handler uses for it is not one the
    store accepts, so the request fails before the database is touched. *)
Theorem retry_never_queued app log w :
  QueueDeployment app "retry" log w = (Err (ErrMsg "invalid deployment action"), w).
Proof. reflexivity. Qed.

(** ** Retention *)

Definition succeeded (d : Deployment) : bool := (d_Status d =? "successful")%string.

(** What makes a deployment of a newest-first history removable. *)
Definition removable (before : Time) (retain seen : Z) (newer : list Deployment) (d : Deployment) : bool :=
  negb ((d_Status d =? "queued")%string || (d_Status d =? "running")%string)
  && negb (IsZero (d_FinishedAt d)) && (d_FinishedAt d <? before)
  && (negb (succeeded d)
      || (retain <=? seen + Z.of_nat (count_where succeeded newer))).

Lemma retention_loop_spec before retain seen ds d :
  In d (retention_loop before retain seen ds)
  <-> exists newer older, ds = newer ++ d :: older /\ removable before retain seen newer d = true.
Proof.
  revert seen. induction ds as [|x ds IH]; intros seen.
  - split; [done|]. intros (newer & older & E & _). by destruct newer.
  - assert (forall seen', seen' = (if succeeded x then seen + 1 else seen) ->
      (In d (retention_loop before retain seen' ds) <->
       exists newer older, x :: ds = (x :: newer) ++ d :: older
         /\ removable before retain seen (x :: newer) d = true)) as Hrec.
    { intros seen' ->. rewrite IH. split; intros (newer & older & E & Hr).
      - exists newer, older. split; [by rewrite E|]. rewrite <- Hr. unfold removable, count_where.
        do 3 f_equal. unfold select_where. simpl. destruct (succeeded x); simpl; lia.
      - exists newer, older. split; [by injection E|]. rewrite <- Hr. unfold removable, count_where.
        do 3 f_equal. unfold select_where. simpl. destruct (succeeded x); simpl; lia. }
    assert ((exists newer older, x :: ds = newer ++ d :: older
              /\ removable before retain seen newer d = true)
            <-> (x = d /\ removable before retain seen [] x = true)
                \/ exists newer older, x :: ds = (x :: newer) ++ d :: older
                     /\ removable before retain seen (x :: newer) d = true) as ->.
    { split.
      - intros ([|y newer] & older & E & Hr); injection E as -> ->; [by left|right; eauto].
      - intros [[-> Hr]|(newer & older & E & Hr)]; eauto. exists [], ds. auto. }
    rewrite <- (Hrec _ eq_refl). clear Hrec IH.
    cbn [retention_loop]. change (d_Status x =? "successful")%string with (succeeded x).
    set (rest := retention_loop before retain (if succeeded x then seen + 1 else seen) ds).
    unfold removable, count_where. simpl. rewrite Z.add_0_r.
    assert (forall P, P <-> (x = d /\ false = true) \/ P) as Hfalse by (intros; naive_solver).
    destruct (_ || (d_Status x =? "running")%string); simpl; [apply Hfalse|].
    destruct (IsZero (d_FinishedAt x)); simpl; [apply Hfalse|].
    destruct (d_FinishedAt x <? before); simpl; [|apply Hfalse].
    destruct (succeeded x); simpl.
    + destruct (Z.leb_spec (seen + 1) retain), (Z.leb_spec retain seen); simpl; try lia; naive_solver.
    + naive_solver.
Qed.

(** The history as [RetentionCandidates] reads it: newest first. *)
Definition history (app : Z) (db : database) : list Deployment :=
  map scan_deployment (rev (select_where (fun r => r_application_id r =? app) (t_deployments db))).

(** Retention selects exactly the deployments of the application that are not
    active, finished before the cutoff, and, when successful, older than [retain]
    other successful ones; so the [retain] newest successful releases always survive. *)
Theorem retention_candidates_exact app before retain w ds d :
  eval (RetentionCandidates app before retain) w = Ok ds ->
  In d ds <->
  exists newer older, history app (w_state w) = newer ++ d :: older
    /\ d_Status d <> "queued" /\ d_Status d <> "running"
    /\ d_FinishedAt d <> 0 /\ d_FinishedAt d < before
    /\ (d_Status d = "successful" ->
        retain <= Z.of_nat (length (List.filter succeeded newer))).
Proof.
  intros H%eval_run. unfold RetentionCandidates, Deployments in H.
  apply bind_run in H as (l & w1 & [[= <-] _]%query_run & [-> _]%ret_run).
  fold (history app (w_state w)). rewrite retention_loop_spec.
  enough (forall newer, removable before retain 0 newer d = true
    <-> d_Status d <> "queued" /\ d_Status d <> "running"
        /\ d_FinishedAt d <> 0 /\ d_FinishedAt d < before
        /\ (d_Status d = "successful" -> retain <= Z.of_nat (length (List.filter succeeded newer)))) as E.
  { split; intros (newer & older & Hh & Hr); exists newer, older; split; try done; by apply E. }
  intros newer. unfold removable, count_where, select_where, succeeded at 1, IsZero.
  rewrite !andb_true_iff, orb_true_iff, !negb_true_iff, orb_false_iff, !String.eqb_neq,
    Z.eqb_neq, Z.ltb_lt, Z.leb_le, Z.add_0_l.
  destruct (String.eqb_spec (d_Status d) "successful"); tauto.
Qed.

Lemma retention_candidates_exact_witness :
  let old := scan_deployment ((fresh_row 1 1 "successful" "img" "log" 5) <| r_finished_at := Some 9 |>) in
  exists ds, eval (RetentionCandidates 1 10 0) (calm sample_db 20) = Ok ds /\ In old ds.
Proof.
  eexists. split; [vm_compute; reflexivity|].
  apply (retention_candidates_exact 1 10 0 (calm sample_db 20)); [vm_compute; reflexivity|].
  exists [scan_deployment (fresh_row 2 1 "queued" "" "log" 10)], [].
  split; [vm_compute; reflexivity|]. by vm_compute.
Defined.

(** [LatestFailedDeployment] hides a database fault: when its query fails, the
    caller gets the zero deployment and no error. *)
Theorem latest_failed_hides_faults app db t msg :
  eval (LatestFailedDeployment app) (World db [FailBefore msg] t []) = Ok Deployment0.
Proof. reflexivity. Qed.
