(* ===== verification/JobSpec.v ===== *)
(** * What the deployment queue implements

    An abstract machine of jobs: a finite map from ids to jobs that wait, work or are
    done, and the step each operation may take.  The store refines it: under every fault
    script an operation that reports success takes its step, and one that reports an error
    takes it or leaves the jobs as they were.  The columns of the table, its rowids, its
    index, its leases and its timestamps do not appear in the specification. *)

From stdpp Require Import gmap.
From S2P Require Import Prelude GoStrings StoreTypes StoreDeployments StoreQueueFacts.

(** ** The machine *)

Inductive stage := Waiting | Working | Done (s : final_status).

Record job := Job { j_app : Z; j_stage : stage; j_asked : bool }.

Definition job_active (j : job) : Prop :=
  match j_stage j with Done _ => False | _ => True end.

Definition busy (q : gmap Z job) (app : Z) : Prop :=
  exists id j, q !! id = Some j /\ j_app j = app /\ job_active j.

Definition newest (q : gmap Z job) (id : Z) : Prop := forall k, is_Some (q !! k) -> k < id.

Definition work (j : job) : job := Job (j_app j) Working (j_asked j).
Definition ask (j : job) : job := Job (j_app j) (j_stage j) true.
Definition close (s : final_status) (j : job) : job :=
  Job (j_app j) (Done (if j_asked j then Cancelled else s)) (j_asked j).
Definition interrupt (j : job) : job :=
  match j_stage j with Working => Job (j_app j) (Done Failed) (j_asked j) | _ => j end.

(** Operations on columns the machine does not have. *)
Definition silent (op : deployment_op) : bool :=
  match op with
  | OpHeartbeat _ | OpImage _ _ | OpMetadata _ _ | OpFailure _ _ _ _ | OpStage _ _
  | OpDurations _ _ _ _ _ _ _ | OpEvent _ _ _ _ => true
  | _ => false
  end.

Inductive job_step (q : gmap Z job) : deployment_op -> gmap Z job -> Prop :=
  | Job_silent op : silent op = true -> job_step q op q
  | Job_start app image log id :
      newest q id -> ~ busy q app ->
      job_step q (OpStart app image log) (<[id := Job app Working false]> q)
  | Job_queue app action log id :
      valid_action action = true -> newest q id -> ~ busy q app ->
      job_step q (OpQueue app action log) (<[id := Job app Waiting false]> q)
  | Job_next id j :
      q !! id = Some j -> j_stage j = Waiting ->
      (forall k j', q !! k = Some j' -> j_stage j' = Waiting -> id <= k) ->
      job_step q OpNext (<[id := work j]> q)
  | Job_withdraw app id j :
      q !! id = Some j -> j_app j = app -> j_stage j = Waiting ->
      job_step q (OpCancel app id) (<[id := Job app (Done Cancelled) (j_asked j)]> q)
  | Job_ask app id j :
      q !! id = Some j -> j_app j = app -> j_stage j = Working -> j_asked j = false ->
      job_step q (OpCancel app id) (<[id := ask j]> q)
  | Job_recover : job_step q OpRecover (interrupt <$> q)
  | Job_finish id s : job_step q (OpFinish id s) (alter (close s) id q)
  | Job_delete app ids :
      job_step q (OpDelete app ids)
        (filter (fun '(id, j) => ~ (j_app j = app /\ id ∈ ids)) q).

(** What an operation may answer and leave. *)
Definition outcome_of (q : gmap Z job) (op : deployment_op) (r : result unit) (q' : gmap Z job) : Prop :=
  match r with
  | Ok _ => job_step q op q'
  | Err _ => q' = q \/ job_step q op q'
  end.

(** ** The jobs of a table *)

Definition stage_of (status : string) : stage :=
  if (status =? "queued")%string then Waiting else
  if (status =? "running")%string then Working else
  Done (if (status =? "successful")%string then Successful else
        if (status =? "cancelled")%string then Cancelled else Failed).

Definition job_of (r : deployment_row) : job :=
  Job (r_application_id r) (stage_of (r_status r)) (bool_decide (is_Some (r_cancellation_requested_at r))).

Definition keyed (r : deployment_row) : Z * job := (r_id r, job_of r).

Definition jobs (t : list deployment_row) : gmap Z job := list_to_map (map keyed t).

Definition jobs_of (db : database) : gmap Z job := jobs (t_deployments db).

(** The operations with their errors. *)
Definition call_op (op : deployment_op) : DB unit :=
  match op with
  | OpStart app image log => _ ← StartDeployment app image log; mret tt
  | OpQueue app action log => _ ← QueueDeployment app action log; mret tt
  | OpNext => _ ← NextQueuedDeployment; mret tt
  | OpHeartbeat id => HeartbeatDeployment id
  | OpCancel app id => CancelDeployment app id
  | OpRecover => _ ← RecoverInterruptedDeployments; mret tt
  | OpFinish id s => FinishDeployment id (final_text s)
  | OpImage id image => SetDeploymentImage id image
  | OpMetadata id m => SetDeploymentReleaseMetadata id m
  | OpFailure id st c d => SetDeploymentFailure id st c d
  | OpStage id st => SetDeploymentStage id st
  | OpDurations id q s b st h r => SetDeploymentStageDurations id q s b st h r
  | OpEvent id st k m => AddDeploymentEvent id st k m
  | OpDelete app ids => DeleteDeployments app ids
  end.

(** ** Tables and maps *)

Lemma jobs_cons r t : jobs (r :: t) = <[r_id r := job_of r]> (jobs t).
Proof. done. Qed.

Lemma jobs_lookup_in t k j : jobs t !! k = Some j -> exists r, In r t /\ r_id r = k /\ job_of r = j.
Proof.
  intros H%elem_of_list_to_map_2. apply list_elem_of_In, in_map_iff in H as (r & [= <- <-] & Hr). eauto.
Qed.

Lemma jobs_lookup t r : rowids_sorted r_id t -> In r t -> jobs t !! r_id r = Some (job_of r).
Proof.
  intros Hs Hr. destruct (jobs t !! r_id r) as [j|] eqn:E.
  - apply jobs_lookup_in in E as (r' & Hr' & Eid & <-).
    by rewrite (rowids_sorted_inj r_id t r' r Hs Hr' Hr Eid).
  - exfalso. apply not_elem_of_list_to_map_2 in E. apply E, list_elem_of_In.
    rewrite map_map. by apply (in_map r_id).
Qed.

Lemma jobs_fmap g (p : deployment_row -> bool) f t :
  (forall r, r_id (f r) = r_id r) ->
  (forall r, In r t -> job_of (if p r then f r else r) = g (job_of r)) ->
  jobs (update_where p f t) = g <$> jobs t.
Proof.
  intros Hid Hg. induction t as [|r t IH]; [symmetry; apply fmap_empty|].
  cbn [update_where map]. fold (update_where p f t). rewrite !jobs_cons, fmap_insert, keeps_id, Hg by (done || by left).
  by rewrite IH by (intros; apply Hg; by right).
Qed.

Lemma jobs_alter g (p : deployment_row -> bool) f t k :
  (forall r, r_id (f r) = r_id r) ->
  (forall r, In r t -> job_of (if p r then f r else r) = if r_id r =? k then g (job_of r) else job_of r) ->
  jobs (update_where p f t) = alter g k (jobs t).
Proof.
  intros Hid Hg. induction t as [|r t IH]; [apply map_eq; intros i; rewrite lookup_alter; by case_decide|].
  cbn [update_where map]. fold (update_where p f t). rewrite !jobs_cons, keeps_id, Hg by (done || by left).
  rewrite IH by (intros; apply Hg; by right). destruct (Z.eqb_spec (r_id r) k) as [->|Hk].
  - apply map_eq. intros i. destruct (decide (i = k)) as [->|];
      [by rewrite lookup_insert_eq, lookup_alter_eq, lookup_insert_eq|].
    by rewrite lookup_insert_ne, !lookup_alter_ne, lookup_insert_ne.
  - by rewrite alter_insert_ne by done.
Qed.

Lemma alter_insert_of (g : job -> job) k j (q : gmap Z job) : q !! k = Some j -> alter g k q = <[k := g j]> q.
Proof.
  intros E. apply map_eq. intros i. destruct (decide (i = k)) as [->|];
    [by rewrite lookup_alter_eq, lookup_insert_eq, E|by rewrite lookup_alter_ne, lookup_insert_ne].
Qed.

Lemma jobs_snoc t r : (forall x, In x t -> r_id x < r_id r) -> jobs (t ++ [r]) = <[r_id r := job_of r]> (jobs t).
Proof.
  intros H. unfold jobs. rewrite map_app. apply list_to_map_snoc. intros Hin.
  apply list_elem_of_In in Hin. rewrite map_map, in_map_iff in Hin. destruct Hin as (x & E & Hx).
  specialize (H x Hx). simpl in E. lia.
Qed.

Lemma jobs_delete (p : deployment_row -> bool) (Q : Z * job -> Prop) `{forall x, Decision (Q x)} t :
  rowids_sorted r_id t -> (forall r, In r t -> p r = false <-> Q (keyed r)) ->
  jobs (delete_where p t) = filter Q (jobs t).
Proof.
  intros Hs Hp. apply map_eq. intros k. apply option_eq. intros j.
  rewrite map_lookup_filter_Some. split.
  - intros (r & Hr & <- & <-)%jobs_lookup_in. unfold delete_where in Hr. apply filter_In in Hr as [Hr Hn].
    apply negb_true_iff in Hn. split; [by apply jobs_lookup|by apply (Hp r Hr)].
  - intros [(r & Hr & <- & <-)%jobs_lookup_in HQ]. apply (jobs_lookup (delete_where p t)).
    + by apply rowids_sorted_filter.
    + unfold delete_where. apply filter_In. split; [done|]. by rewrite (proj2 (Hp r Hr) HQ).
Qed.

Lemma jobs_busy t app :
  busy (jobs t) app -> existsb (fun x => active x && (r_application_id x =? app)) t = true.
Proof.
  intros (k & j & (r & Hr & <- & <-)%jobs_lookup_in & Ha & Hact). apply existsb_exists. exists r.
  split; [done|]. unfold job_active, job_of, stage_of in *. simpl in *. unfold active.
  destruct (r_status r =? "queued")%string, (r_status r =? "running")%string; simpl; by (rewrite Ha, Z.eqb_refl || done).
Qed.

Lemma jobs_newest t : newest (jobs t) (next_rowid r_id t).
Proof. intros k [j (r & Hr & <- & _)%jobs_lookup_in]. by apply next_rowid_fresh. Qed.

(** ** The statements, as triples on tables *)

Section statements.
Context {A : Type} (P : list deployment_row -> Prop) (Q : result A -> list deployment_row -> Prop).

Definition on_rows (m : DB A) : Prop :=
  hoare (fun db => P (t_deployments db)) m (fun r db => Q r (t_deployments db)).
End statements.

Lemma on_rows_update P Q p f :
  (forall t, P t -> Q (Ok (count_where p t)) (update_where p f t)
     /\ forall e, Q (Err e) t /\ Q (Err e) (update_where p f t)) ->
  on_rows P Q (update_deployments p f).
Proof.
  intros H. apply hoare_step. intros db HP. specialize (H _ HP) as [Hok Herr]. unfold write_deployments.
  destruct (one_active_index _); simpl; (split; [|intros; split]); first [exact Hok|apply Herr].
Qed.

Lemma on_rows_insert P Q row :
  (forall t, P t -> let r := row (next_rowid r_id t) in
     (one_active_index (t ++ [r]) = true ->
        Q (Ok (next_rowid r_id t)) (t ++ [r]) /\ forall e, Q (Err e) (t ++ [r]))
     /\ forall e, Q (Err e) t) ->
  on_rows P Q (insert_deployment row).
Proof.
  intros H. apply hoare_step. intros db HP. specialize (H _ HP). cbv zeta in H. destruct H as [Hok Herr].
  unfold write_deployments. destruct (one_active_index _); simpl; [|auto]. specialize (Hok eq_refl) as [Hok He].
  destruct (has_application _ _); simpl; auto.
Qed.

(** ** Refinement *)

Section refinement.
Context (q : gmap Z job).

(** The tables that hold the jobs [q]. *)
Definition holds (t : list deployment_row) : Prop := table_inv t /\ jobs t = q.

Definition left_by (op : deployment_op) {A} (r : result A) (t : list deployment_row) : Prop :=
  outcome_of q op (match r with Ok _ => Ok tt | Err e => Err e end) (jobs t).

Definition implements (op : deployment_op) {A} (m : DB A) : Prop := on_rows holds (left_by op) m.

Lemma left_here op {A} e t : holds t -> left_by op (Err e : result A) t.
Proof. intros [_ E]. by left. Qed.

Lemma left_done op {A} t : job_step q op (jobs t) -> forall r : result A, left_by op r t.
Proof. intros H [a|e]; [done|by right]. Qed.

(** An operation that ends with one statement. *)
Lemma implements_last op {A B} (m : DB A) (k : A -> B) : implements op m -> implements op (a ← m; mret (k a)).
Proof.
  intros Hm w HP. specialize (Hm w HP). unfold mbind, M_bind.
  by destruct (m w) as [[a|e] w1].
Qed.

Lemma implements_now op {A} (f : Time -> DB A) :
  (forall t, implements op (f t)) -> implements op (t ← now; f t).
Proof.
  intros Hf. eapply hoare_bind; [|intros t; apply Hf]. by apply hoare_now.
Qed.

Lemma implements_update op p f :
  (forall t, holds t -> job_step q op (jobs (update_where p f t))) ->
  implements op (update_deployments p f).
Proof.
  intros H. apply on_rows_update. intros t Ht. specialize (H t Ht).
  split; [done|]. intros e. split; [by apply left_here|by right].
Qed.

Lemma holds_idle t app :
  holds t -> existsb (fun x => active x && (r_application_id x =? app)) t = false -> ~ busy q app.
Proof. intros [_ <-] E Hb%jobs_busy. congruence. Qed.

Lemma implements_insert op row :
  (forall id, r_id (row id) = id) -> (forall id, active (row id) = true) ->
  (forall id app, r_application_id (row id) = app -> newest q id -> ~ busy q app ->
     job_step q op (<[id := job_of (row id)]> q)) ->
  implements op (insert_deployment row).
Proof.
  intros Hid Hact H. apply on_rows_insert. intros t Ht r. split; [|intros e; by apply left_here].
  intros Hidx. pose proof Ht as [(Hs & Hone & _) Eq].
  assert (job_step q op (jobs (t ++ [r]))) as Hstep; [|split; intros; by apply left_done].
  rewrite jobs_snoc by (intros x Hx; subst r; rewrite Hid; by apply next_rowid_fresh).
  subst r. rewrite Eq, Hid. eapply H; [done|rewrite <- Eq; apply jobs_newest|].
  eapply holds_idle; [exact Ht|]. rewrite index_insert in Hidx by (done || apply Hact).
  by apply negb_true_iff.
Qed.
End refinement.

Lemma jobs_same p f t :
  (forall r, r_id (f r) = r_id r) -> (forall r, job_of (f r) = job_of r) -> jobs (update_where p f t) = jobs t.
Proof.
  intros Hid Hj. rewrite (jobs_fmap (fun j => j)) by (done || intros r _; by destruct (p r)).
  apply map_fmap_id.
Qed.

Lemma silent_jobs op : silent op = true -> evolves (on_table (fun a b => jobs b = jobs a)) (call_op op).
Proof.
  assert (PreOrder (fun a b => jobs b = jobs a)) by (split; [done|intros a b c E1 E2; congruence]).
  destruct op; simpl; intros Hop; try done; clear Hop;
    unfold HeartbeatDeployment, SetDeploymentImage, SetDeploymentReleaseMetadata, SetDeploymentFailure,
      SetDeploymentStage, SetDeploymentStageDurations, AddDeploymentEvent, DeploymentCancellationRequested;
    deployment_writes; try (intros _; by apply jobs_same).
  by destruct (has_deployment _ _).
Qed.

(** An update of the one row that a condition on its key selects. *)
Lemma jobs_at (p : deployment_row -> bool) f t r :
  rowids_sorted r_id t -> In r t -> p r = true ->
  (forall x, p x = true -> r_id x = r_id r) -> (forall x, r_id (f x) = r_id x) ->
  jobs (update_where p f t) = <[r_id r := job_of (f r)]> (jobs t).
Proof.
  intros Hs Hr Hp Hkey Hid.
  rewrite (jobs_alter (fun _ => job_of (f r)) p f t (r_id r) Hid).
  - exact (alter_insert_of (fun _ => job_of (f r)) _ _ _ (jobs_lookup t r Hs Hr)).
  - intros x Hx. destruct (p x) eqn:Ex.
    + rewrite (rowids_sorted_inj r_id t x r Hs Hx Hr (Hkey x Ex)). by rewrite Z.eqb_refl.
    + destruct (Z.eqb_spec (r_id x) (r_id r)) as [E|]; [|done].
      rewrite (rowids_sorted_inj r_id t x r Hs Hx Hr E) in Ex. congruence.
Qed.

Lemma count_key (p : deployment_row -> bool) t k :
  rowids_sorted r_id t -> (forall x, p x = true -> r_id x = k) ->
  count_where p t = 0%nat \/ count_where p t = 1%nat /\ exists r, In r t /\ p r = true.
Proof.
  intros Hs Hkey. unfold count_where. destruct (select_where p t) as [|r l] eqn:E; [by left|right].
  assert (In r (select_where p t)) as [Hr Hp]%select_where_In by (rewrite E; by left).
  split; [|eauto]. rewrite <- E. enough (select_where p t = [r]) as -> by done.
  rewrite <- (select_key r_id t r Hs Hr). apply filter_ext_in. intros x Hx.
  destruct (Z.eqb_spec (r_id x) (r_id r)) as [Ex|Ex].
  - by rewrite (rowids_sorted_inj r_id t x r Hs Hx Hr Ex).
  - apply not_true_iff_false. intros Hpx. apply Ex. by rewrite (Hkey x Hpx), (Hkey r Hp).
Qed.

Lemma queued_stage r : queued r = true -> stage_of (r_status r) = Waiting.
Proof. unfold queued, stage_of. by intros ->. Qed.
Lemma waiting_queued r : j_stage (job_of r) = Waiting -> queued r = true.
Proof. unfold queued. simpl. unfold stage_of. by repeat case_match. Qed.
Lemma running_stage r : running r = true -> stage_of (r_status r) = Working.
Proof. unfold running, stage_of. intros H. bools. by rewrite H. Qed.

Section steps.
Context (q : gmap Z job) (t : list deployment_row) (Ht : holds q t).

Lemma next_step r rest ts lease ms :
  select_where queued t = r :: rest ->
  job_step q OpNext (jobs (update_where (claimed r) (claim_row ts lease ms) t)).
Proof.
  destruct Ht as [(Hs & _) <-]. intros Hsel.
  destruct (select_head_least _ _ _ _ Hs Hsel) as (Hr & Hq & Hleast).
  rewrite (jobs_at (claimed r) _ t r Hs Hr); [| |by intros x [Hx _]%andb_prop; bools|done].
  2: by unfold claimed; rewrite Z.eqb_refl, Hq.
  change (job_of (claim_row ts lease ms r)) with (work (job_of r)). apply Job_next.
  - by apply jobs_lookup.
  - by apply queued_stage.
  - intros k j' (x & Hx & <- & <-)%jobs_lookup_in Hw. by apply Hleast, waiting_queued.
Qed.

Lemma withdraw_step app id r ts :
  In r t -> (r_id r =? id) && (r_application_id r =? app) && queued r = true ->
  job_step q (OpCancel app id)
    (jobs (update_where (fun r => (r_id r =? id) && (r_application_id r =? app) && queued r)
             (fun r => r <| r_status := "cancelled" |> <| r_finished_at := Some ts |>
                         <| r_lease_expires_at := None |>) t)).
Proof.
  destruct Ht as [(Hs & _) <-]. intros Hr Hp.
  assert (r_id r = id /\ r_application_id r = app /\ queued r = true)
    as (<- & <- & Hq) by (bools; auto).
  apply queued_stage in Hq.
  rewrite (jobs_at _ _ t r Hs Hr); [|done|by intros x Hx; bools|done].
  apply (Job_withdraw _ _ _ (job_of r)); [by apply jobs_lookup|done|exact Hq].
Qed.

Lemma ask_step app id r ts :
  In r t ->
  (r_id r =? id) && (r_application_id r =? app) && running r
    && bool_decide (r_cancellation_requested_at r = None) = true ->
  job_step q (OpCancel app id)
    (jobs (update_where (fun r => (r_id r =? id) && (r_application_id r =? app) && running r
                           && bool_decide (r_cancellation_requested_at r = None))
             (fun r => r <| r_cancellation_requested_at := Some ts |>) t)).
Proof.
  destruct Ht as [(Hs & _) <-]. intros Hr Hp.
  assert (r_id r = id /\ r_application_id r = app /\ running r = true /\ bool_decide (r_cancellation_requested_at r = None) = true)
    as (<- & <- & Hq & Hc) by (bools; auto).
  apply running_stage in Hq.
  rewrite (jobs_at _ _ t r Hs Hr); [|done|by intros x Hx; bools|done].
  apply (Job_ask _ _ _ (job_of r)); [by apply jobs_lookup|done|exact Hq|].
  simpl. apply bool_decide_eq_true in Hc. by rewrite Hc.
Qed.

Lemma recover_step f :
  (forall r, r_id (f r) = r_id r) -> (forall r, r_application_id (f r) = r_application_id r) ->
  (forall r, r_status (f r) = "failed") ->
  (forall r, r_cancellation_requested_at (f r) = r_cancellation_requested_at r) ->
  job_step q OpRecover (jobs (update_where running f t)).
Proof.
  destruct Ht as [_ <-]. intros Hid Ha Hst Hc.
  rewrite (jobs_fmap interrupt _ _ _ Hid); [apply Job_recover|]. intros r _.
  unfold interrupt, job_of, running, stage_of. simpl.
  destruct (r_status r =? "running")%string eqn:E; simpl.
  - apply String.eqb_eq in E. by rewrite Ha, Hst, Hc, E.
  - rewrite E. by destruct (r_status r =? "queued")%string.
Qed.
End steps.

(** ** Every operation *)

Section operations.
Context (q : gmap Z job).
Local Abbreviation implements := (implements q).

Lemma implements_silent op : silent op = true -> implements op (call_op op).
Proof.
  intros Hop w [_ <-]. pose proof (silent_jobs op Hop w) as E. unfold on_table in E.
  unfold left_by. rewrite E. destruct (fst _); [by apply Job_silent|by left].
Qed.

Lemma implements_start app image log : implements (OpStart app image log) (StartDeployment app image log).
Proof.
  unfold StartDeployment. apply implements_now. intros t. cbv zeta. apply implements_last.
  apply implements_insert; [done..|]. intros id app' <- Hn Hb. by apply (Job_start q).
Qed.

Lemma implements_queue app action log : implements (OpQueue app action log) (QueueDeployment app action log).
Proof.
  unfold QueueDeployment. destruct (valid_action action) eqn:Ha; cbn [negb];
    [|by apply hoare_fail; intros db; apply left_here].
  apply implements_now. intros t. apply implements_last.
  apply implements_insert; [done..|]. intros id app' <- Hn Hb. by apply (Job_queue q).
Qed.

Lemma implements_next : implements OpNext NextQueuedDeployment.
Proof.
  apply hoare_transaction. intros db Hdb. split; [intros e; by apply left_here|].
  eapply (hoare_bind _ (fun r db1 => exists rest,
    t_deployments db1 = t_deployments db /\ select_where queued (t_deployments db) = r :: rest)).
  { apply hoare_query. intros s ->. split; [|done].
    destruct (select_where queued (t_deployments db)) as [|r rest]; [done|by exists rest]. }
  intros r. cbv zeta. eapply hoare_bind; [by apply hoare_now; intros s t Hs; exact Hs|]. intros t. cbv beta.
  eapply (hoare_bind _ (fun _ db1 => job_step q OpNext (jobs (t_deployments db1)))).
  - refine (on_rows_update (fun t1 => exists rest, t1 = t_deployments db /\ select_where queued _ = r :: rest)
      (fun a t1 => match a with Ok _ => job_step q OpNext (jobs t1) | Err _ => True end) _ _ _).
    intros t1 (rest & -> & Hsel). split; [|done]. by apply (next_step q _ Hdb r rest).
  - intros n. destruct (negb (n =? 1)%nat); [by apply hoare_fail|].
    apply hoare_ret. intros s Hs. split; [done|]. intros e. by right.
Qed.

(** A statement of a cancellation: it takes the step exactly when it matches a row. *)
Definition matched (op : deployment_op) (n : nat) (db : database) : Prop :=
  if (n =? 1)%nat then job_step q op (jobs_of db) else holds q (t_deployments db).

Lemma cancel_statement op id (p : deployment_row -> bool) f :
  (forall x, p x = true -> r_id x = id) ->
  (forall t r, holds q t -> In r t -> p r = true -> job_step q op (jobs (update_where p f t))) ->
  hoare (fun db => holds q (t_deployments db)) (update_deployments p f) (fun r db =>
    match r with Ok n => matched op n db | Err e => left_by q op (Err e : result unit) (t_deployments db) end).
Proof.
  intros Hkey Hstep. refine (on_rows_update _ (fun a t => match a with
    | Ok n => if (n =? 1)%nat then job_step q op (jobs t) else holds q t
    | Err e => left_by q op (Err e : result unit) t end) _ _ _).
  intros t Ht. pose proof Ht as [(Hs & _) Eq].
  destruct (count_key p t id Hs Hkey) as [E|[E (r & Hr & Hp)]]; rewrite E; simpl.
  - rewrite update_where_none by done. split; [done|]. intros e. split; by apply left_here.
  - specialize (Hstep t r Ht Hr Hp). split; [done|]. intros e. split; [by apply left_here|by right].
Qed.

Lemma implements_cancel app id : implements (OpCancel app id) (CancelDeployment app id).
Proof.
  unfold CancelDeployment. apply implements_now. intros ts. cbv zeta.
  eapply (hoare_bind _ (matched (OpCancel app id))).
  - apply (cancel_statement _ id); [by intros x Hx; bools|]. intros t r Ht Hr Hp. by apply (withdraw_step q t Ht app id r).
  - intros n. unfold matched. destruct (n =? 1)%nat; [by apply hoare_ret|].
    eapply (hoare_bind _ (matched (OpCancel app id))).
    + apply (cancel_statement _ id); [by intros x Hx; bools|]. intros t r Ht Hr Hp. by apply (ask_step q t Ht app id r).
    + intros m. unfold matched. destruct (m =? 1)%nat; cbn [negb]; [by apply hoare_ret|].
      apply hoare_fail. intros db. apply left_here.
Qed.

Lemma implements_recover : implements OpRecover RecoverInterruptedDeployments.
Proof.
  unfold RecoverInterruptedDeployments. apply implements_now. intros ts.
  apply implements_update. intros t Ht. by apply recover_step.
Qed.

Lemma implements_finish id s : implements (OpFinish id s) (FinishDeployment id (final_text s)).
Proof.
  unfold FinishDeployment. apply implements_now. intros ts. apply implements_last, implements_update.
  intros t [_ <-]. rewrite (jobs_alter (close s) _ _ t id); [apply Job_finish|done|].
  intros r _. destruct (r_id r =? id); [|done]. unfold close, job_of. simpl.
  by destruct (r_cancellation_requested_at r), s.
Qed.

Lemma implements_delete app ids : implements (OpDelete app ids) (DeleteDeployments app ids).
Proof.
  assert (forall t, holds q t -> job_step q (OpDelete app ids)
    (jobs (delete_where (fun r => (r_application_id r =? app) && bool_decide (r_id r ∈ ids)) t))) as Hstep.
  { intros t [(Hs & _) <-].
    rewrite (jobs_delete _ (fun '(id, j) => ~ (j_app j = app /\ id ∈ ids)) t Hs); [apply Job_delete|].
    intros r _. rewrite andb_false_iff, Z.eqb_neq, bool_decide_eq_false. simpl.
    destruct (decide (r_application_id r = app)), (decide (r_id r ∈ ids)); tauto. }
  unfold DeleteDeployments. destruct ids as [|id ids].
  - apply hoare_ret. intros db Hdb. specialize (Hstep _ Hdb). rewrite delete_where_none in Hstep; [done|].
    intros r _. apply andb_false_r.
  - apply hoare_update. intros db Hdb. specialize (Hstep _ Hdb).
    split; [done|]. intros e. split; [by apply left_here|by right].
Qed.
End operations.

(** C2: the deployment queue implements the machine of jobs.  Whatever the state of the
    table, the faults and the clock, an operation that reports success takes its step on
    the jobs (and only a step whose guard holds: a queued or started job needs an idle
    application and a valid action, a claim takes the oldest waiting job), and one that
    reports an error takes the same step or leaves every job as it was. *)
Theorem queue_implements_jobs op w :
  db_inv (w_state w) ->
  outcome_of (jobs_of (w_state w)) op (eval (call_op op) w) (jobs_of (exec (call_op op) w)).
Proof.
  intros Hinv. set (q := jobs_of (w_state w)).
  enough (implements q op (call_op op)) as H.
  { specialize (H w (conj Hinv eq_refl)). unfold left_by in H. unfold eval, exec, jobs_of.
    by destruct (fst (call_op op w)) as [[]|e]. }
  destruct op; try (by apply implements_silent); cbn [call_op]; try apply implements_last.
  - apply implements_start.
  - apply implements_queue.
  - apply implements_next.
  - apply implements_cancel.
  - apply implements_recover.
  - apply implements_finish.
  - apply implements_delete.
Qed.

Lemma queue_implements_jobs_witness :
  job_step (jobs_of sample_db) OpNext (jobs_of (exec (call_op OpNext) (calm sample_db 20))).
Proof.
  assert (eval (call_op OpNext) (calm sample_db 20) = Ok tt) as E by (vm_compute; reflexivity).
  pose proof (queue_implements_jobs OpNext (calm sample_db 20) sample_db_inv) as H. rewrite E in H. exact H.
Defined.
