(* ===== verification/Agent.v ===== *)
(** * The agent protocol (internal/agent/control.go, protocol.go, cmd/minidock-agent/main.go)

    An agent opens one stream: a hello that names its node, then heartbeats.  Messages travel
    as JSON.  The control plane binds the node to the certificate of the connection.  The
    arriving messages are an argument; a fault of a receive or a send is a transport error.
    TLS and gRPC are not modelled: the peer of a stream is what [peer.FromContext] gives. *)

From S2P Require Import Prelude GoStrings Json Base64 Security StoreTypes StoreAccess.

(** ** Messages *)

Record AgentMessage := MkAgentMessage {
  am_Kind : string; am_NodeID : string; am_Name : string; am_Version : string;
  am_Capabilities : list string }.
Definition AgentMessage0 : AgentMessage := MkAgentMessage "" "" "" "" [].

Record ControlMessage := MkControlMessage {
  cm_Kind : string; cm_HeartbeatSeconds : Z; cm_Detail : string }.
Definition ControlMessage0 : ControlMessage := MkControlMessage "" 0 "".

(** [omitempty]. *)
Definition text_member (name value : string) : list (string * json) :=
  if (value =? "")%string then [] else [(name, JStr value)].

Definition agent_json (m : AgentMessage) : json := JObj (
  [("kind", JStr (am_Kind m)); ("node_id", JStr (am_NodeID m))]
  ++ text_member "name" (am_Name m) ++ text_member "version" (am_Version m)
  ++ match am_Capabilities m with [] => [] | cs => [("capabilities", JArr (map JStr cs))] end).

Definition control_json (m : ControlMessage) : json := JObj (
  [("kind", JStr (cm_Kind m))]
  ++ (if cm_HeartbeatSeconds m =? 0 then [] else [("heartbeat_seconds", JNum (cm_HeartbeatSeconds m))])
  ++ text_member "detail" (cm_Detail m)).

Definition agent_fields (kvs : list (string * json)) : option AgentMessage :=
  kind ← decode_field "kind" decode_text "" kvs;
  id ← decode_field "node_id" decode_text "" kvs;
  name ← decode_field "name" decode_text "" kvs;
  version ← decode_field "version" decode_text "" kvs;
  capabilities ← decode_field "capabilities" (decode_list "" decode_text) [] kvs;
  Some (MkAgentMessage kind id name version capabilities).

Definition control_fields (kvs : list (string * json)) : option ControlMessage :=
  kind ← decode_field "kind" decode_text "" kvs;
  seconds ← decode_field "heartbeat_seconds" decode_int 0 kvs;
  detail ← decode_field "detail" decode_text "" kvs;
  Some (MkControlMessage kind seconds detail).

(** [jsonCodec.Marshal] and [jsonCodec.Unmarshal]. *)
Definition Marshal_agent (m : AgentMessage) : string := marshal (agent_json m).
Definition Marshal_control (m : ControlMessage) : string := marshal (control_json m).
Definition Unmarshal_agent (data : string) : option AgentMessage :=
  j ← parse data; kvs ← members j; agent_fields kvs.
Definition Unmarshal_control (data : string) : option ControlMessage :=
  j ← parse data; kvs ← members j; control_fields kvs.

(** ** The control plane *)

Definition nodeIDPattern : string -> bool := safeName.

Record ControlPlane := MkControlPlane { cp_Store : bool; cp_HeartbeatInterval : Duration }.

(** What a stream changes: the database and the messages sent to the agent. *)
Record control := Control { ct_db : database; ct_sent : list string }.
#[export] Instance control_eta : Eta control := fun c => Control (ct_db c) (ct_sent c).

Abbreviation CM := (M control).

Definition on_store {A} (m : DB A) : CM A := zoom ct_db (fun db c => c <| ct_db := db |>) m.

Definition Send (m : ControlMessage) : CM unit :=
  update (fun c => c <| ct_sent := ct_sent c ++ [Marshal_control m] |>).

(** The next message of the agent, or the end of its stream. *)
Definition Recv (data : option string) : CM (option AgentMessage) :=
  query (fun _ => match data with
                  | None => Ok None
                  | Some data => match Unmarshal_agent data with
                                 | Some m => Ok (Some m)
                                 | None => Err (ErrMsg "grpc: failed to unmarshal the received message")
                                 end
                  end).

Section control.
Context `{!Crypto}.

(** The raw certificates of the peer, [None] without peer information. *)
Definition certificateFingerprint (peer : option (list string)) : result string :=
  match peer with
  | None => Err (ErrMsg "agent peer information is missing")
  | Some [] => Err (ErrMsg "agent mTLS certificate is required")
  | Some (raw :: _) => Ok (hex_encode (sha256 raw))
  end.

Definition upsert (message : AgentMessage) (fingerprint : string) : CM unit :=
  on_store (UpsertNode (MkNode (am_NodeID message) (am_Name message) (am_Version message)
                          (am_Capabilities message) fingerprint 0 0)).

Definition valid_hello (m : AgentMessage) : bool :=
  (am_Kind m =? "hello")%string && nodeIDPattern (am_NodeID m)
  && negb (am_Name m =? "")%string && negb (am_Version m =? "")%string.

(** A heartbeat carries the identity of the hello. *)
Definition completed (first message : AgentMessage) : AgentMessage :=
  MkAgentMessage (am_Kind message) (am_NodeID message) (am_Name first) (am_Version first)
    (am_Capabilities first).

Fixpoint heartbeats (first : AgentMessage) (identity : string) (incoming : list string) : CM unit :=
  match incoming with
  | [] =>
    _ ← catch (Recv None) (fun err => fail (ErrWrap "receive agent message" err)); mret tt
  | data :: incoming =>
    message ← catch (Recv (Some data)) (fun err => fail (ErrWrap "receive agent message" err));
    match message with
    | None => mret tt
    | Some message =>
      if negb (am_Kind message =? "heartbeat")%string || negb (am_NodeID message =? am_NodeID first)%string
      then fail (ErrMsg "invalid agent heartbeat")
      else upsert (completed first message) identity ;; heartbeats first identity incoming
    end
  end.

(** The seconds are exact for intervals of less than 97 days. *)
Definition accepted (p : ControlPlane) : ControlMessage :=
  let interval := if cp_HeartbeatInterval p <=? 0 then 30 * Second else cp_HeartbeatInterval p in
  MkControlMessage "accepted" (interval / Second) "".

Definition Connect (p : ControlPlane) (peer : option (list string)) (incoming : list string) : CM unit :=
  if negb (cp_Store p) then fail (ErrMsg "control plane store is required") else
  identity ← lift (certificateFingerprint peer);
  first ← catch (Recv (head incoming)) (fun err => fail (ErrWrap "receive agent hello" err));
  match first with
  | None => fail (ErrWrap "receive agent hello" (ErrMsg "EOF"))
  | Some first =>
    if negb (valid_hello first) then fail (ErrMsg "first agent message must be a valid hello") else
    upsert first identity ;;
    Send (accepted p) ;;
    heartbeats first identity (tail incoming)
  end.
End control.

(** ** The agent *)

Definition splitCapabilities (value : string) : list string :=
  List.filter (fun item => negb (item =? "")%string) (map trim_space (split_on "," value)).

Definition hello (nodeID nodeName version capabilities : string) : AgentMessage :=
  MkAgentMessage "hello" nodeID nodeName version (splitCapabilities capabilities).
Definition heartbeat (nodeID : string) : AgentMessage := MkAgentMessage "heartbeat" nodeID "" "" [].

(** What the agent sends until it is stopped, after [n] ticks. *)
Definition agent_stream (nodeID nodeName version capabilities : string) (n : nat) : list string :=
  map Marshal_agent (hello nodeID nodeName version capabilities :: repeat (heartbeat nodeID) n).

(** The time between two heartbeats, from the answer to the hello. *)
Definition heartbeat_interval (answer : ControlMessage) : option Duration :=
  if negb (cm_Kind answer =? "accepted")%string then None else
  let interval := cm_HeartbeatSeconds answer * Second in
  Some (if interval <? 5 * Second then 30 * Second else interval).
