(* ===== verification/Startup.v ===== *)
(** * Starting the two programs (cmd/minidock/main.go, cmd/minidock-agent/main.go, internal/agent/tls.go)

    The mutual TLS of the control plane and of the agent, the flags of the agent, and the two
    listeners of the panel.  Loading key pairs, reading PEM and listening belong to Go's
    crypto and net packages and are parameters. *)

From S2P Require Import Prelude GoStrings Host Config BackupCommand Agent.

Section startup.
Context {H : Type} `{!Host H} {Pair Pool : Type}.
Context (LoadX509KeyPair : string -> string -> H -> result Pair * H) (AppendCertsFromPEM : string -> option Pool).
Context (net_Listen : string -> H -> result unit * H).

Abbreviation CM := (M H).

Record tls_Config := TLSConfig {
  MinVersion : Z; Certificates : list Pair; RequireAndVerifyClientCert : bool;
  ClientCAs : option Pool; RootCAs : option Pool; ServerName : string }.
Definition VersionTLS13 : Z := 772.

(** A pool of the certificates of a file. *)
Definition certificate_pool (path unread empty : string) : CM Pool :=
  pem ← catch (step (host_read_file path)) (fun err => fail (ErrWrap unread err));
  match AppendCertsFromPEM pem with
  | Some pool => mret pool
  | None => fail (ErrMsg empty)
  end.

Definition ServerTLSConfig (certificatePath keyPath clientCAPath : string) : CM tls_Config :=
  if existsb (String.eqb "") [certificatePath; keyPath; clientCAPath]
  then fail (ErrMsg "agent TLS certificate, key and client CA paths are required") else
  certificate ← catch (step (LoadX509KeyPair certificatePath keyPath))
                  (fun err => fail (ErrWrap "load agent server certificate" err));
  pool ← certificate_pool clientCAPath "read agent client CA" "agent client CA contains no certificate";
  mret (TLSConfig VersionTLS13 [certificate] true (Some pool) None "").

Definition ClientTLSConfig (certificatePath keyPath serverCAPath serverName : string) : CM tls_Config :=
  if existsb (String.eqb "") [certificatePath; keyPath; serverCAPath; serverName]
  then fail (ErrMsg "control TLS certificate, key, CA and server name are required") else
  certificate ← catch (step (LoadX509KeyPair certificatePath keyPath))
                  (fun err => fail (ErrWrap "load agent client certificate" err));
  pool ← certificate_pool serverCAPath "read control server CA" "control server CA contains no certificate";
  mret (TLSConfig VersionTLS13 [certificate] false None (Some pool) serverName).

(** ** The panel *)

(** The listener for agents, when an address is configured; [log.Fatalf] ends the process. *)
Definition agent_listener (config : Config) : CM (option tls_Config) :=
  if (AgentAddress config =? "")%string then mret None else
  tlsConfig ← catch (ServerTLSConfig (AgentTLSCertificatePath config) (AgentTLSPrivateKeyPath config)
                       (AgentTLSClientCAPath config))
                (fun err => fail (ErrWrap "configure agent control plane" err));
  catch (step (net_Listen (AgentAddress config))) (fun err => fail (ErrWrap "listen for agents" err)) ;;
  mret (Some tlsConfig).

(** [server.ListenAndServe]; an error ends the process. *)
Definition panel_listener (config : Config) : CM unit :=
  let address := if (Address config =? "")%string then ":http" else Address config in
  catch (step (net_Listen address)) (fun err => fail (ErrWrap "serve" err)).

(** ** The agent *)

Definition agent_flags (getenv : string -> string) : gmap string string :=
  list_to_map
    [("control", getenv "MINIDOCK_AGENT_CONTROL_ADDRESS");
     ("server-name", getenv "MINIDOCK_AGENT_CONTROL_SERVER_NAME");
     ("node-id", getenv "MINIDOCK_AGENT_NODE_ID");
     ("node-name", getenv "MINIDOCK_AGENT_NODE_NAME");
     ("version", "dev");
     ("tls-certificate", getenv "MINIDOCK_AGENT_TLS_CERTIFICATE_PATH");
     ("tls-private-key", getenv "MINIDOCK_AGENT_TLS_PRIVATE_KEY_PATH");
     ("tls-ca", getenv "MINIDOCK_AGENT_TLS_CA_PATH");
     ("capabilities", "runtime-observation")].

(** The address it dials, its identity and its first message. *)
Definition agent_start (args : list string) : CM (string * tls_Config * AgentMessage) :=
  getenv ← (fun w => (Ok (fun name => host_getenv name (w_state w)), w));
  fs ← lift (parse_flags (Flags (agent_flags getenv) ∅) args);
  let controlAddress := flag fs "control" in
  let serverName := flag fs "server-name" in
  let nodeID := flag fs "node-id" in
  let nodeName := flag fs "node-name" in
  if existsb (String.eqb "") [controlAddress; serverName; nodeID; nodeName]
  then fail (ErrMsg "control, server-name, node-id and node-name are required") else
  tlsConfig ← ClientTLSConfig (flag fs "tls-certificate") (flag fs "tls-private-key") (flag fs "tls-ca") serverName;
  mret (controlAddress, tlsConfig, hello nodeID nodeName (flag fs "version") (flag fs "capabilities")).

(** ** Both ends are authenticated *)

(** The panel takes only clients with a certificate of a CA of its file. *)
Definition verifies_clients (c : tls_Config) : Prop :=
  MinVersion c = VersionTLS13 /\ RequireAndVerifyClientCert c = true
  /\ exists pem pool, AppendCertsFromPEM pem = Some pool /\ ClientCAs c = Some pool.
(** The agent takes only the server of its name, with a certificate of a CA of its file. *)
Definition verifies_server (name : string) (c : tls_Config) : Prop :=
  MinVersion c = VersionTLS13 /\ ServerName c = name /\ name <> ""
  /\ exists pem pool, AppendCertsFromPEM pem = Some pool /\ RootCAs c = Some pool.

Lemma pool_run path unread empty w pool w' : certificate_pool path unread empty w = (Ok pool, w') ->
  exists pem, AppendCertsFromPEM pem = Some pool.
Proof.
  unfold certificate_pool. intros (pem & w1 & _ & E)%bind_run. exists pem.
  destruct (AppendCertsFromPEM pem); [|done]. by injection E as <- <-.
Qed.

Theorem agents_are_authenticated config w c w' :
  agent_listener config w = (Ok c, w') ->
  match c with None => AgentAddress config = "" | Some c => verifies_clients c end.
Proof.
  unfold agent_listener. destruct (String.eqb_spec (AgentAddress config) "") as [Ha|_]; [by intros [= <- <-]|].
  intros (tls & w1 & Et & (? & w2 & _ & [= <- <-])%bind_run)%bind_run.
  apply catch_cases in Et as [(a & Et & [= <-])|(err & w0 & _ & Et)]; [|done].
  unfold ServerTLSConfig in Et. destruct (existsb _ _); [done|].
  apply bind_run in Et as (pair & w3 & _ & (pool & w4 & (pem & Hp)%pool_run & [= <- <-])%bind_run).
  repeat split. by exists pem, pool.
Qed.

Theorem agent_authenticates_the_panel args w address c first w' :
  agent_start args w = (Ok (address, c, first), w') ->
  (exists name, verifies_server name c) /\ am_Kind first = "hello" /\ am_NodeID first <> "".
Proof.
  unfold agent_start. intros (getenv & w1 & _ & (fs & w2 & _ & E)%bind_run)%bind_run. cbv zeta in E.
  destruct (existsb (String.eqb "") [flag fs "control"; _; _; _]) eqn:He; [done|]. simpl in He.
  apply orb_false_iff in He as (_ & (Hs & (Hi & _)%orb_false_iff)%orb_false_iff).
  apply bind_run in E as (tls & w3 & Et & [= <- <- <- <-]).
  unfold ClientTLSConfig in Et. destruct (existsb _ _); [done|].
  apply bind_run in Et as (pair & w4 & _ & (pool & w5 & (pem & Hp)%pool_run & [= <- <-])%bind_run).
  split; [exists (flag fs "server-name"); repeat split; [|by exists pem, pool]|split; [done|]].
  - intros E. by rewrite E in Hs.
  - simpl. intros E. by rewrite E in Hi.
Qed.
End startup.
