(* ===== verification/AgentFacts.v ===== *)
(** * What the agent protocol guarantees

    Messages read back as they were sent; a connection enrols at most the node of its hello,
    under its own certificate; and the stream that the agent sends is the one that the
    control plane accepts. *)

From S2P Require Import Prelude GoStrings Json JsonFacts Base64 Security StoreTypes StoreAccess Agent.

(** ** Messages *)

Lemma decode_texts cs : decode_list "" decode_text [] (JArr (map JStr cs)) = Some cs.
Proof. unfold decode_list. induction cs as [|c cs IH]; [done|]. simpl. by rewrite IH. Qed.

Lemma agent_json_integral m : integral (agent_json m) = true.
Proof.
  unfold agent_json, text_member. simpl. destruct (am_Name m =? "")%string, (am_Version m =? "")%string,
    (am_Capabilities m) as [|c cs]; simpl; rewrite ?andb_true_r; try done; by induction cs.
Qed.

Lemma control_json_integral m : integral (control_json m) = true.
Proof.
  unfold control_json, text_member. simpl.
  by destruct (cm_HeartbeatSeconds m =? 0), (cm_Detail m =? "")%string.
Qed.

Lemma agent_fields_json m kvs : agent_json m = JObj kvs -> agent_fields kvs = Some m.
Proof.
  unfold agent_json. intros [= <-]. destruct m as [kind id name version cs]. simpl. unfold text_member.
  destruct (String.eqb_spec name "") as [->|Hn], (String.eqb_spec version "") as [->|Hv];
    destruct cs as [|c cs]; try done; pose proof (decode_texts (c :: cs)) as Hc;
    unfold agent_fields; revert Hc; generalize (decode_list "" decode_text); intros dec Hc;
    lazy in Hc |- *; by rewrite Hc.
Qed.

Lemma agent_reads_back m : Unmarshal_agent (Marshal_agent m) = Some m.
Proof.
  unfold Unmarshal_agent, Marshal_agent. rewrite parse_marshal by apply agent_json_integral.
  by apply agent_fields_json.
Qed.

Lemma decode_seconds n : min_int64 <= n <= max_int64 -> decode_int 0 (JNum n) = Some n.
Proof. intros Hb. unfold decode_int. by rewrite (proj2 (Z.leb_le _ _)), (proj2 (Z.leb_le _ _)) by lia. Qed.

Lemma control_fields_json m kvs :
  min_int64 <= cm_HeartbeatSeconds m <= max_int64 -> control_json m = JObj kvs -> control_fields kvs = Some m.
Proof.
  unfold control_json. intros Hb [= <-]. destruct m as [kind seconds detail]. simpl in *. unfold text_member.
  destruct (Z.eqb_spec seconds 0) as [->|Hz], (String.eqb_spec detail "") as [->|Hd]; try done;
    pose proof (decode_seconds seconds Hb) as Hc;
    unfold control_fields; revert Hc; generalize decode_int; intros dec Hc; lazy; by rewrite Hc.
Qed.

(** Every message of the protocol reads back as it was sent, in both directions, when
    the heartbeat interval is a Go int. *)
Theorem messages_round_trip m answer :
  min_int64 <= cm_HeartbeatSeconds answer <= max_int64 ->
  Unmarshal_agent (Marshal_agent m) = Some m
  /\ Unmarshal_control (Marshal_control answer) = Some answer.
Proof.
  intros Hb. split; [apply agent_reads_back|]. unfold Unmarshal_control, Marshal_control.
  rewrite parse_marshal by apply control_json_integral. by apply control_fields_json.
Qed.

Lemma messages_round_trip_witness :
  Unmarshal_control (Marshal_control (MkControlMessage "accepted" 30 "")) = Some (MkControlMessage "accepted" 30 "").
Proof. apply (messages_round_trip AgentMessage0). vm_compute. split; discriminate. Defined.

(** ** The node of a connection *)

Definition node_row (first : AgentMessage) (identity : string) (created seen : Time) : Node :=
  MkNode (am_NodeID first) (am_Name first) (am_Version first) (am_Capabilities first) identity created seen.

(** At most the row of the node changes, and only when it is new or has this certificate. *)
Definition enrols (first : AgentMessage) (identity : string) : relation database := fun db db' =>
  db' = db
  \/ (forall n, t_nodes db !! am_NodeID first = Some n -> n_CertificateFingerprint n = identity)
     /\ exists created seen,
          db' = db <| t_nodes := <[am_NodeID first := node_row first identity created seen]> (t_nodes db) |>.

#[export] Instance enrols_preorder first identity : PreOrder (enrols first identity).
Proof.
  split; [by left|]. intros a b c [->|(Ha & t1 & s1 & ->)] [->|(Hb & t2 & s2 & ->)].
  - by left.
  - right. split; [done|]. by exists t2, s2.
  - right. split; [done|]. by exists t1, s1.
  - right. split; [done|]. exists t2, s2. cbn. by rewrite insert_insert_eq.
Qed.

Definition on_nodes (R : relation database) : relation control := fun a b => R (ct_db a) (ct_db b).
#[export] Instance on_nodes_preorder R `{!PreOrder R} : PreOrder (on_nodes R).
Proof. split; unfold on_nodes; [intros x; reflexivity|intros x y z; apply transitivity]. Qed.

Lemma evolves_on_store {A} R (m : DB A) : evolves R m -> evolves (on_nodes R) (on_store m).
Proof. by apply evolves_zoom. Qed.

Section connect.
Context `{!Crypto}.

Lemma upsert_enrols first message identity :
  am_NodeID message = am_NodeID first ->
  evolves (on_nodes (enrols first identity)) (upsert (completed first message) identity).
Proof.
  intros E. apply evolves_on_store. unfold UpsertNode. cbn [n_ID n_Name n_Version n_CertificateFingerprint
    n_Capabilities completed am_NodeID am_Name am_Version am_Capabilities]. rewrite E.
  evolve; cbn; repeat case_match; cbn; try (by left); right; bools;
    (split; [intros n' Hn; simplify_eq; congruence|]); eexists _, _; unfold node_row; repeat f_equal; congruence.
Qed.

Lemma heartbeats_enrol first identity incoming :
  evolves (on_nodes (enrols first identity)) (heartbeats first identity incoming).
Proof.
  induction incoming as [|data incoming IH]; cbn [heartbeats]; unfold Recv; [evolve|].
  evolve_step; [evolve|]. match goal with |- evolves _ (match ?m with _ => _ end) => destruct m as [message|]; [|evolve] end.
  destruct (negb (am_Kind message =? "heartbeat")%string || _) eqn:E; [evolve|].
  apply orb_false_elim in E as [_ E]. bools. evolve_step; [by apply upsert_enrols|exact IH].
Qed.
(** The hello of a stream and the certificate of its connection, when they are acceptable. *)
Definition admitted (peer : option (list string)) (incoming : list string)
    : option (AgentMessage * string) :=
  match certificateFingerprint peer, head incoming ≫= Unmarshal_agent with
  | Ok identity, Some first => if valid_hello first then Some (first, identity) else None
  | _, _ => None
  end.

Definition effect_of (node : option (AgentMessage * string)) : relation database :=
  match node with Some (first, identity) => enrols first identity | None => eq end.

#[local] Instance effect_preorder node : PreOrder (effect_of node).
Proof. destruct node as [[first identity]|]; simpl; exact _. Qed.

Lemma receive_run data w (r : option AgentMessage) w' :
  catch (Recv data) (fun err => fail (ErrWrap "receive agent hello" err)) w = (Ok r, w') ->
  r = data ≫= Unmarshal_agent.
Proof.
  intros [(a & E & [= <-])|(err & w1 & _ & [=])]%catch_cases. apply query_run in E as [E _].
  destruct data as [d|]; simpl; [|congruence]. destruct (Unmarshal_agent d); congruence.
Qed.

Lemma connect_effect p peer incoming :
  evolves (on_nodes (effect_of (admitted peer incoming))) (Connect p peer incoming).
Proof.
  unfold Connect. destruct (cp_Store p); cbn [negb]; [|evolve].
  destruct (certificateFingerprint peer) as [identity|err] eqn:Ep; [|intros w; reflexivity].
  refine (evolves_bind_value _ _ _ _ _); [evolve|]. intros identity' (w0 & w0' & [= <- _]).
  refine (evolves_bind_value _ _ _ _ _); [unfold Recv; evolve|].
  intros first (w1 & w1' & E%receive_run). destruct first as [first|]; [|evolve].
  destruct (valid_hello first) eqn:Hv; cbn [negb]; [|evolve].
  assert (admitted peer incoming = Some (first, identity)) as ->
    by (unfold admitted; by rewrite Ep, <- E, Hv).
  evolve_step; [|unfold Send; evolve_step; [evolve|apply heartbeats_enrol]].
  - destruct first as [k id n v cs]. by apply (upsert_enrols (MkAgentMessage k id n v cs) (MkAgentMessage k id n v cs)).
  - unfold on_nodes. reflexivity.
Qed.

(** C22: whatever an agent sends, and whatever fails, its stream changes at most one row of
    the nodes: that of a valid hello, with the fingerprint of the certificate of the
    connection, and only when the node is new or enrolled under that certificate. *)
Theorem connection_binds_node p peer incoming (w : world control) :
  let db := ct_db (w_state w) in
  let db' := ct_db (exec (Connect p peer incoming) w) in
  match admitted peer incoming with
  | Some (first, identity) => enrols first identity db db'
  | None => db' = db
  end.
Proof.
  pose proof (connect_effect p peer incoming w) as Hc. unfold on_nodes, effect_of in Hc.
  cbv zeta. unfold exec. by destruct (admitted peer incoming) as [[first identity]|].
Qed.

(** ** The stream of the agent *)

Lemma upsert_known t db node row :
  n_ID node <> "" -> n_Name node <> "" -> n_Version node <> "" -> n_CertificateFingerprint node <> "" ->
  t_nodes db !! n_ID node = Some row -> n_CertificateFingerprint row = n_CertificateFingerprint node ->
  UpsertNode node (calm db t) = (Ok tt, calm (db <| t_nodes := <[n_ID node :=
    MkNode (n_ID node) (n_Name node) (n_Version node) (n_Capabilities node)
      (n_CertificateFingerprint node) (n_CreatedAt row) t]> (t_nodes db) |>) t).
Proof.
  intros H1 H2 H3 H4 Hrow Hf. unfold UpsertNode.
  rewrite (proj2 (String.eqb_neq _ _) H1), (proj2 (String.eqb_neq _ _) H2),
    (proj2 (String.eqb_neq _ _) H3), (proj2 (String.eqb_neq _ _) H4).
  run_code. rewrite Hrow, Hf, String.eqb_refl. done.
Qed.

Lemma upsert_new t db node :
  n_ID node <> "" -> n_Name node <> "" -> n_Version node <> "" -> n_CertificateFingerprint node <> "" ->
  t_nodes db !! n_ID node = None ->
  UpsertNode node (calm db t) = (Ok tt, calm (db <| t_nodes := <[n_ID node :=
    MkNode (n_ID node) (n_Name node) (n_Version node) (n_Capabilities node)
      (n_CertificateFingerprint node) t t]> (t_nodes db) |>) t).
Proof.
  intros H1 H2 H3 H4 Hrow. unfold UpsertNode.
  rewrite (proj2 (String.eqb_neq _ _) H1), (proj2 (String.eqb_neq _ _) H2),
    (proj2 (String.eqb_neq _ _) H3), (proj2 (String.eqb_neq _ _) H4).
  run_code. rewrite Hrow. simpl. rewrite Hrow, bool_decide_eq_false_2 by apply is_Some_None. simpl. by rewrite Hrow.
Qed.

(** The node of the stream, enrolled or new, seen at [t]. *)
Definition enrolled_now (first : AgentMessage) (identity : string) (t : Time) (db : database) : Prop :=
  exists created, t_nodes db !! am_NodeID first = Some (node_row first identity created t).

Definition complete (first : AgentMessage) (identity : string) : Prop :=
  am_NodeID first <> "" /\ am_Name first <> "" /\ am_Version first <> "" /\ identity <> "".

Lemma upsert_seen first identity db sent t :
  complete first identity ->
  (forall row, t_nodes db !! am_NodeID first = Some row -> n_CertificateFingerprint row = identity) ->
  exists db', upsert first identity (calm (Control db sent) t) = (Ok tt, calm (Control db' sent) t)
    /\ enrolled_now first identity t db'.
Proof.
  intros (H1 & H2 & H3 & H4) Hf. unfold upsert, on_store, zoom.
  change (World (ct_db (w_state (calm (Control db sent) t))) _ _ _) with (calm db t).
  destruct (t_nodes db !! am_NodeID first) as [row|] eqn:E.
  - rewrite (upsert_known t db _ row) by first [assumption|exact (Hf row eq_refl)].
    eexists. split; [done|]. exists (n_CreatedAt row). cbn. by rewrite lookup_insert_eq.
  - rewrite upsert_new by assumption. eexists. split; [done|]. exists t. cbn. by rewrite lookup_insert_eq.
Qed.

Lemma heartbeats_seen first identity db sent t n :
  complete first identity -> enrolled_now first identity t db ->
  exists db', heartbeats first identity (map Marshal_agent (repeat (heartbeat (am_NodeID first)) n))
                (calm (Control db sent) t) = (Ok tt, calm (Control db' sent) t)
    /\ enrolled_now first identity t db'.
Proof.
  intros Hc. revert db. induction n as [|n IH]; intros db Hdb; [by exists db|].
  destruct (upsert_seen first identity db sent t Hc) as (db1 & E1 & Hdb1).
  { intros row Hrow. destruct Hdb as [created Hdb]. rewrite Hdb in Hrow. by injection Hrow as <-. }
  destruct (IH db1 Hdb1) as (db2 & E2 & Hdb2). exists db2. split; [|done].
  cbn [repeat map heartbeats].
  assert (Recv (Some (Marshal_agent (heartbeat (am_NodeID first)))) (calm (Control db sent) t)
          = (Ok (Some (heartbeat (am_NodeID first))), calm (Control db sent) t)) as Er.
  { unfold Recv. rewrite agent_reads_back. done. }
  rewrite (bind_ok _ _ _ _ _ (catch_ok _ _ _ _ _ Er)). cbn [heartbeat am_Kind am_NodeID].
  rewrite !String.eqb_refl. cbn [negb orb].
  change (upsert (completed first _) identity) with (upsert first identity).
  by rewrite (bind_ok _ _ _ _ _ E1).
Qed.
End connect.

Lemma safeName_not_empty s : safeName s = true -> s <> "".
Proof. by destruct s. Qed.

Section composition.
Context `{!Crypto, !CryptoLaws}.

(** C25: the two programs agree.  The stream of an agent with a valid identifier, name and
    version, whose node is new or enrolled under its certificate, is accepted: the
    connection ends without error at the end of the stream, however many heartbeats it has,
    the node is recorded with what the agent declared and seen at that time, and the answer
    reads back in the agent as an interval of at least five seconds. *)
Theorem agent_is_accepted p raw chain nodeID nodeName version capabilities n db t :
  cp_Store p = true -> cp_HeartbeatInterval p <= max_int64 ->
  nodeIDPattern nodeID = true -> nodeName <> "" -> version <> "" ->
  (forall row, t_nodes db !! nodeID = Some row -> n_CertificateFingerprint row = hex_encode (sha256 raw)) ->
  exists db' created answer d,
    Connect p (Some (raw :: chain)) (agent_stream nodeID nodeName version capabilities n)
      (calm (Control db []) t) = (Ok tt, calm (Control db' [answer]) t)
    /\ t_nodes db' !! nodeID
       = Some (MkNode nodeID nodeName version (splitCapabilities capabilities)
                 (hex_encode (sha256 raw)) created t)
    /\ Unmarshal_control answer ≫= heartbeat_interval = Some d /\ 5 * Second <= d.
Proof.
  intros Hst Hmax Hid Hname Hver Hf. set (first := hello nodeID nodeName version capabilities).
  set (identity := hex_encode (sha256 raw)).
  assert (complete first identity) as Hc.
  { repeat split; try done; [by apply safeName_not_empty|]. unfold identity.
    pose proof (sha256_length raw). by destruct (sha256 raw). }
  destruct (upsert_seen first identity db [] t Hc Hf) as (db1 & E1 & Hdb1).
  destruct (heartbeats_seen first identity db1 [Marshal_control (accepted p)] t n Hc Hdb1)
    as (db2 & E2 & created & Hdb2).
  exists db2, created, (Marshal_control (accepted p)).
  assert (Connect p (Some (raw :: chain)) (agent_stream nodeID nodeName version capabilities n)
    (calm (Control db []) t) = (Ok tt, calm (Control db2 [Marshal_control (accepted p)]) t)) as Ec.
  { unfold Connect. rewrite Hst. cbn [negb certificateFingerprint agent_stream map head tail]. fold first identity.
    rewrite (bind_ok (lift (Ok identity)) _ _ identity _ eq_refl).
    assert (Recv (Some (Marshal_agent first)) (calm (Control db []) t)
            = (Ok (Some first), calm (Control db []) t)) as Er by (unfold Recv; by rewrite agent_reads_back).
    rewrite (bind_ok _ _ _ _ _ (catch_ok _ _ _ _ _ Er)).
    assert (valid_hello first = true) as ->.
    { unfold valid_hello, first, hello. simpl. rewrite Hid, (proj2 (String.eqb_neq _ _) Hname),
        (proj2 (String.eqb_neq _ _) Hver). done. }
    cbn [negb]. rewrite (bind_ok _ _ _ _ _ E1).
    rewrite (bind_ok (Send (accepted p)) _ (calm (Control db1 []) t) tt (calm (Control db1 [Marshal_control (accepted p)]) t) eq_refl).
    exact E2. }
  set (seconds := cm_HeartbeatSeconds (accepted p)).
  assert (min_int64 <= seconds <= max_int64) as Hb.
  { unfold seconds, accepted, min_int64, max_int64 in *. cbn [cm_HeartbeatSeconds].
    destruct (Z.leb_spec (cp_HeartbeatInterval p) 0); [by vm_compute|].
    assert (0 <= cp_HeartbeatInterval p / Second) by (apply Z.div_pos; lia || done).
    assert (cp_HeartbeatInterval p / Second <= cp_HeartbeatInterval p)
      by (apply Z.div_le_upper_bound; [done|change Second with 1000000000; lia]).
    lia. }
  exists (if seconds * Second <? 5 * Second then 30 * Second else seconds * Second).
  split; [exact Ec|]. split; [exact Hdb2|]. split.
  - unfold Unmarshal_control, Marshal_control. rewrite parse_marshal by apply control_json_integral.
    assert (members (control_json (accepted p)) ≫= control_fields = Some (accepted p)) as Em
      by (unfold control_json, members; simpl; by apply control_fields_json).
    simpl in Em |- *. by rewrite Em.
  - change Second with 1000000000. destruct (Z.ltb_spec (seconds * 1000000000) (5 * 1000000000)); lia.
Qed.
End composition.

Lemma agent_is_accepted_witness :
  exists db' created, t_nodes db' !! "edge-1"
    = Some (MkNode "edge-1" "Edge" "dev" ["runtime-observation"] (hex_encode (sha256 "der")) created 70).
Proof.
  destruct (agent_is_accepted (MkControlPlane true 0) "der" [] "edge-1" "Edge" "dev" "runtime-observation" 2
              database0 70) as (db' & created & answer & d & _ & Hn & _);
    [reflexivity|vm_compute; discriminate|reflexivity|discriminate|discriminate|by intros row Hrow|].
  exists db', created. exact Hn.
Defined.
