(* ===== verification/Session.v ===== *)
(** * Sessions (internal/app/server.go)

    Setting the master password, unlocking and locking the process, browser sessions and the
    check of the CSRF token in front of every route.  A request is what net/http hands to the
    handler; random bytes are the answers of [crypto/rand]. *)

From S2P Require Import Prelude GoStrings GoTime Net Base64 Security StoreTypes.
From S2P Require Import Host Config Executor Views Hub.
From S2P Require Import StoreSettings StoreAccess.

(** ** Requests

    [q_Segments] are the segments of the path that the multiplexer matches, decoded;
    [q_Body] what reading the body gives, [q_Form] is [r.Form] and [q_ParseForm] the error of [r.ParseForm]; [q_Cookie] is the
    cookie [minidock_session]. *)
Record HTTPRequest := MkHTTPRequest {
  q_Method : string;
  q_Segments : list string;
  q_ParseForm : result unit;
  q_Form : list (string * string);
  q_Query : list (string * string);
  q_Header : list (string * string);
  q_Body : result string;
  q_Cookie : option string;
  q_RemoteAddr : string;
  q_TLS : bool }.

Definition q_Path (r : HTTPRequest) : string := "/" +:+ join "/" (q_Segments r).

(** [values.Get(key)], [r.FormValue(key)]. *)
Fixpoint Get (values : list (string * string)) (key : string) : string :=
  match values with
  | [] => ""
  | (k, v) :: values => if (k =? key)%string then v else Get values key
  end.
Definition FormValue (r : HTTPRequest) (key : string) : string := Get (q_Form r) key.

(** [r.Header.Get(key)]: names are compared without case. *)
Fixpoint HeaderGet (header : list (string * string)) (key : string) : string :=
  match header with
  | [] => ""
  | (k, v) :: header => if equal_fold k key then v else HeaderGet header key
  end.

Definition NotFound : Reply := HTTPError 404 "404 page not found".

(** [t.Local().Format(15:04:05)], at this distance from UTC. *)
Definition clock_text (zone : Duration) (t : Time) : string := clock_of ":" (t + zone).

(** What [crypto/rand] answers during one request. *)
Record entropy := Entropy {
  en_salt : result string; en_nonce : result string; en_session : result string }.

Section session.
Context {H : Type} `{!Host H} `{!Crypto}.
Context (config : Config) (zone : Duration).

(** ** The key *)

Definition Lock : AM H unit := poke (fun a => a <| hub_key := "" |> <| hub_sessions := ∅ |>).

Definition setKey (key : string) : AM H unit := poke (fun a => a <| hub_key := key |>).

(** ** Sessions *)

Definition authorized (r : HTTPRequest) : AM H bool :=
  match q_Cookie r with
  | None => mret false
  | Some cookie =>
    a ← peek id;
    if (hub_key a =? "")%string then mret false else
    match hub_sessions a !! cookie with
    | None => mret false
    | Some expires => t ← now; mret (t <? expires)
    end
  end.

Definition requireAuthorization (r : HTTPRequest) (handler : AM H Reply) : AM H Reply :=
  ok ← authorized r;
  if (ok : bool) then handler else mret (SeeOther "/unlock").

Definition secure (r : HTTPRequest) : bool :=
  q_TLS r || (HeaderGet (q_Header r) "X-Forwarded-Proto" =? "https")%string.

(** What the handler writes next follows; after an error the status and the body of the
    error stay.  The purge reads the clock once. *)
Definition newSession (random : result string) (r : HTTPRequest) : AM H (Reply -> Reply) :=
  match random with
  | Err _ => mret (fun _ => HTTPError 500 "could not create session")
  | Ok value =>
    let session := RawURLEncoding value in
    t ← now;
    let expires := t + 12 * Hour in
    purge ← now;
    poke (fun a => a <| hub_sessions :=
      <[session := expires]> (filter (fun kv => ~ kv.2 < purge) (hub_sessions a)) |>) ;;
    mret (WithCookie session expires (secure r))
  end.

(** ** CSRF tokens *)

Definition csrfTokenFor (sessionID : string) : AM H string :=
  key ← keyCopy;
  if (key =? "")%string then mret "" else
  mret (RawURLEncoding (hmac_sha256 key sessionID)).

Definition csrfToken (r : HTTPRequest) : AM H string :=
  match q_Cookie r with
  | None => mret ""
  | Some cookie => csrfTokenFor cookie
  end.

(** The requests whose token is checked. *)
Definition csrf_checked (r : HTTPRequest) : bool :=
  (q_Method r =? "POST")%string && negb (has_prefix (q_Path r) "/webhooks/")
  && negb (q_Path r =? "/setup")%string && negb (q_Path r =? "/unlock")%string.
Definition csrf_bypass (r : HTTPRequest) : bool :=
  (Environment config =? "test")%string && (HeaderGet (q_Header r) "X-Test-Validate-CSRF" =? "")%string.
Definition csrf_actual (r : HTTPRequest) : string :=
  let actual := FormValue r "csrf_token" in
  if (actual =? "")%string then HeaderGet (q_Header r) "X-CSRF-Token" else actual.

Definition csrfCheck (next : HTTPRequest -> AM H Reply) (r : HTTPRequest) : AM H Reply :=
  if csrf_checked r then
    if csrf_bypass r then next r else
    ok ← authorized r;
    if negb ok then mret (SeeOther "/unlock") else
    match q_Cookie r with
    | None => mret (SeeOther "/unlock")
    | Some cookie =>
      expected ← csrfTokenFor cookie;
      if (expected =? "")%string || negb (csrf_actual r =? expected)%string
      then mret (HTTPError 403 "invalid CSRF token")
      else next r
    end
  else next r.

(** ** Setting the password *)

Definition setupForm : AM H Reply :=
  or_reply (on_db IsInitialized) (HTTPError 503 "database unavailable") (fun initialized =>
  mret (if (initialized : bool) then SeeOther "/unlock" else Render 200 (SetupView ""))).

Definition setup (random : entropy) (r : HTTPRequest) : AM H Reply :=
  or_reply (on_db IsInitialized) (HTTPError 503 "database unavailable") (fun initialized =>
  if (initialized : bool) then mret (SeeOther "/unlock") else
  or_reply (lift (q_ParseForm r)) (HTTPError 400 "invalid form") (fun _ =>
  let password := FormValue r "password" in
  if (String.length password <? 12)%nat
     || negb (password =? FormValue r "password_confirmation")%string
  then mret (Render 400 (SetupView "Usa una contraseña de al menos 12 caracteres y confirma el mismo valor.")) else
  or_reply (lift (NewSalt (en_salt random))) (HTTPError 500 "could not initialize security") (fun salt =>
  or_reply (lift (DeriveKey password salt)) (HTTPError 500 "could not derive key") (fun key =>
  or_reply (lift (NewVerifier (en_nonce random) key)) (HTTPError 500 "could not initialize verifier")
    (fun '(nonce, cipher) =>
  or_reply (on_db (InitializeSecurity (MkSecurityConfig salt nonce cipher)))
    (Render 400 (SetupView "La configuración ya existe o no pudo guardarse.")) (fun _ =>
  setKey key ;;
  respond ← newSession (en_session random) r;
  mret (respond (SeeOther "/")))))))).

(** ** Unlocking and locking *)

Definition unlockForm (r : HTTPRequest) : AM H Reply :=
  initialized ← attempt (on_db IsInitialized);
  match initialized with
  | Ok true =>
    ok ← authorized r;
    mret (if (ok : bool) then SeeOther "/" else Render 200 (UnlockView ""))
  | _ => mret (SeeOther "/setup")
  end.

Definition unlockScope (r : HTTPRequest) : string :=
  let origin := match SplitHostPort (q_RemoteAddr r) with
                | Some (host, _) => if (host =? "")%string then q_RemoteAddr r else host
                | None => q_RemoteAddr r
                end in
  "unlock:" +:+ hex_encode (sha256 origin).

Definition rate_limit_unavailable : Reply := HTTPError 503 "unlock rate limit unavailable".

Definition unlock (random : entropy) (r : HTTPRequest) : AM H Reply :=
  or_reply (lift (q_ParseForm r)) (HTTPError 400 "invalid form") (fun _ =>
  t ← now;
  let scope := unlockScope r in
  or_reply (on_db (UnlockLockoutUntil scope t)) rate_limit_unavailable (fun lockoutUntil =>
  if negb (IsZero lockoutUntil)
  then mret (Render 400 (UnlockView ("Demasiados intentos. Inténtalo de nuevo a las "
                                      +:+ clock_text zone lockoutUntil +:+ "."))) else
  or_reply (on_db SecurityConfig) (HTTPError 503 "security configuration unavailable") (fun sc =>
  or_reply (lift (DeriveKey (FormValue r "password") (sc_Salt sc))) (HTTPError 500 "could not derive key")
    (fun key =>
  match ValidateKey key (sc_VerifierNonce sc) (sc_VerifierCipher sc) with
  | Err _ =>
    or_reply (on_db (RegisterFailedUnlock scope t)) rate_limit_unavailable (fun _ =>
    mret (Render 400 (UnlockView "Contraseña incorrecta.")))
  | Ok _ =>
    or_reply (on_db (ClearUnlockFailures scope)) rate_limit_unavailable (fun _ =>
    setKey key ;;
    respond ← newSession (en_session random) r;
    mret (respond (SeeOther "/")))
  end)))).

(** The cookie of the locked session is removed; its session is already gone. *)
Definition lock (r : HTTPRequest) : AM H Reply :=
  Lock ;;
  match q_Cookie r with
  | Some cookie => poke (fun a => a <| hub_sessions := delete cookie (hub_sessions a) |>)
  | None => mret tt
  end ;;
  mret (WithoutCookie (secure r) (SeeOther "/unlock")).
End session.
