(* ===== verification/SessionFacts.v ===== *)
(** * Passwords, keys and sessions *)

From S2P Require Import Prelude GoStrings GoTime Json Net Base64 Security StoreTypes.
From S2P Require Import Host Config Executor Views Hub Session.
From S2P Require Import StoreSettings StoreAccess.

(** ** Parts that read *)

Section reads.
Context {H : Type}.

Lemma eq_on_db {A} (m : DB A) : evolves (=) m -> evolves (=) (on_db (H := H) m).
Proof.
  intros Hm. apply (evolves_zoom _ _ (=)); [|done]. intros [] t. simpl. by intros <-.
Qed.

Lemma eq_query {S A} (f : S -> result A) : evolves (=) (query f).
Proof. apply evolves_query. exact _. Qed.

Lemma eq_lift {S A} (r : result A) : evolves (=) (lift r : M S A).
Proof. apply evolves_lift. exact _. Qed.

Lemma eq_authorized (r : HTTPRequest) : evolves (=) (authorized (H := H) r).
Proof. unfold authorized, peek. evolve. intros w. reflexivity. Qed.

(** What [authorized] has seen when it says yes. *)
Lemma authorized_run (r : HTTPRequest) (w : world (hub H)) w' :
  authorized r w = (Ok true, w') ->
  exists cookie expires t w1, q_Cookie r = Some cookie /\ hub_key (w_state w) <> ""
    /\ hub_sessions (w_state w) !! cookie = Some expires /\ now w = (Ok t, w1) /\ t < expires
    /\ w_state w' = w_state w.
Proof.
  unfold authorized. destruct (q_Cookie r) as [cookie|]; [|done].
  intros (a & w1 & [= <- <-] & E)%bind_run. unfold id in E.
  destruct (String.eqb_spec (hub_key (w_state w)) "") as [|Hk]; [done|].
  destruct (hub_sessions (w_state w) !! cookie) as [expires|] eqn:Es; [|done].
  apply bind_run in E as (t & w1 & En & E). apply ret_run in E as [Et ->].
  exists cookie, expires, t, w1. repeat split; try done; [by apply Z.ltb_lt|by apply now_run in En].
Qed.
End reads.

(** ** Unlocking *)

(** Only the rows of failed attempts differ. *)
Definition lockout_only {H} (a b : hub H) : Prop :=
  exists u, b = a <| hub_db := (hub_db a) <| t_unlock := u |> |>.

#[export] Instance lockout_only_preorder {H} : PreOrder (lockout_only (H := H)).
Proof.
  split.
  - intros [[] ? ? ? ?]. eexists. reflexivity.
  - intros a b c [u ->] [v ->]. by exists v.
Qed.

Definition lockout_rows (a b : database) : Prop := exists u, b = a <| t_unlock := u |>.
#[export] Instance lockout_rows_preorder : PreOrder lockout_rows.
Proof.
  split; [intros []; eexists; reflexivity|]. intros a b c [u ->] [v ->]. by exists v.
Qed.
Lemma lockout_rows_refl db : lockout_rows db db.
Proof. reflexivity. Qed.
#[export] Hint Resolve lockout_rows_refl : evolve.

Section unlock.
Context {H : Type} `{!Crypto}.

Lemma lockout_on_db {A} (m : DB A) :
  evolves lockout_rows m -> evolves (lockout_only (H := H)) (on_db m).
Proof. apply evolves_zoom. intros s t [u ->]. by exists u. Qed.

Lemma lockout_until scope t : evolves lockout_rows (UnlockLockoutUntil scope t).
Proof. unfold UnlockLockoutUntil. evolve. Qed.
Lemma lockout_failed scope t : evolves lockout_rows (RegisterFailedUnlock scope t).
Proof. unfold RegisterFailedUnlock. evolve; by eexists. Qed.
Lemma lockout_clear scope : evolves lockout_rows (ClearUnlockFailures scope).
Proof. unfold ClearUnlockFailures. evolve. by eexists. Qed.

(** The key a password opens the stored verifier with. *)
Definition opens (password : string) (db : database) (key : string) : Prop :=
  exists sc, eval SecurityConfig (calm db 0) = Ok sc /\ DeriveKey password (sc_Salt sc) = Ok key
    /\ ValidateKey key (sc_VerifierNonce sc) (sc_VerifierCipher sc) = Ok tt.

(** An unlock changes failed-attempt rows, and then only the key and the sessions, when the
    password of the form opens the verifier. *)
Definition unlocked (r : HTTPRequest) (s s' : hub H) : Prop :=
  lockout_only s s' \/
  exists s1 key sessions, lockout_only s s1 /\ opens (FormValue r "password") (hub_db s) key
    /\ s' = s1 <| hub_key := key |> <| hub_sessions := sessions |>.

Lemma new_session_state random r (w : world (hub H)) :
  exists sessions, w_state (snd (newSession random r w)) = (w_state w) <| hub_sessions := sessions |>.
Proof.
  unfold newSession. destruct random as [v|]; [|exists (hub_sessions (w_state w)); simpl; destruct (w_state w); reflexivity].
  destruct (now w) as [[t|?] w1] eqn:E1; [|by unfold now in E1; destruct (w_ticks w)].
  destruct (now w1) as [[t2|?] w2] eqn:E2; [|by unfold now in E2; destruct (w_ticks w1)].
  rewrite (bind_ok _ _ _ _ _ E1), (bind_ok _ _ _ _ _ E2).
  apply now_run in E1, E2. eexists. unfold mbind, M_bind, poke. simpl. by rewrite E2, E1.
Qed.

Lemma unlock_effect zone random r (w : world (hub H)) :
  unlocked r (w_state w) (w_state (snd (unlock zone random r w))).
Proof.
  assert (forall a b, lockout_only a b -> unlocked r a b) as HQP by (intros; by left).
  set (s := w_state w). assert (lockout_only s (w_state w)) as Hs by reflexivity. unfold unlock.
  apply (arrives_or_reply lockout_only _ HQP); [apply evolves_lift; exact _|done|]. intros [] w1 _ Hs1.
  apply (arrives_bind lockout_only _ HQP); [apply evolves_now; exact _|done|]. intros t w2 _ Hs2.
  apply (arrives_or_reply lockout_only _ HQP); [apply lockout_on_db, lockout_until|done|].
  intros locked w3 _ Hs3. destruct (negb _); [by apply HQP|].
  apply (arrives_or_reply lockout_only _ HQP); [apply lockout_on_db; unfold SecurityConfig; evolve|done|].
  intros sc w4 Esc Hs4.
  apply (arrives_or_reply lockout_only _ HQP); [apply evolves_lift; exact _|done|].
  intros key w5 [= Ek <-] Hs5. destruct (ValidateKey _ _ _) as [[]|] eqn:Ev.
  - apply (arrives_or_reply lockout_only _ HQP); [apply lockout_on_db, lockout_clear|done|].
    intros [] w6 _ Hs6. right. exists (w_state w6), key.
    rewrite (bind_ok _ _ _ tt (set_state ((w_state w6) <| hub_key := key |>) w6)) by done.
    destruct (new_session_state (en_session random) r (set_state ((w_state w6) <| hub_key := key |>) w6))
      as [sessions E].
    exists sessions. split; [done|]. split.
    + exists sc. split; [|done].
      apply on_db_run in Esc as (v & Esc & _). apply query_run in Esc as [Esc _].
      destruct Hs3 as [u Hu]. unfold eval. run_code. simpl in Esc. rewrite Hu in Esc. exact Esc.
    + unfold mbind, M_bind. destruct (newSession _ _ _) as [[f|err] w7] eqn:En; simpl in *; done.
  - apply (arrives_or_reply lockout_only _ HQP); [apply lockout_on_db, lockout_failed|done|].
    intros u w6 _ Hs6. by apply HQP.
Qed.
End unlock.

(** ** The password of the setup *)

Lemma or_reply_run {H A} (m : AM H A) r (k : A -> AM H Reply) w reply w' :
  or_reply m r k w = (Ok reply, w') ->
  (exists a w1, m w = (Ok a, w1) /\ k a w1 = (Ok reply, w')) \/ reply = r.
Proof.
  intros ([a|err] & w1 & E%attempt_run & E')%bind_run; [left; by exists a, w1|right].
  by apply ret_run in E' as [-> _].
Qed.

Lemma insert_setting_run key value (v v' : world database) h :
  catch (insert_setting key value) (fun err => fail (h err)) v = (Ok tt, v') ->
  t_settings (w_state v') = <[key := value]> (t_settings (w_state v)).
Proof.
  intros [(a & E & _)|(err & v1 & _ & E)]%catch_cases; [|done]. apply step_run in E.
  destruct (t_settings (w_state v) !! key); [done|]. by injection E as _ <-.
Qed.

Lemma initialize_run sc (v v' : world database) t :
  InitializeSecurity sc v = (Ok tt, v') -> eval SecurityConfig (calm (w_state v') t) = Ok sc.
Proof.
  unfold InitializeSecurity, security_values. intros (v1 & v2 & _ & E & Es)%transaction_run.
  cbn [for_each] in E.
  apply bind_run in E as ([] & v3 & E1%insert_setting_run & E).
  apply bind_run in E as ([] & v4 & E2%insert_setting_run & E).
  apply bind_run in E as ([] & v5 & E3%insert_setting_run & E). apply ret_run in E as [_ ->].
  unfold eval. run_code. rewrite Es, E3, E2, E1. simplify_map_eq. by destruct sc.
Qed.

Section roundtrip.
Context {H : Type} `{!Crypto, !CryptoLaws}.

Lemma setup_opens random r (w : world (hub H)) session expires secure reply w' :
  (forall n, en_nonce random = Ok n -> String.length n = nonceSize) ->
  setup random r w = (Ok (WithCookie session expires secure reply), w') ->
  opens (FormValue r "password") (hub_db (w_state w')) (hub_key (w_state w')).
Proof.
  intros Hn. unfold setup.
  intros [(initialized & w1 & _ & E)|?]%or_reply_run; [|done]. destruct initialized; [done|].
  apply or_reply_run in E as [([] & w2 & _ & E)|?]; [|done]. destruct (_ || _); [done|].
  apply or_reply_run in E as [(salt & w3 & _ & E)|?]; [|done].
  apply or_reply_run in E as [(key & w4 & [= Ek _] & E)|?]; [|done].
  apply or_reply_run in E as [([nonce cipher] & w5 & Ev & E)|?]; [|done].
  assert (NewVerifier (en_nonce random) key = Ok (nonce, cipher)) as Ev' by (by injection Ev). clear Ev.
  apply or_reply_run in E as [([] & w6 & Ei & E)|?]; [|done].
  apply bind_run in E as ([] & w7 & [= <-] & E).
  apply bind_run in E as (respond & w8 & En & E). apply ret_run in E as [_ ->].
  destruct (new_session_state (en_session random) r (set_state ((w_state w6) <| hub_key := key |>) w6))
    as [sessions Es]. rewrite En in Es. simpl in Es. rewrite Es.
  apply on_db_run in Ei as (v & Ei & Ew & _). apply (initialize_run _ _ _ 0) in Ei.
  rewrite Ew. eexists. split; [exact Ei|]. split; [exact Ek|]. simpl.
  unfold ValidateKey, Decrypt. unfold NewVerifier, Encrypt in Ev'.
  rewrite (decrypt_encrypt _ _ _ _ _ _ Hn Ev'). simpl. done.
Qed.

(** The other fields of the database do not matter, nor what happened in between. *)
Lemma opens_settings password db db' key :
  t_settings db' = t_settings db -> opens password db key -> opens password db' key.
Proof. unfold opens, eval. run_code. by intros ->. Qed.

Lemma opens_unique password db k k' : opens password db k -> opens password db k' -> k = k'.
Proof. intros (sc & E1 & E & _) (sc' & E1' & E' & _). congruence. Qed.

(** Statements that read or write, while nothing fails. *)
Lemma on_db_calm {A} (f : database -> result A * database) (w : world (hub H)) :
  w_faults w = [] ->
  on_db (step f) w = (fst (f (hub_db (w_state w))),
    World ((w_state w) <| hub_db := snd (f (hub_db (w_state w))) |>) [] (w_clock w) (w_ticks w)).
Proof.
  intros Hf. unfold on_db, zoom, step, step_with, next_fault. simpl. rewrite Hf. simpl.
  by destruct (f _).
Qed.

Lemma or_reply_ok {A} (m : AM H A) r k w a w1 : m w = (Ok a, w1) -> or_reply m r k w = k a w1.
Proof. intros E. unfold or_reply, attempt, mbind, M_bind. by rewrite E. Qed.

Lemma now_ok (w : world (hub H)) :
  exists t w1, now w = (Ok t, w1) /\ w_state w1 = w_state w /\ w_faults w1 = w_faults w.
Proof. unfold now. destruct (w_ticks w); by eexists _, _. Qed.

(** A statement that reads, in a world without faults. *)
Lemma read_ok {A} (f : database -> result A) (w : world (hub H)) a :
  w_faults w = [] -> f (hub_db (w_state w)) = Ok a ->
  exists w1, on_db (query f) w = (Ok a, w1) /\ w_state w1 = w_state w /\ w_faults w1 = [].
Proof.
  intros Hf E. eexists. unfold query. rewrite on_db_calm by done. simpl. rewrite E.
  split; [done|]. split; [by destruct (w_state w)|done].
Qed.

Lemma new_session_ok value r (w : world (hub H)) :
  exists expires w', newSession (Ok value) r w = (Ok (WithCookie (RawURLEncoding value) expires (secure r)), w')
    /\ hub_key (w_state w') = hub_key (w_state w)
    /\ hub_sessions (w_state w') !! RawURLEncoding value = Some expires.
Proof.
  unfold newSession. destruct (now_ok w) as (t & w1 & E1 & Hw1 & _).
  destruct (now_ok w1) as (p & w2 & E2 & Hw2 & _).
  rewrite (bind_ok _ _ _ _ _ E1), (bind_ok _ _ _ _ _ E2). eexists _, _.
  split; [reflexivity|]. simpl. rewrite Hw2, Hw1. split; [done|]. apply lookup_insert_eq.
Qed.

Lemma unlock_opens zone random r (w : world (hub H)) key value :
  w_faults w = [] -> q_ParseForm r = Ok tt -> en_session random = Ok value ->
  opens (FormValue r "password") (hub_db (w_state w)) key ->
  t_unlock (hub_db (w_state w)) !! unlockScope r = None ->
  exists expires w', unlock zone random r w
      = (Ok (WithCookie (RawURLEncoding value) expires (secure r) (SeeOther "/")), w')
    /\ hub_key (w_state w') = key /\ hub_sessions (w_state w') !! RawURLEncoding value = Some expires.
Proof.
  intros Hf Hp Hs (sc & Esc & Ek & Ev) Hl. unfold unlock. rewrite Hp.
  rewrite (or_reply_ok _ _ _ w tt w) by done.
  destruct (now_ok w) as (t & w1 & E1 & Hw1 & Hf1). rewrite (bind_ok _ _ _ _ _ E1).
  unfold UnlockLockoutUntil, ClearUnlockFailures.
  assert ((unlockScope r =? "")%string = false) as -> by done.
  edestruct (read_ok (fun db => Ok (default 0 (locked_at t (t_unlock db !! unlockScope r)))) w1)
    as (w2 & E2 & Hw2 & Hf2); [by rewrite Hf1|reflexivity|].
  rewrite (or_reply_ok _ _ _ _ _ _ E2), Hw1, Hl. cbn [locked_at default IsZero negb Z.eqb].
  edestruct (read_ok (fun db => eval SecurityConfig (calm db 0)) w2) as (w3 & E3 & Hw3 & Hf3);
    [done|by rewrite Hw2, Hw1|].
  rewrite (or_reply_ok (on_db SecurityConfig) _ _ w2 sc w3) by (rewrite <- E3; reflexivity).
  rewrite (or_reply_ok _ _ _ w3 key w3) by (unfold lift; by rewrite Ek). rewrite Ev.
  erewrite or_reply_ok by (unfold update; rewrite on_db_calm by done; reflexivity).
  rewrite (bind_ok _ _ _ tt (set_state ((w_state _) <| hub_key := key |>) _)) by reflexivity.
  rewrite Hs. edestruct new_session_ok as (expires & w5 & E5 & Hk & Hc).
  rewrite (bind_ok _ _ _ _ _ E5). eexists _, _. split; [reflexivity|]. split; [by rewrite Hk|done].
Qed.

(** C11: the password of the setup unlocks.  Whatever happened since, when the settings of the
    setup are still there, its origin has no failed attempts and nothing fails, an unlock with
    the same password restores the same master key and opens a session under it. *)
Theorem setup_then_unlock zone sr ur r r' (w w' : world (hub H)) session expires sec reply w1 value :
  (forall n, en_nonce sr = Ok n -> String.length n = nonceSize) ->
  setup sr r w = (Ok (WithCookie session expires sec reply), w1) ->
  FormValue r' "password" = FormValue r "password" -> q_ParseForm r' = Ok tt ->
  en_session ur = Ok value -> w_faults w' = [] ->
  t_settings (hub_db (w_state w')) = t_settings (hub_db (w_state w1)) ->
  t_unlock (hub_db (w_state w')) !! unlockScope r' = None ->
  exists until w2, unlock zone ur r' w'
      = (Ok (WithCookie (RawURLEncoding value) until (secure r') (SeeOther "/")), w2)
    /\ hub_key (w_state w2) = hub_key (w_state w1)
    /\ hub_sessions (w_state w2) !! RawURLEncoding value = Some until.
Proof.
  intros Hn Esetup Hpw Hp Hs Hf Hset Hl. apply unlock_opens; [done..| |done].
  rewrite Hpw. eapply opens_settings; [exact Hset|]. by eapply setup_opens.
Qed.
End roundtrip.

(** ** A setup, a lock and an unlock *)

Definition form_request (segments : list string) (form : list (string * string)) : HTTPRequest :=
  MkHTTPRequest "POST" segments (Ok tt) form [] [] (Ok "") None "192.0.2.7:40001" true.
Definition sample_entropy : entropy :=
  Entropy (Ok "0123456789abcdef") (Ok "nonce-123456") (Ok "session-bytes").
Definition first_password : list (string * string) :=
  [("password", "correct horse"); ("password_confirmation", "correct horse")].
Definition setup_request : HTTPRequest := form_request ["setup"] first_password.
Definition unlock_request : HTTPRequest := form_request ["unlock"] first_password.
Definition empty_hub : world (hub unit) :=
  World (Hub database0 (Site tt [] None) "" ∅ cache0) [] 63900000000000000000 [].
Abbreviation after_setup := (snd (setup sample_entropy setup_request empty_hub)).
Abbreviation after_lock := (snd (lock setup_request after_setup)).

Lemma setup_then_unlock_witness :
  exists until w2, unlock 0 sample_entropy unlock_request after_lock
      = (Ok (WithCookie (RawURLEncoding "session-bytes") until true (SeeOther "/")), w2)
    /\ hub_key (w_state w2) = hub_key (w_state after_setup)
    /\ hub_sessions (w_state w2) !! RawURLEncoding "session-bytes" = Some until.
Proof.
  eapply (setup_then_unlock 0 sample_entropy sample_entropy setup_request unlock_request empty_hub after_lock).
  - intros n [= <-]. reflexivity.
  - apply eval_run. vm_compute. reflexivity.
  - reflexivity.
  - reflexivity.
  - reflexivity.
  - vm_compute. reflexivity.
  - vm_compute. reflexivity.
  - vm_compute. reflexivity.
Defined.
