(* ===== verification/UnlockFacts.v ===== *)
(** * Guessing the password (internal/app/server.go: unlock)

    The unlock handler, run for any number of requests of one origin, one after the other. *)

From S2P Require Import Prelude GoStrings GoTime Net Base64 Security Host StoreTypes Views Hub Session.
From S2P Require Import StoreSettings StoreAccess AccessFacts Release Config SessionFacts.

(** The answer to a password that was compared and is wrong. *)
Definition wrong_password : Reply := Render 400 (UnlockView "Contraseña incorrecta.").
Definition is_wrong (reply : Reply) : bool :=
  match reply with
  | Render 400 (UnlockView text) => (text =? "Contraseña incorrecta.")%string
  | _ => false
  end.

Section guessing.
Context {H : Type} `{!Crypto} (zone : Duration).

(** The replies to a list of attempts. *)
Fixpoint attempts (rs : list (entropy * HTTPRequest)) : AM H (list Reply) :=
  match rs with
  | [] => mret []
  | (random, r) :: rs => reply ← unlock zone random r; replies ← attempts rs; mret (reply :: replies)
  end.

Lemma read_calm {A} (f : database -> result A) (w : world (hub H)) :
  w_faults w = [] -> on_db (query f) w = (f (hub_db (w_state w)), w).
Proof.
  intros Hf. unfold query. rewrite on_db_calm by done. simpl. f_equal.
  destruct w as [[] fs c ts]. simpl in *. by subst.
Qed.

Abbreviation db_of w := (hub_db (w_state w)).
Abbreviation row_of scope w := (t_unlock (db_of w) !! scope).

(** The password of the request does not open the verifier. *)
Definition misses (db : database) (r : HTTPRequest) : Prop :=
  forall key, ~ opens (FormValue r "password") db key.

(** What an attempt of the origin leaves: no answer about the password and the same row, or the
    answer that it is wrong, given outside a lockout and recorded. *)
Definition attempted (scope : string) (w : world (hub H)) (reply : Reply) (w' : world (hub H)) : Prop :=
  w_faults w' = [] /\ forward w' /\ w_clock w <= w_clock w' /\ t_settings (db_of w') = t_settings (db_of w)
  /\ (is_wrong reply = false /\ row_of scope w' = row_of scope w
      \/ is_wrong reply = true /\ locked_at (w_clock w') (row_of scope w) = None
         /\ row_of scope w' = Some (guessed (w_clock w') (row_of scope w))).

Lemma unlock_attempt random r w :
  w_faults w = [] -> forward w -> 0 < w_clock w -> misses (db_of w) r ->
  exists reply w', unlock zone random r w = (Ok reply, w') /\ attempted (unlockScope r) w reply w'.
Proof.
  intros Hf Hw Hc Hm. unfold unlock. destruct (q_ParseForm r) as [[]|err] eqn:Ep.
  2:{ eexists _, w. split; [reflexivity|]. split_and!; [done|done|lia|done|by left]. }
  rewrite (or_reply_ok _ _ _ w tt w) by done.
  destruct (now_clock w Hw) as (t & w1 & E1 & Ht & Hc1 & Hw1). rewrite (bind_ok _ _ _ _ _ E1).
  assert (w_state w1 = w_state w /\ w_faults w1 = []) as [Hs1 Hf1].
  { unfold now in E1. destruct (w_ticks w); injection E1 as _ <-; by simpl. }
  unfold UnlockLockoutUntil. set (scope := unlockScope r).
  assert (Hscope : scope <> "") by done. rewrite (proj2 (String.eqb_neq _ _) Hscope).
  rewrite (or_reply_ok _ _ _ w1 (default 0 (locked_at t (row_of scope w1))) w1) by (by rewrite read_calm).
  assert (forall reply, is_wrong reply = false -> exists reply' w', (mret reply : AM H Reply) w1 = (Ok reply', w')
    /\ attempted scope w reply' w') as Hother.
  { intros reply Hr. exists reply, w1. split; [done|].
    split_and!; [done|done|lia|by rewrite Hs1|left; by rewrite Hs1]. }
  destruct (IsZero (default 0 (locked_at t (row_of scope w1)))) eqn:Ez; cbn [negb]; [|by apply Hother].
  assert (locked_at t (row_of scope w1) = None) as El.
  { unfold locked_at in *. destruct (row_of scope w1) as [[n [until|]]|]; [|done..].
    destruct (t <? until) eqn:Hu; [|done]. unfold IsZero in Ez. simpl in Ez. bools. lia. }
  unfold or_reply at 1. unfold mbind at 1, M_bind at 1, attempt, SecurityConfig. rewrite read_calm by done.
  destruct (_ : result SecurityConfigT) as [sc|err] eqn:Esc; [|by apply Hother].
  unfold lift, or_reply at 1, mbind at 1, M_bind at 1, attempt.
  destruct (DeriveKey _ _) as [key|err] eqn:Ek; [|by apply Hother].
  destruct (ValidateKey _ _ _) as [[]|err] eqn:Ev.
  { destruct (Hm key). exists sc. split; [|done]. rewrite <- Hs1. exact Esc. }
  destruct (register_calm scope t (db_of w1) (w_clock w1) (w_ticks w1)) as (until & Er); [done|lia|done|].
  set (w2 := World ((w_state w1) <| hub_db := (db_of w1) <| t_unlock := <[scope := guessed t (row_of scope w1)]>
                                                   (t_unlock (db_of w1)) |> |>) [] (w_clock w1) (w_ticks w1)).
  rewrite (or_reply_ok _ _ _ w1 until w2) by (unfold on_db, zoom; by rewrite Hf1, Er).
  exists wrong_password, w2. split; [done|]. split_and!; [done|done|simpl; lia|simpl; by rewrite Hs1|right].
  split; [done|]. simpl. rewrite Hc1, lookup_insert_eq, <- Hs1. by split.
Qed.

Lemma misses_settings db db' r : t_settings db' = t_settings db -> misses db r -> misses db' r.
Proof. intros E Hm key Ho. apply (Hm key). by apply (opens_settings _ db'). Qed.

Definition wrong_count (replies : list Reply) : Z := Z.of_nat (length (List.filter is_wrong replies)).

Lemma attempts_throttled scope t0 rs : forall w tried,
  Forall (fun x => unlockScope x.2 = scope) rs -> Forall (fun x => misses (db_of w) x.2) rs ->
  w_faults w = [] -> forward w -> 0 < w_clock w -> throttled t0 (w_clock w) tried (row_of scope w) ->
  exists replies w', attempts rs w = (Ok replies, w')
    /\ throttled t0 (w_clock w') (tried + wrong_count replies) (row_of scope w').
Proof.
  induction rs as [|[random r] rs IH]; intros w tried Hscope Hm Hf Hw Hc Ht.
  { exists [], w. split; [done|]. unfold wrong_count. simpl. by rewrite Z.add_0_r. }
  apply Forall_cons in Hscope as [Es Hscope], Hm as [Hm1 Hm]. simpl in Es, Hm1. cbn [attempts].
  destruct (unlock_attempt random r w Hf Hw Hc Hm1) as (reply & w1 & E1 & Hf1 & Hw1 & Hc1 & Hset & Hrow).
  rewrite (bind_ok _ _ _ _ _ E1). rewrite Es in Hrow.
  assert (throttled t0 (w_clock w1) (tried + wrong_count [reply]) (row_of scope w1)) as Ht1.
  { unfold wrong_count. simpl. destruct Hrow as [[-> ->]|(-> & El & ->)]; simpl.
    - rewrite Z.add_0_r. by apply (throttled_wait _ (w_clock w)).
    - by apply (throttled_guess t0 (w_clock w)). }
  destruct (IH w1 (tried + wrong_count [reply])) as (replies & w2 & E2 & Ht2); [done| |done|done|lia|done|].
  { eapply Forall_impl; [exact Hm|]. intros x. by apply misses_settings. }
  rewrite (bind_ok _ _ _ _ _ E2). exists (reply :: replies), w2. split; [done|].
  replace (tried + wrong_count (reply :: replies)) with (tried + wrong_count [reply] + wrong_count replies); [done|].
  unfold wrong_count. simpl. destruct (is_wrong reply); simpl; lia.
Qed.

(** C23: passwords cannot be tried faster than five per lockout.  However an origin without failed
    attempts spaces its requests to unlock, handled one after the other while nothing fails and
    the clock does not go back, as long as no password is right at most five of them are told
    that their password is wrong in every five minutes, plus the first five. *)
Theorem guessing_is_throttled scope rs (w : world (hub H)) :
  Forall (fun x => unlockScope x.2 = scope) rs -> Forall (fun x => misses (db_of w) x.2) rs ->
  w_faults w = [] -> forward w -> 0 < w_clock w -> row_of scope w = None ->
  exists replies w', attempts rs w = (Ok replies, w')
    /\ wrong_count replies <= 5 * ((w_clock w' - w_clock w) / (5 * Minute) + 1).
Proof.
  intros Hs Hm Hf Hw Hc Hr.
  destruct (attempts_throttled scope (w_clock w) rs w 0) as (replies & w' & E & Ht); [done..| |].
  { rewrite Hr. by split. }
  exists replies, w'. split; [done|]. exact (throttled_bound _ _ _ _ Ht).
Qed.
End guessing.

(** ** Seven attempts in two minutes *)

(** A cipher that tells its keys apart. *)
#[local] Instance keyed_crypto : Crypto := {
  gcm_seal key _ p _ := p +:+ take_string 16 key;
  gcm_open key _ c _ := if has_suffix c (take_string 16 key) then Some (untag c) else None;
  pbkdf2 := @pbkdf2 toy_crypto; sha256 := @sha256 toy_crypto; hmac_sha256 := @hmac_sha256 toy_crypto }.

Definition guess_request : HTTPRequest := form_request ["unlock"] [("password", "letmein")].
Definition guesses : list (entropy * HTTPRequest) := repeat (sample_entropy, guess_request) 7.
Definition guessed_world : world (hub unit) :=
  World (w_state (snd (lock setup_request (snd (setup sample_entropy setup_request empty_hub))))) []
    63900000000000000000 (repeat (20 * Second) 7).

Lemma guessing_is_throttled_witness :
  exists replies w', attempts 0 guesses guessed_world = (Ok replies, w') /\ wrong_count replies <= 5.
Proof.
  destruct (guessing_is_throttled 0 (unlockScope guess_request) guesses guessed_world) as (replies & w' & E & Hk).
  - repeat constructor.
  - assert (misses (hub_db (w_state guessed_world)) guess_request) as Hm; [|by repeat constructor].
    intros key (sc & Es & Ek & Ev). vm_compute in Es. injection Es as <-.
    vm_compute in Ek. injection Ek as <-. vm_compute in Ev. discriminate.
  - reflexivity.
  - repeat constructor; vm_compute; discriminate.
  - vm_compute. reflexivity.
  - vm_compute. reflexivity.
  - exists replies, w'. split; [exact E|].
    assert (w_clock (snd (attempts 0 guesses guessed_world)) = 63900000140000000000) as Hc by (vm_compute; reflexivity).
    rewrite E in Hc. simpl in Hc. rewrite Hc in Hk. exact Hk.
Defined.
