(* ===== verification/Preflight.v ===== *)
(** * Readiness checks (internal/app/operations.go, internal/app/server.go)

    The state of the host before a deployment: the Docker daemon, the proxy, the workload
    network, the disk, and then the source and the domain of one application. *)

From S2P Require Import Prelude GoStrings GoTime Json Net Host Templates StoreTypes.
From S2P Require Import Executor Proxy BlueGreen Release Config Views Hub.

Record HostPreflightResult := MkHostPreflight {
  hp_AllOK : bool; hp_Docker : PreflightItem; hp_Caddy : PreflightItem;
  hp_Network : PreflightItem; hp_DiskSpace : PreflightItem }.

(** An item that passed, and one that failed. *)
Definition passed (name details : string) : PreflightItem := MkPreflightItem name true details "" "".
Definition failed (name details impact action : string) : PreflightItem :=
  MkPreflightItem name false details impact action.

Definition proxyResponseReady (status : Z) : bool := (200 <=? status) && (status <? 400).

Section preflight.
Context {H : Type} `{!Host H} (config : Config).

(** The used share of the file system of a path in percent, a float64 given as a fraction;
    the difference of the block counts wraps around. *)
Definition diskUsage (path : string) : EM H (Z * Z) :=
  let path := if (path =? "")%string then "." else path in
  stat ← host_step (host_statfs (Net.Dir path));
  if sp_blocks stat =? 0 then fail (ErrMsg "filesystem has no blocks")
  else mret (float_div ((sp_blocks stat - sp_available_blocks stat) mod 2 ^ 64 * 100) (sp_blocks stat)).

(** Redirects are not followed. *)
Definition checkProxyReady : EM H unit :=
  let proxyURL := if (Config.ProxyURL config =? "")%string then "http://localhost" else Config.ProxyURL config in
  let address := proxyURL +:+ "/healthz" in
  match parse_url address with
  | None => fail (ErrMsg ("parse " +:+ quote address))
  | Some _ =>
    response ← http (Request "GET" address (Config.AdminDomain config) [] None);
    if proxyResponseReady (rs_status response) then mret tt
    else fail (ErrMsg ("proxy returned HTTP " +:+ itoa (rs_status response)))
  end.

Definition check_docker : EM H PreflightItem :=
  ready ← attempt DockerReady;
  mret (match ready with
        | Err err => failed "Estado de Docker" ("Daemon o socket Docker no responde: " +:+ error_message err)
            "MiniDock puede guardar proyectos, pero no construir ni iniciar releases."
            "Inicia Docker Desktop u OrbStack y comprueba de nuevo esta pantalla."
        | Ok _ => passed "Estado de Docker" "Socket y runtime Docker operativos"
        end).

Definition check_caddy : EM H PreflightItem :=
  ready ← attempt checkProxyReady;
  mret (match ready with
        | Err err =>
          if (Config.Environment config =? "development")%string
          then passed "Estado de Caddy" "Proxy Caddy no requerido en desarrollo local"
          else failed "Estado de Caddy" ("Proxy Caddy inaccesible: " +:+ error_message err)
            "Un release nuevo no podría recibir tráfico ni completar la conmutación segura."
            "Inicia el servicio Caddy y verifica MINIDOCK_PROXY_URL y la red de control."
        | Ok _ => passed "Estado de Caddy" "API de control y proxy Caddy operativo"
        end).

Definition check_network : PreflightItem :=
  if (trim_space (Config.DockerNetwork config) =? "")%string
  then failed "Red de Workloads" "Red Docker no configurada"
    "Los contenedores quedarían sin la red interna aislada que exige MiniDock."
    "Define MINIDOCK_DOCKER_NETWORK y ejecuta scripts/prepare-runtime-network.sh."
  else passed "Red de Workloads" ("Red " +:+ Config.DockerNetwork config +:+ " ("
         +:+ Config.DockerNetworkSubnet config +:+ ") lista").

Definition check_disk : EM H PreflightItem :=
  usage ← attempt (diskUsage (Config.DatabasePath config));
  mret (match usage with
        | Err err => failed "Espacio Libre en Disco" ("Error leyendo espacio en disco: " +:+ error_message err)
            "MiniDock no puede garantizar espacio para el workspace, la imagen y el rollback."
            "Comprueba que MINIDOCK_DATABASE_PATH esté en un volumen accesible."
        | Ok (used, whole) =>
          if 90 * whole <? used
          then failed "Espacio Libre en Disco" ("Alerta: Disco al " +:+ fixed 1 used whole +:+ "% de capacidad")
            "El build puede agotar el disco y dejar artefactos incompletos."
            "Libera espacio o usa la limpieza previsualizable de Operación + logs."
          else passed "Espacio Libre en Disco"
                 ("Espacio suficiente (uso actual: " +:+ fixed 1 used whole +:+ "%)")
        end).

(** Every failed check also clears [AllOK]. *)
Definition RunHostPreflightCheck : EM H HostPreflightResult :=
  docker ← check_docker;
  caddy ← check_caddy;
  let network := check_network in
  disk ← check_disk;
  mret (MkHostPreflight (pf_OK docker && pf_OK caddy && pf_OK network && pf_OK disk)
          docker caddy network disk).

Definition check_repository (app : StoreTypes.Application) : EM H PreflightItem :=
  let name := "Acceso al Repositorio" in
  if has_prefix (a_Repository app) "file://" then
    let repoPath := trim_prefix (a_Repository app) "file://" in
    stat ← attempt (host_step (host_stat repoPath));
    let inaccessible text := failed name ("Ruta local inaccesible: " +:+ text)
      "El build no podría leer el código seleccionado."
      "Vuelve a seleccionar una carpeta dentro del directorio de repositorios permitido." in
    mret (match stat with
          | Ok true => passed name ("Directorio local " +:+ repoPath +:+ " accesible")
          | Ok false => inaccessible ("stat " +:+ repoPath +:+ ": no such file or directory")
          | Err err => inaccessible (error_message err)
          end)
  else if negb (trim_space (a_Repository app) =? "")%string
  then mret (passed name ("Origen registrado: " +:+ a_Repository app))
  else mret (failed name "Sin repositorio asignado"
               "No existe un origen del que construir el release."
               "Edita la aplicación y selecciona una carpeta o repositorio Git.").

Definition check_domain (app : StoreTypes.Application) : PreflightItem :=
  let name := "Dominio y Health Endpoint" in
  let domain := trim_space (a_Domain app) in
  let health := trim_space (a_HealthEndpoint app) in
  let health := if (health =? "")%string then "/" else health in
  if (domain =? "")%string
  then failed name "Dominio no configurado" "Caddy no puede crear una ruta estable para el release."
         "Asigna un dominio local nombre.localhost o un subdominio público propio."
  else if negb (has_prefix health "/")
  then failed name "Health endpoint debe iniciar con '/'"
         "MiniDock no puede verificar el candidato antes de dirigirle tráfico."
         "Corrige el health check para que sea una ruta, por ejemplo /healthz o /."
  else passed name ("Dominio " +:+ domain +:+ " con probe en " +:+ health).

Definition RunPreflightCheck (app : StoreTypes.Application) : EM H PreflightCheckResult :=
  host ← RunHostPreflightCheck;
  repository ← check_repository app;
  let domain := check_domain app in
  mret (MkPreflightCheck (hp_AllOK host && pf_OK repository && pf_OK domain)
          (hp_Docker host) (hp_Caddy host) (hp_Network host) (hp_DiskSpace host) repository domain).
End preflight.

(** The items in the order of the page. *)
Definition preflight_items (p : PreflightCheckResult) : list PreflightItem :=
  [pc_Docker p; pc_Caddy p; pc_Network p; pc_DiskSpace p; pc_RepoAccess p; pc_DomainHealth p].

Definition preflightFailureSummary (preflight : PreflightCheckResult) : string :=
  join " " (map (fun item => pf_Name item +:+ ": " +:+ pf_Action item)
    (List.filter (fun item => negb (pf_OK item)) (preflight_items preflight))).
