(* ===== verification/Operations.v ===== *)
(** * Operations (internal/app/operations.go)

    The collection of health evidence and alerts, the cleanup of old releases, the encrypted
    backups, and the step of the cleanup schedule.  The serialisation of the database by the
    SQLite driver and the upload by the AWS SDK are parameters. *)

From S2P Require Import Prelude GoStrings GoTime Json Net Security BackupFormat Host Templates.
From S2P Require Import StoreTypes Executor Proxy BlueGreen Release Config Views Hub Preflight.
From S2P Require Import StoreSettings StoreApplications StoreDeployments.

(** ** Policy *)

Definition retentionDays (config : Config) : Z :=
  if 0 <? Config.RetentionDays config then Config.RetentionDays config else 30.
Definition retainedImages (config : Config) : Z :=
  if 0 <? Config.RetainedImages config then Config.RetainedImages config else 3.
Definition day : Duration := 24 * Hour.

(** A path of a log directory, in the working directory [wd]. *)
Definition log_path_in (wd root path : string) : result string :=
  let root := Abs wd root in
  let path := Abs wd path in
  let relative := Rel root path in
  if (relative =? "..")%string || has_prefix relative "../"
  then Err (ErrMsg "deployment log is outside the configured log directory")
  else Ok path.

(** What a collection has found so far: the caches and the messages of the alerts. *)
Record collected := Collected { co_cache : cache; co_messages : list string }.

Section operations.
Context {H : Type} `{!Host H} `{!Crypto}.
Context (adapterOverride : gmap string (RuntimeAdapter H)) (proxyOverride : option (ProxyAdapter H)).
Context (serialize : database -> result string)
  (s3_put_object : S3Config -> s3_put -> H -> result unit * H).
Context (config : Config) (e : Executor).

(** ** Collection *)

Definition raise (severity message : string) (app dep : option Z) (found : list string)
    : AM H (list string) :=
  ignore (on_db (UpsertAlert severity message app dep)) ;;
  mret (found ++ [message]).

Definition collect_disk : AM H (string * list string) :=
  usage ← attempt (on_site (diskUsage (Config.DatabasePath config)));
  match usage with
  | Err err =>
    found ← raise "warning" ("No se pudo consultar el espacio de disco: " +:+ error_message err) None None [];
    mret ("", found)
  | Ok (used, whole) =>
    let percent := fixed 1 used whole in
    found ← (if Config.DiskAlertPercent config * whole <=? used
             then raise "critical" ("Espacio de disco al " +:+ percent +:+ "% (umbral: "
                    +:+ itoa (Config.DiskAlertPercent config) +:+ "%).") None None []
             else mret []);
    mret (percent +:+ "%", found)
  end.

Definition collect_deployment (application : StoreTypes.Application) (found : list string)
    : AM H (option Deployment * list string) :=
  deployments ← attempt (on_db (Deployments (a_ID application)));
  match deployments with
  | Ok (latest :: _) =>
    found ← (if (d_Status latest =? "failed")%string
             then raise "critical" ("El último despliegue de " +:+ a_Name application +:+ " falló.")
                    (Some (a_ID application)) (Some (d_ID latest)) found
             else mret found);
    mret (Some latest, found)
  | _ => mret (None, found)
  end.

Definition unhealthy (status : ContainerStatus) : bool :=
  negb (cs_State status =? "running")%string || (cs_Health status =? "unhealthy")%string.

Definition collect_status (application : StoreTypes.Application) (found : list string)
    : AM H (result ContainerStatus * list string) :=
  status ← attempt (on_site (Release.Status adapterOverride proxyOverride e application));
  found ← match status with
          | Err err =>
            if negb (contains (error_message err) "Apple Container")
            then raise "warning" ("No se pudo obtener el estado de " +:+ a_Name application +:+ ".")
                   (Some (a_ID application)) None found
            else mret found
          | Ok status =>
            if unhealthy status
            then raise "critical" ("El servicio " +:+ a_Name application +:+ " no está saludable.")
                   (Some (a_ID application)) None found
            else mret found
          end;
  mret (status, found).

Definition internal_status (status : result ContainerStatus) : string :=
  match status with
  | Err _ => "unavailable"
  | Ok status => if unhealthy status then "failed" else "healthy"
  end.
Definition route_status (latest : option Deployment) : string :=
  match latest with
  | Some d => if (d_Status d =? "successful")%string then "applied" else "not_applied"
  | None => "not_applied"
  end.

(** The probe of the public route and the evidence it leaves. *)
Definition collect_route (application : StoreTypes.Application) (latest : option Deployment)
    (status : result ContainerStatus) (found : list string) : AM H (list string) :=
  probe ← on_site (ProbeRoute (proxy proxyOverride) e application);
  t ← now;
  ignore (on_db (UpsertHealthEvidence (MkHealthEvidence (a_ID application)
    (internal_status status) (route_status latest) (if rp_Success probe then "successful" else "failed")
    t t (rp_CheckedAt probe) (rp_Observer probe) (rp_Detail probe) (rp_StatusCode probe)))) ;;
  ignore (on_db (RecordRouteProbe (a_ID application) (rp_Success probe) (rp_CheckedAt probe)
    (rp_Observer probe) (rp_StatusCode probe) (rp_Detail probe))) ;;
  if rp_Success probe then mret found
  else raise "critical" ("La sonda externa de " +:+ a_Name application +:+ " falló.")
         (Some (a_ID application)) None found.

Definition certificateAlert (domain : string) (threshold : Z) : AM H string :=
  let host := trim_space (default "" (head (split_on ":" domain))) in
  if (host =? "")%string || (host =? "localhost")%string || is_ip host then mret "" else
  certificates ← attempt (on_site (host_step (host_certificates host)));
  match certificates with
  | Err _ => mret ("El certificado de " +:+ host +:+ " no pudo verificarse.")
  | Ok [] => mret ("El certificado de " +:+ host +:+ " no pudo leerse.")
  | Ok (notAfter :: _) =>
    t ← now;
    let remaining := notAfter - t in
    mret (if remaining <=? 0 then "El certificado de " +:+ host +:+ " venció."
          else if remaining <=? threshold * day
          then "El certificado de " +:+ host +:+ " vence en " +:+ fixed 0 remaining day +:+ " días."
          else "")
  end.

Definition collect_application (application : StoreTypes.Application) (c : collected) : AM H collected :=
  let id := a_ID application in
  '(latest, found) ← collect_deployment application (co_messages c);
  '(status, found) ← collect_status application found;
  found ← collect_route application latest status found;
  alert ← certificateAlert (a_Domain application) (Config.CertificateAlertDays config);
  found ← (if negb (alert =? "")%string then raise "warning" alert (Some id) None found else mret found);
  let k := co_cache c in
  mret (Collected (Cache
    (match status with Ok s => <[id := s]> (statusCache k) | Err _ => statusCache k end)
    (match status with Ok _ => statusCacheErr k | Err err => <[id := error_message err]> (statusCacheErr k) end)
    (if negb (alert =? "")%string then <[id := alert]> (certAlertsCache k) else certAlertsCache k)
    (diskUsedCache k) (alertsCache k)) found).

Fixpoint collect_all (applications : list StoreTypes.Application) (c : collected) : AM H collected :=
  match applications with
  | [] => mret c
  | application :: applications =>
    c ← collect_application application c;
    collect_all applications c
  end.

Definition runCollection : AM H unit :=
  applications ← attempt (on_db Applications);
  match applications with
  | Err _ => mret tt
  | Ok applications =>
    '(diskUsed, found) ← collect_disk;
    c ← collect_all applications (Collected (Cache ∅ ∅ ∅ diskUsed []) found);
    ignore (on_db (ResolveAllAlertsExcept (co_messages c))) ;;
    dbAlerts ← attempt (on_db GetActiveAlerts);
    let newAlerts := match dbAlerts with
                     | Ok alerts => map (fun a => (al_Severity a, al_Message a)) alerts
                     | Err _ => []
                     end in
    let k := co_cache c in
    poke (fun a => a <| hub_cache := Cache (statusCache k) (statusCacheErr k) (certAlertsCache k)
                                       (diskUsedCache k) newAlerts |>)
  end.

(** ** Retention *)

Definition deploymentLogPath (path : string) : EM H string :=
  wd ← host_step host_getwd;
  lift (log_path_in wd (Config.LogPath config) path).

(** The image goes first, then the log; the row is only deleted when both are gone. *)
Definition remove_candidate (application : StoreTypes.Application) (candidate : Deployment)
    : EM H bool :=
  removed ← (if (d_Status candidate =? "successful")%string && negb (d_Image candidate =? "")%string
             then attempt (RemoveImage adapterOverride proxyOverride e application (d_Image candidate))
             else mret (Ok tt));
  match removed with
  | Err _ => mret false
  | Ok _ =>
    path ← attempt (deploymentLogPath (d_LogPath candidate));
    match path with
    | Err _ => mret false
    | Ok path =>
      gone ← attempt (host_step (host_remove path));
      mret (match gone with Ok _ => true | Err err => IsNotExist err end)
    end
  end.

Fixpoint remove_candidates (application : StoreTypes.Application) (candidates : list Deployment)
    : EM H (list Z) :=
  match candidates with
  | [] => mret []
  | candidate :: candidates =>
    gone ← remove_candidate application candidate;
    ids ← remove_candidates application candidates;
    mret (if (gone : bool) then d_ID candidate :: ids else ids)
  end.

Definition retain_application (before : Time) (application : StoreTypes.Application) : AM H unit :=
  candidates ← on_db (RetentionCandidates (a_ID application) before (retainedImages config));
  ids ← on_site (remove_candidates application candidates);
  on_db (DeleteDeployments (a_ID application) ids).

Definition runRetention : AM H unit :=
  applications ← on_db Applications;
  t ← now;
  for_each applications (retain_application (t - retentionDays config * day)).

(** One tick of [cleanupLoop]: the time of the last cleanup is its state. *)
Definition cleanup_tick (last t : Time) : AM H Time :=
  settings ← attempt (on_db AutomationSettings);
  match settings with
  | Err _ => mret last
  | Ok schedule =>
    if (schedule =? "manual")%string then mret last else
    let interval := if (schedule =? "weekly")%string then 7 * day else day in
    if negb (IsZero last) && (t - last <? interval) then mret last else
    cleaned ← attempt runRetention;
    mret (if is_ok cleaned then t else last)
  end.

(** ** Backups *)

Definition Snapshot : DB string :=
  snapshot ← catch (query serialize) (fun err => fail (ErrWrap "serialize SQLite database" err));
  if (snapshot =? "")%string then fail (ErrMsg "empty SQLite snapshot") else mret snapshot.

Definition set_setting (key value : string) : AM H unit := ignore (on_db (SetSettingString key value)).

(** [_ = SetSettingString(backup_last_error, ...); return err]. *)
Definition backup_failed {A} (text : string) (err : error) : AM H A :=
  set_setting "backup_last_error" text ;; fail err.

Definition or_backup_failed {A} (wrap : error -> error) (m : AM H A) : AM H A :=
  catch m (fun err => backup_failed (error_message err) (wrap err)).

Definition backup_succeeded : AM H unit :=
  t ← now;
  set_setting "backup_last_success" (rfc3339 t) ;;
  set_setting "backup_last_error" "".

Definition s3_config : S3Config := MkS3Config (Config.BackupS3Endpoint config) (Config.BackupS3Region config)
  (Config.BackupS3Bucket config) (Config.BackupS3Prefix config) (Config.BackupS3AccessKey config)
  (Config.BackupS3SecretKey config).

(** The upload reads the pipe to its end; one that returns before would block the writer. *)
Definition backup_to_s3 (name encoded : string) : AM H unit :=
  or_backup_failed id (lift (BackupFormat.Validate s3_config)) ;;
  or_backup_failed id (on_site (host_step (UploadS3 s3_put_object s3_config name encoded))) ;;
  backup_succeeded.

Definition is_backup (name : string) : bool := has_prefix name "backup-" && has_suffix name ".mdbk".
Definition backup_retention : Z :=
  if Config.BackupRetention config <? 1 then 7 else Config.BackupRetention config.

(** The backups beyond the newest, by name. *)
Definition outdated_backups (directory : string) (names : list string) : list string :=
  let backups := order_by_name id (map (Join directory) (List.filter is_backup names)) in
  take (length backups - Z.to_nat backup_retention) backups.

Definition backup_to_directory (name encoded : string) : AM H unit :=
  let directory := Config.BackupPath config in
  or_backup_failed (ErrWrap "create backup directory") (on_site (host_step (host_mkdir_all directory))) ;;
  or_backup_failed (ErrWrap "write encrypted backup")
    (on_site (host_step (host_write_file (Join directory name) encoded))) ;;
  backup_succeeded ;;
  files ← attempt (on_site (host_step (host_read_dir directory)));
  match files with
  | Err _ => mret tt
  | Ok names => for_each (outdated_backups directory names)
                  (fun path => ignore (on_site (host_step (host_remove path))))
  end.

Definition runBackup (random : result string) : AM H unit :=
  initialized ← attempt (on_db IsInitialized);
  match initialized with
  | Ok true =>
    key ← keyCopy;
    if (key =? "")%string then
      ignore (on_db (UpsertAlert "warning" "MD-P0-02: MiniDock está bloqueado; los backups automáticos cifrados están pausados hasta el desbloqueo desde la UI." None None)) ;;
      backup_failed "MiniDock está bloqueado; el respaldo cifrado requiere ingresar la contraseña en la UI"
        (ErrMsg "backup key unavailable: unlock MiniDock in the UI")
    else
    data ← or_backup_failed (ErrWrap "snapshot SQLite backup") (on_db Snapshot);
    t ← now;
    encoded ← or_backup_failed (ErrWrap "encrypt backup") (lift (Seal random key data));
    let name := "backup-" +:+ compact t +:+ ".mdbk" in
    let provider := Config.BackupProvider config in
    if (provider =? "s3")%string || (provider =? "minio")%string then backup_to_s3 name encoded
    else if negb (provider =? "")%string && negb (provider =? "local")%string then
      let err := ErrMsg ("unsupported backup provider " +:+ quote provider) in
      backup_failed (error_message err) err
    else backup_to_directory name encoded
  | _ => mret tt
  end.
End operations.
