(* ===== verification/Pages.v ===== *)
(** * What the pages compute (internal/app/server.go, internal/app/operations.go)

    The functions between the records and the views: the stages of the last deployment, the
    notice about the runtime, the differences between two releases, the report of a release
    and the inventory of the nodes. *)

From S2P Require Import Prelude GoStrings GoTime Json Net Host Templates StoreTypes.
From S2P Require Import Executor Proxy BlueGreen Release Config Views Hub Preflight Operations.

Definition currentPhase : PhaseStatus :=
  MkPhaseStatus 6 "Flujo guiado y automatización" "En progreso"
    "Validar un despliegue real y las reglas de automatización".

(** ** The stages of a deployment *)

(** The product wraps around as an int64. *)
Definition formatMs (ms : Z) : string :=
  if ms <=? 0 then "" else
  let d := wrap64 (ms * Millisecond) in
  if d <? Second then float_text 2 ms 1000 +:+ "s"
  else if d <? Minute then (let '(n, k) := in_units Second d in fixed 1 n k) +:+ "s"
  else itoa (truncated (in_units Minute d)) +:+ "m "
       +:+ itoa (truncated (in_units Second d) mod 60) +:+ "s".

(** A message with the time a stage took, when it was measured. *)
Definition with_time (message prefix : string) (ms : Z) : string :=
  if 0 <? ms then message +:+ " (" +:+ prefix +:+ formatMs ms +:+ ")" else message.

Definition pending (message : string) : string * string := ("pending", message).
Definition finished_in (message : string) (ms : Z) : string * string := ("done", with_time message "" ms).

(** Where a failed deployment failed. *)
Definition failed_pipeline (d : Deployment) (p : PipelineStatus) : PipelineStatus :=
  let idle := pending "No iniciado" in
  let waiting := pending "Pendiente" in
  let stage := d_FailureStage d in
  if (stage =? "start")%string then
    if (d_FailureCode d =? "runtime_unavailable")%string
    then p <| pl_Step1 := ("failed", "Runtime no disponible") |> <| pl_Step2 := idle |>
           <| pl_Step3 := idle |> <| pl_Step4 := idle |> <| pl_Step5 := idle |> <| pl_Step6 := idle |>
    else p <| pl_Step4 := ("failed", "Switch/Arranque fallido") |>
           <| pl_Step5 := waiting |> <| pl_Step6 := waiting |>
  else if (stage =? "source")%string
  then p <| pl_Step2 := ("failed", "Clon/Fetch fallido") |> <| pl_Step3 := idle |>
         <| pl_Step4 := idle |> <| pl_Step5 := idle |> <| pl_Step6 := idle |>
  else if (stage =? "build")%string
  then p <| pl_Step3 := ("failed", "Compilación fallida") |>
         <| pl_Step4 := idle |> <| pl_Step5 := idle |> <| pl_Step6 := idle |>
  else if (stage =? "health")%string
  then p <| pl_Step5 := ("failed", "Health check fallido") |> <| pl_Step6 := idle |>
  else if (stage =? "route")%string
  then p <| pl_Step6 := ("failed", "Ruta proxy fallida") |>
  else p <| pl_Step4 := ("failed", "Fallo de ejecución") |>
         <| pl_Step5 := waiting |> <| pl_Step6 := waiting |>.

Definition computePipelineStatus (d : Deployment) (preflightFailed : bool) : PipelineStatus :=
  let idle := pending "No iniciado" in
  let waiting := pending "Pendiente" in
  let cancelled := pending "Cancelado" in
  if preflightFailed
  then MkPipeline d true true ("failed", "Requiere configuración") idle idle idle idle idle else
  let p := MkPipeline d true false
             ("done", with_time "Runtime de contenedores" "Cola: " (d_QueueDurationMs d)) in
  let completed := p (finished_in "Completado" (d_SourceDurationMs d))
    (finished_in "Procesado" (d_BuildDurationMs d)) (finished_in "Completado" (d_StartDurationMs d))
    (finished_in "Confirmado" (d_HealthDurationMs d)) (finished_in "Enrutado" (d_RouteDurationMs d)) in
  let status := d_Status d in
  if (status =? "queued")%string
  then p ("active", "En cola") (pending "En cola") waiting waiting waiting
  else if (status =? "running")%string
  then p ("done", "Completado") ("active", "En curso") ("active", "En curso") waiting waiting
  else if (status =? "successful")%string then completed
  else if (status =? "failed")%string then failed_pipeline d completed
  else p cancelled cancelled cancelled cancelled cancelled.

(** The page of an application that was never deployed. *)
Definition Pipeline0 : PipelineStatus :=
  MkPipeline Deployment0 false false ("", "") ("", "") ("", "") ("", "") ("", "") ("", "").

Definition runtimePreflightFailure (log : string) : bool :=
  let log := to_lower log in
  contains log "runtime preflight:" || contains log "no supported container runtime"
  || contains log "default kernel not configured".

Definition RuntimeDiagnostic0 : RuntimeDiagnostic := MkRuntimeDiagnostic "" "" "" false false.
(** The last diagnostic of a name. *)
Definition diagnostic (name : string) (diagnostics : list RuntimeDiagnostic) : RuntimeDiagnostic :=
  List.last (List.filter (fun d => rd_Name d =? name)%string diagnostics) RuntimeDiagnostic0.
Definition backquote : string := String "096" "".
Definition runtimeNotice (diagnostics : list RuntimeDiagnostic) : string :=
  let apple := diagnostic "apple" diagnostics in
  let docker := diagnostic "docker" diagnostics in
  let setup := backquote +:+ rd_SetupCommand apple +:+ backquote in
  if rd_Installed apple && negb (rd_Ready apple) && rd_Ready docker
  then "Apple Container está instalado pero no está listo; MiniDock está usando Docker como respaldo. Para preferir Apple Container ejecuta "
       +:+ setup +:+ " y completa la configuración de kernel si se solicita."
  else if rd_Installed apple && negb (rd_Ready apple)
  then "Apple Container está instalado pero no está listo. Ejecuta " +:+ setup
       +:+ " y completa la configuración de kernel si se solicita antes de desplegar."
  else "".

(** The image of the newest successful deployment that has one. *)
Fixpoint deployed_version (deployments : list Deployment) : string :=
  match deployments with
  | [] => ""
  | d :: deployments =>
    if (d_Status d =? "successful")%string && negb (d_Image d =? "")%string
    then d_Image d else deployed_version deployments
  end.

(** ** The differences between two releases *)

(** The deployment after the first one of this id. *)
Fixpoint previous_of (id : Z) (deployments : list Deployment) : option Deployment :=
  match deployments with
  | d :: ((previous :: _) as rest) => if d_ID d =? id then Some previous else previous_of id rest
  | _ => None
  end.

Definition diff_fields (d : Deployment) (previous : option Deployment) : list DiffField :=
  let prev := default Deployment0 previous in
  let hasPrev := bool_decide (is_Some previous) in
  let text name (f : Deployment -> string) :=
    MkDiffField name (f d) (f prev) (negb (f d =? f prev)%string && hasPrev) in
  [text "Acción" d_Action; text "Estado" d_Status;
   text "Revisión de Origen (Git)" d_SourceRevision; text "Huella de Origen" d_SourceFingerprint;
   text "Imagen" d_Image; text "Digest del Artefacto" d_ArtifactDigest; text "Runtime" d_Runtime;
   MkDiffField "Puerto Interno" (itoa (d_InternalPort d)) (itoa (d_InternalPort prev))
     (negb (d_InternalPort d =? d_InternalPort prev) && hasPrev);
   text "Ruta de Health Check" d_HealthEndpoint; text "Digest de Configuración" d_ConfigurationDigest].

(** ** The report of a release *)

Definition report_json (application : StoreTypes.Application) (d : Deployment) : json :=
  JObj [("version", JNum 1);
    ("application", JObj [("id", JNum (a_ID application)); ("name", JStr (a_Name application));
       ("domain", JStr (a_Domain application)); ("internal_port", JNum (a_InternalPort application))]);
    ("release", JObj [("id", JNum (d_ID d)); ("application_id", JNum (d_ApplicationID d));
       ("action", JStr (d_Action d)); ("status", JStr (d_Status d)); ("image", JStr (d_Image d));
       ("requested_ref", JStr (d_RequestedRef d)); ("source_revision", JStr (d_SourceRevision d));
       ("source_fingerprint", JStr (d_SourceFingerprint d));
       ("artifact_digest", JStr (d_ArtifactDigest d)); ("runtime", JStr (d_Runtime d));
       ("internal_port", JNum (d_InternalPort d)); ("health_endpoint", JStr (d_HealthEndpoint d));
       ("manifest", JStr (d_Manifest d)); ("configuration_digest", JStr (d_ConfigurationDigest d));
       ("failure_stage", JStr (d_FailureStage d)); ("failure_code", JStr (d_FailureCode d));
       ("failure_detail", JStr (d_FailureDetail d)); ("current_stage", JStr (d_CurrentStage d));
       ("queue_duration_ms", JNum (d_QueueDurationMs d));
       ("source_duration_ms", JNum (d_SourceDurationMs d));
       ("build_duration_ms", JNum (d_BuildDurationMs d));
       ("start_duration_ms", JNum (d_StartDurationMs d));
       ("health_duration_ms", JNum (d_HealthDurationMs d));
       ("route_duration_ms", JNum (d_RouteDurationMs d));
       ("started_at", JStr (rfc3339_nano (d_StartedAt d)));
       ("finished_at", JStr (rfc3339_nano (d_FinishedAt d)))])].

(** ** The inventory of the nodes *)

(** Without the certificate.  No capabilities are a nil slice: the agent leaves an empty list out. *)
Definition node_json (node : Node) : json :=
  JObj [("id", JStr (n_ID node)); ("name", JStr (n_Name node)); ("version", JStr (n_Version node));
    ("capabilities", match n_Capabilities node with [] => JNull | cs => JArr (map JStr cs) end);
    ("last_seen_at", JStr (rfc3339_nano (n_LastSeenAt node)))].

(** ** Logs *)

(** The lines that contain [q], each with a line break. *)
Definition matching_lines (q text : string) : string :=
  join "" (map (fun line => line +:+ String newline "")
    (List.filter (fun line => contains (to_lower line) q) (split_on newline text))).

Section logs.
Context {H : Type} `{!Host H}.
Context (config : Config).

Definition maxPreview : Z := 16 * 1024.

(** The text, or the message shown instead.  The newest part of the file; when its size cannot
    be read the oldest. *)
Definition deploymentLogPreview (logPath : string) : EM H (string * string) :=
  path ← attempt (deploymentLogPath config logPath);
  match path with
  | Err _ => mret ("", "El log no está disponible.")
  | Ok path =>
    let unreadable := ("", "No se pudo leer el log.") in
    file ← attempt (host_step (host_open path));
    match file with
    | Err err => mret ("", if IsNotExist err then "El worker todavía no ha creado el log."
                           else "No se pudo abrir el log.")
    | Ok _ =>
      size ← attempt (host_step (host_size path));
      contents ← attempt (host_step (host_read_file path));
      mret (match contents with
            | Err _ => unreadable
            | Ok contents =>
              let length := Z.of_nat (String.length contents) in
              let limited s := (take_string (Z.to_nat maxPreview) s, "") in
              if match size with Ok n => maxPreview <? n | Err _ => false end
              then if length <? maxPreview then unreadable
                   else limited (drop_string (Z.to_nat (length - maxPreview)) contents)
              else limited contents
            end)
    end
  end.

(** What an executor call wrote to its output, and how it ended. *)
Definition captured {A} (m : EM H A) : EM H (string * result A) := fun w =>
  let s := w_state w in
  let '(r, w') := m (set_state (Site (site_host s) [] (site_tracker s)) w) in
  (Ok (join "" (site_output (w_state w')), r),
   set_state (Site (site_host (w_state w')) (site_output s) (site_tracker (w_state w'))) w').
End logs.
