(* ===== verification/CICD.v ===== *)
(** * Deployment jobs (internal/app/cicd.go)

    GitHub webhooks, the queueing of a deployment with its manifest, the worker that runs
    the oldest queued job and records its outcome, rollbacks, and the start of the queue.
    A job runs on the store and the machine of the process; what other requests do to the
    store while it runs, and the ticks of the heartbeat, are a list of [activity]. *)

From S2P Require Import Prelude GoStrings Json Net Base64 Security Host Templates.
From S2P Require Import StoreTypes Executor Proxy BlueGreen Release Config Views Hub.
From S2P Require Import StoreSettings StoreApplications StoreAccess StoreDeployments StoreQueueFacts.

(** ** Webhook payloads *)

Record githubPush := MkGithubPush { Ref : string; After : string; FullName : string }.

Definition decode_push (j : json) : option githubPush :=
  kvs ← members j;
  ref ← decode_field "ref" decode_text "" kvs;
  after ← decode_field "after" decode_text "" kvs;
  name ← decode_field "repository"
           (fun name j => repo ← members j; decode_field "full_name" decode_text name repo) "" kvs;
  Some (MkGithubPush ref after name).

Definition validGitCommit (value : string) : bool :=
  if negb (String.length value =? 40)%nat then false else
  bool_decide (is_Some (hex_decode value))
  && negb (value =? "0000000000000000000000000000000000000000")%string.

Definition matchesGitHubRepository (repository fullName : string) : bool :=
  let repository := trim_suffix (trim_space (to_lower repository)) ".git" in
  let fullName := trim is_slash (to_lower fullName) in
  if (repository =? "")%string || (fullName =? "")%string then false
  else if has_prefix repository "git@github.com:"
  then (trim_prefix repository "git@github.com:" =? fullName)%string
  else if has_prefix repository "https://github.com/" || has_prefix repository "http://github.com/"
  then match cut repository "github.com/" with
       | Some (_, path) => (trim is_slash path =? fullName)%string
       | None => false
       end
  else false.

Definition matchesGitReference (reference pushed : string) : bool :=
  if has_prefix reference "refs/" then (pushed =? reference)%string
  else (pushed =? "refs/heads/" +:+ reference)%string || (pushed =? "refs/tags/" +:+ reference)%string.

Definition validGitHubSignature `{!Crypto} (secret body header : string) : bool :=
  if negb (has_prefix header "sha256=") then false else
  match hex_decode (trim_prefix header "sha256=") with
  | Some want => (want =? hmac_sha256 secret body)%string
  | None => false
  end.

(** A delivery of the webhook: its headers, the [id] of the path, and what reading the body
    gives. *)
Record hook_request := HookRequest {
  hk_event : string; hk_signature : string; hk_delivery : string; hk_id : string;
  hk_body : result string }.

(** ** Release evidence *)

(** A Go map of members: the last of two equal keys counts. *)
Definition member_map (kvs : list (string * json)) : gmap string json :=
  foldl (fun m kv => <[kv.1 := kv.2]> m) ∅ kvs.

(** The raw messages of a manifest, kept as values. *)
Definition manifest_members (manifest : string) : gmap string json :=
  match parse manifest with
  | Some (JObj kvs) => member_map kvs
  | _ => {["version" := JNum 1]}
  end.

Definition releaseManifest (manifest effectiveRuntimeConfiguration observedContainerID : string)
    : string :=
  let value := manifest_members manifest in
  let value := if negb (observedContainerID =? "")%string
               then <["observed_container_id" := JStr observedContainerID]> value else value in
  if negb (effectiveRuntimeConfiguration =? "")%string then
    match parse effectiveRuntimeConfiguration with
    | Some effective =>
      marshal (JObj (sorted_pairs (<["effective_runtime_configuration" := effective]> value)))
    | None => manifest
    end
  else marshal (JObj (sorted_pairs value)).

Definition rollbackConfiguration (sha256 : string -> string)
    (configuration : DeploymentConfiguration) (manifest : string) : result DeploymentConfiguration :=
  match parse manifest with
  | None => Err (ErrWrap "read rollback release manifest" (ErrMsg "invalid JSON"))
  | Some j =>
    match (kvs ← members j; decode_field "effective_runtime_configuration" decode_map None kvs) with
    | None => Err (ErrWrap "read rollback release manifest" (ErrMsg "json: cannot unmarshal"))
    | Some None => Err (ErrMsg "rollback release has no effective runtime configuration")
    | Some (Some values) =>
      let secret := filter (fun kv => dc_PublicRuntime configuration !! kv.1 = None) (dc_Runtime configuration) in
      Ok (configuration
        <| dc_PublicRuntime := values |>
        <| dc_Runtime := values ∪ secret |>
        <| dc_EffectiveRuntimeConfiguration := NonSecretRuntimeConfiguration values |>
        <| dc_ConfigurationDigest :=
             PublicConfigurationDigest sha256 values (dc_BuildArgs configuration) |>)
    end
  end.

Definition rollbackReleaseMetadata (source : Deployment) (configurationDigest : string) : ReleaseMetadata :=
  MkReleaseMetadata (d_RequestedRef source) (d_SourceRevision source) (d_SourceFingerprint source)
    (d_ArtifactDigest source) (d_Runtime source) (d_InternalPort source) (d_HealthEndpoint source)
    (d_Manifest source) configurationDigest.

Definition shouldTriggerAutoRollback (err : option error) : bool :=
  match err with
  | None => false
  | Some _ =>
    let '(stage, _, _) := FailureDetails err in
    (stage =? "start")%string || (stage =? "health")%string || (stage =? "route")%string
  end.

(** ** The log of a job *)

(** [limitedLogWriter]: [write] is the underlying writer, which takes all the bytes it is
    given, or fails after some of them. *)
Record limitedLogWriter := MkLimitedLogWriter {
  lw_contents : string; lw_Limit : Z; lw_written : Z }.

Definition Write (write : string -> nat * option error) (p : string) (w : limitedLogWriter)
    : (Z * option error) * limitedLogWriter :=
  let size := Z.of_nat (String.length p) in
  if (lw_Limit w <=? 0) || (lw_Limit w <=? lw_written w) then ((size, None), w) else
  let available := lw_Limit w - lw_written w in
  let toWrite := if available <? size then take_string (Z.to_nat available) p else p in
  let '(n, err) := write toWrite in
  let w := MkLimitedLogWriter (lw_contents w +:+ take_string n toWrite) (lw_Limit w)
             (lw_written w + Z.of_nat n) in
  match err with
  | Some _ => ((Z.of_nat n, err), w)
  | None => ((size, None), w)
  end.

(** ** Health endpoint of an application *)

Definition health_endpoint (application : StoreTypes.Application) : string :=
  if negb (a_HealthEndpoint application =? "")%string then a_HealthEndpoint application
  else match Templates.For (a_Type application) with
       | Some t => t_HealthEndpoint t
       | None => "/healthz"
       end.

Definition queued_manifest (application : StoreTypes.Application) : string :=
  marshal (JObj [("version", JNum 1); ("application_type", JStr (a_Type application));
                 ("requested_runtime", JStr (a_Runtime application));
                 ("internal_port", JNum (a_InternalPort application));
                 ("health_endpoint", JStr (health_endpoint application))]).

(** What happens to the store while the executor works: a tick of the heartbeat of the job,
    or a statement of another request or worker. *)
Inductive activity := Tick | Other (op : deployment_op).

Section cicd.
Context {H : Type} `{!Host H} `{!Crypto}.
Context (Key : Type) (parseRSAPrivateKey : string -> result Key)
  (SignPKCS1v15 : Key -> string -> result string).
Context (adapterOverride : gmap string (RuntimeAdapter H)) (proxyOverride : option (ProxyAdapter H)).
Context (config : Config) (e : Executor).

(** [fmt.Sprintf("%x", sha256.Sum256(s))]. *)
Definition sha256_hex (s : string) : string := hex_encode (sha256 s).
Definition Deploy' := Deploy sha256_hex Key parseRSAPrivateKey SignPKCS1v15 adapterOverride proxyOverride e.
Definition Rollback' := Rollback adapterOverride proxyOverride e.
Definition VerifyArtifact' := VerifyArtifact adapterOverride proxyOverride e.

(** ** Queueing *)

Definition queueDeploymentRef (applicationID : Z) (action requestedRef : string) : AM H unit :=
  on_site (host_step (host_mkdir_all (Config.LogPath config))) ;;
  t ← now;
  let logPath := Join (Config.LogPath config)
                   ("deploy-" +:+ itoa applicationID +:+ "-" +:+ itoa (unix_nano t) +:+ ".log") in
  deployment ← on_db (QueueDeployment applicationID action logPath);
  application ← on_db (Application applicationID);
  let requestedRef := if (requestedRef =? "")%string then a_Branch application else requestedRef in
  on_db (SetDeploymentReleaseMetadata (d_ID deployment)
    (MkReleaseMetadata requestedRef "" "" "" "" (a_InternalPort application) ""
       (queued_manifest application) "")).

Definition queueDeployment (applicationID : Z) (action : string) : AM H unit :=
  queueDeploymentRef applicationID action "".

(** ** The webhook *)

(** The requests after the delivery was claimed. *)
Definition push_handler (body : string) (application : StoreTypes.Application) : AM H Reply :=
  match parse body ≫= decode_push with
  | None => mret (Status 204)
  | Some push =>
    if negb (matchesGitReference (a_Branch application) (Ref push))
       || (negb (After push =? "")%string && negb (validGitCommit (After push)))
    then mret (Status 204)
    else if negb (FullName push =? "")%string
            && negb (matchesGitHubRepository (a_Repository application) (FullName push))
    then mret (Status 204)
    else
      queued ← attempt (queueDeploymentRef (a_ID application) "deploy" (After push));
      mret (match queued with
            | Ok _ => Status 202
            | Err err => if contains (error_message err) "UNIQUE" then Status 202
                         else HTTPError 500 "could not queue deployment"
            end)
  end.

Definition application_handler (body id : string) : AM H Reply :=
  match parse_int id with
  | None => mret (HTTPError 404 "404 page not found")
  | Some id =>
    or_reply (on_db (Application id)) (HTTPError 404 "404 page not found") (fun application =>
    if negb (a_DeployOnPush application) then mret (Status 204) else
    or_reply (on_db (AllowWebhookRequest ("github:" +:+ itoa (a_ID application))
                       (Config.WebhookRateLimit config) (Config.WebhookRateWindow config)))
      (HTTPError 500 "could not apply webhook rate limit") (fun allowed =>
    if negb allowed
    then mret (TooManyRequests (Z.quot (Config.WebhookRateWindow config) Second) "webhook rate limit exceeded")
    else
    isLocked ← is_locked;
    hasSecrets ← (if (isLocked : bool) then attempt (on_db (HasSecrets (a_ID application)))
                  else mret (Ok false));
    match hasSecrets with
    | Err _ => mret (HTTPError 500 "database error")
    | Ok true => mret (HTTPError 503 "MiniDock is locked and application contains secrets")
    | Ok false =>
      if a_RequireConfirmation application then mret (Status 204)
      else push_handler body application
    end))
  end.

Definition body_limit : Z := Z.shiftl 1 20.

Definition githubWebhook (r : hook_request) : AM H Reply :=
  if negb (hk_event r =? "push")%string then mret (Status 204)
  else if (Config.WebhookSecret config =? "")%string
  then mret (HTTPError 503 "webhook is not configured")
  else match hk_body r with
  | Err _ => mret (HTTPError 400 "invalid payload")
  | Ok body =>
    if body_limit <? Z.of_nat (String.length body) then mret (HTTPError 400 "invalid payload")
    else if negb (validGitHubSignature (Config.WebhookSecret config) body (hk_signature r))
    then mret (HTTPError 401 "invalid signature")
    else
    let delivery := trim_space (hk_delivery r) in
    claimed ← (if (delivery =? "")%string then mret (Ok true)
               else attempt (on_db (ClaimWebhookDelivery "github" (sha256_hex delivery))));
    match claimed with
    | Err _ => mret (HTTPError 500 "could not record webhook")
    | Ok false => mret (Status 204)
    | Ok true => application_handler body (hk_id r)
    end
  end.

(** ** Configuration of a job *)

Definition configurationValues (applicationID : Z) (environment target : string)
    : AM H (gmap string string) :=
  values ← on_db (ApplicationConfiguration applicationID environment target);
  mret (list_to_map (map (fun v => (co_Name v, co_Value v)) (rev values))).

(** [for name := range values]: the keys in the order of the map, not by name. *)
Definition sortedMapNames (values : gmap string string) : list string := map fst (map_to_list values).

Fixpoint decrypt_all (applicationID : Z) (environment target key : string)
    (metadata : list SecretMetadata) (values : gmap string string) : AM H (gmap string string) :=
  match metadata with
  | [] => mret values
  | secret :: metadata =>
    '(nonce, ciphertext) ← on_db (ApplicationSecret applicationID environment target (sm_Name secret));
    plaintext ← lift (Decrypt key nonce ciphertext);
    decrypt_all applicationID environment target key metadata (<[sm_Name secret := plaintext]> values)
  end.

Definition deploymentSecrets (applicationID : Z) (environment target : string)
    : AM H (gmap string string) :=
  metadata ← on_db (ApplicationSecrets applicationID environment target);
  match metadata with
  | [] => mret ∅
  | _ =>
    key ← keyCopy;
    if (key =? "")%string then fail (ErrMsg "master key unavailable") else
    values ← decrypt_all applicationID environment target key metadata ∅;
    on_db (RecordSecretUse applicationID environment target (sortedMapNames values)) ;;
    mret values
  end.

Definition deploymentConfiguration (applicationID : Z) (environment : string)
    : AM H DeploymentConfiguration :=
  runtime ← configurationValues applicationID environment "runtime";
  buildArgs ← configurationValues applicationID environment "build";
  buildSecrets ← deploymentSecrets applicationID environment "build";
  runtimeSecrets ← deploymentSecrets applicationID environment "runtime";
  mret (DeploymentConfiguration0
    <| dc_Runtime := runtimeSecrets ∪ runtime |> <| dc_PublicRuntime := runtime |>
    <| dc_BuildArgs := buildArgs |> <| dc_BuildSecrets := buildSecrets |>
    <| dc_ConfigurationDigest := PublicConfigurationDigest sha256_hex runtime buildArgs |>
    <| dc_EffectiveRuntimeConfiguration := NonSecretRuntimeConfiguration runtime |>).

(** A retry reuses the image of the last failure that happened after the build. *)
Definition reuse_failed (applicationID : Z) (configuration : DeploymentConfiguration)
    : AM H DeploymentConfiguration :=
  failed ← attempt (on_db (LatestFailedDeployment applicationID));
  mret (match failed with
        | Ok d =>
          if negb (d_Image d =? "")%string
             && ((d_FailureStage d =? "start")%string || (d_FailureStage d =? "health")%string
                 || (d_FailureStage d =? "route")%string)
          then configuration <| dc_ReuseImage := d_Image d |>
                 <| dc_ReuseSourceRevision := d_SourceRevision d |>
                 <| dc_ReuseSourceFingerprint := d_SourceFingerprint d |>
          else configuration
        | Err _ => configuration
        end).

(** ** Running a job *)

(** The log, and the tracker whose callbacks write to the store. *)
Definition open_job (d : Deployment) : AM H unit :=
  poke (fun a => a <| hub_site := Site (site_host (hub_site a)) []
                       (Some (StageTracker0 <| QueueDuration := d_QueueDurationMs d * Millisecond |>)) |>).

Definition print (line : string) : AM H unit := on_site (say line).

(** The callbacks of the tracker, in order; their errors are ignored. *)
Definition run_call (id : Z) (c : tracker_call) : DB unit :=
  match c with
  | StageChange stage => ignore (SetDeploymentStage id stage)
  | Event stage kind message => ignore (AddDeploymentEvent id stage kind message)
  end.

(** [m] with the callbacks it made; they only write to the store, which the executor does
    not read.  A Go call always returns its pair. *)
Definition tracked (id : Z) (m : EM H (ReleaseResult * option error))
    : AM H (ReleaseResult * option error) :=
  r ← attempt (on_site m);
  calls ← peek (fun a => match site_tracker (hub_site a) with
                         | Some t => tracker_calls t
                         | None => []
                         end);
  on_db (for_each calls (run_call id)) ;;
  on_site (track (fun t => t <| tracker_calls := [] |>)) ;;
  mret (match r with Ok result => result | Err err => (ReleaseResult0, Some err) end).

Definition run_deploy (d : Deployment) (application : StoreTypes.Application)
    (configuration : DeploymentConfiguration) : AM H (option error) :=
  let application := if validGitCommit (d_RequestedRef d)
                     then application <| a_Branch := d_RequestedRef d |> else application in
  '(release, err) ← tracked (d_ID d) (Deploy' application configuration);
  (if negb (rr_Image release =? "")%string
   then ignore (on_db (SetDeploymentImage (d_ID d) (rr_Image release))) else mret tt) ;;
  ignore (on_db (SetDeploymentReleaseMetadata (d_ID d) (MkReleaseMetadata
    (d_RequestedRef d) (rr_SourceRevision release) (rr_SourceFingerprint release)
    (rr_ArtifactDigest release) (rr_Runtime release) (a_InternalPort application)
    (health_endpoint application)
    (releaseManifest (d_Manifest d) (dc_EffectiveRuntimeConfiguration configuration)
       (rr_ObservedContainerID release))
    (dc_ConfigurationDigest configuration)))) ;;
  mret err.

(** The two rollback branches differ in the release they restore. *)
Definition run_rollback (d : Deployment) (application : StoreTypes.Application)
    (configuration : DeploymentConfiguration) (target : DB Deployment) : AM H (option error) :=
  prepared ← attempt (
    previous ← on_db target;
    configuration ← lift (rollbackConfiguration sha256_hex configuration (d_Manifest previous));
    on_site (VerifyArtifact' application (d_Image previous) (d_ArtifactDigest previous)) ;;
    mret (previous, configuration));
  match prepared with
  | Err err => mret (Some err)
  | Ok (previous, configuration) =>
    ignore (on_db (SetDeploymentImage (d_ID d) (d_Image previous))) ;;
    let metadata id :=
      (rollbackReleaseMetadata previous (dc_ConfigurationDigest configuration))
        <| rm_Manifest := releaseManifest (d_Manifest previous)
                            (dc_EffectiveRuntimeConfiguration configuration) id |> in
    ignore (on_db (SetDeploymentReleaseMetadata (d_ID d) (metadata ""))) ;;
    '(release, err) ← tracked (d_ID d) (Rollback' application (d_Image previous) configuration);
    ignore (on_db (SetDeploymentReleaseMetadata (d_ID d) (metadata (rr_ObservedContainerID release)))) ;;
    mret err
  end.

Definition run_action (action : string) (d : Deployment) (application : StoreTypes.Application)
    (configuration : DeploymentConfiguration) : AM H (option error) :=
  if (action =? "deploy")%string then run_deploy d application configuration
  else if (action =? "rollback")%string
  then run_rollback d application configuration (PreviousSuccessfulDeployment (a_ID application))
  else if (action =? "auto_rollback")%string
  then run_rollback d application configuration (LatestSuccessfulDeployment (a_ID application))
  else mret None.

(** [heartbeatDeployment] and the other requests until the job stops; the first failed
    heartbeat is the answer of the channel and ends the ticker. *)
Fixpoint meanwhile (id : Z) (alive : bool) (during : list activity) : DB (option error) :=
  match during with
  | [] => mret None
  | Other op :: during => run_op op ;; meanwhile id alive during
  | Tick :: during =>
    if negb alive then meanwhile id false during else
    beat ← attempt (HeartbeatDeployment id);
    match beat with
    | Ok _ => meanwhile id true during
    | Err err => _ ← meanwhile id false during; mret (Some err)
    end
  end.

Definition notifyDeployment (application : StoreTypes.Application) (deploymentID : Z)
    (action status : string) (deploymentErr : option error) : AM H unit :=
  if (Config.NotificationWebhook config =? "")%string then mret tt else
  let payload := <["application" := a_Name application]> (<["action" := action]>
                 (<["status" := status]> {["deployment_id" := itoa deploymentID]})) in
  let payload := match deploymentErr with
                 | Some err => <["error" := error_message err]> payload
                 | None => payload
                 end in
  match parse_url (Config.NotificationWebhook config) with
  | None => mret tt
  | Some _ =>
    ignore (on_site (http (Request "POST" (Config.NotificationWebhook config) ""
                             [("Content-Type", "application/json")] (Some (json_of_map payload)))))
  end.

(** The outcome: the status, with the evidence of a failure. *)
Definition record_failure (id : Z) (action : string) (err : error) : AM H unit :=
  print ("deployment error: " +:+ error_message err) ;;
  let '(stage, code, detail) := FailureDetails (Some err) in
  let rollback := (action =? "rollback")%string || (action =? "auto_rollback")%string in
  let stage := if rollback then "rollback" else stage in
  let code := if rollback && ((code =? "")%string || (code =? "runtime_error")%string)
              then "rollback_failed" else code in
  ignore (on_db (SetDeploymentFailure id stage code detail)).

Definition outcome (id : Z) (action : string) (err : option error) : AM H string :=
  cancelled ← attempt (on_db (DeploymentCancellationRequested id));
  (match cancelled with
   | Err err => if bool_decide (err = ErrNotFound) then mret tt
                else print ("could not read deployment cancellation state: " +:+ error_message err)
   | Ok _ => mret tt
   end) ;;
  match cancelled, err with
  | Ok true, _ => print "deployment cancelled by operator" ;; mret "cancelled"
  | _, Some err => record_failure id action err ;; mret "failed"
  | _, None => mret "successful"
  end.

Definition milliseconds (d : Duration) : Z := Z.quot d Millisecond.

Definition record_durations (id : Z) : AM H unit :=
  t ← peek (fun a => default StageTracker0 (site_tracker (hub_site a)));
  ignore (on_db (SetDeploymentStageDurations id
    (milliseconds (QueueDuration t)) (milliseconds (SourceDuration t)) (milliseconds (BuildDuration t))
    (milliseconds (StartDuration t)) (milliseconds (HealthDuration t)) (milliseconds (RouteDuration t)))).

(** After the executor: the heartbeat stops, the outcome is recorded and announced, and a
    failed deploy may queue its rollback. *)
Definition finish_job (d : Deployment) (action : string) (application : StoreTypes.Application)
    (during : list activity) (err : option error) : AM H unit :=
  lost ← on_db (meanwhile (d_ID d) true during);
  let err := match err, lost with
             | None, Some lost => Some (ErrWrap "deployment lease lost" lost)
             | _, _ => err
             end in
  status ← outcome (d_ID d) action err;
  record_durations (d_ID d) ;;
  ignore (on_db (FinishDeployment (d_ID d) status)) ;;
  notifyDeployment application (d_ID d) action status err ;;
  (if (status =? "failed")%string && (action =? "deploy")%string && a_AutoRollback application
      && shouldTriggerAutoRollback err then
     queued ← attempt (queueDeployment (a_ID application) "auto_rollback");
     print (match queued with
            | Err err => "automatic rollback could not be queued: " +:+ error_message err
            | Ok _ => "automatic rollback queued after failed runtime health/routing"
            end)
   else mret tt) ;;
  match err with None => mret tt | Some err => fail err end.

Definition abandon {A} (id : Z) (err : error) : AM H A :=
  ignore (on_db (FinishDeployment id "failed")) ;; fail err.

Definition runNextDeployment (during : list activity) : AM H unit :=
  d ← on_db NextQueuedDeployment;
  application ← catch (on_db (Application (d_ApplicationID d))) (abandon (d_ID d));
  catch (on_site (host_step (host_open_append (d_LogPath d)))) (abandon (d_ID d)) ;;
  configured ← attempt (deploymentConfiguration (a_ID application) "production");
  '(action, configured) ←
    match configured with
    | Ok configuration =>
      if (d_Action d =? "retry")%string then
        configuration ← reuse_failed (a_ID application) configuration; mret ("deploy", Ok configuration)
      else mret (d_Action d, Ok configuration)
    | Err err => mret (d_Action d, Err err)
    end;
  open_job d ;;
  err ← match configured with
        | Err err => mret (Some err)
        | Ok configuration => run_action action d application configuration
        end;
  finish_job d action application during err.

(** ** Starting the queue *)

Definition is_docker (application : StoreTypes.Application) : EM H bool :=
  adapter ← attempt (adapter adapterOverride proxyOverride e application);
  mret (match adapter with Ok a => (ra_Name a =? "docker")%string | Err _ => false end).

(** [StartQueue] up to the workers; the answer is how many it starts. *)
Definition StartQueue : AM H Z :=
  applications ← catch (on_db Applications)
                   (fun err => fail (ErrWrap "list applications for reconciliation" err));
  '(restored, err) ← on_site (Reconcile (proxy proxyOverride) is_docker e applications);
  (match err with
   | Some _ => ignore (on_db (UpsertAlert "critical"
                  "MD-P0-03: reconciliation could not restore a Docker switch" None None))
   | None => mret tt
   end) ;;
  on_db (for_each restored (fun id => ignore (UpsertAlert "warning"
    "MD-P0-03: previous release restored after interrupted switch" (Some id) None))) ;;
  catch (_ ← on_db RecoverInterruptedDeployments; mret tt)
    (fun err => fail (ErrWrap "recover interrupted deployments" err)) ;;
  mret (if Config.MaxConcurrentDeployments config <? 1 then 1 else Config.MaxConcurrentDeployments config).
End cicd.
