(* ===== verification/Handlers.v ===== *)
(** * Handlers of applications (internal/app/server.go, internal/app/operations.go)

    Registration with its defaults and validation, secrets and configuration, deployments,
    rollbacks, retries, cancellation, automation, container actions, and the operations
    page's actions.  Path values are arguments; [url.QueryEscape] builds the redirects. *)

From S2P Require Import Prelude GoStrings GoTime Json Net Base64 Security BackupFormat Host Templates.
From S2P Require Import StoreTypes Executor Proxy BlueGreen Release Config Views Hub Preflight Operations Session.
From S2P Require Import StoreSettings StoreApplications StoreDeployments CICD.

(** ** Validation *)

(** A label of a domain name: at most 63 letters, digits and inner hyphens. *)
Definition alphanumeric (c : ascii) : bool := is_lower c || is_upper c || is_digit c.
Definition domain_label (s : string) : bool :=
  (1 <=? String.length s)%nat && (String.length s <=? 63)%nat
  && all_string (fun c => alphanumeric c || Ascii.eqb c "-") s
  && negb (has_prefix s "-") && negb (has_suffix s "-").

(** [domainRegex]: labels joined by dots, and an optional port. *)
Definition domainRegex (domain : string) : bool :=
  let labels host := forallb domain_label (split_on "." host) in
  match cut_first ":" domain with
  | Some (host, port) => labels host && negb (port =? "")%string && all_digits port
  | None => labels domain
  end.

Definition appNameRegex : string -> bool := safeName.

Definition runtimeChoice (value : string) : string :=
  let value := trim_space value in if (value =? "")%string then "auto" else value.

Definition parsePositiveInt (value : string) : Z :=
  let id := parse_int_value (trim_space value) in if id <? 0 then 0 else id.

(** The loop over the characters of a repository name: runs of other characters become one
    hyphen, and 63 characters end it. *)
Fixpoint slug (name result : string) (previousDash : bool) : string :=
  match name with
  | "" => result
  | String c name =>
    let valid := is_lower c || is_digit c in
    let '(result, previousDash) :=
      if valid then (result +:+ String c "", false)
      else if negb (result =? "")%string && negb previousDash then (result +:+ "-", true)
      else (result, previousDash) in
    if (63 <=? String.length result)%nat then result else slug name result previousDash
  end.

Definition is_dash (c : ascii) : bool := Ascii.eqb c "-".

Definition applicationNameFromRepository (repository : string) : string :=
  let repository := trim_suffix (trim_space repository) "/" in
  let repository := match ParsePath repository with
                    | Some path => if (path =? "")%string then repository else path
                    | None => repository
                    end in
  let name := to_lower (trim_suffix (Base repository) ".git") in
  trim is_dash (slug name "" false).

Definition is_local (repository : string) : bool :=
  IsAbs repository || has_prefix repository "file://".

Definition applyApplicationDefaults (a : StoreTypes.Application) : StoreTypes.Application :=
  let a := if (a_Name a =? "")%string
           then a <| a_Name := applicationNameFromRepository (a_Repository a) |> else a in
  let a := if (a_WorkDir a =? "")%string then a <| a_WorkDir := "." |> else a in
  let a := if (a_Type a =? "")%string then a <| a_Type := "static" |> else a in
  let a := if (a_Runtime a =? "")%string then a <| a_Runtime := "auto" |> else a in
  let a := if (a_Branch a =? "")%string && negb (is_local (a_Repository a))
           then a <| a_Branch := "main" |> else a in
  let a := if (a_Domain a =? "")%string && negb (a_Name a =? "")%string
           then a <| a_Domain := a_Name a +:+ ".localhost" |> else a in
  match Templates.For (a_Type a) with
  | Some template =>
    let a := if a_InternalPort a =? 0 then a <| a_InternalPort := t_Port template |> else a in
    if (a_HealthEndpoint a =? "")%string
    then a <| a_HealthEndpoint := t_HealthEndpoint template |> else a
  | None => a
  end.

(** The form of a new application, before the defaults; [port] is what [strconv.Atoi] gives. *)
Definition form_application (r : HTTPRequest) (port : Z) : StoreTypes.Application :=
  let field key := trim_space (FormValue r key) in
  let health := field "health_endpoint" in
  let health := if negb (health =? "")%string && negb (has_prefix health "/")
                then "/" +:+ health else health in
  MkApplication 0 (field "name") (field "repository") (field "branch") (field "work_dir")
    (field "type") (field "build_command") (field "run_command") port (field "domain")
    (runtimeChoice (FormValue r "runtime")) false true false
    (parsePositiveInt (FormValue r "github_installation_id")) health 0.

(** The port and the commands a type implies. *)
Definition apply_template (a : StoreTypes.Application) (port : Z) : StoreTypes.Application :=
  match Templates.For (a_Type a) with
  | Some template =>
    let a := if port =? 0 then a <| a_InternalPort := t_Port template |> else a in
    let plantilla := "plantilla " +:+ a_Type a in
    let a := if (a_BuildCommand a =? "")%string then a <| a_BuildCommand := plantilla |> else a in
    if (a_RunCommand a =? "")%string then a <| a_RunCommand := plantilla |> else a
  | None =>
    if (a_Type a =? "custom")%string
    then a <| a_BuildCommand := "Dockerfile del repositorio" |>
           <| a_RunCommand := "Dockerfile del repositorio" |>
    else a
  end.

Definition secretEnvironment (value : string) : string :=
  if (value =? "staging")%string then "staging" else "production".
Definition secretTarget (value : string) : string :=
  if (value =? "build")%string then "build" else "runtime".

Definition secret_char (first : bool) (c : ascii) : bool :=
  Ascii.eqb c "_" || is_upper c || (negb first && is_digit c).
Definition validSecretName (name : string) : bool :=
  match name with
  | "" => false
  | String c rest =>
    (String.length name <=? 128)%nat && secret_char true c && all_string (secret_char false) rest
  end.

Definition hostReadinessView (readiness : HostPreflightResult) : HostReadinessData :=
  MkHostReadiness (hp_AllOK readiness) (hp_Docker readiness) (hp_Caddy readiness)
    (hp_Network readiness) (hp_DiskSpace readiness).

Section handlers.
Context {H : Type} `{!Host H} `{!Crypto}.
Context (adapterOverride : gmap string (RuntimeAdapter H)) (proxyOverride : option (ProxyAdapter H)).
Context (serialize : database -> result string)
  (s3_put_object : S3Config -> s3_put -> H -> result unit * H).
Context (config : Config) (e : Executor).

Definition application_url (id : string) : string := "/applications/" +:+ id.
Definition with_message (url key message : string) : Reply :=
  SeeOther (url +:+ "?" +:+ key +:+ "=" +:+ QueryEscape message).

(** ** Registration *)

Definition validRepositorySource (a : StoreTypes.Application) : EM H bool :=
  if 0 <? a_GitHubInstallationID a then
    mret (has_prefix (a_Repository a) "https://github.com/"
          && negb (Config.GitHubAppID config =? "")%string
          && negb (Config.GitHubAppPrivateKeyPath config =? "")%string)
  else if is_local (a_Repository a)
  then ValidLocalRepository (Config.LocalRepositoriesPath config) (a_Repository a)
  else mret true.

Definition requiresGitReference (a : StoreTypes.Application) : EM H bool :=
  if is_local (a_Repository a)
  then LocalRepositoryIsGit (Config.LocalRepositoriesPath config) (a_Repository a)
  else mret true.

(** The form, with the state of the host. *)
Definition renderApplicationForm (r : HTTPRequest) (application : StoreTypes.Application)
    (message : string) (status : Z) : AM H Reply :=
  readiness ← on_site (RunHostPreflightCheck config);
  token ← csrfToken r;
  mret (Render status (ApplicationFormView
    (MkApplicationForm application token message (hostReadinessView readiness)))).

(** The conditions on a new application, in the order of the code. *)
Definition valid_fields (a : StoreTypes.Application) : bool :=
  negb (a_WorkDir a =? "")%string && Templates.IsSupported (a_Type a) && domainRegex (a_Domain a)
  && ((a_Runtime a =? "auto")%string || SupportsRuntime adapterOverride proxyOverride (a_Runtime a))
  && (1 <=? a_InternalPort a) && (a_InternalPort a <=? 65535).
Definition valid_application (port : option Z) (a : StoreTypes.Application) : EM H bool :=
  if bool_decide (port = None) || negb (appNameRegex (a_Name a)) || (a_Repository a =? "")%string
  then mret false else
  git ← requiresGitReference a;
  if git && (a_Branch a =? "")%string then mret false
  else if negb (valid_fields a) then mret false
  else validRepositorySource a.

Definition createApplication (r : HTTPRequest) : AM H Reply :=
  requireAuthorization r (
  or_reply (lift (q_ParseForm r)) (HTTPError 400 "invalid form") (fun _ =>
  let value := trim_space (FormValue r "internal_port") in
  let parsed := if (value =? "")%string then Some 0 else parse_int value in
  let port := default 0 parsed in
  let application := apply_template (applyApplicationDefaults (form_application r port)) port in
  valid ← on_site (valid_application parsed application);
  if negb valid then
    renderApplicationForm r application "Completa todos los campos correctamente. El nombre de aplicación debe contener solo letras minúsculas, números y guiones, y el dominio debe ser válido (por ejemplo, app.local o localhost:8080)." 400
  else if (a_Domain application =? Config.AdminDomain config)%string then
    renderApplicationForm r application ("El dominio de la aplicación no puede ser igual al dominio administrativo ("
      +:+ Config.AdminDomain config +:+ ").") 400
  else
  registered ← attempt (on_db (CreateApplication application));
  match registered with
  | Err _ =>
    renderApplicationForm r application "No se pudo registrar la aplicación. El nombre y el dominio deben ser únicos." 400
  | Ok registered =>
    let detailURL := application_url (itoa (a_ID registered)) in
    if negb (FormValue r "intent" =? "deploy")%string
    then mret (with_message detailURL "notice" "Aplicación creada. Puedes revisar la configuración antes de desplegar.")
    else
    preflight ← on_site (RunPreflightCheck config registered);
    if negb (pc_AllOK preflight)
    then mret (with_message detailURL "error" ("La aplicación se guardó, pero el host aún no está listo para desplegar. "
                 +:+ preflightFailureSummary preflight))
    else
    queued ← attempt (queueDeployment config (a_ID registered) "deploy");
    mret (match queued with
          | Err err => with_message detailURL "error"
              ("La aplicación se creó, pero el primer despliegue no pudo ponerse en cola: " +:+ error_message err)
          | Ok _ => with_message detailURL "notice" "Aplicación creada. El primer despliegue ya está en cola."
          end)
  end)).

(** ** One application *)

Definition applicationData (id : string) : AM H (StoreTypes.Application * list Deployment) :=
  match parse_int id with
  | None => fail (ErrMsg ("strconv.ParseInt: parsing " +:+ quote id))
  | Some id =>
    application ← on_db (Application id);
    deployments ← on_db (Deployments id);
    mret (application, deployments)
  end.

(** [requireAuthorization], then the application of the path. *)
Definition with_application (r : HTTPRequest) (id : string)
    (handler : StoreTypes.Application -> AM H Reply) : AM H Reply :=
  requireAuthorization r (or_reply (applicationData id) NotFound (fun data => handler data.1)).

(** ** Secrets and configuration *)

Definition renderSecrets (r : HTTPRequest) (status : Z) (application : StoreTypes.Application)
    (environment target message : string) : AM H Reply :=
  let failed text := HTTPError (if status =? 200 then 503 else status) text in
  or_reply (on_db (ApplicationSecrets (a_ID application) environment target)) (failed "secrets unavailable") (fun secrets =>
  or_reply (on_db (SecretAudit (a_ID application))) (failed "secret audit unavailable") (fun audit =>
  or_reply (on_db (ApplicationConfiguration (a_ID application) environment target))
    (failed "configuration unavailable") (fun configuration =>
  token ← csrfToken r;
  mret (Render status (SecretsView
    (MkSecrets application environment target secrets configuration audit message token)))))).

Definition secretsPage (r : HTTPRequest) (id : string) : AM H Reply :=
  with_application r id (fun application =>
  renderSecrets r 200 application (secretEnvironment (Get (q_Query r) "environment"))
    (secretTarget (Get (q_Query r) "target")) "").

Definition secrets_url (id environment target : string) : Reply :=
  SeeOther (application_url id +:+ "/secrets?environment=" +:+ environment +:+ "&target=" +:+ target).

Definition saveSecret (random : result string) (r : HTTPRequest) (id : string) : AM H Reply :=
  with_application r id (fun application =>
  or_reply (lift (q_ParseForm r)) (HTTPError 400 "invalid form") (fun _ =>
  let environment := secretEnvironment (FormValue r "environment") in
  let target := secretTarget (FormValue r "target") in
  let name := trim_space (FormValue r "name") in
  let value := FormValue r "value" in
  if negb (validSecretName name) || (value =? "")%string
  then renderSecrets r 400 application environment target
         "Usa un nombre de variable válido en MAYÚSCULAS y proporciona un valor."
  else
  key ← keyCopy;
  if (key =? "")%string then mret (SeeOther "/unlock") else
  saved ← attempt ('(nonce, ciphertext) ← lift (Encrypt random key value);
                   on_db (PutApplicationSecret (a_ID application) environment target name nonce ciphertext));
  match saved with
  | Err _ => renderSecrets r 500 application environment target "No se pudo guardar el secreto."
  | Ok _ => mret (secrets_url id environment target)
  end)).

Definition deleteSecret (r : HTTPRequest) (id name : string) : AM H Reply :=
  with_application r id (fun application =>
  or_reply (lift (q_ParseForm r)) (HTTPError 400 "invalid form") (fun _ =>
  let environment := secretEnvironment (FormValue r "environment") in
  let target := secretTarget (FormValue r "target") in
  if negb (validSecretName name) then mret NotFound else
  or_reply (on_db (DeleteApplicationSecret (a_ID application) environment target name)) NotFound
    (fun _ => mret (secrets_url id environment target)))).

Definition saveConfiguration (r : HTTPRequest) (id : string) : AM H Reply :=
  with_application r id (fun application =>
  or_reply (lift (q_ParseForm r)) (HTTPError 400 "invalid form") (fun _ =>
  let environment := secretEnvironment (FormValue r "environment") in
  let target := secretTarget (FormValue r "target") in
  let name := trim_space (FormValue r "name") in
  let value := FormValue r "value" in
  if negb (validSecretName name)
  then renderSecrets r 400 application environment target "Usa un nombre de variable válido en MAYÚSCULAS."
  else
  saved ← attempt (on_db (PutApplicationConfiguration (a_ID application) environment target name value));
  match saved with
  | Err _ => renderSecrets r 500 application environment target "No se pudo guardar la configuración."
  | Ok _ => mret (secrets_url id environment target)
  end)).

Definition deleteConfiguration (r : HTTPRequest) (id name : string) : AM H Reply :=
  with_application r id (fun application =>
  or_reply (lift (q_ParseForm r)) (HTTPError 400 "invalid form") (fun _ =>
  let environment := secretEnvironment (FormValue r "environment") in
  let target := secretTarget (FormValue r "target") in
  if negb (validSecretName name) then mret NotFound else
  or_reply (on_db (DeleteApplicationConfiguration (a_ID application) environment target name)) NotFound
    (fun _ => mret (secrets_url id environment target)))).

(** ** Deployments *)

(** The answer to a job that could not be queued. *)
Definition not_queued (text : string) (err : error) : Reply :=
  if contains (error_message err) "UNIQUE"
  then HTTPError 409 "a deployment is already queued or running" else HTTPError 500 text.

Definition deployApplication (r : HTTPRequest) (id : string) : AM H Reply :=
  with_application r id (fun application =>
  if a_RequireConfirmation application
     && negb (FormValue r "confirm_production" =? a_Name application)%string
  then mret (HTTPError 400 "confirm production deployment by entering the application name") else
  preflight ← on_site (RunPreflightCheck config application);
  if negb (pc_AllOK preflight)
  then mret (with_message (application_url id) "error"
               ("Despliegue pausado: " +:+ preflightFailureSummary preflight))
  else
  queued ← attempt (queueDeployment config (a_ID application) "deploy");
  mret (match queued with
        | Err err => not_queued "could not queue deployment" err
        | Ok _ => SeeOther (application_url id)
        end)).

Definition rollbackApplication (r : HTTPRequest) (id : string) : AM H Reply :=
  with_application r id (fun application =>
  or_reply (queueDeployment config (a_ID application) "rollback") (HTTPError 409 "could not queue rollback")
    (fun _ => mret (SeeOther (application_url id)))).

Definition retryApplication (r : HTTPRequest) (id : string) : AM H Reply :=
  with_application r id (fun application =>
  queued ← attempt (queueDeployment config (a_ID application) "retry");
  mret (match queued with
        | Err err => not_queued "could not queue retry" err
        | Ok _ => SeeOther (application_url id)
        end)).

Definition cancelDeployment (r : HTTPRequest) (id deploymentID : string) : AM H Reply :=
  with_application r id (fun application =>
  match parse_int deploymentID with
  | None => mret NotFound
  | Some n =>
    if n <? 1 then mret NotFound else
    cancelled ← attempt (on_db (CancelDeployment (a_ID application) n));
    mret (match cancelled with
          | Ok _ => SeeOther (application_url id)
          | Err err => if bool_decide (err = ErrNotFound) then HTTPError 409 "deployment is no longer active"
                       else HTTPError 503 "could not cancel deployment"
          end)
  end).

Definition is_on (value : string) : bool := (value =? "on")%string.

Definition updateApplicationAutomation (r : HTTPRequest) (id : string) : AM H Reply :=
  with_application r id (fun application =>
  or_reply (lift (q_ParseForm r)) (HTTPError 400 "invalid form") (fun _ =>
  let deployOnPush := is_on (FormValue r "deploy_on_push") in
  let requireConfirmation := is_on (FormValue r "require_confirmation") in
  if deployOnPush && requireConfirmation
  then mret (HTTPError 400 "push deployments require production confirmation to be disabled") else
  or_reply (on_db (UpdateApplicationAutomation (a_ID application) deployOnPush requireConfirmation
                     (is_on (FormValue r "auto_rollback"))))
    (HTTPError 503 "could not save automation") (fun _ => mret (SeeOther (application_url id))))).

Definition controlApplication (r : HTTPRequest) (id action : string) : AM H Reply :=
  with_application r id (fun application =>
  or_reply (on_site (Control adapterOverride proxyOverride e application action))
    (HTTPError 502 "container action failed") (fun _ => mret (SeeOther (application_url id)))).

(** ** Operations *)

Definition retention (r : HTTPRequest) : AM H Reply :=
  requireAuthorization r (
  or_reply (runRetention adapterOverride proxyOverride config e) (HTTPError 503 "retention unavailable")
    (fun _ => mret (SeeOther "/operations"))).

Definition updateCleanupSchedule (r : HTTPRequest) : AM H Reply :=
  requireAuthorization r (
  or_reply (on_db (UpdateCleanupSchedule (FormValue r "cleanup_schedule")))
    (HTTPError 400 "invalid cleanup schedule") (fun _ => mret (SeeOther "/operations"))).

Definition manualBackup (random : result string) (r : HTTPRequest) : AM H Reply :=
  requireAuthorization r (
  or_reply (runBackup serialize s3_put_object config random)
    (HTTPError 503 "backup unavailable; unlock MiniDock and retry") (fun _ => mret (SeeOther "/operations"))).

Definition operationLogs (r : HTTPRequest) : AM H Reply :=
  requireAuthorization r (
  match parse_int (Get (q_Query r) "application") with
  | None => mret (HTTPError 400 "select an application")
  | Some appID =>
    if appID <? 1 then mret (HTTPError 400 "select an application") else
    match parse_int (Get (q_Query r) "deployment") with
    | None => mret (HTTPError 400 "select a deployment")
    | Some deploymentID =>
      if deploymentID <? 1 then mret (HTTPError 400 "select a deployment") else
      or_reply (on_db (DeploymentOf appID deploymentID)) NotFound (fun _ =>
      mret (SeeOther (application_url (itoa appID) +:+ "/deployments/" +:+ itoa deploymentID +:+ "/logs")))
    end
  end).

(** ** Health of the process *)

Definition health : Reply :=
  Page 200 ("{" +:+ quote "status" +:+ ":" +:+ quote "ok" +:+ "," +:+ quote "version" +:+ ":"
            +:+ quote Config.Version +:+ "}").

Definition ready : AM H Reply :=
  or_reply (on_db IsInitialized) (HTTPError 503 "database unavailable") (fun initialized =>
  if negb initialized then mret (HTTPError 503 "setup required") else
  locked ← is_locked;
  mret (if (locked : bool) then HTTPError 503 "unlock required" else health)).

(** [App.runtime]. *)
Definition runtime_ready : AM H Reply :=
  if (Config.Runtime config =? "apple")%string
  then mret (HTTPError 503 "Apple Container readiness is experimental and unsupported") else
  or_reply (on_site DockerReady)
    (HTTPError 503 "Docker socket or daemon is not usable; check the socket mount and its group permissions") (fun _ =>
  or_reply (on_site (checkProxyReady config))
    (HTTPError 503 "Caddy proxy is not reachable; check the caddy service and MINIDOCK_PROXY_URL") (fun _ =>
  mret (Page 200 ("{" +:+ quote "status" +:+ ":" +:+ quote "ready" +:+ "," +:+ quote "version" +:+ ":"
                  +:+ quote Config.Version +:+ "}")))).
End handlers.
