(* ===== verification/Cloudflare.v ===== *)
(** * The Cloudflare client (internal/app/cloudflare.go, internal/app/server.go)

    Host names and zones, the API requests and what their answers mean.  [CloudflareAPI] is
    the interface the handlers use; [CloudflareClient] implements it over HTTP. *)

From S2P Require Import Prelude GoStrings Json Net Base64 Host StoreTypes Executor.

(** ** Host names *)

Definition cloudflareHostname (domain : string) : string :=
  let domain := trim_suffix (to_lower (trim_space domain)) "." in
  match SplitHostPort domain with
  | Some (host, _) => trim_suffix host "."
  | None => domain
  end.

Definition isPublicCloudflareDomain (domain : string) : bool :=
  let host := cloudflareHostname domain in
  negb (host =? "")%string && negb (host =? "localhost")%string && negb (has_suffix host ".local")
  && contains host "." && negb (is_ip host).

Definition publicApplicationDomains (apps : list StoreTypes.Application) : list string :=
  List.filter isPublicCloudflareDomain (map (fun a => cloudflareHostname (a_Domain a)) apps).

Record CloudflareZone := MkZone { z_ID : string; z_Name : string; z_Status : string }.
Definition CloudflareZone0 : CloudflareZone := MkZone "" "" "".

(** The zone a domain belongs to: [domain = name] or [domain] ends in [.name]. *)
Definition in_zone (domain name : string) : bool :=
  (domain =? name)%string || has_suffix domain ("." +:+ name).

Definition better_zone (domain : string) (selected zone : CloudflareZone) : CloudflareZone :=
  let name := cloudflareHostname (z_Name zone) in
  if negb (in_zone domain name) then selected
  else if (String.length (z_Name selected) <? String.length name)%nat then zone else selected.

Definition cloudflareZoneForDomain (zones : list CloudflareZone) (domain : string)
    : CloudflareZone * bool :=
  let selected := foldl (better_zone (cloudflareHostname domain)) CloudflareZone0 zones in
  (selected, negb (z_ID selected =? "")%string).

(** ** Tunnel tokens *)

Definition uuid_char (c : ascii) : bool := is_hex c || Ascii.eqb c "-".

Definition tunnelIDFromToken (token : string) : string :=
  let token := trim_space token in
  let token := fst (break_at (fun c => Ascii.eqb c ".") token) in
  match RawURLDecoding token with
  | None => ""
  | Some payload =>
    match (j ← parse payload; kvs ← members j; decode_field "t" decode_text "" kvs) with
    | Some id => if (String.length id =? 36)%nat && all_string uuid_char id then to_lower id else ""
    | None => ""
    end
  end.

(** ** The interface *)

Record CloudflareAPI (H : Type) := MkCloudflareAPI {
  VerifyToken : string -> EM H unit;
  ListZones : string -> EM H (list CloudflareZone);
  CreateOrGetTunnel : string -> string -> string -> EM H (string * string);
  ConfigureTunnelIngress : string -> string -> string -> list string -> EM H unit;
  TunnelStatus : string -> string -> string -> EM H string;
  UpsertCNAMERecord : string -> string -> string -> string -> EM H unit }.
Arguments VerifyToken {H} _ _.
Arguments ListZones {H} _ _.
Arguments CreateOrGetTunnel {H} _ _ _ _.
Arguments ConfigureTunnelIngress {H} _ _ _ _ _.
Arguments TunnelStatus {H} _ _ _ _.
Arguments UpsertCNAMERecord {H} _ _ _ _ _.

(** ** Answers *)

Definition decode_member (name : string) : decoder string := fun s j =>
  kvs ← members j; decode_field name decode_text s kvs.
Definition decode_errors : decoder (list string) := decode_list "" (decode_member "message").
(** The errors of a tunnel also carry a number. *)
Definition decode_coded_errors : decoder (list string) := decode_list "" (fun m j =>
  kvs ← members j; _ ← decode_field "code" decode_int 0 kvs; decode_field "message" decode_text m kvs).
Definition decode_zone : decoder CloudflareZone := fun z j =>
  kvs ← members j;
  id ← decode_field "id" decode_text (z_ID z) kvs;
  name ← decode_field "name" decode_text (z_Name z) kvs;
  status ← decode_field "status" decode_text (z_Status z) kvs;
  Some (MkZone id name status).
Definition decode_tunnel : decoder (string * string) := fun t j =>
  kvs ← members j;
  id ← decode_field "id" decode_text t.1 kvs;
  source ← decode_field "config_src" decode_text t.2 kvs;
  Some (id, source).
(** [CloudflareTunnel]: its five fields are text; the status is used. *)
Definition decode_tunnel_status : decoder string := fun s j =>
  kvs ← members j;
  _ ← decode_field "id" decode_text "" kvs;
  _ ← decode_field "name" decode_text "" kvs;
  _ ← decode_field "config_src" decode_text "" kvs;
  _ ← decode_field "created_at" decode_text "" kvs;
  decode_field "status" decode_text s kvs.

(** [success] and [result]; with the messages of [errors]. *)
Definition decode_answer {R} (zero : R) (dec : decoder R) (j : json) : option (bool * R) :=
  kvs ← members j;
  success ← decode_field "success" decode_bool false kvs;
  result ← decode_field "result" dec zero kvs;
  Some (success, result).
Definition decode_outcome {R} (zero : R) (dec : decoder R) (errors : decoder (list string)) (j : json)
    : option (bool * R * list string) :=
  kvs ← members j;
  success ← decode_field "success" decode_bool false kvs;
  result ← decode_field "result" dec zero kvs;
  messages ← decode_field "errors" errors [] kvs;
  Some (success, result, messages).
Definition decode_nothing : decoder unit := fun _ _ => Some tt.

Section client.
Context {H : Type} `{!Host H}.
(** [baseURL]. *)
Context (base : string).

Definition bearer (token : string) : string * string := ("Authorization", "Bearer " +:+ token).
Definition json_content : string * string := ("Content-Type", "application/json").

(** [http.NewRequestWithContext] and [httpClient.Do]. *)
Definition send (method url : string) (header : list (string * string)) (body : option json)
    : EM H response :=
  match parse_url url with
  | None => fail (ErrMsg ("parse " +:+ quote url))
  | Some _ => http (Request method url "" header body)
  end.

(** [json.NewDecoder(resp.Body).Decode]. *)
Definition decoded {A} (dec : json -> option A) (r : response) : EM H A :=
  body ← lift (rs_body r);
  match parse_first body ≫= dec with
  | Some a => mret a
  | None => fail (ErrMsg "invalid JSON")
  end.

(** The first message of the API, or the text of the code. *)
Definition rejected {A} (prefix : string) (messages : list string) (text : string) : EM H A :=
  match messages with
  | message :: _ => fail (ErrMsg (prefix +:+ message))
  | [] => fail (ErrMsg text)
  end.

Definition client_VerifyToken (apiToken : string) : EM H unit :=
  if (trim_space apiToken =? "")%string then fail (ErrMsg "API token vacio") else
  match parse_url (base +:+ "/user/tokens/verify") with
  | None => fail (ErrMsg ("parse " +:+ quote (base +:+ "/user/tokens/verify")))
  | Some _ =>
    resp ← catch (http (Request "GET" (base +:+ "/user/tokens/verify") "" [bearer apiToken; json_content] None))
             (fun err => fail (ErrWrap "error de conexion con Cloudflare" err));
    if negb (rs_status resp =? 200)
    then fail (ErrMsg ("token invalido de Cloudflare (HTTP " +:+ itoa (rs_status resp) +:+ ")")) else
    '(success, status) ← catch (decoded (decode_answer "" (decode_member "status")) resp)
                           (fun err => fail (ErrWrap "respuesta invalida de Cloudflare" err));
    if negb success || negb (status =? "active")%string
    then fail (ErrMsg "el token de Cloudflare no esta activo") else mret tt
  end.

Definition client_ListZones (apiToken : string) : EM H (list CloudflareZone) :=
  resp ← send "GET" (base +:+ "/zones?status=active&per_page=50") [bearer apiToken; json_content] None;
  '(success, zones, messages) ← decoded (decode_outcome [] (decode_list CloudflareZone0 decode_zone) decode_errors) resp;
  if negb success then rejected "cloudflare API: " messages "error al listar zonas de Cloudflare"
  else mret zones.

Definition tunnels_url (accountID : string) : string :=
  base +:+ "/accounts/" +:+ accountID +:+ "/cfd_tunnel".
Definition tunnel_url (accountID tunnelID : string) : string :=
  tunnels_url accountID +:+ "/" +:+ tunnelID.

Definition TunnelToken (apiToken accountID tunnelID : string) : EM H string :=
  resp ← send "GET" (tunnel_url accountID tunnelID +:+ "/token") [bearer apiToken] None;
  '(success, token, messages) ← decoded (decode_outcome "" decode_text decode_errors) resp;
  if negb success || (trim_space token =? "")%string
  then rejected "Cloudflare Tunnel: " messages "Cloudflare no entregó el token del túnel"
  else mret token.

(** The tunnel of that name, when its creation was refused. *)
Definition existing_tunnel (apiToken accountID tunnelName : string) (messages : list string)
    : EM H (string * string) :=
  resp ← send "GET" (tunnels_url accountID +:+ "?name=" +:+ QueryEscape tunnelName +:+ "&is_deleted=false")
           [bearer apiToken; json_content] None;
  listed ← attempt (decoded (decode_answer [] (decode_list ("", "") decode_tunnel)) resp);
  match listed with
  | Ok (_, (id, source) :: _) =>
    if negb (source =? "cloudflare")%string
    then fail (ErrMsg ("ya existe un túnel llamado " +:+ tunnelName
                 +:+ " con configuración local; cambia su nombre o elimínalo desde Cloudflare"))
    else token ← TunnelToken apiToken accountID id; mret (id, token)
  | _ => rejected "Cloudflare Tunnel: " messages "error al crear el tunel Cloudflare"
  end.

Definition client_CreateOrGetTunnel (apiToken accountID tunnelName : string) : EM H (string * string) :=
  if (accountID =? "")%string then fail (ErrMsg "account_id es requerido para crear un tunel") else
  resp ← send "POST" (tunnels_url accountID) [bearer apiToken; json_content]
           (Some (JObj [("config_src", JStr "cloudflare"); ("name", JStr tunnelName)]));
  let body := match rs_body resp with Ok body => body | Err _ => "" end in
  match parse body ≫= decode_outcome "" (decode_member "id") decode_coded_errors with
  | None => fail (ErrMsg "invalid JSON")
  | Some (success, id, messages) =>
    if (success : bool) then token ← TunnelToken apiToken accountID id; mret (id, token)
    else existing_tunnel apiToken accountID tunnelName messages
  end.

(** The hosts of the rules: the public ones, each once, in order. *)
Fixpoint ingress_hosts (seen : list string) (hostnames : list string) : list string :=
  match hostnames with
  | [] => []
  | hostname :: hostnames =>
    let hostname := cloudflareHostname hostname in
    if negb (isPublicCloudflareDomain hostname) || bool_decide (hostname ∈ seen)
    then ingress_hosts seen hostnames
    else hostname :: ingress_hosts (hostname :: seen) hostnames
  end.
Definition ingress_rules (hostnames : list string) : json :=
  JArr (map (fun h => JObj [("hostname", JStr h); ("service", JStr "http://caddy:80")])
          (ingress_hosts [] hostnames)
        ++ [JObj [("service", JStr "http_status:404")]]).

Definition client_ConfigureTunnelIngress (apiToken accountID tunnelID : string) (hostnames : list string)
    : EM H unit :=
  resp ← send "PUT" (tunnel_url accountID tunnelID +:+ "/configurations") [bearer apiToken; json_content]
           (Some (JObj [("config", JObj [("ingress", ingress_rules hostnames)])]));
  '(success, _, messages) ← decoded (decode_outcome tt decode_nothing decode_errors) resp;
  if negb success
  then rejected "configuración del túnel: " messages "Cloudflare rechazó la configuración del túnel"
  else mret tt.

Definition client_TunnelStatus (apiToken accountID tunnelID : string) : EM H string :=
  resp ← send "GET" (tunnel_url accountID tunnelID) [bearer apiToken] None;
  '(success, status) ← decoded (decode_answer "" decode_tunnel_status) resp;
  if negb success then fail (ErrMsg "Cloudflare no pudo consultar el estado del túnel") else mret status.

Definition cname_record (hostname target : string) : json :=
  JObj [("content", JStr target); ("name", JStr hostname); ("proxied", JBool true); ("ttl", JNum 1);
        ("type", JStr "CNAME")].

(** The first record of the name is replaced; without one it is created. *)
Definition client_UpsertCNAMERecord (apiToken zoneID hostname targetCNAME : string) : EM H unit :=
  let url := base +:+ "/zones/" +:+ zoneID +:+ "/dns_records" in
  listed ← send "GET" (url +:+ "?name=" +:+ QueryEscape hostname +:+ "&type=CNAME") [bearer apiToken] None;
  '(_, records) ← decoded (decode_answer [] (decode_list "" (decode_member "id"))) listed;
  let '(method, url) := match records with
                        | id :: _ => ("PUT", url +:+ "/" +:+ id)
                        | [] => ("POST", url)
                        end in
  resp ← send method url [bearer apiToken; json_content] (Some (cname_record hostname targetCNAME));
  '(success, _, messages) ← decoded (decode_outcome tt decode_nothing decode_errors) resp;
  if negb success
  then rejected "Cloudflare DNS: " messages "error al guardar registro CNAME en Cloudflare"
  else mret tt.

Definition CloudflareClient : CloudflareAPI H := {|
  VerifyToken := client_VerifyToken;
  ListZones := client_ListZones;
  CreateOrGetTunnel := client_CreateOrGetTunnel;
  ConfigureTunnelIngress := client_ConfigureTunnelIngress;
  TunnelStatus := client_TunnelStatus;
  UpsertCNAMERecord := client_UpsertCNAMERecord |}.

(** ** Records of the applications *)

Section sync.
Context (client : CloudflareAPI H).

Fixpoint sync_domains (apiToken target : string) (zones : list CloudflareZone) (domains : list string)
    : EM H unit :=
  match domains with
  | [] => mret tt
  | domain :: domains =>
    let '(zone, ok) := cloudflareZoneForDomain zones domain in
    if negb ok then fail (ErrMsg ("el token no tiene acceso a la zona DNS de " +:+ domain)) else
    UpsertCNAMERecord client apiToken (z_ID zone) (cloudflareHostname domain) target ;;
    sync_domains apiToken target zones domains
  end.

Definition syncCloudflareDNSRecords (apiToken tunnelID : string) (domains : list string) : EM H unit :=
  match domains with
  | [] => mret tt
  | _ =>
    zones ← ListZones client apiToken;
    sync_domains apiToken (tunnelID +:+ ".cfargotunnel.com") zones domains
  end.
End sync.

(** The answer: whether the record points to a tunnel, and where it points. *)
Definition VerifyDNSPropagation (domain expectedTarget : string) : EM H (bool * string) :=
  cname ← host_step (host_lookup_cname domain);
  let cname := trim_suffix cname "." in
  let expectedTarget := trim_suffix expectedTarget "." in
  mret (equal_fold cname expectedTarget || has_suffix cname ".cfargotunnel.com", cname).
End client.
Arguments CloudflareClient {H _} base.

Definition NewCloudflareClient {H} `{!Host H} : CloudflareAPI H :=
  CloudflareClient "https://api.cloudflare.com/client/v4".
