(* ===== verification/Connector.v ===== *)
(** * The cloudflared connector (internal/app/cloudflare_connector.go)

    One container, recognised by its labels, carries the tunnel.  [CloudflaredConnector] is
    the interface the handlers use; [DockerCloudflaredConnector] drives the Docker command. *)

From S2P Require Import Prelude GoStrings Base64 Security Host StoreTypes.

Definition cloudflaredContainerName : string := "minidock-cloudflared".
Definition cloudflaredManagedLabel : string := "io.minidock.managed".
Definition cloudflaredComponentLabel : string := "io.minidock.component".
Definition cloudflaredTokenHashLabel : string := "io.minidock.token-sha256".

Record CloudflaredStatus := MkCloudflaredStatus { cd_State : string; cd_Detail : string }.
Definition Running (s : CloudflaredStatus) : bool := (cd_State s =? "running")%string.
Definition Display (s : CloudflaredStatus) : string :=
  if (cd_State s =? "running")%string then "En ejecución"
  else if (cd_State s =? "missing")%string then "Pendiente de iniciar"
  else if (cd_State s =? "")%string then "Estado desconocido"
  else "Detenido (" +:+ cd_State s +:+ ")".

Record CloudflaredConnector (H : Type) := MkConnector {
  cn_Status : EM H CloudflaredStatus;
  cn_Reconcile : string -> EM H unit;
  cn_Remove : EM H unit }.
Arguments cn_Status {H} _.
Arguments cn_Reconcile {H} _ _.
Arguments cn_Remove {H} _.

Definition safeDockerError (output err : string) (secrets : list string) : string :=
  let detail := trim_space output in
  if (detail =? "")%string then err else
  let detail := fold_left (fun detail secret =>
    if (secret =? "")%string then detail else replace_all detail secret "[REDACTADO]") secrets detail in
  take_string 400 detail.

(** What [docker container inspect] says of the connector. *)
Record inspection := Inspection {
  in_exists : bool; in_managed : bool; in_state : string; in_tokenHash : string; in_image : string }.
Definition absent : inspection := Inspection false false "" "" "".

(** The output [state|managed|component|hash|image]. *)
Definition parse_inspection (output : string) : result inspection :=
  match split_on "|" (trim_space output) with
  | [state; managed; component; hash; image] =>
    Ok (Inspection true ((managed =? "true")%string && (component =? "cloudflared")%string) state hash image)
  | _ => Err (ErrMsg "respuesta inesperada de Docker al inspeccionar el conector")
  end.

Section connector.
Context {H : Type} `{!Host H} `{!Crypto}.
(** [c.Image] and [c.Network]. *)
Context (Image Network : string).

(** [c.command]: the combined output, and the error of the command. *)
Definition command_of (environment : list (string * string)) (args : list string)
    : EM H (string * option string) :=
  finished ← attempt (host_step (host_exec (Command "docker" environment args)));
  mret (match finished with
        | Ok f => (fin_output f, fin_error f)
        | Err err => ("", Some (error_message err))
        end).

(** [if output, err := c.command(...); err != nil { return ... }]. *)
Definition must (environment : list (string * string)) (args : list string) (secrets : list string)
    (text : string) : EM H unit :=
  '(output, err) ← command_of environment args;
  match err with
  | None => mret tt
  | Some err => fail (ErrMsg (text +:+ ": " +:+ safeDockerError output err secrets))
  end.

Definition inspect_format : string := raw ("{{.State.Status}}|{{index .Config.Labels `" +:+ cloudflaredManagedLabel
  +:+ "`}}|{{index .Config.Labels `" +:+ cloudflaredComponentLabel
  +:+ "`}}|{{index .Config.Labels `" +:+ cloudflaredTokenHashLabel +:+ "`}}|{{.Config.Image}}").

Definition inspect : EM H inspection :=
  '(output, err) ← command_of [] ["container"; "inspect"; "--format"; inspect_format; cloudflaredContainerName];
  match err with
  | Some err =>
    let detail := to_lower (trim_space output +:+ " " +:+ err) in
    if contains detail "no such container" || contains detail "not found" then mret absent
    else fail (ErrMsg ("no se pudo inspeccionar el conector: " +:+ safeDockerError output err []))
  | None => lift (parse_inspection output)
  end.

Definition docker_info : list string := ["info"; "--format"; "{{.ServerVersion}}"].
Definition foreign : error :=
  ErrMsg ("el nombre " +:+ cloudflaredContainerName +:+ " está ocupado por un contenedor ajeno a MiniDock").

(** The daemon answers. *)
Definition daemon (text : string) : EM H unit :=
  '(_, err) ← command_of [] docker_info;
  match err with None => mret tt | Some _ => fail (ErrMsg text) end.

Definition connector_Status : EM H CloudflaredStatus :=
  daemon "Docker no está disponible para administrar el conector" ;;
  found ← inspect;
  if negb (in_exists found) then mret (MkCloudflaredStatus "missing" "")
  else if negb (in_managed found) then fail foreign
  else mret (MkCloudflaredStatus (in_state found) "").

Definition cloudflaredTokenHash (token : string) : string := hex_encode (sha256 token).

(** Only containers of MiniDock's own Compose project are removed. *)
Definition removeLegacyComposeConnector : EM H unit :=
  self ← attempt (host_step host_hostname);
  match self with
  | Err _ => mret tt
  | Ok self =>
    if (trim_space self =? "")%string then mret tt else
    '(output, err) ← command_of [] ["container"; "inspect"; "--format";
       raw "{{index .Config.Labels `com.docker.compose.project`}}"; self];
    let project := trim_space output in
    match err with
    | Some _ => mret tt
    | None =>
      if (project =? "")%string || existsb (fun c => contains project (String c "")) [" "; "009"; "013"; "010"]%char
      then mret tt else
      '(output, err) ← command_of [] ["container"; "ls"; "--all"; "--quiet";
         "--filter"; "label=com.docker.compose.project=" +:+ project;
         "--filter"; "label=com.docker.compose.service=cloudflared"];
      match err with
      | Some err => fail (ErrMsg ("no se pudo comprobar el conector anterior de Compose: "
                                  +:+ safeDockerError output err []))
      | None => for_each (fields output) (fun containerID =>
          must [] ["container"; "rm"; "--force"; containerID] [] "no se pudo migrar el conector anterior")
      end
    end
  end.

Definition remove_connector : list string := ["container"; "rm"; "--force"; cloudflaredContainerName].
Definition start_connector : list string := ["container"; "start"; cloudflaredContainerName].

Definition create_args (wantedHash : string) : list string :=
  ["container"; "create"; "--name"; cloudflaredContainerName;
   "--label"; cloudflaredManagedLabel +:+ "=true";
   "--label"; cloudflaredComponentLabel +:+ "=cloudflared";
   "--label"; cloudflaredTokenHashLabel +:+ "=" +:+ wantedHash;
   "--restart"; "unless-stopped"; "--network"; Network; "--memory"; "256m"; "--cpus"; "0.50";
   "--pids-limit"; "128"; "--log-opt"; "max-size=10m"; "--log-opt"; "max-file=3"; "--read-only";
   "--tmpfs"; "/tmp:rw,noexec,nosuid,size=64m"; "--cap-drop"; "ALL";
   "--security-opt"; "no-new-privileges:true"; "--env"; "TUNNEL_TOKEN"; Image;
   "tunnel"; "--no-autoupdate"; "run"].

Definition pull_image : EM H unit :=
  '(_, err) ← command_of [] ["image"; "inspect"; Image];
  match err with
  | None => mret tt
  | Some _ => must [] ["pull"; Image] [] "no se pudo descargar la imagen oficial de cloudflared"
  end.

Definition create_connector (token : string) : EM H unit :=
  must [("TUNNEL_TOKEN", token)] (create_args (cloudflaredTokenHash token)) [token]
    "no se pudo crear el conector" ;;
  '(output, err) ← command_of [] start_connector;
  match err with
  | None => mret tt
  | Some err =>
    _ ← command_of [] remove_connector;
    fail (ErrMsg ("no se pudo iniciar el conector: " +:+ safeDockerError output err []))
  end.

(** A connector with this token and image is kept, and started when it is stopped; anything
    else of MiniDock's is replaced. *)
Definition connector_Reconcile (token : string) : EM H unit :=
  let token := trim_space token in
  if (token =? "")%string then fail (ErrMsg "Cloudflare no entregó un Tunnel Token") else
  daemon "Docker no está disponible para iniciar cloudflared" ;;
  removeLegacyComposeConnector ;;
  found ← inspect;
  if in_exists found && negb (in_managed found) then fail foreign
  else if in_exists found && (in_tokenHash found =? cloudflaredTokenHash token)%string
          && (in_image found =? Image)%string then
    if (in_state found =? "running")%string then mret tt
    else must [] start_connector [] "no se pudo reiniciar el conector"
  else
    pull_image ;;
    (if in_exists found then must [] remove_connector [] "no se pudo actualizar el conector" else mret tt) ;;
    create_connector token.

Definition connector_Remove : EM H unit :=
  found ← inspect;
  if negb (in_exists found) then mret tt
  else if negb (in_managed found) then fail (ErrMsg "MiniDock no eliminará un contenedor que no administra")
  else must [] remove_connector [] "no se pudo detener el conector".

Definition DockerCloudflaredConnector : CloudflaredConnector H :=
  MkConnector H connector_Status connector_Reconcile connector_Remove.
End connector.
Arguments DockerCloudflaredConnector {H _ _} Image Network.

Definition NewDockerCloudflaredConnector {H} `{!Host H} `{!Crypto} (image network : string)
    : CloudflaredConnector H :=
  DockerCloudflaredConnector
    (if (trim_space image =? "")%string then "cloudflare/cloudflared:2026.7.2" else image)
    (if (trim_space network =? "")%string then "minidock-edge" else network).
