(* ===== verification/CloudflareHandlers.v ===== *)
(** * Cloudflare handlers (internal/app/server.go)

    The credentials under the master key, the configuration of the tunnel, the dashboard, and
    the domain of an application with its route and its record.  The API and the connector
    are the interfaces of Cloudflare.v and Connector.v. *)

From S2P Require Import Prelude GoStrings GoTime Json Net Base64 Security Host Templates.
From S2P Require Import StoreTypes Executor Proxy BlueGreen Release Config Views Hub Preflight Operations Session.
From S2P Require Import BackupFormat Cloudflare Connector StoreSettings StoreApplications StoreAccess.
From S2P Require Import StoreDeployments CICD Handlers.

Definition cloudflareAccountIDRegex (s : string) : bool :=
  (String.length s =? 32)%nat && all_string is_hex s.

Definition cloudflare_scope : string := "system:cloudflare".
Definition existing_tunnel_name : string := "Túnel existente".
Definition lower_hex (c : ascii) : bool := is_digit c || ascii_in "a" "f" c.

Section cloudflare.
Context {H : Type} `{!Host H} `{!Crypto}.
Context (client : CloudflareAPI H) (cloudflared : CloudflaredConnector H).
Context (config : Config).

Definition notice (message : string) : Reply := with_message "/cloudflare" "notice" message.
Definition problem (message : string) : Reply := with_message "/cloudflare" "error" message.

(** ** Credentials *)

Definition getCloudflareSecret (name : string) : AM H string :=
  key ← keyCopy;
  if (key =? "")%string then fail (ErrMsg "sesión bloqueada") else
  '(nonce, ciphertext) ← on_db (Secret cloudflare_scope name);
  lift (Decrypt key nonce ciphertext).

Definition getCloudflareAPIToken : AM H string := getCloudflareSecret "api_token".

Definition putCloudflareSecret (random : result string) (key name value : string) : AM H unit :=
  '(nonce, ciphertext) ← lift (Encrypt random key value);
  on_db (PutSecret cloudflare_scope name nonce ciphertext).

Definition saveCloudflareFailure (cfg : CloudflareConfigT) (message : string) : AM H unit :=
  ignore (on_db (SaveCloudflareConfig (cfg <| cf_Status := "error" |> <| cf_ErrorMessage := message |>))).

Definition cloudflareTunnelName (random : result string) (cfg : CloudflareConfigT) : AM H string :=
  if negb (cf_TunnelID cfg =? "")%string && negb (cf_TunnelName cfg =? "")%string
     && negb (cf_TunnelName cfg =? existing_tunnel_name)%string
  then mret (cf_TunnelName cfg) else
  instanceID ← on_db (SettingString "cloudflare_instance_id");
  instanceID ← (if (String.length instanceID =? 12)%nat && all_string lower_hex instanceID then mret instanceID
                else randomID ← lift random;
                     let instanceID := hex_encode randomID in
                     on_db (SetSettingString "cloudflare_instance_id" instanceID) ;;
                     mret instanceID);
  mret ("minidock-" +:+ instanceID).

(** ** Configuration of the tunnel *)

(** The random bytes of one request: two nonces and the id of the instance. *)
Record cf_entropy := CfEntropy {
  ce_nonce : result string; ce_nonce2 : result string; ce_instance : result string }.

Definition disable_cloudflare (cfg : CloudflareConfigT) : AM H Reply :=
  removed ← attempt (on_site (cn_Remove cloudflared));
  match removed with
  | Err err =>
    saveCloudflareFailure cfg ("No se pudo detener cloudflared: " +:+ error_message err) ;;
    mret (problem ("No se pudo detener el conector: " +:+ error_message err))
  | Ok _ =>
    or_reply (on_db (SaveCloudflareConfig (cfg <| cf_Status := "disabled" |> <| cf_ErrorMessage := "" |>)))
      (problem "Error al guardar en base de datos") (fun _ =>
    mret (notice "Cloudflare Tunnel desactivado; las credenciales permanecen cifradas para poder reactivarlo"))
  end.

(** The configuration is stored, the connector is brought to the token, and the result is
    stored. *)
Definition connect_tunnel (cfg : CloudflareConfigT) (tunnelToken : string) : AM H Reply :=
  let cfg := cfg <| cf_Status := "configuring" |> <| cf_ErrorMessage := "" |> in
  or_reply (on_db (SaveCloudflareConfig cfg)) (problem "Error al guardar en base de datos") (fun _ =>
  reconciled ← attempt (on_site (cn_Reconcile cloudflared tunnelToken));
  match reconciled with
  | Err err =>
    saveCloudflareFailure cfg (error_message err) ;;
    mret (problem ("Cloudflare quedó configurado, pero el conector no pudo iniciarse: " +:+ error_message err))
  | Ok _ =>
    or_reply (on_db (SaveCloudflareConfig (cfg <| cf_Status := "connected" |> <| cf_ErrorMessage := "" |>)))
      (problem "Error al guardar en base de datos") (fun _ =>
    mret (notice "Cloudflare Tunnel configurado y cloudflared iniciado automáticamente"))
  end).

Definition configure_with_token (random : cf_entropy) (key : string) (cfg : CloudflareConfigT)
    (tunnelToken : string) : AM H Reply :=
  or_reply (if (tunnelToken =? "")%string then getCloudflareSecret "tunnel_token" else mret tunnelToken)
    (problem "Pega un Tunnel Token para conectar") (fun tunnelToken =>
  let cfg := cfg <| cf_TunnelID := tunnelIDFromToken tunnelToken |>
                 <| cf_TunnelName := existing_tunnel_name |> in
  or_reply (putCloudflareSecret (ce_nonce random) key "tunnel_token" tunnelToken)
    (problem "No se pudo cifrar el Tunnel Token") (fun _ =>
  connect_tunnel cfg tunnelToken)).

(** The routes and the records of every application; a failure is recorded. *)
Definition publish_all (cfg : CloudflareConfigT) (apiToken tunnelID : string)
    (domains : list string) (k : AM H Reply) : AM H Reply :=
  routed ← attempt (on_site (ConfigureTunnelIngress client apiToken (cf_AccountID cfg) tunnelID domains));
  match routed with
  | Err err =>
    saveCloudflareFailure cfg (error_message err) ;;
    mret (problem ("El túnel fue creado, pero no se pudo configurar su enrutamiento: " +:+ error_message err))
  | Ok _ =>
    synced ← attempt (on_site (syncCloudflareDNSRecords client apiToken tunnelID domains));
    match synced with
    | Err err =>
      saveCloudflareFailure cfg (error_message err) ;;
      mret (problem ("El túnel fue creado, pero no se pudo configurar todo el DNS: " +:+ error_message err))
    | Ok _ => k
    end
  end.

Definition configure_with_api (random : cf_entropy) (key : string) (cfg : CloudflareConfigT)
    (apiToken : string) : AM H Reply :=
  or_reply (if (apiToken =? "")%string then getCloudflareSecret "api_token" else mret apiToken)
    (problem "Pega un API Token para realizar la configuración automática") (fun apiToken =>
  if negb (cloudflareAccountIDRegex (cf_AccountID cfg))
  then mret (problem "El Account ID debe contener exactamente 32 caracteres hexadecimales") else
  verified ← attempt (on_site (VerifyToken client apiToken));
  match verified with
  | Err err => mret (problem ("Token API invalido: " +:+ error_message err))
  | Ok _ =>
    or_reply (cloudflareTunnelName (ce_instance random) cfg)
      (problem "No se pudo generar la identidad segura del túnel") (fun tunnelName =>
    created ← attempt (on_site (CreateOrGetTunnel client apiToken (cf_AccountID cfg) tunnelName));
    match created with
    | Err err => mret (problem ("Error al crear tunel: " +:+ error_message err))
    | Ok (tunnelID, tunnelToken) =>
      let cfg := cfg <| cf_TunnelID := tunnelID |> <| cf_TunnelName := tunnelName |> in
      or_reply (putCloudflareSecret (ce_nonce random) key "api_token" apiToken)
        (problem "No se pudo cifrar el API Token") (fun _ =>
      or_reply (putCloudflareSecret (ce_nonce2 random) key "tunnel_token" tunnelToken)
        (problem "No se pudo cifrar el Tunnel Token") (fun _ =>
      or_reply (on_db Applications)
        (problem "No se pudieron cargar las aplicaciones para configurar el túnel") (fun apps =>
      publish_all cfg apiToken tunnelID (publicApplicationDomains apps) (connect_tunnel cfg tunnelToken))))
    end)
  end).

(** A configuration that cannot be read is replaced by an empty one. *)
Definition CloudflareConfig0 : CloudflareConfigT := MkCloudflareConfig "" "" "" "" "" 0 "" 0.

Definition saveCloudflareConfig (random : cf_entropy) (r : HTTPRequest) : AM H Reply :=
  requireAuthorization r (
  or_reply (lift (q_ParseForm r)) (HTTPError 400 "invalid form") (fun _ =>
  let mode := trim_space (FormValue r "mode") in
  let tunnelToken := trim_space (FormValue r "tunnel_token") in
  let apiToken := trim_space (FormValue r "api_token") in
  let accountID := trim_space (FormValue r "account_id") in
  stored ← attempt (on_db CloudflareConfig);
  let cfg := match stored with Ok cfg => cfg | Err _ => CloudflareConfig0 end in
  let cfg := cfg <| cf_Mode := mode |> in
  let cfg := if negb (accountID =? "")%string then cfg <| cf_AccountID := accountID |> else cfg in
  key ← keyCopy;
  if (key =? "")%string then mret (problem "Desbloquea MiniDock para administrar credenciales")
  else if (mode =? "disabled")%string then disable_cloudflare cfg
  else if (mode =? "tunnel_token")%string then configure_with_token random key cfg tunnelToken
  else if (mode =? "api_token")%string then configure_with_api random key cfg apiToken
  else mret (problem "Modo de Cloudflare no válido"))).

Definition reconnectCloudflared (r : HTTPRequest) : AM H Reply :=
  requireAuthorization r (
  let unconfigured := problem "Configura Cloudflare antes de iniciar el conector" in
  or_reply (on_db CloudflareConfig) unconfigured (fun cfg =>
  if (cf_Mode cfg =? "disabled")%string then mret unconfigured else
  or_reply (getCloudflareSecret "tunnel_token") (problem "No se encontró un Tunnel Token cifrado") (fun token =>
  reconciled ← attempt (on_site (cn_Reconcile cloudflared token));
  match reconciled with
  | Err err =>
    saveCloudflareFailure cfg (error_message err) ;;
    mret (problem ("No se pudo iniciar el conector: " +:+ error_message err))
  | Ok _ =>
    ignore (on_db (SaveCloudflareConfig (cfg <| cf_Status := "connected" |> <| cf_ErrorMessage := "" |>))) ;;
    mret (notice "Conector cloudflared iniciado")
  end))).

(** ** Records of one application *)

(** Without an API token the record is only looked up. *)
Definition verify_dns (app : StoreTypes.Application) (expectedCNAME : string) : AM H Reply :=
  answer ← attempt (on_site (VerifyDNSPropagation (a_Domain app) expectedCNAME));
  mret (match answer with
        | Err err => problem ("No se pudo consultar el DNS de " +:+ a_Domain app +:+ ": " +:+ error_message err)
        | Ok (true, _) => notice ("DNS verificado con exito para " +:+ a_Domain app)
        | Ok (false, resolvedCNAME) =>
          problem ("El DNS de " +:+ a_Domain app +:+ " aún no apunta al túnel. CNAME actual: " +:+ resolvedCNAME)
        end).

Definition publish_record (cfg : CloudflareConfigT) (app : StoreTypes.Application) (apiToken : string)
    : AM H Reply :=
  or_reply (on_db Applications) (problem "No se pudieron cargar las rutas del túnel") (fun apps =>
  routed ← attempt (on_site (ConfigureTunnelIngress client apiToken (cf_AccountID cfg) (cf_TunnelID cfg)
                               (publicApplicationDomains apps)));
  match routed with
  | Err err => mret (problem ("No se pudo publicar la ruta en el túnel: " +:+ error_message err))
  | Ok _ =>
    synced ← attempt (on_site (syncCloudflareDNSRecords client apiToken (cf_TunnelID cfg) [a_Domain app]));
    mret (match synced with
          | Err err => problem ("No se pudo configurar el DNS: " +:+ error_message err)
          | Ok _ => notice ("Ruta y DNS configurados automáticamente para " +:+ a_Domain app)
          end)
  end).

Definition syncAppCloudflareDNS (r : HTTPRequest) (id : string) : AM H Reply :=
  requireAuthorization r (
  match parse_int id with
  | None => mret (HTTPError 400 "invalid application id")
  | Some appID =>
    or_reply (on_db (Application appID)) (HTTPError 404 "aplicacion no encontrada") (fun app =>
    or_reply (on_db CloudflareConfig) (problem "Configuracion no encontrada") (fun cfg =>
    if (cf_Mode cfg =? "disabled")%string || (cf_TunnelID cfg =? "")%string
    then mret (problem "Configura y conecta un túnel de Cloudflare antes de verificar el DNS")
    else if negb (isPublicCloudflareDomain (a_Domain app))
    then mret (problem ("El dominio " +:+ a_Domain app
           +:+ " no es público. Para Cloudflare usa un subdominio completo, por ejemplo demo.tudominio.com"))
    else
    let expectedCNAME := cf_TunnelID cfg +:+ ".cfargotunnel.com" in
    if (cf_Mode cfg =? "api_token")%string then
      apiToken ← attempt getCloudflareAPIToken;
      match apiToken with
      | Ok apiToken => if negb (apiToken =? "")%string then publish_record cfg app apiToken
                       else verify_dns app expectedCNAME
      | Err _ => verify_dns app expectedCNAME
      end
    else verify_dns app expectedCNAME))
  end).

(** The domain is stored; a public one is also published when the tunnel is managed through
    the API. *)
Definition updateApplicationDomain (r : HTTPRequest) (id : string) : AM H Reply :=
  requireAuthorization r (
  match parse_int id with
  | None => mret (HTTPError 400 "invalid application id")
  | Some appID =>
    or_reply (lift (q_ParseForm r)) (HTTPError 400 "invalid form") (fun _ =>
    let domain := trim_space (FormValue r "domain") in
    let answer := with_message (application_url (itoa appID)) in
    let saved := answer "notice" ("Dominio actualizado exitosamente a " +:+ domain) in
    if negb (domainRegex domain) || (domain =? Config.AdminDomain config)%string
    then mret (answer "error" "Dominio invalido o coincide con el dominio administrativo") else
    or_reply (on_db (UpdateApplicationDomain appID domain)) (answer "error" "Error al actualizar dominio") (fun _ =>
    if negb (isPublicCloudflareDomain domain) then mret saved else
    cfg ← attempt (on_db CloudflareConfig);
    match cfg with
    | Err _ => mret saved
    | Ok cfg =>
      if negb ((cf_Mode cfg =? "api_token")%string && negb (cf_TunnelID cfg =? "")%string) then mret saved else
      apiToken ← attempt getCloudflareAPIToken;
      apps ← attempt (on_db Applications);
      match apiToken, apps with
      | Ok apiToken, Ok apps =>
        routed ← attempt (on_site (ConfigureTunnelIngress client apiToken (cf_AccountID cfg) (cf_TunnelID cfg)
                                     (publicApplicationDomains apps)));
        match routed with
        | Err err => mret (answer "error" ("Dominio guardado, pero Cloudflare no pudo publicar la ruta: "
                                           +:+ error_message err))
        | Ok _ =>
          synced ← attempt (on_site (syncCloudflareDNSRecords client apiToken (cf_TunnelID cfg) [domain]));
          mret (match synced with
                | Err err => answer "error" ("Dominio guardado, pero Cloudflare no pudo configurar el DNS: "
                                             +:+ error_message err)
                | Ok _ => answer "notice" "Dominio actualizado y publicado automáticamente en Cloudflare"
                end)
        end
      | _, _ => mret saved
      end
    end))
  end).

(** ** The dashboard *)

(** The state of the connector as the page shows it; a configuration that is not disabled
    takes its status from it. *)
Definition shown_status (status : CloudflaredStatus) (cfg : CloudflareConfigT) : CloudflareConfigT :=
  if (cf_Mode cfg =? "disabled")%string then cfg
  else if Running status then
    (if negb (cf_Status cfg =? "error")%string then cfg <| cf_Status := "connected" |> else cfg)
  else if (cf_Status cfg =? "connected")%string then cfg <| cf_Status := "configured" |> else cfg.

Definition remote_status (remoteStatus connectorStatus : string) (cfg : CloudflareConfigT)
    : string * CloudflareConfigT :=
  if (remoteStatus =? "healthy")%string
  then ("En ejecución · Cloudflare saludable", cfg <| cf_Status := "connected" |>)
  else if (remoteStatus =? "degraded")%string
  then ("En ejecución · conexión degradada",
        cfg <| cf_Status := "error" |> <| cf_ErrorMessage := "Cloudflare reporta una conexión degradada" |>)
  else if (remoteStatus =? "inactive")%string || (remoteStatus =? "down")%string
  then ("En ejecución · esperando conexión con Cloudflare", cfg <| cf_Status := "configuring" |>)
  else (connectorStatus, cfg).

(** The name an application resolves to, and its badge. *)
Definition domain_badge (expectedCNAME : string) (app : StoreTypes.Application)
    : EM H ApplicationCloudflareInfo :=
  let info := MkCloudflareInfo app expectedCNAME in
  if negb (isPublicCloudflareDomain (a_Domain app)) then mret (info "" false "⚪ Requiere dominio público") else
  answer ← attempt (VerifyDNSPropagation (a_Domain app) expectedCNAME);
  mret (match answer with
        | Ok (true, cname) => info cname true "🟢 Propagado"
        | Ok (false, cname) => info cname false "🟡 Pendiente"
        | Err _ => info "" false "🟡 Pendiente"
        end).

Fixpoint domain_badges (expectedCNAME : string) (apps : list StoreTypes.Application)
    : EM H (list ApplicationCloudflareInfo) :=
  match apps with
  | [] => mret []
  | app :: apps =>
    badge ← domain_badge expectedCNAME app;
    badges ← domain_badges expectedCNAME apps;
    mret (badge :: badges)
  end.

(** What the page is given: the configuration, the connector and the domains. *)
Definition cloudflare_page (r : HTTPRequest) : AM H CloudflareData :=
  cfg ← catch (on_db CloudflareConfig) (fun _ => fail (ErrMsg "error al cargar configuracion Cloudflare"));
  apps ← catch (on_db Applications) (fun _ => fail (ErrMsg "error al cargar aplicaciones"));
  status ← attempt (on_site (cn_Status cloudflared));
  '(connectorStatus, cfg) ←
    match status with
    | Err err => mret (error_message err, cfg)
    | Ok status =>
      let cfg := shown_status status cfg in
      if Running status && (cf_Mode cfg =? "api_token")%string && negb (cf_AccountID cfg =? "")%string
         && negb (cf_TunnelID cfg =? "")%string then
        apiToken ← attempt getCloudflareAPIToken;
        match apiToken with
        | Err _ => mret (Display status, cfg)
        | Ok apiToken =>
          remote ← attempt (on_site (TunnelStatus client apiToken (cf_AccountID cfg) (cf_TunnelID cfg)));
          mret (match remote with
                | Ok remoteStatus => remote_status remoteStatus (Display status) cfg
                | Err _ => (Display status, cfg)
                end)
        end
      else mret (Display status, cfg)
    end;
  let expectedCNAME := if negb (cf_TunnelID cfg =? "")%string then cf_TunnelID cfg +:+ ".cfargotunnel.com"
                       else "configurar-tunel.cfargotunnel.com" in
  badges ← on_site (domain_badges expectedCNAME apps);
  token ← csrfToken r;
  mret (MkCloudflareData cfg badges connectorStatus token (Get (q_Query r) "notice") (Get (q_Query r) "error")).

Definition renderCloudflareDashboard (r : HTTPRequest) : AM H Reply :=
  requireAuthorization r (
  page ← attempt (cloudflare_page r);
  mret (match page with
        | Err err => HTTPError 500 (error_message err)
        | Ok data => Render 200 (CloudflareDashboardView data)
        end)).
End cloudflare.
