(* ===== verification/Repositories.v ===== *)
(** * Local repositories (internal/app/repositories.go)

    The browser of the directories below the configured root, the references and the runtime
    of a folder, and the creation of folders.  Symbolic links are resolved before every
    comparison with the root. *)

From S2P Require Import Prelude GoStrings GoTime Json Net Base64 Security Host Templates Detect.
From S2P Require Import StoreTypes Executor Proxy BlueGreen Release Config Views Hub Session.

Definition withinRepositoryRoot (root path : string) : bool :=
  (path =? root)%string || has_prefix path (root +:+ "/").

(** [strings.TrimPrefix(filepath.Clean("/"+path), "/")]. *)
Definition relative_path (path : string) : string := trim_prefix (Clean ("/" +:+ path)) "/".

Record repositoryBrowserEntry := MkBrowserEntry {
  be_Name : string; be_Path : string; be_Repository : bool }.
Record repositoryBrowserData := MkBrowserData {
  bd_Current : string; bd_Parent : string; bd_Entries : list repositoryBrowserEntry }.

(** The link of a folder to the one above it. *)
Definition parent_path (root current : string) : string :=
  if (current =? root)%string then "" else trim_prefix (Net.Dir current) (root +:+ "/").

Definition entry_json (entry : repositoryBrowserEntry) : json :=
  JObj [("name", JStr (be_Name entry)); ("path", JStr (be_Path entry));
        ("repository", JBool (be_Repository entry))].
Definition browser_json (data : repositoryBrowserData) : json :=
  JObj ([("current", JStr (bd_Current data))]
        ++ (if (bd_Parent data =? "")%string then [] else [("parent", JStr (bd_Parent data))])
        ++ [("entries", JArr (map entry_json (bd_Entries data)))]).

(** [json.NewEncoder(w).Encode(v)]. *)
Definition encoded (j : json) : Reply := Page 200 (marshal j +:+ String newline "").

Section repositories.
Context {H : Type} `{!Host H} `{!Crypto}.
Context (config : Config).

Definition present (path : string) : EM H bool :=
  stat ← attempt (host_step (host_stat path));
  mret (match stat with Ok b => b | Err _ => false end).

(** One name of the listing; a directory or a symbolic link that leads to one below the root. *)
Definition browse_entry (root current : string) (entry : string * bool)
    : EM H (option repositoryBrowserEntry) :=
  let '(name, folder) := entry in
  if has_prefix name "." || negb folder then mret None else
  path ← attempt (host_step (host_eval_symlinks (Join current name)));
  match path with
  | Err _ => mret None
  | Ok path =>
    if negb (withinRepositoryRoot root path) then mret None else
    directory ← attempt (host_step (host_is_dir path));
    match directory with
    | Ok true =>
      git ← present (Join path ".git");
      mret (Some (MkBrowserEntry name (trim_prefix path (root +:+ "/")) git))
    | _ => mret None
    end
  end.

Fixpoint browse_entries (root current : string) (entries : list (string * bool))
    : EM H (list repositoryBrowserEntry) :=
  match entries with
  | [] => mret []
  | entry :: entries =>
    shown ← browse_entry root current entry;
    rest ← browse_entries root current entries;
    mret (match shown with Some entry => entry :: rest | None => rest end)
  end.

(** The folder a request names, resolved; not found outside the root. *)
Definition resolve_folder (root path : string) : EM H (option string) :=
  folder ← attempt (host_step (host_eval_symlinks path));
  mret (match folder with
        | Ok folder => if withinRepositoryRoot root folder then Some folder else None
        | Err _ => None
        end).

Definition browse (path : string) : EM H (result repositoryBrowserData) :=
  root ← attempt (host_step (host_eval_symlinks (Config.LocalRepositoriesPath config)));
  match root with
  | Err _ => mret (Err (ErrMsg "local repository root is unavailable"))
  | Ok root =>
    current ← resolve_folder root (Join root (relative_path path));
    match current with
    | None => mret (Err ErrNotFound)
    | Some current =>
      entries ← attempt (host_step (host_entries current));
      match entries with
      | Err _ => mret (Err ErrNotFound)
      | Ok entries =>
        shown ← browse_entries root current entries;
        mret (Ok (MkBrowserData ("file://" +:+ current) (parent_path root current) shown))
      end
    end
  end.

Definition browseLocalRepositories (r : HTTPRequest) : AM H Reply :=
  requireAuthorization r (
  if (Config.LocalRepositoriesPath config =? "")%string
  then mret (HTTPError 503 "local repository browsing is not configured") else
  data ← on_site (browse (Get (q_Query r) "path"));
  mret (match data with
        | Ok data => encoded (browser_json data)
        | Err err => if bool_decide (err = ErrNotFound) then NotFound else HTTPError 503 (error_message err)
        end)).

Definition localRepositoryPath (relative : string) : EM H (option string) :=
  root ← attempt (host_step (host_eval_symlinks (Config.LocalRepositoriesPath config)));
  match root with
  | Err _ => mret None
  | Ok root => resolve_folder root (Join root (relative_path relative))
  end.

(** [path, ok := a.localRepositoryPath(...); if !ok { not found }]. *)
Definition with_folder (r : HTTPRequest) (handler : string -> EM H Reply) : AM H Reply :=
  requireAuthorization r (on_site (
  path ← localRepositoryPath (Get (q_Query r) "path");
  match path with
  | None => mret NotFound
  | Some path => handler path
  end)).

Definition localRepositoryReferences (r : HTTPRequest) : AM H Reply :=
  with_folder r (fun path =>
  git ← present (Join path ".git");
  if negb git then mret (HTTPError 400 "folder is not a Git repository") else
  output ← attempt (exec_output "git" ["-C"; path; "for-each-ref"; "--format=%(refname:short)";
                                       "refs/heads"; "refs/tags"]);
  mret (match output with
        | Ok output => encoded (JObj [("references", JArr (map JStr (fields output)))])
        | Err _ => HTTPError 503 "could not read Git references"
        end)).

Definition detectLocalRuntime (r : HTTPRequest) : AM H Reply :=
  with_folder r (fun path =>
  detected ← detect_now path;
  mret (encoded (JObj [("type", JStr (dt_Type detected)); ("confidence", JStr (dt_Confidence detected));
                       ("reason", JStr (dt_Reason detected))]))).

(** [Validate] reads one state of the directory; the map is marshalled by key. *)
Definition validateLocalRuntime (r : HTTPRequest) : AM H Reply :=
  with_folder r (fun path =>
  missing ← query (fun s => Ok (Detect.Validate
    (fun p => match fst (host_stat p (site_host s)) with Ok true => true | _ => false end)
    path (Get (q_Query r) "type")));
  mret (encoded (JObj [("missing", match missing with [] => JNull | _ => JArr (map JStr missing) end);
                       ("valid", JBool (match missing with [] => true | _ => false end))]))).

(** ** New folders *)

Definition folder_request (body : result string) : option (string * string) :=
  match body with
  | Err _ => None
  | Ok body =>
    j ← parse_first (take_string 4096 body);
    kvs ← members j;
    path ← decode_field "path" decode_text "" kvs;
    name ← decode_field "name" decode_text "" kvs;
    Some (path, name)
  end.

Definition folder_name (name : string) : bool :=
  negb ((name =? "")%string || (name =? ".")%string || (name =? "..")%string
        || contains name "/" || contains name "\").

(** The body of the request is at most 4096 bytes. *)
Definition createLocalRepositoryFolder (r : HTTPRequest) : AM H Reply :=
  requireAuthorization r (on_site (
  match folder_request (q_Body r) with
  | None => mret (HTTPError 400 "invalid folder request")
  | Some (folder, name) =>
    let name := trim_space name in
    if negb (folder_name name) then mret (HTTPError 400 "invalid folder name") else
    root ← attempt (host_step (host_eval_symlinks (Config.LocalRepositoriesPath config)));
    match root with
    | Err _ => mret (HTTPError 503 "local repository root is unavailable")
    | Ok root =>
      parent ← resolve_folder root (Join root (Clean ("/" +:+ trim_prefix folder "/")));
      match parent with
      | None => mret NotFound
      | Some parent =>
        let path := Join parent name in
        if negb (withinRepositoryRoot root path) then mret (HTTPError 400 "invalid folder path") else
        made ← attempt (host_step (host_mkdir path));
        mret (match made with
              | Err _ => HTTPError 409 "could not create folder"
              | Ok _ => encoded (JObj [("path", JStr (trim_prefix path (root +:+ "/")))])
              end)
      end
    end
  end)).
End repositories.

(** ** Going up from a folder just below the root

    The link is the absolute path of the root, which [browse] looks up inside the root. *)
Example parent_of_first_level :
  parent_path "/srv/repos" "/srv/repos/site" = "/srv/repos"
  /\ Join "/srv/repos" (relative_path (parent_path "/srv/repos" "/srv/repos/site")) = "/srv/repos/srv/repos".
Proof. split; reflexivity. Qed.
