(* ===== verification/PageHandlers.v ===== *)
(** * Handlers that only read (internal/app/server.go, internal/app/operations.go)

    The dashboard, the pages of an application and of the operation, the logs and their
    stream, the preview of a cleanup, and the inventory of the nodes.  The embedded scripts are
    a parameter; a client that follows a log stays for a number of ticks. *)

From S2P Require Import Prelude GoStrings GoTime Json Net Base64 Security BackupFormat Host Templates.
From S2P Require Import StoreTypes Executor Proxy BlueGreen Release Config Views Hub Preflight Operations Session.
From S2P Require Import StoreSettings StoreApplications StoreAccess StoreDeployments CICD Handlers Pages Repositories.

(** The columns that were scanned before one that is NULL. *)
Definition partial_evidence (id : Z) (r : health_row) : HealthEvidenceT :=
  let i := hr_internal_status r in
  match hr_internal_checked_at r with
  | None => MkHealthEvidence id i "" "" 0 0 0 "" "" 0
  | Some ti =>
    match hr_route_checked_at r with
    | None => MkHealthEvidence id i (hr_route_status r) "" ti 0 0 "" "" 0
    | Some tr =>
      match hr_external_checked_at r with
      | None => MkHealthEvidence id i (hr_route_status r) (hr_external_status r) ti tr 0 "" "" 0
      | Some te => MkHealthEvidence id i (hr_route_status r) (hr_external_status r) ti tr te
                     (hr_external_observer r) (hr_external_detail r) (hr_external_http_status r)
      end
    end
  end.
Definition HealthEvidence0 : HealthEvidenceT := MkHealthEvidence 0 "" "" "" 0 0 0 "" "" 0.

Section pages.
Context {H : Type} `{!Host H} `{!Crypto}.
Context (adapterOverride : gmap string (RuntimeAdapter H)) (proxyOverride : option (ProxyAdapter H)).
Context (static : string -> option string).
Context (config : Config) (e : Executor).

(** [x, _ := m]: the value of a call whose error is not looked at. *)
Definition or_default {A} (a : A) (m : AM H A) : AM H A :=
  r ← attempt m; mret (match r with Ok a => a | Err _ => a end).

(** [item, _ := HealthEvidence(id)]. *)
Definition shown_evidence (id : Z) : AM H HealthEvidenceT :=
  or_default HealthEvidence0 (on_db (query (fun db =>
    Ok (match t_health db !! id with
        | None => MkHealthEvidence id "" "" "" 0 0 0 "" "" 0
        | Some r => partial_evidence id r
        end)))).

Definition staticScript (name : string) : AM H Reply :=
  mret (match static name with Some contents => Page 200 contents | None => NotFound end).

(** ** The dashboard *)

Definition dashboard (r : HTTPRequest) : AM H Reply :=
  or_reply (on_db IsInitialized) (HTTPError 503 "database unavailable") (fun initialized =>
  if negb initialized then mret (SeeOther "/setup") else
  ok ← authorized r;
  if negb ok then mret (SeeOther "/unlock") else
  or_reply (on_db Applications) (HTTPError 503 "applications unavailable") (fun applications =>
  or_reply (on_db Nodes) (HTTPError 503 "nodes unavailable") (fun nodes =>
  readiness ← on_site (RunHostPreflightCheck config);
  token ← csrfToken r;
  mret (Render 200 (DashboardView (MkDashboard (Config.Environment config) applications nodes
    currentPhase token (hostReadinessView readiness))))))).

Definition nodesAPI (r : HTTPRequest) : AM H Reply :=
  ok ← authorized r;
  if negb ok then mret (HTTPError 401 "authentication required") else
  or_reply (on_db Nodes) (HTTPError 503 "nodes unavailable") (fun nodes =>
  mret (encoded (JArr (map node_json nodes)))).

Definition blank_application : StoreTypes.Application :=
  MkApplication 0 "" "" "main" "." "static" "" "" 8080 "" "auto" false false false 0 "" 0.
Definition applicationForm (r : HTTPRequest) : AM H Reply :=
  requireAuthorization r (renderApplicationForm config r blank_application "" 200).

(** ** One application *)

Definition applicationDetail (r : HTTPRequest) (id : string) : AM H Reply :=
  requireAuthorization r (
  or_reply (applicationData id) NotFound (fun '(application, deployments) =>
  hasSecrets ← or_default false (on_db (HasSecrets (a_ID application)));
  diagnostics ← on_site RuntimeDiagnostics;
  token ← csrfToken r;
  '(preview, previewError) ←
    match deployments with
    | latest :: _ => on_site (deploymentLogPreview config (d_LogPath latest))
    | [] => mret ("", "")
    end;
  let pipeline := match deployments with
                  | latest :: _ => computePipelineStatus latest (runtimePreflightFailure preview)
                  | [] => Pipeline0
                  end in
  evidence ← shown_evidence (a_ID application);
  status ← attempt (on_site (Release.Status adapterOverride proxyOverride e application));
  let '(container, containerError) :=
    match status with
    | Ok container => (container, "")
    | Err err => (ContainerStatus0, "No disponible: " +:+ error_message err)
    end in
  preflight ← on_site (RunPreflightCheck config application);
  mret (Render 200 (ApplicationDetailView (MkApplicationDetail application deployments
    (deployed_version deployments) container containerError preview previewError
    (runtimeNotice diagnostics) currentPhase pipeline token hasSecrets evidence preflight
    (Get (q_Query r) "notice") (Get (q_Query r) "error")))))).

Definition releaseReport (r : HTTPRequest) (id deploymentID : string) : AM H Reply :=
  requireAuthorization r (
  match parse_int id, parse_int deploymentID with
  | Some id, Some deploymentID =>
    or_reply (on_db (Application id)) NotFound (fun application =>
    or_reply (on_db (DeploymentOf id deploymentID)) NotFound (fun deployment =>
    mret (encoded (report_json application deployment))))
  | _, _ => mret NotFound
  end).

(** The application and one of its deployments, by the values of the path. *)
Definition with_deployment (r : HTTPRequest) (id deploymentID : string)
    (handler : StoreTypes.Application -> Deployment -> AM H Reply) : AM H Reply :=
  with_application r id (fun application =>
  match parse_int deploymentID with
  | None => mret NotFound
  | Some n =>
    if n <? 1 then mret NotFound else
    or_reply (on_db (DeploymentOf (a_ID application) n)) NotFound (handler application)
  end).

Definition deploymentDiff (r : HTTPRequest) (id deploymentID : string) : AM H Reply :=
  with_deployment r id deploymentID (fun application deployment =>
  deployments ← or_default [] (on_db (Deployments (a_ID application)));
  let previous := previous_of (d_ID deployment) deployments in
  token ← csrfToken r;
  mret (Render 200 (DeploymentDiffView (MkDeploymentDiff application deployment
    (default Deployment0 previous) (bool_decide (is_Some previous))
    (diff_fields deployment previous) token)))).

(** ** Logs *)

Definition log_query (r : HTTPRequest) : string := to_lower (Get (q_Query r) "q").

(** Without a query the output is sent as it is written: an error after the first byte
    follows it, under the status 200 that went out with it. *)
Definition applicationLogs (r : HTTPRequest) (id : string) : AM H Reply :=
  with_application r id (fun application =>
  let unavailable := "container logs unavailable" in
  '(output, ended) ← on_site (captured (Logs adapterOverride proxyOverride e application));
  mret (match ended with
        | Ok _ => Page 200 (if negb (log_query r =? "")%string
                            then matching_lines (log_query r) output else output)
        | Err _ =>
          if negb (log_query r =? "")%string || (output =? "")%string then HTTPError 502 unavailable
          else Page 200 (output +:+ unavailable +:+ String newline "")
        end)).

Definition max_log : nat := Z.to_nat (2 * 1024 * 1024).

Definition deploymentLogs (r : HTTPRequest) (id deploymentID : string) : AM H Reply :=
  with_deployment r id deploymentID (fun application deployment =>
  or_reply (on_site (deploymentLogPath config (d_LogPath deployment))) NotFound (fun path =>
  file ← attempt (on_site (host_step (host_open path)));
  match file with
  | Err err => mret (if IsNotExist err then HTTPError 404 "deployment log is not available yet"
                     else HTTPError 503 "deployment log unavailable")
  | Ok _ =>
    contents ← or_default "" (on_site (host_step (host_read_file path)));
    let text := take_string max_log contents in
    mret (Page 200 (if negb (log_query r =? "")%string
                    then matching_lines (log_query r) text else text))
  end)).

(** The events sent while the client stays: what is shown changed, until the job is over or
    its row is gone. *)
Fixpoint log_events (ticks : nat) (applicationID id : Z) (last : string) : AM H (list string) :=
  deployment ← attempt (on_db (DeploymentOf applicationID id));
  match deployment with
  | Err _ => mret []
  | Ok deployment =>
    '(preview, message) ← on_site (deploymentLogPreview config (d_LogPath deployment));
    let value := if (preview =? "")%string then message else preview in
    let sent := if negb (value =? last)%string then [value] else [] in
    if (d_Status deployment =? "successful")%string || (d_Status deployment =? "failed")%string
    then mret sent else
    match ticks with
    | O => mret sent
    | S ticks =>
      rest ← log_events ticks applicationID id value;
      mret (sent ++ rest)
    end
  end.

Definition log_event (value : string) : string :=
  let lf := String newline "" in
  "event: log" +:+ lf +:+ "data: " +:+ marshal_string value +:+ lf +:+ lf.

Definition deploymentLogStream (ticks : nat) (r : HTTPRequest) (id deploymentID : string) : AM H Reply :=
  with_application r id (fun application =>
  match parse_int deploymentID with
  | None => mret NotFound
  | Some n =>
    if n <? 1 then mret NotFound else
    events ← log_events ticks (a_ID application) n (String "000" "");
    mret (Page 200 (join "" (map log_event events)))
  end).

(** ** The operation *)

(** A ratio as a float64 percentage; none is zero. *)
Definition percentage (part : nat * nat) : Z * Z :=
  if (snd part =? 0)%nat then (0, 1) else float_div (Z.of_nat (fst part) * 100) (Z.of_nat (snd part)).
Definition at_least (percent : Z) (x : Z * Z) : bool := percent * snd x <=? fst x.

(** The alerts of the last collection that the store does not list. *)
Fixpoint merge_alerts (cached : list (string * string)) (active : list AlertRow) : AM H (list AlertRow) :=
  match cached with
  | [] => mret active
  | (severity, message) :: cached =>
    if existsb (fun alert => al_Message alert =? message)%string active then merge_alerts cached active else
    t ← now;
    merge_alerts cached (active ++ [MkAlert 0 severity message None None false t None])
  end.

Definition backup_age (lastSuccess : string) : AM H string :=
  if (lastSuccess =? "")%string then mret "Ningún backup realizado" else
  match Parse lastSuccess with
  | Some u => t ← now; mret (duration_text (Z.quot (Since t u) Second * Second) +:+ " atrás")
  | None => mret lastSuccess
  end.

Definition operation_row (k : cache) (application : StoreTypes.Application) : AM H OperationApplication :=
  let id := a_ID application in
  deployments ← or_default [] (on_db (Deployments id));
  evidence ← shown_evidence id;
  mret (MkOperationApplication application (default Deployment0 (head deployments))
    (negb (bool_decide (deployments = [])))
    (match statusCacheErr k !! id, statusCache k !! id with
     | None, Some status => status
     | _, _ => ContainerStatus0
     end) (default "" (statusCacheErr k !! id)) evidence).

Fixpoint operation_rows (k : cache) (applications : list StoreTypes.Application)
    : AM H (list OperationApplication) :=
  match applications with
  | [] => mret []
  | application :: applications =>
    row ← operation_row k application;
    rows ← operation_rows k applications;
    mret (row :: rows)
  end.

Definition setting (key : string) : AM H string := or_default "" (on_db (SettingString key)).

Definition operations (r : HTTPRequest) : AM H Reply :=
  requireAuthorization r (
  or_reply (on_db Applications) (HTTPError 503 "applications unavailable") (fun applications =>
  or_reply (on_db AutomationSettings) (HTTPError 503 "automation settings unavailable") (fun schedule =>
  k ← peek hub_cache;
  active ← or_default [] (on_db GetActiveAlerts);
  active ← merge_alerts (alertsCache k) active;
  resolved ← or_default [] (on_db GetResolvedAlerts);
  usage ← or_default (0, 1) (on_site (diskUsage (Config.DatabasePath config)));
  let budget := Config.DiskAlertPercent config in
  let limit := Config.SLOBuildDurationMinutes config in
  build ← or_default (1%nat, 1%nat) (on_db (BuildDurationSLO (wrap64 (limit * 60 * 1000))));
  t ← now;
  routing ← or_default (0%nat, 1%nat) (on_db (RoutingSLO (t - Config.SLOProbeWindow config)));
  token ← csrfToken r;
  lastSuccess ← setting "backup_last_success";
  lastError ← setting "backup_last_error";
  lastRestore ← setting "backup_last_restore_test";
  age ← backup_age lastSuccess;
  rows ← operation_rows k applications;
  let build := percentage build in
  let routing := percentage routing in
  mret (Render 200 (OperationsView (MkOperations rows active resolved (diskUsedCache k)
    (fst usage <=? budget * snd usage) budget build limit (at_least 95 build)
    routing (at_least 99 routing) (retentionDays config) (retainedImages config) schedule token
    lastSuccess lastError age
    (if (lastRestore =? "")%string then "No ensayada aún" else lastRestore))))))).

(** ** The preview of a cleanup *)

(** [int(d.Hours() / 24)]. *)
Definition whole_days (d : Duration) : Z :=
  let '(a, b) := in_units Hour (Z.abs d) in Z.sgn d * truncated (float_div a (b * 24)).

(** The size of the log, when it can be read. *)
Definition log_size (logPath : string) : EM H (option Z) :=
  path ← attempt (deploymentLogPath config logPath);
  match path with
  | Err _ => mret None
  | Ok path =>
    size ← attempt (host_step (host_size path));
    mret (match size with Ok n => Some n | Err _ => None end)
  end.

Record preview := Preview {
  pv_candidates : list CleanupCandidateInfo; pv_log_bytes : Z; pv_images : Z }.

Definition preview_candidate (application : StoreTypes.Application) (p : preview) (c : Deployment)
    : AM H preview :=
  let images := if negb (d_Image c =? "")%string && (d_Status c =? "successful")%string then 1 else 0 in
  size ← on_site (log_size (d_LogPath c));
  t ← now;
  mret (Preview
    (pv_candidates p ++ [MkCleanupCandidate (a_Name application) (d_ID c) (d_Image c) (d_LogPath c)
       (match size with Some n => fixed 2 n 1024 +:+ " KB" | None => "" end)
       (whole_days (Since t (d_StartedAt c)))])
    (wrap64 (pv_log_bytes p + default 0 size)) (pv_images p + images)).

Fixpoint preview_candidates (application : StoreTypes.Application) (candidates : list Deployment)
    (p : preview) : AM H preview :=
  match candidates with
  | [] => mret p
  | c :: candidates => p ← preview_candidate application p c; preview_candidates application candidates p
  end.

Fixpoint preview_applications (before : Time) (applications : list StoreTypes.Application) (p : preview)
    : AM H preview :=
  match applications with
  | [] => mret p
  | application :: applications =>
    candidates ← or_default [] (on_db (RetentionCandidates (a_ID application) before (retainedImages config)));
    p ← preview_candidates application candidates p;
    preview_applications before applications p
  end.

Definition retentionPreview (r : HTTPRequest) : AM H Reply :=
  requireAuthorization r (
  or_reply (on_db Applications) (HTTPError 503 "applications unavailable") (fun applications =>
  t ← now;
  p ← preview_applications (t - retentionDays config * day) applications (Preview [] 0 0);
  token ← csrfToken r;
  mret (Render 200 (OperationsCleanupPreviewView (MkCleanupPreview (pv_candidates p)
    (fixed 2 (pv_log_bytes p) (1024 * 1024) +:+ " MB") (pv_images p)
    (retentionDays config) (retainedImages config) token))))).
End pages.
