(* ===== verification/Server.v ===== *)
(** * The routes (internal/app/server.go: Handler)

    The multiplexer behind the CSRF check.  The segments are those of a clean path (net/http
    redirects any other) and the last one is empty after a trailing slash, which no pattern but
    [GET /] takes; [GET] patterns also take [HEAD], and a method no pattern takes is refused,
    because [GET /] takes every path.  The answers of [crypto/rand] during a request are
    numbered; [patience] is how many ticks a client follows a log. *)

From S2P Require Import Prelude GoStrings GoTime Json Net Base64 Security BackupFormat Host Templates.
From S2P Require Import StoreTypes Executor Proxy BlueGreen Release Config Views Hub Preflight Operations Session.
From S2P Require Import StoreSettings StoreApplications StoreAccess StoreDeployments CICD Handlers.
From S2P Require Import Cloudflare Connector CloudflareHandlers Repositories Pages PageHandlers.

Definition hook_of (r : HTTPRequest) (id : string) : hook_request :=
  HookRequest (HeaderGet (q_Header r) "X-GitHub-Event") (HeaderGet (q_Header r) "X-Hub-Signature-256")
    (HeaderGet (q_Header r) "X-GitHub-Delivery") id (q_Body r).

Definition method_not_allowed : Reply := HTTPError 405 "Method Not Allowed".

Section server.
Context {H : Type} `{!Host H} `{!Crypto}.
Context (adapterOverride : gmap string (RuntimeAdapter H)) (proxyOverride : option (ProxyAdapter H)).
Context (serialize : database -> result string)
  (s3_put_object : S3Config -> s3_put -> H -> result unit * H).
Context (client : CloudflareAPI H) (cloudflared : CloudflaredConnector H).
Context (static : string -> option string) (patience : nat).
Context (zone : Duration) (config : Config) (e : Executor).

(** The actions on one application. *)
Definition application_action (random : nat -> result string) (r : HTTPRequest) (id action : string)
    : AM H Reply :=
  if (action =? "secrets")%string then saveSecret (random 0%nat) r id
  else if (action =? "configuration")%string then saveConfiguration r id
  else if (action =? "deploy")%string then deployApplication config r id
  else if (action =? "rollback")%string then rollbackApplication config r id
  else if (action =? "retry")%string then retryApplication config r id
  else if (action =? "automation")%string then updateApplicationAutomation r id
  else if (action =? "domain")%string then updateApplicationDomain client config r id
  else controlApplication adapterOverride proxyOverride e r id action.

Definition entropy_of (random : nat -> result string) : entropy :=
  Entropy (random 0%nat) (random 1%nat) (random 2%nat).
Definition cf_entropy_of (random : nat -> result string) : cf_entropy :=
  CfEntropy (random 0%nat) (random 1%nat) (random 2%nat).

Definition post_mux (random : nat -> result string) (r : HTTPRequest) : AM H Reply :=
  let refused := mret method_not_allowed in
  if existsb (fun s => (s =? "")%string) (q_Segments r) then refused else
  match q_Segments r with
  | [a] =>
    if (a =? "applications")%string
    then createApplication adapterOverride proxyOverride config r
    else if (a =? "setup")%string then setup (entropy_of random) r
    else if (a =? "unlock")%string then unlock zone (entropy_of random) r
    else if (a =? "lock")%string then lock r
    else refused
  | [a; b] =>
    if (a =? "operations")%string && (b =? "retention")%string
    then retention adapterOverride proxyOverride config e r
    else if (a =? "operations")%string && (b =? "cleanup-schedule")%string then updateCleanupSchedule r
    else if (a =? "operations")%string && (b =? "backup")%string
    then manualBackup serialize s3_put_object config (random 0%nat) r
    else if (a =? "repositories")%string && (b =? "folders")%string
    then createLocalRepositoryFolder config r
    else if (a =? "cloudflare")%string && (b =? "save")%string
    then saveCloudflareConfig client cloudflared (cf_entropy_of random) r
    else if (a =? "cloudflare")%string && (b =? "reconnect")%string then reconnectCloudflared cloudflared r
    else refused
  | [a; b; c] =>
    if (a =? "applications")%string then application_action random r b c
    else if (a =? "webhooks")%string && (b =? "github")%string then githubWebhook config (hook_of r c)
    else refused
  | [a; id; b; c] =>
    if (a =? "applications")%string && (b =? "cloudflare")%string && (c =? "sync")%string
    then syncAppCloudflareDNS client r id
    else refused
  | [a; id; b; name; c] =>
    if negb (a =? "applications")%string then refused
    else if (b =? "secrets")%string && (c =? "delete")%string then deleteSecret r id name
    else if (b =? "configuration")%string && (c =? "delete")%string then deleteConfiguration r id name
    else if (b =? "deployments")%string && (c =? "cancel")%string then cancelDeployment r id name
    else refused
  | _ => refused
  end.

(** The pages of one application. *)
Definition application_page (r : HTTPRequest) (id page : string) : AM H Reply :=
  if (page =? "secrets")%string then secretsPage r id
  else if (page =? "logs")%string then applicationLogs adapterOverride proxyOverride e r id
  else dashboard config r.
Definition deployment_page (r : HTTPRequest) (id deploymentID page : string) : AM H Reply :=
  if (page =? "diff")%string then deploymentDiff r id deploymentID
  else if (page =? "release-report")%string then releaseReport r id deploymentID
  else if (page =? "logs")%string then deploymentLogs config r id deploymentID
  else if (page =? "log-stream")%string then deploymentLogStream config patience r id deploymentID
  else dashboard config r.

Definition get_mux (r : HTTPRequest) : AM H Reply :=
  let home := dashboard config r in
  if existsb (fun s => (s =? "")%string) (q_Segments r) then home else
  match q_Segments r with
  | [a] =>
    if (a =? "healthz")%string then mret health
    else if (a =? "readyz")%string then ready
    else if (a =? "runtimez")%string then runtime_ready config
    else if (a =? "operations")%string then operations config r
    else if (a =? "setup")%string then setupForm
    else if (a =? "unlock")%string then unlockForm r
    else if (a =? "cloudflare")%string then renderCloudflareDashboard client cloudflared r
    else home
  | [a; b] =>
    if (a =? "api")%string && (b =? "nodes")%string then nodesAPI r
    else if (a =? "operations")%string && (b =? "logs")%string then operationLogs r
    else if (a =? "repositories")%string && (b =? "browse")%string then browseLocalRepositories config r
    else if (a =? "repositories")%string && (b =? "refs")%string then localRepositoryReferences config r
    else if (a =? "repositories")%string && (b =? "detect")%string then detectLocalRuntime config r
    else if (a =? "repositories")%string && (b =? "validate")%string then validateLocalRuntime config r
    else if (a =? "static")%string && (b =? "application-form.js")%string
    then staticScript static "static/application-form.js"
    else if (a =? "static")%string && (b =? "deployment-log.js")%string
    then staticScript static "static/deployment-log.js"
    else if (a =? "applications")%string then
      if (b =? "new")%string then applicationForm config r
      else applicationDetail adapterOverride proxyOverride config e r b
    else home
  | [a; b; c] =>
    if (a =? "applications")%string then application_page r b c
    else if (a =? "operations")%string && (b =? "retention")%string && (c =? "preview")%string
    then retentionPreview config r
    else home
  | [a; id; b; deploymentID; page] =>
    if (a =? "applications")%string && (b =? "deployments")%string
    then deployment_page r id deploymentID page else home
  | _ => home
  end.

Definition is_read (r : HTTPRequest) : bool := (q_Method r =? "GET")%string || (q_Method r =? "HEAD")%string.

Definition mux (random : nat -> result string) (r : HTTPRequest) : AM H Reply :=
  if (q_Method r =? "POST")%string then post_mux random r
  else if is_read r then get_mux r else mret method_not_allowed.

(** A request, from the middleware to its answer. *)
Definition serve (random : nat -> result string) (r : HTTPRequest) : AM H Reply :=
  csrfCheck config (mux random) r.
End server.
