(* ===== verification/Process.v ===== *)
(** * The process (cmd/minidock/main.go and the loops of internal/app)

    The life of the panel as the sequence of what happens to it: its start, its end, the requests,
    the agents' streams, and the ticks of the queue, cleanup, backup and collection loops.  What
    happens is taken one after the other; only a job has other activity inside. *)

From S2P Require Import Prelude GoStrings GoTime Json Net Base64 Security BackupFormat Host Templates.
From S2P Require Import StoreTypes Executor Proxy BlueGreen Release Config Views Hub Preflight Operations Session.
From S2P Require Import StoreSettings StoreApplications StoreAccess StoreDeployments StoreQueueFacts JobSpec CICD Agent Handlers.
From S2P Require Import Cloudflare Connector CloudflareHandlers Repositories Pages PageHandlers Server Startup.

Inductive event :=
  (** The process starts, after it was shut down or killed. *)
  | Restart
  (** An interrupt, or SIGTERM. *)
  | Shutdown
  (** A request, with the answers of [crypto/rand]. *)
  | Request (random : nat -> result string) (r : HTTPRequest)
  (** The stream of an agent: the certificates of the peer and its messages. *)
  | AgentStream (peer : option (list string)) (incoming : list string)
  (** A round of [queueLoop], with what happens during the job. *)
  | QueueTick (during : list activity)
  (** A tick of [cleanupLoop] and the time it carries. *)
  | CleanupTick (at_ : Time)
  (** The first backup of [backupLoop], or a tick of it. *)
  | BackupTick (random : result string)
  (** A tick of the collector. *)
  | CollectTick.

Section process.
Context {H : Type} `{!Host H} `{!Crypto}.
Context (Key : Type) (parseRSAPrivateKey : string -> result Key) (SignPKCS1v15 : Key -> string -> result string).
Context {Pair Pool : Type} (LoadX509KeyPair : string -> string -> H -> result Pair * H)
  (AppendCertsFromPEM : string -> option Pool) (net_Listen : string -> H -> result unit * H).
Context (adapterOverride : gmap string (RuntimeAdapter H)) (proxyOverride : option (ProxyAdapter H)).
Context (serialize : database -> result string)
  (s3_put_object : S3Config -> s3_put -> H -> result unit * H).
Context (client : CloudflareAPI H) (cloudflared : CloudflaredConnector H).
Context (static : string -> option string) (patience : nat).
Context (zone : Duration) (config : Config) (plane : ControlPlane).

(** A stream of the control plane on the database of the process. *)
Definition on_control {A} (m : CM A) : AM H A :=
  zoom (fun a => Control (hub_db a) []) (fun c a => a <| hub_db := ct_db c |>) m.

(** What a process has besides the fields of its [App]: its configuration and executor, the TLS of
    its listener for agents, if there is one, and [last] of [cleanupLoop]. *)
Record running := Running {
  rn_config : Config; rn_executor : Executor; rn_agents : option (tls_Config (Pair := Pair) (Pool := Pool));
  rn_cleaned : Time }.

Definition with_machine {A} (m : M H A) : AM H A :=
  on_site (zoom site_host (fun h s => Site h (site_output s) (site_tracker s)) m).

(** [log.Fatalf]: the process ends with the error. *)
Definition fatal {A} (what : string) (m : AM H A) : AM H A := catch m (fun err => fail (ErrWrap what err)).

(** The new [App], the listener for agents, the queue up to its workers, the first collection and
    the listener of the panel. *)
Definition boot : AM H running :=
  poke (fun a => a <| hub_key := "" |> <| hub_sessions := ∅ |> <| hub_cache := cache0 |>) ;;
  '(config', e) ← fatal "create application" (New config);
  agents ← with_machine (agent_listener LoadX509KeyPair AppendCertsFromPEM net_Listen config);
  _ ← fatal "start deployment queue" (StartQueue adapterOverride proxyOverride config' e);
  runCollection adapterOverride proxyOverride config' e ;;
  with_machine (panel_listener net_Listen config) ;;
  mret (Running config' e agents 0).

(** A start that fails leaves no process. *)
Definition start : AM H (option running) :=
  p ← attempt boot;
  mret (match p with Ok p => Some p | Err _ => None end).

(** What happens to a process that runs. *)
Definition while_running (ev : event) (p : running) : AM H (option running) :=
  let config := rn_config p in
  let e := rn_executor p in
  match ev with
  | Restart => start
  | Shutdown => Lock ;; mret None
  | Request random r =>
    ignore (serve adapterOverride proxyOverride serialize s3_put_object client cloudflared static patience
              zone config e random r) ;; mret (Some p)
  | AgentStream peer incoming =>
    (match rn_agents p with
     | Some _ => ignore (on_control (Connect plane peer incoming))
     | None => mret tt
     end) ;; mret (Some p)
  | QueueTick during =>
    ignore (runNextDeployment Key parseRSAPrivateKey SignPKCS1v15 adapterOverride proxyOverride config e during) ;;
    mret (Some p)
  | CleanupTick t =>
    last ← cleanup_tick adapterOverride proxyOverride config e (rn_cleaned p) t;
    mret (Some (Running config e (rn_agents p) last))
  | BackupTick random => ignore (runBackup serialize s3_put_object config random) ;; mret (Some p)
  | CollectTick => ignore (runCollection adapterOverride proxyOverride config e) ;; mret (Some p)
  end.

(** While no process runs only a start changes anything. *)
Definition happen (ev : event) (p : option running) : AM H (option running) :=
  match p with
  | Some p => while_running ev p
  | None => match ev with Restart => start | _ => mret None end
  end.

Fixpoint life (events : list event) (p : option running) : AM H (option running) :=
  match events with
  | [] => mret p
  | ev :: events => p ← happen ev p; life events p
  end.
End process.
