(* ===== verification/WebhookFacts.v ===== *)
(** * What a webhook can do *)

From S2P Require Import Prelude GoStrings Json Net Base64 Security Host Templates.
From S2P Require Import StoreTypes Executor Proxy BlueGreen Release Config Views Hub.
From S2P Require Import StoreSettings StoreApplications StoreAccess StoreDeployments StoreQueueFacts CICD.
From S2P Require Import Engine BlueGreenFacts.

(** ** Requests that leave the jobs alone *)

(** The key, the applications, their secrets and their jobs are the same. *)
Definition same_jobs {H} (a b : hub H) : Prop :=
  hub_key a = hub_key b /\ t_deployments (hub_db a) = t_deployments (hub_db b)
  /\ t_applications (hub_db a) = t_applications (hub_db b)
  /\ t_secrets (hub_db a) = t_secrets (hub_db b).

#[export] Instance same_jobs_preorder {H} : PreOrder (same_jobs (H := H)).
Proof.
  split; [by intros a|]. unfold same_jobs. intros a b c. intuition congruence.
Qed.

Definition same_job_tables (a b : database) : Prop :=
  t_deployments a = t_deployments b /\ t_applications a = t_applications b /\ t_secrets a = t_secrets b.
#[export] Instance same_job_tables_preorder : PreOrder same_job_tables.
Proof. split; [by intros a|]. unfold same_job_tables. intros a b c. intuition congruence. Qed.

Section webhook.
Context {H : Type} `{!Host H} `{!Crypto}.
Context (config : Config).
Abbreviation webhook := (githubWebhook (H := H) config).

Lemma same_on_db {A} (m : DB A) : evolves same_job_tables m -> evolves (same_jobs (H := H)) (on_db m).
Proof.
  apply evolves_zoom. intros s t (H1 & H2 & H3). done.
Qed.

Lemma same_peek {A} (f : hub H -> A) : evolves same_jobs (peek f).
Proof. intros w. simpl. reflexivity. Qed.

(** The jobs changed since the state [s]. *)
Abbreviation changed := (escapes (fun a b : hub H => t_deployments (hub_db b) = t_deployments (hub_db a))).

Lemma same_jobs_deployments (a b : hub H) : same_jobs a b -> t_deployments (hub_db b) = t_deployments (hub_db a).
Proof. by intros (_ & -> & _). Qed.

Lemma changed_bind {A B} s (m : AM H A) (k : A -> AM H B) w :
  evolves same_jobs m -> same_jobs s (w_state w) -> changed s (m ≫= k) w ->
  exists a w1, m w = (Ok a, w1) /\ same_jobs s (w_state w1) /\ changed s (k a) w1.
Proof. exact (escapes_bind _ _ same_jobs_deployments s m k w). Qed.

Lemma changed_ret {A} s (a : A) w : same_jobs s (w_state w) -> ~ changed s (mret a) w.
Proof. apply (escapes_evolves _ _ same_jobs_deployments). by evolve_step. Qed.

Lemma changed_or_reply {A} s (m : AM H A) r k w :
  evolves same_jobs m -> same_jobs s (w_state w) -> changed s (or_reply m r k) w ->
  exists a w1, m w = (Ok a, w1) /\ same_jobs s (w_state w1) /\ changed s (k a) w1.
Proof.
  intros Hm Hs ([a|err] & w1 & E%attempt_run & Hs1 & Hc)%changed_bind; [eauto| |by apply evolves_attempt|done].
  by apply changed_ret in Hc.
Qed.

(** What must hold for a job to be queued by a delivery. *)
Definition authorised (r : hook_request) (body : string) (s : hub H) : Prop :=
  exists application push,
    In application (t_applications (hub_db s))
    /\ parse_int (hk_id r) = Some (a_ID application)
    /\ a_DeployOnPush application = true /\ a_RequireConfirmation application = false
    /\ (parse body ≫= decode_push) = Some push
    /\ matchesGitReference (a_Branch application) (Ref push) = true
    /\ (After push = "" \/ validGitCommit (After push) = true)
    /\ (FullName push = "" \/ matchesGitHubRepository (a_Repository application) (FullName push) = true)
    /\ (hub_key s = "" -> eval (HasSecrets (a_ID application)) (calm (hub_db s) 0) = Ok false).

Lemma push_handler_changed s body application w :
  same_jobs s (w_state w) -> changed s (push_handler config body application) w ->
  exists push, (parse body ≫= decode_push) = Some push
    /\ matchesGitReference (a_Branch application) (Ref push) = true
    /\ (After push = "" \/ validGitCommit (After push) = true)
    /\ (FullName push = "" \/ matchesGitHubRepository (a_Repository application) (FullName push) = true).
Proof.
  intros Hs. unfold push_handler. destruct (parse body ≫= decode_push) as [push|];
    [|by intros Hc%changed_ret].
  destruct (matchesGitReference _ _) eqn:Er; cbn [negb orb]; [|by intros Hc%changed_ret].
  destruct (String.eqb_spec (After push) "") as [Ea|Ea], (validGitCommit (After push)) eqn:Ev;
    cbn [negb andb]; try (by intros Hc%changed_ret);
  (destruct (String.eqb_spec (FullName push) "") as [En|En],
     (matchesGitHubRepository (a_Repository application) (FullName push)) eqn:Em;
   cbn [negb andb]; try (by intros Hc%changed_ret)); intros _; exists push; auto 10.
Qed.

Lemma application_handler_changed s r body w :
  same_jobs s (w_state w) -> changed s (application_handler config body (hk_id r)) w ->
  authorised r body s.
Proof.
  intros Hs. unfold application_handler. destruct (parse_int (hk_id r)) as [id|] eqn:Eid;
    [|by intros Hc%changed_ret].
  intros (application & w1 & Ea & Hs1 & Hc)%changed_or_reply; [|apply same_on_db; unfold Application; evolve|done].
  apply on_db_run in Ea as (v & Ea & _). apply query_run in Ea as [Ea _].
  destruct (select_where _ _) as [|a rest] eqn:El in Ea; [done|]. injection Ea as ->.
  assert (In application (t_applications (hub_db s)) /\ a_ID application = id) as [Hin Hid].
  { assert (In application (application :: rest)) as Hin by by left. rewrite <- El in Hin.
    apply select_where_In in Hin as [Hin Hk]. bools. split; [|done].
    destruct Hs as (_ & _ & -> & _). exact Hin. }
  destruct (a_DeployOnPush application) eqn:Ed; cbn [negb] in Hc; [|by apply changed_ret in Hc].
  apply changed_or_reply in Hc as (allowed & w2 & _ & Hs2 & Hc); [| |done].
  2:{ apply same_on_db. unfold AllowWebhookRequest. evolve. done. }
  destruct allowed; cbn [negb] in Hc; [|by apply changed_ret in Hc].
  apply changed_bind in Hc as (locked & w3 & E3 & Hs3 & Hc); [|apply same_peek|done].
  injection E3 as <- <-.
  apply changed_bind in Hc as (has & w4 & E4 & Hs4 & Hc); [| |done].
  2:{ destruct (hub_key _ =? "")%string; [|evolve]. apply evolves_attempt.
      apply same_on_db. unfold HasSecrets. evolve. }
  destruct has as [[|]|err]; [by apply changed_ret in Hc| |by apply changed_ret in Hc].
  destruct (a_RequireConfirmation application) eqn:Ec; [by apply changed_ret in Hc|].
  destruct (push_handler_changed s body application w4 Hs4 Hc) as (push & Hp & Hr & Hv & Hn).
  exists application, push. split_and!; try done; [by rewrite Hid|]. intros Hk.
  destruct Hs2 as (Hk2 & _ & _ & Hsec). rewrite <- Hk2, Hk, String.eqb_refl in E4.
  apply attempt_run, on_db_run in E4 as (v' & E4 & _). apply query_run in E4 as [E4 _].
  simpl in E4. unfold HasSecrets, calm. run_code. simpl. by rewrite Hsec.
Qed.

(** The tests before the delivery is recorded change nothing. *)
Lemma webhook_signed r w :
  w_state (snd (webhook r w)) <> w_state w ->
  hk_event r = "push" /\ WebhookSecret config <> "" /\
  exists body, hk_body r = Ok body /\ Z.of_nat (String.length body) <= body_limit
    /\ validGitHubSignature (WebhookSecret config) body (hk_signature r) = true.
Proof.
  unfold githubWebhook.
  destruct (String.eqb_spec (hk_event r) "push") as [Hev|]; cbn [negb]; [|done].
  destruct (String.eqb_spec (WebhookSecret config) "") as [|Hsec]; [done|].
  destruct (hk_body r) as [body|]; [|done].
  destruct (Z.ltb_spec body_limit (Z.of_nat (String.length body))) as [|Hlen]; [done|].
  destruct (validGitHubSignature _ _ _) eqn:Hsig; cbn [negb]; [|done]. intros _. eauto 10.
Qed.

(** C13: a delivery queues a job only when it is an authenticated push of a commit of the
    application's own repository and branch, for an application that deploys on push
    without confirmation and whose secrets, if it has any, are unlocked; and a delivery
    whose signature does not verify changes nothing at all. *)
Theorem webhook_authorised r w :
  let s' := w_state (snd (webhook r w)) in
  (s' <> w_state w ->
   hk_event r = "push" /\ WebhookSecret config <> "" /\
   exists body, hk_body r = Ok body /\ Z.of_nat (String.length body) <= body_limit
     /\ validGitHubSignature (WebhookSecret config) body (hk_signature r) = true)
  /\ (t_deployments (hub_db s') <> t_deployments (hub_db (w_state w)) ->
      exists body, hk_body r = Ok body /\ authorised r body (w_state w)).
Proof.
  cbv zeta. split; [apply webhook_signed|]. unfold githubWebhook.
  destruct (hk_event r =? "push")%string; cbn [negb]; [|done].
  destruct (WebhookSecret config =? "")%string; [done|].
  destruct (hk_body r) as [body|]; [|done].
  destruct (body_limit <? _); [done|].
  destruct (validGitHubSignature _ _ _); cbn [negb]; [|done].
  intros Hc. exists body. split; [done|]. revert Hc.
  change (changed (w_state w) (claimed ← (if (trim_space (hk_delivery r) =? "")%string then mret (Ok true)
    else attempt (on_db (ClaimWebhookDelivery "github" (sha256_hex (trim_space (hk_delivery r))))));
    match claimed with
    | Err _ => mret (HTTPError 500 "could not record webhook")
    | Ok false => mret (Status 204)
    | Ok true => application_handler config body (hk_id r)
    end) w -> authorised r body (w_state w)).
  intros (claimed & w1 & E1 & Hs1 & Hc)%changed_bind; [| |reflexivity].
  - destruct claimed as [[|]|err]; [|by apply changed_ret in Hc|by apply changed_ret in Hc].
    by eapply application_handler_changed.
  - destruct (_ =? "")%string; [evolve|]. apply evolves_attempt. apply same_on_db.
    unfold ClaimWebhookDelivery. evolve. by destruct (_ !! _).
Qed.

Ltac answered := split; [done|]; split; [done|]; eexists; split; [reflexivity|simpl; tauto].

(** C33: a delivery id is used once: a signed request that repeats the id of a recorded
    delivery is answered without a job, whatever its body and whatever fails. *)
Theorem replay_queues_nothing r w :
  let delivery := trim_space (hk_delivery r) in
  delivery <> "" ->
  is_Some (t_deliveries (hub_db (w_state w)) !! ("github", sha256_hex delivery)) ->
  let s' := w_state (snd (webhook r w)) in
  t_deployments (hub_db s') = t_deployments (hub_db (w_state w))
  /\ t_deliveries (hub_db s') = t_deliveries (hub_db (w_state w))
  /\ exists reply, eval (webhook r) w = Ok reply /\ In (reply_code reply) [204; 400; 401; 500; 503].
Proof.
  intros delivery Hd [t Ht]. cbv zeta. unfold eval, githubWebhook. fold delivery.
  destruct (hk_event r =? "push")%string; cbn [negb]; [|answered].
  destruct (WebhookSecret config =? "")%string; [answered|].
  destruct (hk_body r) as [body|]; [|answered].
  destruct (body_limit <? _); [answered|].
  destruct (validGitHubSignature _ _ _); cbn [negb]; [|answered].
  rewrite (proj2 (String.eqb_neq _ _) Hd).
  assert (exists result w1, attempt (on_db (ClaimWebhookDelivery "github" (sha256_hex delivery))) w
    = (Ok result, w1) /\ result <> Ok true /\ hub_db (w_state w1) = hub_db (w_state w)) as (result & w1 & E & Hr & Hw).
  { rewrite eval_attempt. eexists _, _. split; [done|]. unfold on_db, zoom.
    set (v := World _ _ _ _). assert (w_state v = hub_db (w_state w)) as Hv by done.
    unfold ClaimWebhookDelivery, mbind, M_bind.
    destruct (now v) as [[n|?] v1] eqn:En; [|by unfold now in En; destruct (w_ticks v)].
    apply now_run in En. unfold step, step_with. pose proof (next_fault_state v1) as Hf.
    destruct (next_fault v1) as [[|?|?] v2]; simpl in *; rewrite ?Hf, ?En, ?Hv, ?Ht; simpl;
      rewrite ?Hf, ?En, ?Hv; done. }
  unfold mbind, M_bind. rewrite E. destruct result as [[|]|err]; simpl; try (rewrite Hw; answered).
  by destruct Hr.
Qed.
End webhook.

(** ** A delivery *)

Definition hook_config : Config := LoadConfig (fun key =>
  if (key =? "MINIDOCK_GITHUB_WEBHOOK_SECRET")%string then "s3cret" else "").
Definition push_body : string :=
  raw "{`ref`:`refs/heads/main`,`after`:`0123456789abcdef0123456789abcdef01234567`,`repository`:{`full_name`:`Acme/Site`}}".
Definition signed (body delivery : string) : hook_request :=
  HookRequest "push" ("sha256=" +:+ hex_encode (hmac_sha256 "s3cret" body)) delivery "2" (Ok body).
Definition hook_app : StoreTypes.Application := (sample_app 2 "two") <| a_DeployOnPush := true |>
  <| a_RequireConfirmation := false |>.
Definition hook_db : database := database0 <| t_applications := [sample_app 1 "one"; hook_app] |>.
Definition hub_world (db : database) (key : string) : world (hub machine) :=
  World (Hub db (Site (serving_blog []) [] None) key ∅ cache0) [] 63900000000000000000 [].
Definition hook_world : world (hub machine) := hub_world hook_db "".
Definition hook_seen : world (hub machine) :=
  hub_world (hook_db <| t_deliveries := {[("github", sha256_hex "d1") := 1]} |>) "".

Lemma webhook_authorised_witness :
  eval (githubWebhook hook_config (signed push_body "d1")) hook_world = Ok (Status 202)
  /\ exists body, hk_body (signed push_body "d1") = Ok body
       /\ authorised (signed push_body "d1") body (w_state hook_world).
Proof.
  split; [vm_compute; reflexivity|].
  apply (proj2 (webhook_authorised hook_config (signed push_body "d1") hook_world)).
  intros H%(f_equal (@length _)). revert H. vm_compute. discriminate.
Defined.

Lemma replay_queues_nothing_witness :
  t_deployments (hub_db (w_state (snd (githubWebhook hook_config (signed push_body "d1") hook_seen)))) = [].
Proof.
  apply (replay_queues_nothing hook_config (signed push_body "d1") hook_seen); [discriminate|].
  by eexists.
Defined.
