(* ===== verification/EvidenceFacts.v ===== *)
(** * The evidence of a release reads back *)

From S2P Require Import Prelude GoStrings Json JsonFacts Net Base64 Security Host Templates.
From S2P Require Import StoreTypes Executor Proxy BlueGreen Release Config Views Hub CICD.

(** ** Maps of strings as JSON *)

Lemma sorted_pairs_perm {A} (m : gmap string A) : sorted_pairs m ≡ₚ map_to_list m.
Proof. apply merge_sort_Permutation. Qed.

Lemma sorted_pairs_NoDup {A} (m : gmap string A) : NoDup (sorted_pairs m).*1.
Proof. rewrite sorted_pairs_perm. apply NoDup_fst_map_to_list. Qed.

Lemma sorted_pairs_lookup {A} (m : gmap string A) k v : In (k, v) (sorted_pairs m) <-> m !! k = Some v.
Proof. rewrite <- elem_of_map_to_list, <- list_elem_of_In. by rewrite sorted_pairs_perm. Qed.

Lemma integral_map m : integral (json_of_map m) = true.
Proof. simpl. apply forallb_forall. intros [k j] ([k' v] & [= <- <-] & _)%in_map_iff. done. Qed.

(** Adding the sorted members of a map one by one rebuilds it. *)
Definition add_members {A} (m : gmap string A) (l : list (string * A)) : gmap string A :=
  foldl (fun m kv => <[kv.1 := kv.2]> m) m l.

Lemma add_members_list {A} (l : list (string * A)) m :
  NoDup l.*1 -> (forall k, k ∈ l.*1 -> m !! k = None) -> add_members m l = list_to_map l ∪ m.
Proof.
  revert m. induction l as [|[k v] l IH]; intros m Hl Hm; [by rewrite list_to_map_nil, left_id_L by exact _|].
  unfold add_members in *. simpl. apply NoDup_cons in Hl as [Hk Hl]. rewrite IH; [|done|].
  - rewrite <- insert_union_l, insert_union_r; [done|]. by apply not_elem_of_list_to_map.
  - intros k' Hk'. rewrite lookup_insert_ne by (intros ->; done). apply Hm. by right.
Qed.

Lemma add_members_sorted {A} (m : gmap string A) : add_members ∅ (sorted_pairs m) = m.
Proof.
  rewrite add_members_list; [|apply sorted_pairs_NoDup|done]. rewrite right_id_L by exact _.
  rewrite (list_to_map_proper _ (map_to_list m)); [apply list_to_map_to_list|apply sorted_pairs_NoDup|apply sorted_pairs_perm].
Qed.

Lemma decode_entries_texts l m :
  decode_entries m (map (fun kv => (kv.1, JStr kv.2)) l) = Some (add_members m l).
Proof. revert m. induction l as [|[k v] l IH]; intros m; [done|]. apply IH. Qed.

(** A map of strings decodes to itself. *)
Lemma decode_map_json m : decode_map None (json_of_map m) = Some (Some m).
Proof. unfold decode_map, json_of_map. rewrite decode_entries_texts. simpl. by rewrite add_members_sorted. Qed.

(** ** One member of an object *)

Lemma decode_field_none {A} name (dec : decoder A) a kvs :
  (forall k v, In (k, v) kvs -> equal_fold k name = false) -> decode_field name dec a kvs = Some a.
Proof.
  induction kvs as [|[k v] kvs IH]; intros Hk; [done|]. simpl. rewrite (Hk k v) by (by left).
  apply IH. intros k' v' Hin. apply (Hk k' v'). by right.
Qed.

Lemma decode_field_one {A} name (dec : decoder A) a kvs v :
  NoDup kvs.*1 -> In (name, v) kvs ->
  (forall k v, In (k, v) kvs -> equal_fold k name = true -> k = name) ->
  decode_field name dec a kvs = dec a v.
Proof.
  intros Hd Hin Hk. induction kvs as [|[k' v'] kvs IH]; [done|]. simpl.
  apply NoDup_cons in Hd as [Hk' Hd]. destruct Hin as [[= -> ->]|Hin].
  - unfold equal_fold. rewrite String.eqb_refl. destruct (dec a v) as [b|]; [|done]. simpl.
    apply decode_field_none. intros k v0 Hin. apply not_true_iff_false. intros E.
    apply (Hk k v0) in E; [|by right]. subst. apply Hk'. apply list_elem_of_In.
    apply in_map_iff. by exists (name, v0).
  - destruct (equal_fold k' name) eqn:E; [|apply IH; [done|done|intros k x Hx; apply (Hk k x); by right]].
    apply (Hk k' v') in E; [|by left]. subst. destruct Hk'. apply list_elem_of_In.
    apply in_map_iff. by exists (name, v).
Qed.

(** ** Manifests *)

Definition effective_key : string := "effective_runtime_configuration".

(** What MiniDock writes: integers, texts and objects, and no second spelling of the key of
    the effective configuration. *)
Definition plain_manifest (manifest : string) : Prop :=
  map_Forall (fun k v => integral v = true /\ (equal_fold k effective_key = true -> k = effective_key))
    (manifest_members manifest).

(** The members of a recorded manifest. *)
Definition recorded_members (manifest : string) (values : gmap string string) (id : string)
    : gmap string json :=
  let value := manifest_members manifest in
  let value := if negb (id =? "")%string then <["observed_container_id" := JStr id]> value else value in
  <[effective_key := json_of_map values]> value.

Lemma release_manifest_members manifest values id :
  releaseManifest manifest (NonSecretRuntimeConfiguration values) id
  = marshal (JObj (sorted_pairs (recorded_members manifest values id))).
Proof.
  unfold releaseManifest. assert (NonSecretRuntimeConfiguration values =? "" = false)%string as -> by done.
  unfold NonSecretRuntimeConfiguration. rewrite parse_marshal by apply integral_map. done.
Qed.

Lemma recorded_plain manifest values id : plain_manifest manifest ->
  map_Forall (fun k v => integral v = true /\ (equal_fold k effective_key = true -> k = effective_key))
    (recorded_members manifest values id).
Proof.
  intros Hm. unfold recorded_members. apply map_Forall_insert_2; [split; [apply integral_map|done]|].
  destruct (negb _); [|done]. apply map_Forall_insert_2; [|done]. split; [done|]. by vm_compute.
Qed.

Lemma parse_recorded members :
  map_Forall (fun k v => integral v = true /\ (equal_fold k effective_key = true -> k = effective_key)) members ->
  parse (marshal (JObj (sorted_pairs members))) = Some (JObj (sorted_pairs members)).
Proof.
  intros Hm. apply parse_marshal. simpl. apply forallb_forall. intros [k v] Hin%sorted_pairs_lookup.
  by apply Hm in Hin as [? _].
Qed.

(** C26: a rollback restores the recorded configuration.  Whatever manifest the job had and
    whatever container id was observed, the manifest recorded for a release reads back as
    exactly the public values it ran with; every other value the container gets is one that
    was not public before the rollback (a secret), and the evidence is recomputed. *)
Theorem rollback_restores_configuration (sha : string -> string) manifest values id configuration :
  plain_manifest manifest ->
  let recorded := releaseManifest manifest (NonSecretRuntimeConfiguration values) id in
  exists restored, rollbackConfiguration sha configuration recorded = Ok restored
    /\ dc_PublicRuntime restored = values
    /\ dc_EffectiveRuntimeConfiguration restored = NonSecretRuntimeConfiguration values
    /\ dc_ConfigurationDigest restored = PublicConfigurationDigest sha values (dc_BuildArgs configuration)
    /\ (forall name, dc_Runtime restored !! name =
         match values !! name with
         | Some value => Some value
         | None => match dc_PublicRuntime configuration !! name with
                   | Some _ => None
                   | None => dc_Runtime configuration !! name
                   end
         end)
    /\ plain_manifest recorded.
Proof.
  intros Hm recorded. pose proof (recorded_plain manifest values id Hm) as Hp.
  assert (parse recorded = Some (JObj (sorted_pairs (recorded_members manifest values id)))) as Er.
  { unfold recorded. rewrite release_manifest_members. by apply parse_recorded. }
  unfold rollbackConfiguration. rewrite Er. cbn [members mbind option_bind].
  change "effective_runtime_configuration" with effective_key.
  rewrite (decode_field_one _ _ _ _ (json_of_map values)); [|apply sorted_pairs_NoDup| |].
  2:{ apply sorted_pairs_lookup. apply lookup_insert_eq. }
  2:{ intros k v Hin%sorted_pairs_lookup. by apply Hp in Hin as [_ ?]. }
  rewrite decode_map_json. eexists. split; [done|]. split_and!; try done.
  - intros name. simpl. rewrite lookup_union. destruct (values !! name) as [v|]; [by destruct (filter _ _ !! _)|].
    rewrite (left_id_L None _).
    destruct (dc_PublicRuntime configuration !! name) eqn:Ep.
    + apply map_lookup_filter_None. right. intros v _ Hf. simpl in Hf. congruence.
    + destruct (dc_Runtime configuration !! name) as [v|] eqn:Ev.
      * apply map_lookup_filter_Some. done.
      * apply map_lookup_filter_None. by left.
  - unfold plain_manifest, manifest_members. rewrite Er.
    change (member_map ?l) with (add_members ∅ l). by rewrite add_members_sorted.
Qed.

(** The manifest of a queued job is plain. *)
Lemma queued_manifest_plain application : plain_manifest (queued_manifest application).
Proof.
  unfold plain_manifest, manifest_members, queued_manifest. rewrite parse_marshal by done.
  unfold member_map. simpl.
  repeat (apply map_Forall_insert_2; [split; [done|by vm_compute]|]). apply map_Forall_empty.
Qed.

Definition go_app : StoreTypes.Application :=
  MkApplication 1 "blog" "https://github.com/acme/blog" "main" "." "go" "" "" 8080 "blog.example.com"
    "docker" false false true 0 "" 0.
Definition old_values : gmap string string := {["PORT" := "8080"]}.
Definition current : DeploymentConfiguration := DeploymentConfiguration0
  <| dc_PublicRuntime := {["DEBUG" := "1"]} |>
  <| dc_Runtime := <["TOKEN" := "secret"]> {["DEBUG" := "1"]} |>.

Lemma rollback_restores_configuration_witness :
  exists restored, rollbackConfiguration hex_encode current
      (releaseManifest (queued_manifest go_app) (NonSecretRuntimeConfiguration old_values) "c0ffee") = Ok restored
    /\ dc_Runtime restored !! "PORT" = Some "8080" /\ dc_Runtime restored !! "DEBUG" = None
    /\ dc_Runtime restored !! "TOKEN" = Some "secret".
Proof.
  destruct (rollback_restores_configuration hex_encode (queued_manifest go_app) old_values "c0ffee" current
    (queued_manifest_plain go_app)) as (restored & E & _ & _ & _ & Hr & _).
  exists restored. split; [exact E|]. rewrite !Hr. repeat split.
Defined.

(** ** The log of a job *)

(** The bytes a writer keeps: it is given at most the limit and takes all of them. *)
Definition whole (s : string) : nat * option error := (String.length s, None).

Fixpoint write_all (ps : list string) (w : limitedLogWriter) : list (Z * option error) * limitedLogWriter :=
  match ps with
  | [] => ([], w)
  | p :: ps =>
    let '(r, w) := Write whole p w in
    let '(rs, w) := write_all ps w in (r :: rs, w)
  end.

Lemma take_string_all n s : (String.length s <= n)%nat -> take_string n s = s.
Proof. revert n. induction s as [|c s IH]; intros [|n] Hn; simpl in *; try done; [lia|]. rewrite IH; [done|lia]. Qed.

Lemma take_string_append n a b :
  take_string n (a +:+ b) = take_string n a +:+ take_string (n - String.length a) b.
Proof.
  revert n. induction a as [|c a IH]; intros n; simpl; [by rewrite Nat.sub_0_r; destruct n|].
  destruct n as [|n]; simpl; [by destruct b|]. by rewrite IH.
Qed.

Lemma length_take_string n s : String.length (take_string n s) = Nat.min n (String.length s).
Proof. revert n. induction s as [|c s IH]; intros [|n]; simpl; try done. by rewrite IH. Qed.

(** The writer has kept the start of what it was given. *)
Definition kept (given : string) (w : limitedLogWriter) : Prop :=
  lw_contents w = take_string (Z.to_nat (lw_Limit w)) given
  /\ lw_written w = Z.of_nat (String.length (lw_contents w)).

Lemma write_keeps given p w : kept given w ->
  let '(r, w') := Write whole p w in
  r = (Z.of_nat (String.length p), None) /\ kept (given +:+ p) w' /\ lw_Limit w' = lw_Limit w.
Proof.
  intros [Hc Hw]. unfold Write, whole, kept.
  destruct (Z.leb_spec (lw_Limit w) 0) as [Hl|Hl]; cbn [orb].
  - replace (Z.to_nat (lw_Limit w)) with 0%nat in * by lia. split; [done|]. split; [|done].
    rewrite Hw, Hc. by destruct given, p.
  - pose proof (f_equal String.length Hc) as Hn. rewrite length_take_string in Hn.
    destruct (Z.leb_spec (lw_Limit w) (lw_written w)) as [Hf|Hf].
    + split; [done|]. split; [|done]. split; [|done]. rewrite take_string_append, Hc.
      replace (Z.to_nat (lw_Limit w) - String.length given)%nat with 0%nat by lia.
      destruct p; simpl; by rewrite append_nil_r.
    + assert (String.length given < Z.to_nat (lw_Limit w))%nat as Hg by lia.
      rewrite (take_string_all _ given) in Hc by lia.
      set (n := (Z.to_nat (lw_Limit w) - String.length given)%nat).
      assert ((if lw_Limit w - lw_written w <? Z.of_nat (String.length p)
               then take_string (Z.to_nat (lw_Limit w - lw_written w)) p else p) = take_string n p) as ->.
      { rewrite Hw, Hc. unfold n. destruct (Z.ltb_spec (lw_Limit w - Z.of_nat (String.length given))
          (Z.of_nat (String.length p))); [f_equal; lia|]. symmetry. apply take_string_all. lia. }
      cbn -[String.length]. rewrite (take_string_all _ (take_string n p)) by done.
      rewrite take_string_append, length_append, (take_string_all _ given), Hc, Hw, Hc by lia.
      split; [done|]. split; [split; [done|lia]|done].
Qed.

(** The log of a job is the beginning of its output: after any sequence of writes the
    file holds exactly the first [Limit] bytes of what was written, nothing when there is no
    limit, and every write reports its whole length, so the runtime command never sees a
    short write. *)
Theorem log_is_bounded_prefix limit ps :
  let '(results, w) := write_all ps (MkLimitedLogWriter "" limit 0) in
  results = map (fun p => (Z.of_nat (String.length p), None)) ps
  /\ lw_contents w = take_string (Z.to_nat limit) (String.concat "" ps).
Proof.
  assert (forall given w, kept given w ->
    let '(results, w') := write_all ps w in
    results = map (fun p => (Z.of_nat (String.length p), None)) ps
    /\ kept (given +:+ String.concat "" ps) w' /\ lw_Limit w' = lw_Limit w) as Hall.
  { induction ps as [|p ps IH]; intros given w Hk; [by rewrite append_nil_r|]. simpl write_all.
    pose proof (write_keeps given p w Hk) as Hp. destruct (Write whole p w) as [r w1].
    destruct Hp as (-> & Hk1 & Hl1). specialize (IH _ _ Hk1). destruct (write_all ps w1) as [rs w2].
    destruct IH as (-> & Hk2 & Hl2). split; [done|]. split; [|congruence].
    rewrite <- append_assoc in Hk2. destruct ps as [|q ps]; simpl in *; [by rewrite append_nil_r in Hk2|done]. }
  specialize (Hall "" (MkLimitedLogWriter "" limit 0)). destruct (write_all ps _) as [rs w].
  destruct Hall as (-> & [Hc _] & Hl); [split; [simpl; by destruct (Z.to_nat limit)|done]|].
  split; [done|]. by rewrite Hc, Hl.
Qed.
