(* ===== verification/JobFacts.v ===== *)
(** * How a job ends

    The recorded status of a job, the rollback it may queue, and what serves after it. *)

From S2P Require Import Prelude GoStrings Json Net Base64 Security Host Templates.
From S2P Require Import StoreTypes Executor Proxy BlueGreen Engine BlueGreenFacts Release ReleaseFacts.
From S2P Require Import StoreSettings StoreApplications StoreAccess StoreDeployments StoreQueueFacts.
From S2P Require Import Config Views Hub CICD.

(** ** Without faults of the store *)

Lemma faultless_on_db {H A} (m : DB A) : faultless m -> faultless (on_db (H := H) m).
Proof. intros Hm w Hw. unfold on_db, zoom. specialize (Hm (part hub_db w) Hw). unfold part in Hm. by destruct (m _). Qed.
Lemma faultless_on_site {H A} (m : EM H A) : faultless m -> faultless (on_site m).
Proof. intros Hm w Hw. unfold on_site, zoom. specialize (Hm (part hub_site w) Hw). unfold part in Hm. by destruct (m _). Qed.

Ltac faultless :=
  repeat lazymatch goal with
  | |- faultless (update_deployments _ _) => refine (faultless_step _)
  | |- faultless (insert_deployment _) => refine (faultless_step _)
  | |- faultless (on_db _) => refine (faultless_on_db _ _)
  | |- faultless (on_site _) => refine (faultless_on_site _ _)
  | |- faultless (host_step _) => refine (faultless_step _)
  | |- _ => faultless_step
  end.

Lemma faultless_op op : faultless (run_op op).
Proof.
  destruct op; simpl; unfold StartDeployment, QueueDeployment, NextQueuedDeployment,
    HeartbeatDeployment, CancelDeployment, RecoverInterruptedDeployments, FinishDeployment,
    SetDeploymentImage, SetDeploymentReleaseMetadata, SetDeploymentFailure, SetDeploymentStage,
    SetDeploymentStageDurations, AddDeploymentEvent, DeleteDeployments,
    DeploymentCancellationRequested; cbv zeta; faultless.
Qed.

(** ** Rows that stay *)

(** Every row is still there, with its status and its cancellation request. *)
Definition rows_stay (t t' : list deployment_row) : Prop :=
  forall r, In r t -> exists r', In r' t' /\ r_id r' = r_id r /\ r_status r' = r_status r
    /\ r_cancellation_requested_at r' = r_cancellation_requested_at r.

#[export] Instance rows_stay_preorder : PreOrder rows_stay.
Proof.
  split; [intros t r Hr; eauto 6|]. intros a b c Hab Hbc r Hr.
  destruct (Hab r Hr) as (r1 & H1 & E1 & S1 & C1). destruct (Hbc r1 H1) as (r2 & H2 & E2 & S2 & C2).
  exists r2. split; [done|]. split_and!; congruence.
Qed.

Lemma rows_stay_update p f t :
  (forall r, r_id (f r) = r_id r /\ r_status (f r) = r_status r
     /\ r_cancellation_requested_at (f r) = r_cancellation_requested_at r) ->
  rows_stay t (update_where p f t).
Proof.
  intros Hf r Hr. exists (if p r then f r else r). split; [apply update_where_In; eauto|].
  by destruct (p r).
Qed.

Lemma rows_stay_insert r t : rows_stay t (t ++ [r]).
Proof. intros x Hx. exists x. split; [apply in_or_app; auto|done]. Qed.

(** The fields a worker reports with change no status. *)
Lemma stays_metadata id m : evolves (on_table rows_stay) (SetDeploymentReleaseMetadata id m).
Proof. unfold SetDeploymentReleaseMetadata. deployment_writes. intros _. by apply rows_stay_update. Qed.
Lemma stays_failure id a b c : evolves (on_table rows_stay) (SetDeploymentFailure id a b c).
Proof. unfold SetDeploymentFailure. deployment_writes. intros _. by apply rows_stay_update. Qed.
Lemma stays_durations id a b c d f g : evolves (on_table rows_stay) (SetDeploymentStageDurations id a b c d f g).
Proof. unfold SetDeploymentStageDurations. deployment_writes. intros _. by apply rows_stay_update. Qed.
Lemma stays_queue app action log : evolves (on_table rows_stay) (QueueDeployment app action log).
Proof. unfold QueueDeployment. deployment_writes. intros _. apply rows_stay_insert. Qed.

(** The invariant, as a statement of the queue keeps it. *)
Lemma ignored_keeps {A} (m : DB A) : evolves (on_table (keeps table_inv)) (ignore m) -> evolves (on_table (keeps table_inv)) m.
Proof. intros Hm w. specialize (Hm w). unfold ignore in Hm. by destruct (m w). Qed.

(** ** Computations that always return *)

Abbreviation total := (errors (fun _ => False)).

Lemma total_run {S A} (m : M S A) w : total m -> exists a, m w = (Ok a, snd (m w)).
Proof. intros Hm. destruct (m w) as [[a|err] w'] eqn:E; [eauto|]. by apply Hm in E. Qed.

Lemma total_on_db {H A} (m : DB A) : total m -> total (on_db (H := H) m).
Proof. intros Hm w err w' (v & E & _)%on_db_run. by apply Hm in E. Qed.
Lemma total_print {H} line : total (print (H := H) line).
Proof. done. Qed.
Lemma total_peek {H A} (f : hub H -> A) : total (peek f).
Proof. done. Qed.

Ltac total := repeat first [errors_step | apply total_on_db | apply total_print | apply total_peek].

Lemma total_op op : total (run_op op).
Proof. destruct op; simpl; apply errors_ignore. Qed.

Lemma total_meanwhile id alive during : total (meanwhile id alive during).
Proof.
  revert alive. induction during as [|[|op] during IH]; intros alive; simpl; [total| |].
  - destruct alive; simpl; [|apply IH]. total; apply IH.
  - total; [apply total_op|apply IH].
Qed.

Lemma total_outcome {H} id action err : total (outcome (H := H) id action err).
Proof. unfold outcome, record_failure. total. Qed.

(** ** While the executor works *)

Definition no_delete (a : activity) : bool :=
  match a with Tick => true | Other op => negb (is_delete op) end.

(** The queue a job ends in: its row is there. *)
Definition has_row (id : Z) (t : list deployment_row) : Prop := exists r, In r t /\ r_id r = id.
Definition holds (id : Z) (t : list deployment_row) : Prop := table_inv t /\ has_row id t.

Lemma op_holds id op : is_delete op = false -> evolves (on_table (keeps (holds id))) (run_op op).
Proof.
  intros Hd w [Hi (r & Hr & <-)]. split; [by apply run_op_keeps_inv|].
  destruct (run_op_no_requeue op Hd w) as [_ Hk]. by apply Hk.
Qed.

Lemma beat_holds id job : evolves (on_table (keeps (holds id))) (attempt (HeartbeatDeployment job)).
Proof.
  intros w. pose proof (op_holds id (OpHeartbeat job) eq_refl w) as Hw. simpl in Hw.
  unfold ignore, attempt in *. by destruct (HeartbeatDeployment job w).
Qed.

Lemma meanwhile_holds id alive during : forallb no_delete during = true ->
  evolves (on_table (keeps (holds id))) (meanwhile id alive during).
Proof.
  revert alive. induction during as [|[|op] during IH]; intros alive Hd; simpl in *; [evolve| |].
  - destruct alive; simpl; [|by apply IH]. evolve_step; [apply beat_holds|].
    evolve_step; [by apply IH|]. evolve_step; [by apply IH|evolve].
  - apply andb_prop in Hd as [Ho Hd]. apply negb_true_iff in Ho.
    evolve_step; [by apply op_holds|by apply IH].
Qed.

Lemma faultless_meanwhile id alive during : faultless (meanwhile id alive during).
Proof.
  revert alive. induction during as [|[|op] during IH]; intros alive; simpl; [faultless| |].
  - destruct alive; simpl; [|apply IH]. unfold HeartbeatDeployment, DeploymentCancellationRequested.
    faultless; apply IH.
  - faultless; [apply faultless_op|apply IH].
Qed.

(** ** The outcome *)

Lemma finished_index p f t : (forall r, active (f r) = false) ->
  one_active_index t = true -> one_active_index (update_where p f t) = true.
Proof.
  intros Hf. unfold one_active_index. rewrite !bool_decide_eq_true.
  assert (select_where active (update_where p f t)
    = List.filter (fun r => negb (p r)) (select_where active t)) as ->; [|apply NoDup_filter_sub].
  unfold select_where, update_where. induction t as [|r t IH]; [done|]. simpl.
  destruct (p r) eqn:Ep; [rewrite Hf|]; destruct (active r); simpl; rewrite ?Ep, IH; done.
Qed.

(** The status a job is given, by the error of its worker. *)
Definition status_of (cancelled : option Time) (err : option error) : string :=
  match cancelled, err with
  | Some _, _ => "cancelled"
  | None, Some _ => "failed"
  | None, None => "successful"
  end.

Lemma select_row r t : table_inv t -> In r t -> select_where (fun x => r_id x =? r_id r) t = [r].
Proof. intros (Hs & _) Hin. exact (select_key r_id t r Hs Hin). Qed.

Lemma cancellation_read r (v : world database) :
  w_faults v = [] -> db_inv (w_state v) -> In r (t_deployments (w_state v)) ->
  DeploymentCancellationRequested (r_id r) v
  = (Ok (bool_decide (is_Some (r_cancellation_requested_at r))), v).
Proof.
  intros Hf Hi Hin. unfold DeploymentCancellationRequested, query, step, step_with, next_fault.
  rewrite Hf, (select_row r _ Hi Hin). by destruct v.
Qed.

Lemma finish_write r (v : world database) status :
  w_faults v = [] -> db_inv (w_state v) -> In r (t_deployments (w_state v)) ->
  status <> "queued" -> status <> "running" ->
  exists r', In r' (t_deployments (exec (FinishDeployment (r_id r) status) v)) /\ r_id r' = r_id r
    /\ r_cancellation_requested_at r' = r_cancellation_requested_at r
    /\ r_status r' = match r_cancellation_requested_at r with Some _ => "cancelled" | None => status end.
Proof.
  intros Hf (Hs & Hidx & _) Hin Hq Hr. unfold exec, FinishDeployment, mbind, M_bind.
  destruct (now v) as [[t|?] v1] eqn:En; [|by unfold now in En; destruct (w_ticks v)].
  assert (w_faults v1 = []) as Hf1
    by (pose proof (faultless_now v Hf) as Hw; by rewrite En in Hw).
  apply now_run in En. unfold update_deployments, step, step_with, next_fault. rewrite Hf1, En.
  unfold write_deployments.
  match goal with |- context [update_where ?p ?f _] => set (P := p); set (F := f) end.
  rewrite (finished_index P F); [|intros x; unfold F, active; destruct (r_cancellation_requested_at x)|done].
  - simpl. exists (F r). split; [|split_and!; done].
    change (In (F r) (update_where P F (t_deployments (w_state v)))).
    apply update_where_In. exists r. unfold P. by rewrite Z.eqb_refl.
  - done.
  - simpl. by rewrite (proj2 (String.eqb_neq _ _) Hq), (proj2 (String.eqb_neq _ _) Hr).
Qed.

Section jobs.
Context {H : Type} `{!Host H} (config : Config).
Implicit Types w : world (hub H).
Abbreviation table w := (t_deployments (hub_db (w_state w))).

(** Nothing failed yet, and the row is there. *)
Definition ready (id : Z) w : Prop := w_faults w = [] /\ holds id (table w).

Lemma ready_after {A} id (m : AM H A) w :
  faultless m -> evolves (on_database (on_table (keeps (holds id)))) m -> ready id w -> ready id (snd (m w)).
Proof. intros Hf Hm [Hw Hh]. split; [by apply Hf|]. by apply Hm. Qed.

Lemma stays_holds id R (m : DB R) : evolves (on_table (keeps table_inv)) m -> evolves (on_table rows_stay) m ->
  evolves (on_table (keeps (holds id))) m.
Proof.
  intros Hi Hs w [Hw (r & Hr & <-)]. split; [by apply Hi|].
  destruct (Hs w r Hr) as (r' & Hr' & E & _). by exists r'.
Qed.

Lemma keeps_of_op id op m : run_op op = ignore m -> evolves (on_table rows_stay) m ->
  evolves (on_table (keeps (holds id))) (m : DB unit).
Proof.
  intros E Hm. apply (stays_holds id _); [|done]. apply ignored_keeps. rewrite <- E. apply run_op_keeps_inv.
Qed.

Lemma faultless_outcome id action err : faultless (outcome (H := H) id action err).
Proof.
  unfold outcome, record_failure, print, DeploymentCancellationRequested, SetDeploymentFailure.
  faultless; first [done|by intros v Hv|destruct (FailureDetails _) as [[? ?] ?]; faultless].
Qed.

Lemma table_outcome id action err (R : relation (list deployment_row)) `{!PreOrder R} :
  (forall a b c, evolves (on_table R) (SetDeploymentFailure id a b c)) ->
  evolves (on_database (on_table R)) (outcome (H := H) id action err).
Proof.
  intros Hf. unfold outcome, record_failure, print. handle; unfold DeploymentCancellationRequested; handle; apply Hf.
Qed.

Lemma failure_holds id a b c : evolves (on_table (keeps (holds id))) (SetDeploymentFailure id a b c).
Proof. exact (keeps_of_op id (OpFailure id a b c) _ eq_refl (stays_failure id a b c)). Qed.

Lemma durations_holds id a b c d f g :
  evolves (on_table (keeps (holds id))) (SetDeploymentStageDurations id a b c d f g).
Proof. exact (keeps_of_op id (OpDurations id a b c d f g) _ eq_refl (stays_durations id a b c d f g)). Qed.

(** The status [outcome] answers. *)
Lemma outcome_status r action err w :
  ready (r_id r) w -> In r (table w) ->
  eval (outcome (r_id r) action err) w = Ok (status_of (r_cancellation_requested_at r) err).
Proof.
  intros [Hf [Hi _]] Hin. unfold eval, outcome.
  assert (attempt (on_db (DeploymentCancellationRequested (r_id r))) w
    = (Ok (Ok (bool_decide (is_Some (r_cancellation_requested_at r)))), w)) as E.
  { rewrite eval_attempt. unfold on_db, zoom. rewrite cancellation_read by done. simpl. by destruct w as [[] ? ? ?]. }
  unfold mbind at 1, M_bind at 1. rewrite E. cbn [mbind]. unfold mbind at 1, M_bind at 1. cbn.
  destruct (r_cancellation_requested_at r) as [t|]; [done|]. rewrite bool_decide_eq_false_2 by (by intros [? ?]).
  destruct err as [err|]; [|done]. cbn [status_of].
  match goal with |- fst ((?m ≫= ?k) w) = _ =>
    assert (total m) as Ht by (unfold record_failure; total) end.
  destruct (total_run _ w Ht) as [a Ea]. unfold mbind, M_bind. by rewrite Ea.
Qed.

(** What follows the outcome keeps the rows. *)
Lemma durations_step id R `{!PreOrder R} :
  (forall a b c d f g, evolves (on_table R) (SetDeploymentStageDurations id a b c d f g)) ->
  evolves (on_database (on_table R)) (record_durations (H := H) id).
Proof. intros Hd. unfold record_durations. handle. apply Hd. Qed.

Lemma queue_stays app action : evolves (on_database (on_table rows_stay)) (queueDeployment config app action).
Proof.
  unfold queueDeployment, queueDeploymentRef. handle;
    [apply stays_queue|unfold Application; evolve|apply stays_metadata].
Qed.

Lemma notify_stays app id action status err :
  evolves (on_database (on_table eq)) (notifyDeployment config app id action status err).
Proof. unfold notifyDeployment. handle. Qed.

(** The part of [finish_job] after the status is known. *)
Definition close_job (d : Deployment) (action : string) (application : StoreTypes.Application)
    (status : string) (err : option error) : AM H unit :=
  record_durations (d_ID d) ;;
  ignore (on_db (FinishDeployment (d_ID d) status)) ;;
  notifyDeployment config application (d_ID d) action status err ;;
  (if (status =? "failed")%string && (action =? "deploy")%string && a_AutoRollback application
      && shouldTriggerAutoRollback err then
     queued ← attempt (queueDeployment config (a_ID application) "auto_rollback");
     print (match queued with
            | Err err => "automatic rollback could not be queued: " +:+ error_message err
            | Ok _ => "automatic rollback queued after failed runtime health/routing"
            end)
   else mret tt) ;;
  match err with None => mret tt | Some err => fail err end.

Definition lost_lease (err lost : option error) : option error :=
  match err, lost with
  | None, Some lost => Some (ErrWrap "deployment lease lost" lost)
  | _, _ => err
  end.

Lemma finish_job_parts d action application during err :
  finish_job config d action application during err
  = (lost ← on_db (meanwhile (d_ID d) true during);
     status ← outcome (d_ID d) action (lost_lease err lost);
     close_job d action application status (lost_lease err lost)).
Proof. done. Qed.

Lemma total_notify app id action status err : total (notifyDeployment (H := H) config app id action status err).
Proof. unfold notifyDeployment. total. Qed.

(** The worker returns the error of its job. *)
Lemma close_result d action application status err w :
  eval (close_job d action application status err) w = match err with None => Ok tt | Some err => Err err end.
Proof.
  assert (forall A (m : AM H A) k w', total m -> (forall a w', fst (k a w') = match err with None => Ok tt | Some err => Err err end) ->
    fst ((m ≫= k) w') = (match err with None => Ok tt | Some err => Err err end : result unit)) as Hb.
  { intros A m k w' Hm Hk. destruct (total_run m w' Hm) as [a Ea]. unfold mbind, M_bind. rewrite Ea. apply Hk. }
  unfold eval, close_job. apply Hb; [unfold record_durations; total|intros _ w1].
  apply Hb; [apply errors_ignore|intros _ w2]. apply Hb; [apply total_notify|intros _ w3].
  apply Hb; [total|intros _ w4]. by destruct err.
Qed.

Lemma ignore_state {S A} (m : M S A) (v : world S) : snd (ignore m v) = snd (m v).
Proof. unfold ignore. by destruct (m v). Qed.

(** Closing a job whose row is [r]. *)
Lemma close_row d action application status err w r :
  ready (d_ID d) w -> In r (table w) -> r_id r = d_ID d ->
  status <> "queued" -> status <> "running" ->
  exists r', In r' (table (snd (close_job d action application status err w))) /\ r_id r' = d_ID d
    /\ r_cancellation_requested_at r' = r_cancellation_requested_at r
    /\ r_status r' = match r_cancellation_requested_at r with Some _ => "cancelled" | None => status end.
Proof.
  intros Hw Hin Hid Hq Hr. unfold close_job.
  set (m := record_durations (H := H) (d_ID d)).
  assert (ready (d_ID d) (snd (m w))) as Hw1.
  { apply ready_after; [unfold m, record_durations, SetDeploymentStageDurations; faultless; by intros v Hv| |done].
    apply durations_step; [exact _|]. intros. apply durations_holds. }
  assert (rows_stay (table w) (table (snd (m w)))) as Hs.
  { apply (durations_step (d_ID d) rows_stay). intros. apply stays_durations. }
  destruct (Hs r Hin) as (r1 & Hin1 & Hid1 & _ & Hc1).
  destruct (total_run m w) as [a Ea]; [unfold m, record_durations; total|].
  unfold mbind at 1, M_bind at 1. rewrite Ea. set (w1 := snd (m w)) in *. clearbody w1. clear Ea a m Hs Hw.
  unfold mbind at 1, M_bind at 1. destruct (ignore _ w1) as [[u|?] w2] eqn:E2; [|by destruct (errors_ignore (fun _ => False) _ _ _ _ E2)].
  pose proof (f_equal snd E2) as E2'. rewrite ignore_state in E2'. simpl in E2'.
  destruct Hw1 as [Hf1 [Hi1 _]].
  destruct (finish_write r1 (part hub_db w1) status) as (r2 & Hin2 & Hid2 & Hc2 & Hs2); try done.
  assert (In r2 (table w2)) as Hin2'.
  { rewrite Hid1, Hid in Hin2. rewrite <- E2'. unfold on_db, zoom, exec, part in *.
    destruct (FinishDeployment _ _ _) as [? v]. exact Hin2. }
  match goal with |- context [snd (?k w2)] => assert (evolves (on_database (on_table rows_stay)) k) as Hk end.
  { evolve_step; [|evolve_step; [|by evolve]].
    - intros v. pose proof (notify_stays application (d_ID d) action status err v) as Hn.
      unfold on_database, on_table in *. rewrite Hn. reflexivity.
    - destruct (_ && _); [|evolve]. evolve_step; [evolve_step; apply queue_stays|]. unfold print. handle. }
  destruct (Hk w2 r2 Hin2') as (r3 & Hin3 & Hid3 & Hs3 & Hc3). exists r3. split_and!; [done|congruence|congruence|].
  by rewrite Hs3, Hs2, Hc1.
Qed.

(** C15: every job is closed with the status it deserves.  From the moment the executor
    returns, with a store that works and whatever other requests do meanwhile: the row of
    the job ends cancelled if its cancellation was requested, and otherwise successful
    exactly when the worker returns no error; an error of the executor is never lost. *)
Theorem every_job_is_closed d action application during err w :
  w_faults w = [] -> db_inv (hub_db (w_state w)) -> has_row (d_ID d) (table w) ->
  forallb no_delete during = true ->
  let '(res, w') := finish_job config d action application during err w in
  (exists r, In r (table w') /\ r_id r = d_ID d
     /\ r_status r = match r_cancellation_requested_at r, res with
                     | Some _, _ => "cancelled"
                     | None, Ok _ => "successful"
                     | None, Err _ => "failed"
                     end)
  /\ forall cause, err = Some cause -> res = Err cause.
Proof.
  intros Hf Hi Hrow Hd. rewrite finish_job_parts.
  assert (ready (d_ID d) w) as Hw by (split; [done|]; split; [exact Hi|done]).
  destruct (total_run (on_db (H := H) (meanwhile (d_ID d) true during)) w) as [lost E1];
    [apply total_on_db, total_meanwhile|].
  unfold mbind at 1, M_bind at 1. rewrite E1. set (w1 := snd _) in *.
  assert (ready (d_ID d) w1) as Hw1.
  { apply ready_after; [apply faultless_on_db, faultless_meanwhile| |done].
    handle. by apply meanwhile_holds. }
  clearbody w1. set (err' := lost_lease err lost).
  pose proof Hw1 as [_ [_ (r1 & Hin1 & Hid1)]].
  pose proof (outcome_status r1 action err' w1) as E2. rewrite Hid1 in E2. specialize (E2 Hw1 Hin1).
  apply eval_run in E2. unfold mbind at 1, M_bind at 1. rewrite E2.
  set (w2 := snd (outcome _ _ _ _)) in *. assert (ready (d_ID d) w2) as Hw2.
  { apply ready_after; [apply faultless_outcome| |done].
    apply table_outcome; [exact _|]. intros. apply failure_holds. }
  assert (rows_stay (table w1) (table w2)) as Hs.
  { apply (table_outcome (d_ID d) action err' rows_stay). intros. apply stays_failure. }
  destruct (Hs r1 Hin1) as (r2 & Hin2 & Hid2 & _ & Hc2). clearbody w2.
  destruct (close_row d action application (status_of (r_cancellation_requested_at r1) err') err' w2 r2)
    as (r3 & Hin3 & Hid3 & Hc3 & Hs3); try done; try congruence.
  1, 2: by destruct (r_cancellation_requested_at r1), err'.
  pose proof (close_result d action application (status_of (r_cancellation_requested_at r1) err') err' w2) as Hres.
  unfold eval in Hres. destruct (close_job _ _ _ _ _ w2) as [res w3]. simpl in *. subst res. split.
  - exists r3. split; [done|]. split; [done|]. rewrite Hs3, Hc3, Hc2.
    destruct (r_cancellation_requested_at r1); [done|]. by destruct err'.
  - intros cause ->. done.
Qed.
End jobs.

(** ** The rollback a job may queue *)

Definition same_length (a b : list deployment_row) : Prop := length a = length b.
#[export] Instance same_length_preorder : PreOrder same_length.
Proof. split; unfold same_length; congruence. Qed.

Lemma length_update p f (t : list deployment_row) : same_length t (update_where p f t).
Proof. unfold same_length, update_where. by rewrite length_map. Qed.

(** A worker's statements about its own job only update rows. *)
Ltac update_only := deployment_writes; try reflexivity; intros; apply length_update.

Lemma length_next : evolves (on_table same_length) NextQueuedDeployment.
Proof. unfold NextQueuedDeployment. update_only. Qed.
Lemma length_finish id s : evolves (on_table same_length) (FinishDeployment id s).
Proof. unfold FinishDeployment. update_only. Qed.
Lemma length_image id s : evolves (on_table same_length) (SetDeploymentImage id s).
Proof. unfold SetDeploymentImage. update_only. Qed.
Lemma length_metadata id m : evolves (on_table same_length) (SetDeploymentReleaseMetadata id m).
Proof. unfold SetDeploymentReleaseMetadata. update_only. Qed.
Lemma length_failure id a b c : evolves (on_table same_length) (SetDeploymentFailure id a b c).
Proof. unfold SetDeploymentFailure. update_only. Qed.
Lemma length_durations id a b c d f g : evolves (on_table same_length) (SetDeploymentStageDurations id a b c d f g).
Proof. unfold SetDeploymentStageDurations. update_only. Qed.
Lemma length_call id c : evolves (on_table same_length) (run_call id c).
Proof.
  destruct c; simpl; [unfold SetDeploymentStage; update_only|].
  unfold AddDeploymentEvent. deployment_writes. unfold on_table. by destruct (has_deployment _ _).
Qed.
Lemma length_cancel id : evolves (on_table same_length) (DeploymentCancellationRequested id).
Proof. unfold DeploymentCancellationRequested. evolve. Qed.
#[export] Hint Resolve length_next length_finish length_image length_metadata length_failure
  length_durations length_call length_cancel : evolve.

(** Tables the jobs do not share. *)
Lemma audit_table R `{!PreOrder R} app env target name action :
  evolves (on_table R) (insert_secret_audit app env target name action).
Proof.
  unfold insert_secret_audit. evolve. unfold on_table. destruct (has_application _ _); simpl; reflexivity.
Qed.

Section queued_rollback.
Context {H : Type} `{!Host H} `{!Crypto}.
Context (Key : Type) (parseRSAPrivateKey : string -> result Key)
  (SignPKCS1v15 : Key -> string -> result string).
Context (adapters : gmap string (RuntimeAdapter H)) (proxy : option (ProxyAdapter H)).
Context (config : Config) (e : Executor).
Abbreviation run_next := (runNextDeployment Key parseRSAPrivateKey SignPKCS1v15 adapters proxy config e).
Implicit Types w : world (hub H).
Abbreviation table w := (t_deployments (hub_db (w_state w))).

Section any_table.
Context (R : relation (list deployment_row)) `{!PreOrder R}.

Lemma table_secrets app env target :
  evolves (on_database (on_table R)) (deploymentSecrets (H := H) app env target).
Proof.
  assert (forall key metadata values, evolves (on_database (on_table R))
    (decrypt_all (H := H) app env target key metadata values)) as Hd.
  { intros key metadata. induction metadata as [|m metadata IH]; intros values; simpl; handle.
    - unfold ApplicationSecret, Secret. evolve.
    - apply IH. }
  unfold deploymentSecrets. handle; [unfold ApplicationSecrets; evolve|apply Hd|].
  unfold RecordSecretUse. evolve. by apply audit_table.
Qed.

Lemma table_configuration app env :
  evolves (on_database (on_table R)) (deploymentConfiguration (H := H) app env).
Proof.
  unfold deploymentConfiguration, configurationValues.
  handle; first [apply table_secrets|unfold ApplicationConfiguration; evolve].
Qed.

Lemma table_reuse app c : evolves (on_database (on_table R)) (reuse_failed (H := H) app c).
Proof. unfold reuse_failed. handle. unfold LatestFailedDeployment, query_deployment. evolve. Qed.

Lemma table_open d : evolves (on_database (on_table R)) (open_job (H := H) d).
Proof. unfold open_job. handle. Qed.
End any_table.

Lemma length_tracked id m : evolves (on_database (on_table same_length)) (tracked (H := H) id m).
Proof. unfold tracked. handle. auto with evolve. Qed.

Lemma length_run_action action d application c :
  evolves (on_database (on_table same_length))
    (run_action Key parseRSAPrivateKey SignPKCS1v15 adapters proxy e action d application c).
Proof.
  assert (forall target, evolves (on_table same_length) target -> evolves (on_database (on_table same_length))
    (run_rollback adapters proxy e d application c target)) as Hr.
  { intros target Ht. unfold run_rollback. repeat (handle || apply length_tracked);
      first [exact Ht|auto with evolve]. }
  unfold run_action. repeat destruct (_ =? _)%string; [|apply Hr|apply Hr|handle].
  - unfold run_deploy. repeat (handle || apply length_tracked); auto with evolve.
  - unfold PreviousSuccessfulDeployment, query_deployment. evolve.
  - unfold LatestSuccessfulDeployment, query_deployment. evolve.
Qed.

(** One more row: a queued automatic rollback of the application. *)
Definition queued_rollback_of (app : Z) (r : deployment_row) : Prop :=
  r_action r = "auto_rollback" /\ r_status r = "queued" /\ r_application_id r = app.
Definition grown (n : nat) (app : Z) (t : list deployment_row) : Prop :=
  length t = n \/ exists t1 r, t = t1 ++ [r] /\ length t1 = n /\ queued_rollback_of app r.

Lemma grown_update n app p f t :
  (forall r, r_action (f r) = r_action r /\ r_status (f r) = r_status r /\ r_application_id (f r) = r_application_id r) ->
  grown n app t -> grown n app (update_where p f t).
Proof.
  intros Hf [Hn|(t1 & r & -> & Hn & Hr)]; [left; by rewrite <- length_update|right].
  exists (update_where p f t1), (if p r then f r else r). unfold update_where.
  rewrite map_app, length_map. split_and!; try done. destruct (p r); [|done].
  destruct (Hf r) as (E1 & E2 & E3). unfold queued_rollback_of. by rewrite E1, E2, E3.
Qed.

Lemma grown_insert n app log :
  hoare (fun db => length (t_deployments db) = n) (QueueDeployment app "auto_rollback" log)
    (fun _ db => grown n app (t_deployments db)).
Proof.
  unfold QueueDeployment. cbn [negb valid_action]. eapply (hoare_bind _ (fun _ db => length (t_deployments db) = n)).
  { apply hoare_now. auto. }
  intros t. eapply (hoare_bind _ (fun _ db => grown n app (t_deployments db))).
  - apply hoare_step. intros db Hn. unfold write_deployments.
    assert (grown n app (t_deployments db)) as Hg by by left.
    destruct (one_active_index _); simpl; [|by auto].
    destruct (has_application db app); simpl; [|by auto].
    assert (grown n app (t_deployments db ++ [(fresh_row (next_rowid r_id (t_deployments db)) app "queued" "" log t)
      <| r_action := "auto_rollback" |>])) as H1 by (right; by eexists _, _).
    by auto.
  - intros id. by apply hoare_ret.
Qed.

Lemma queue_grows n app w :
  length (table w) = n -> grown n app (table (snd (queueDeployment config app "auto_rollback" w))).
Proof.
  intros Hn. refine ((_ : hoare (fun a => length (t_deployments (hub_db a)) = n)
    (queueDeployment (H := H) config app "auto_rollback")
    (fun _ a => grown n app (t_deployments (hub_db a)))) w Hn).
  unfold queueDeployment, queueDeploymentRef.
  set (P := fun a : hub H => length (t_deployments (hub_db a)) = n).
  set (Q := fun a : hub H => grown n app (t_deployments (hub_db a))).
  assert (forall a, P a -> Q a) as HPQ by (intros a Ha; by left).
  assert (forall A (m : AM H A), evolves (on_database (on_table (keeps (fun t => length t = n)))) m ->
    hoare P m (fun r a => match r with Ok _ => P a | Err _ => Q a end)) as Hkeep.
  { intros A m Hm w1 Hw. specialize (Hm w1 Hw). destruct (m w1) as [[?|?] ?]; [done|]. by apply HPQ. }
  eapply (hoare_bind _ (fun _ => P)); [apply Hkeep; handle|intros _].
  eapply (hoare_bind _ (fun _ => P)); [apply Hkeep; handle|intros t].
  eapply (hoare_bind _ (fun _ => Q)).
  { apply hoare_zoom. intros a Ha v Hv.
    assert (length (t_deployments (w_state v)) = n) as Hl by (by rewrite Hv).
    pose proof (grown_insert n app
      (Join (Config.LogPath config) ("deploy-" +:+ itoa app +:+ "-" +:+ itoa (unix_nano t) +:+ ".log")) v Hl) as Hg.
    destruct (QueueDeployment _ _ _ v) as [[?|?] ?]; exact Hg. }
  intros d. eapply (hoare_bind _ (fun _ => Q)).
  { intros w1 Hw. assert (evolves (on_database (on_table (keeps (grown n app)))) (on_db (H := H) (Application app))) as He
      by (handle; unfold Application; evolve).
    specialize (He w1 Hw). destruct (on_db _ w1) as [[?|?] ?]; exact He. }
  intros application w1 Hw. refine ((_ : evolves (on_database (on_table (keeps (grown n app)))) _) w1 Hw).
  handle. unfold SetDeploymentReleaseMetadata. deployment_writes. intros _ Hg. by apply grown_update.
Qed.

(** What a claim reads and writes. *)
Lemma claim_job (v : world database) d v' : NextQueuedDeployment v = (Ok d, v') ->
  exists r rest, select_where queued (t_deployments (w_state v)) = r :: rest
    /\ d_ID d = r_id r /\ d_Action d = r_action r /\ d_ApplicationID d = r_application_id r
    /\ t_applications (w_state v') = t_applications (w_state v).
Proof.
  unfold NextQueuedDeployment. intros H1. invert_run.
  destruct (select_where queued _) as [|r rest] eqn:Eq; [done|]. simplify_eq.
  match goal with H : update_deployments _ _ _ = _ |- _ => apply update_deployments_run in H as [_ E] end.
  same_states. do 2 eexists. split; [exact Eq|]. split_and!; reflexivity.
Qed.

Lemma claim_application w d w1 w2 (application : StoreTypes.Application) :
  on_db NextQueuedDeployment w = (Ok d, w1) -> on_db (Application (d_ApplicationID d)) w1 = (Ok application, w2) ->
  exists r, In r (table w) /\ queued r = true /\ d_ID d = r_id r /\ d_Action d = r_action r
    /\ In application (t_applications (hub_db (w_state w))) /\ a_ID application = r_application_id r.
Proof.
  intros (v & Ev & E1 & _)%on_db_run (v2 & Ev2 & _)%on_db_run.
  apply claim_job in Ev as (r & rest & Er & Hid & Hact & Happ & Happs).
  apply query_run in Ev2 as [Ea _]. unfold part in Ea. simpl in Ea. rewrite E1 in Ea. simpl in Ea.
  destruct (select_where (fun a => a_ID a =? d_ApplicationID d) _) as [|a l] eqn:El; [done|]. injection Ea as ->.
  assert (In r (select_where queued (table w))) as Hr by (change (In r (select_where queued (t_deployments (w_state (part hub_db w))))); rewrite Er; by left).
  assert (In application (application :: l)) as Ha by by left. rewrite <- El in Ha.
  apply select_where_In in Hr as [Hr Hq]. apply select_where_In in Ha as [Ha Hk]. bools.
  exists r. split_and!; try done; [|congruence]. rewrite Happs in Ha. exact Ha.
Qed.

Lemma abandon_ok {A} id (m : AM H A) w a w' : catch m (abandon id) w = (Ok a, w') -> m w = (Ok a, w').
Proof.
  intros [(a' & E & [= ->])|(err & w1 & _ & E)]%catch_cases; [done|].
  unfold abandon in E. apply bind_run in E as (? & ? & _ & E). done.
Qed.

Lemma finish_escapes d action application err w s :
  on_database (on_table same_length) s (w_state w) ->
  escapes (on_database (on_table same_length)) s (finish_job config d action application [] err) w ->
  exists err' t' row, action = "deploy" /\ a_AutoRollback application = true
    /\ In (stage_of err') ["start"; "health"; "route"]
    /\ (finish_job config d action application [] err w).1 = Err err'
    /\ table (finish_job config d action application [] err w).2 = t' ++ [row]
    /\ length t' = length (t_deployments (hub_db s)) /\ queued_rollback_of (a_ID application) row.
Proof.
  set (P := on_database (H := H) (on_table same_length)).
  assert (forall a b, P a b -> P a b) as HP by done. rewrite finish_job_parts. intros Hs Hc.
  apply (escapes_bind P P HP) in Hc as (lost & w1 & E1 & Hs1 & Hc); [|unfold P; simpl; handle|done].
  rewrite (bind_ok _ _ _ _ _ E1). set (err' := lost_lease err lost) in *.
  apply (escapes_bind P P HP) in Hc as (status & w2 & E2 & Hs2 & Hc); [| |done].
  2:{ apply table_outcome; [exact _|]. auto with evolve. }
  rewrite (bind_ok _ _ _ _ _ E2). unfold close_job in *.
  apply (escapes_bind P P HP) in Hc as (u3 & w3 & E3 & Hs3 & Hc); [| |done].
  2:{ apply durations_step; [exact _|]. auto with evolve. }
  rewrite (bind_ok _ _ _ _ _ E3).
  apply (escapes_bind P P HP) in Hc as (u4 & w4 & E4 & Hs4 & Hc); [|unfold P; handle; auto with evolve|done].
  rewrite (bind_ok _ _ _ _ _ E4).
  apply (escapes_bind P P HP) in Hc as (u5 & w5 & E5 & Hs5 & Hc); [| |done].
  2:{ intros v. pose proof (notify_stays config application (d_ID d) action status err' v) as Hn.
      unfold P, on_database, on_table in *. rewrite Hn. reflexivity. }
  rewrite (bind_ok _ _ _ _ _ E5).
  destruct (status =? "failed")%string, (String.eqb_spec action "deploy") as [->|],
    (a_AutoRollback application) eqn:Ea, (shouldTriggerAutoRollback err') eqn:Et; cbn [andb] in *;
  try (exfalso; revert Hc; apply (escapes_evolves P P HP); [by unfold P; handle|exact Hs5]).
  set (m := queued ← attempt _; _) in *.
  assert (total m) as Hm by (unfold m; total).
  destruct (total_run m w5 Hm) as [u6 E6]. revert Hc. unfold escapes. rewrite (bind_ok _ _ _ _ _ E6).
  assert (table (snd (m w5)) = table (snd (queueDeployment config (a_ID application) "auto_rollback" w5))) as Em.
  { unfold m, mbind, M_bind. rewrite eval_attempt. done. }
  destruct err' as [err'|]; [|done].
  pose proof (queue_grows (length (t_deployments (hub_db s))) (a_ID application) w5 (eq_sym Hs5)) as Hg.
  rewrite <- Em in Hg. cbn [fst snd fail]. intros Hc.
  destruct Hg as [Hl|(t' & row & Ht & Hl & Hrow)]; [by destruct Hc|].
  exists err', t', row. split_and!; try done.
  unfold shouldTriggerAutoRollback in Et. unfold stage_of.
  destruct (FailureDetails (Some err')) as [[stage ?] ?]. simpl.
  apply orb_prop in Et as [[->%String.eqb_eq| ->%String.eqb_eq]%orb_prop| ->%String.eqb_eq]; auto.
Qed.

(** C28: automatic rollbacks do not chain.  Whatever the executor does and whatever fails, a
    worker adds at most one job to the queue; when it does, it has just failed a deploy whose
    error came from the start, the health check or the route, of an application with
    automatic rollback, and the new job is a queued automatic rollback of that application:
    a rollback, automatic or not, never queues another. *)
Theorem rollback_queued_once w :
  let '(res, w') := run_next [] w in
  length (table w') = length (table w)
  \/ exists r application err t' row,
       In r (table w) /\ queued r = true /\ In (r_action r) ["deploy"; "retry"]
       /\ In application (t_applications (hub_db (w_state w))) /\ a_ID application = r_application_id r
       /\ a_AutoRollback application = true
       /\ res = Err err /\ In (stage_of err) ["start"; "health"; "route"]
       /\ table w' = t' ++ [row] /\ length t' = length (table w)
       /\ queued_rollback_of (a_ID application) row.
Proof.
  set (s := w_state w). set (P := on_database (H := H) (on_table same_length)).
  assert (forall a b, P a b -> P a b) as HP by done.
  set (G := fun p : result unit * world (hub H) => exists r application err t' row,
       In r (table w) /\ queued r = true /\ In (r_action r) ["deploy"; "retry"]
       /\ In application (t_applications (hub_db s)) /\ a_ID application = r_application_id r
       /\ a_AutoRollback application = true
       /\ p.1 = Err err /\ In (stage_of err) ["start"; "health"; "route"]
       /\ table p.2 = t' ++ [row] /\ length t' = length (table w)
       /\ queued_rollback_of (a_ID application) row).
  enough (escapes P s (run_next []) w -> G (run_next [] w)) as Hgoal.
  { unfold escapes, G in Hgoal. destruct (run_next [] w) as [res w'] eqn:E. simpl in *.
    destruct (decide (length (table w') = length (table w))) as [|Hn]; [by left|right].
    apply Hgoal. intros Hl. by apply Hn. }
  assert (P s (w_state w)) as Hs by reflexivity. unfold runNextDeployment. intros Hc.
  apply (escapes_bind P P HP) in Hc as (d & w1 & E1 & Hs1 & Hc); [|unfold P; handle; auto with evolve|done].
  rewrite (bind_ok _ _ _ _ _ E1).
  apply (escapes_bind P P HP) in Hc as (application & w2 & E2 & Hs2 & Hc); [| |done].
  2:{ unfold P, abandon. handle; [unfold Application; evolve|auto with evolve]. }
  rewrite (bind_ok _ _ _ _ _ E2). apply abandon_ok in E2.
  destruct (claim_application w d w1 w2 application E1 E2) as (r & Hr & Hq & Hid & Hact & Happ & Hown).
  apply (escapes_bind P P HP) in Hc as (u & w3 & E3 & Hs3 & Hc); [| |done].
  2:{ unfold P, abandon. handle. auto with evolve. }
  rewrite (bind_ok _ _ _ _ _ E3).
  apply (escapes_bind P P HP) in Hc as (configured & w4 & E4 & Hs4 & Hc); [| |done].
  2:{ apply evolves_attempt, table_configuration. exact _. }
  rewrite (bind_ok _ _ _ _ _ E4).
  apply (escapes_bind P P HP) in Hc as ([action configured'] & w5 & E5 & Hs5 & Hc); [| |done].
  2:{ destruct configured; [|by evolve]. destruct (_ =? _)%string; [|by evolve].
      evolve_step; [apply table_reuse; exact _|by evolve]. }
  rewrite (bind_ok _ _ _ _ _ E5).
  assert (action = "deploy" -> In (r_action r) ["deploy"; "retry"]) as Haction.
  { rewrite <- Hact. destruct configured as [c|err]; [|injection E5 as <- _ _; intros ->; by left].
    destruct (String.eqb_spec (d_Action d) "retry") as [->|]; [right; by left|].
    injection E5 as <- _ _. intros ->. by left. }
  apply (escapes_bind P P HP) in Hc as (u6 & w6 & E6 & Hs6 & Hc); [|apply table_open; exact _|done].
  rewrite (bind_ok _ _ _ _ _ E6).
  apply (escapes_bind P P HP) in Hc as (err & w7 & E7 & Hs7 & Hc); [| |done].
  2:{ destruct configured'; [apply length_run_action|by evolve]. }
  rewrite (bind_ok _ _ _ _ _ E7).
  destruct (finish_escapes d action application err w7 s Hs7 Hc) as (err' & t' & row & Hd & Ha & Hst & Hres & Ht & Hl & Hrow).
  exists r, application, err', t', row. split_and!; auto.
Qed.
End queued_rollback.
