(* ===== verification/ServingFacts.v ===== *)
(** * What serves after a job

    The composition of the worker with the executor: a deploy job that ends without error
    leaves the image it recorded behind Caddy. *)

From S2P Require Import Prelude GoStrings Json Net Base64 Security Host Templates.
From S2P Require Import StoreTypes Executor Proxy BlueGreen Engine BlueGreenFacts Release ReleaseFacts.
From S2P Require Import StoreSettings StoreApplications StoreAccess StoreDeployments StoreQueueFacts.
From S2P Require Import Config Views Hub CICD JobFacts.

(** ** The image a job records *)

(** The row of the job records one of the given images. *)
Definition images (id : Z) (ok : list string) (t : list deployment_row) : Prop :=
  has_row id t /\ forall r, In r t -> r_id r = id -> In (r_image r) ok.

Lemma images_update id ok p f t :
  (forall r, r_id (f r) = r_id r) ->
  (forall r, p r = true -> r_image (f r) = r_image r \/ In (r_image (f r)) ok) ->
  images id ok t -> images id ok (update_where p f t).
Proof.
  intros Hid Him [(r & Hr & <-) Hok]. split.
  - exists (if p r then f r else r). split; [apply update_where_In; eauto|]. by destruct (p r).
  - intros r' (r0 & H0 & ->)%update_where_In E. destruct (p r0) eqn:Ep; [|by apply Hok].
    rewrite Hid in E. destruct (Him r0 Ep) as [->|?]; [by apply Hok|done].
Qed.

Lemma images_insert id ok r t :
  r_id r = next_rowid r_id t -> images id ok t -> images id ok (t ++ [r]).
Proof.
  intros E [(r0 & H0 & <-) Hok]. split; [exists r0; split; [apply in_or_app; auto|done]|].
  intros x [Hx|[<-|[]]]%in_app_or Ex; [by apply Hok|].
  pose proof (next_rowid_fresh r_id t r0 H0). lia.
Qed.

(** Requests that do not delete jobs or write images; only the worker writes its image. *)
Definition foreign (a : activity) : bool :=
  match a with
  | Tick => true
  | Other (OpDelete _ _) | Other (OpImage _ _) => false
  | Other _ => true
  end.

Lemma op_images id ok op : foreign (Other op) = true ->
  evolves (on_table (keeps (images id ok))) (run_op op).
Proof.
  destruct op; intros Ho; try done; simpl; deployment_op_cases;
    intros _ Hi; first [by apply images_insert
      |apply images_update; [done|intros x _; left; reflexivity|exact Hi]].
Qed.

Lemma image_images id ok image :
  In image ok -> evolves (on_table (keeps (images id ok))) (SetDeploymentImage id image).
Proof.
  intros Hin. unfold SetDeploymentImage. deployment_writes. intros _ Hi.
  apply images_update; [done|by right|exact Hi].
Qed.

Lemma ignored {A} R (m : DB A) : evolves R (ignore m) -> evolves R m.
Proof. intros Hm w. specialize (Hm w). unfold ignore in Hm. by destruct (m w). Qed.

Lemma next_images id ok : evolves (on_table (keeps (images id ok))) NextQueuedDeployment.
Proof. apply ignored. by apply (op_images id ok OpNext). Qed.
Lemma finish_images id ok job s : evolves (on_table (keeps (images id ok))) (FinishDeployment job s).
Proof. unfold FinishDeployment. deployment_writes. intros _ Hi.
  apply images_update; [done|by left|exact Hi].
Qed.
Lemma metadata_images id ok job m : evolves (on_table (keeps (images id ok))) (SetDeploymentReleaseMetadata job m).
Proof. apply ignored. by apply (op_images id ok (OpMetadata job m)). Qed.
Lemma failure_images id ok job a b c : evolves (on_table (keeps (images id ok))) (SetDeploymentFailure job a b c).
Proof. apply ignored. by apply (op_images id ok (OpFailure job a b c)). Qed.
Lemma durations_images id ok job a b c d f g :
  evolves (on_table (keeps (images id ok))) (SetDeploymentStageDurations job a b c d f g).
Proof. apply ignored. by apply (op_images id ok (OpDurations job a b c d f g)). Qed.
Lemma queue_images id ok app action log :
  evolves (on_table (keeps (images id ok))) (QueueDeployment app action log).
Proof. apply ignored. by apply (op_images id ok (OpQueue app action log)). Qed.
Lemma call_images id ok job c : evolves (on_table (keeps (images id ok))) (run_call job c).
Proof. destruct c; simpl; [by apply (op_images id ok (OpStage _ _))|by apply (op_images id ok (OpEvent _ _ _ _))]. Qed.
#[export] Hint Resolve next_images finish_images metadata_images failure_images durations_images
  queue_images call_images : evolve.

Lemma meanwhile_images id ok job alive during : forallb foreign during = true ->
  evolves (on_table (keeps (images id ok))) (meanwhile job alive during).
Proof.
  revert alive. induction during as [|[|op] during IH]; intros alive Hd; cbn [meanwhile]; [evolve| |].
  - destruct alive; cbn [negb]; [|by apply IH]. evolve_step.
    { intros w. pose proof (op_images id ok (OpHeartbeat job) eq_refl w) as Hw. simpl in Hw.
      unfold ignore, attempt in *. by destruct (HeartbeatDeployment job w). }
    evolve_step; [by apply IH|]. evolve_step; [by apply IH|evolve].
  - apply andb_prop in Hd as [Ho Hd]. evolve_step; [by apply op_images|by apply IH].
Qed.

(** ** The machine *)

Section serving.
Context {H : Type} `{!Host H, !Observation H, !Engine H} `{!Crypto}.
Context (Key : Type) (parseRSAPrivateKey : string -> result Key)
  (SignPKCS1v15 : Key -> string -> result string).
Context (config : Config) (e : Executor).
(** The notification endpoint is not Caddy's admin API: posting an event changes no route. *)
Context (notification_quiet : forall payload h, routes (snd (host_http (Request "POST"
  (Config.NotificationWebhook config) "" [("Content-Type", "application/json")]
  (Some (json_of_map payload))) h)) = routes h).
Implicit Types w : world (hub H).
Abbreviation table w := (t_deployments (hub_db (w_state w))).
Abbreviation machine_of w := (site_host (hub_site (w_state w))).
Abbreviation run_next := (runNextDeployment Key parseRSAPrivateKey SignPKCS1v15 ∅ None config e).

(** Containers and routes as they were. *)
Definition undisturbed (a b : hub H) : Prop :=
  on_machine (same_except [] []) (hub_site a) (hub_site b).
#[local] Instance undisturbed_preorder : PreOrder undisturbed.
Proof. split; unfold undisturbed; [intros x; reflexivity|intros x y z; apply transitivity]. Qed.

Lemma undisturbed_db {A} (m : DB A) : evolves undisturbed (on_db m).
Proof.
  apply (evolves_zoom _ _ (fun _ _ => True)); [|done]. intros s t _. unfold undisturbed. reflexivity.
Qed.
Lemma undisturbed_site {A} (m : EM H A) : evolves (on_machine (same_except [] [])) m -> evolves undisturbed (on_site m).
Proof. by apply evolves_zoom. Qed.
Lemma undisturbed_peek {A} (f : hub H -> A) : evolves undisturbed (peek f).
Proof. intros w. simpl. reflexivity. Qed.

Ltac undisturb :=
  repeat lazymatch goal with
  | |- evolves undisturbed (on_db _) => apply undisturbed_db
  | |- evolves undisturbed (on_site _) => apply undisturbed_site
  | |- evolves (on_machine _) (host_step _) => apply touch_quiet; solve [auto with evolve]
  | |- evolves (on_machine _) (say _) => apply touch_say
  | |- evolves (on_machine _) (track _) => apply touch_track
  | |- evolves undisturbed (peek _) => apply undisturbed_peek
  | |- evolves undisturbed keyCopy => apply undisturbed_peek
  | |- evolves undisturbed (print _) => unfold print
  | _ => evolve_step
  end.

Lemma undisturbed_secrets app env target : evolves undisturbed (deploymentSecrets app env target).
Proof.
  assert (forall key metadata values, evolves undisturbed (decrypt_all app env target key metadata values)) as Hd.
  { intros key metadata. induction metadata as [|m metadata IH]; intros values; simpl; undisturb. apply IH. }
  unfold deploymentSecrets. undisturb. apply Hd.
Qed.

Lemma undisturbed_configuration app env : evolves undisturbed (deploymentConfiguration app env).
Proof. unfold deploymentConfiguration, configurationValues. undisturb; apply undisturbed_secrets. Qed.

Lemma undisturbed_queue app action : evolves undisturbed (queueDeployment config app action).
Proof. unfold queueDeployment, queueDeploymentRef. undisturb. Qed.

Lemma undisturbed_notify app id action status err :
  evolves undisturbed (notifyDeployment config app id action status err).
Proof.
  unfold notifyDeployment. destruct (_ =? _)%string; [undisturb|].
  destruct (parse_url _); [|undisturb]. evolve_step. apply undisturbed_site.
  apply evolves_host_step; [exact _|]. intros h.
  split; intros x _; [by rewrite http_containers|by rewrite notification_quiet].
Qed.

Lemma undisturbed_finish d action application during err :
  evolves undisturbed (finish_job config d action application during err).
Proof.
  unfold finish_job. undisturb.
  all: try first [apply undisturbed_notify|apply undisturbed_queue].
  - unfold outcome, record_failure. undisturb.
  - unfold record_durations. undisturb.
Qed.

(** ** The deploy *)

(** The image serves under the durable name of the application. *)
Definition serving (application : StoreTypes.Application) (image : string) (h : H) : Prop :=
  exists c, c_image c = image /\ serves_with application c (candidate_name application) h.

Lemma serving_same application image (h h' : H) :
  same_except [] [] h h' -> serving application image h -> serving application image h'.
Proof.
  intros Hu (c & Hi & Hc). exists c. split; [done|].
  exact (serves_same _ _ _ _ _ _ Hu (not_elem_of_nil _) Hc).
Qed.

(** What [tracked] leaves of a run of the executor. *)
Lemma tracked_run id (m : EM H (ReleaseResult * option error)) w release w' :
  tracked id m w = (Ok (release, None), w') ->
  exists v, m (part hub_site w) = (Ok (release, None), v)
    /\ same_except [] [] (site_host (w_state v)) (machine_of w')
    /\ forall ok, images id ok (table w) -> images id ok (table w').
Proof.
  unfold tracked. intros (r & w1 & E1%attempt_run & E)%bind_run.
  apply bind_run in E as (calls & w2 & E2 & E). injection E2 as <- <-.
  apply bind_run in E as (u & w3 & E3 & E). apply bind_run in E as (u' & w4 & E4 & E).
  apply ret_run in E as [Er ->]. apply on_site_run in E1 as (v & Ev & Es & _).
  destruct r as [[release' err]|err]; [|done]. injection Er as <- ->. exists v. split; [done|].
  split.
  - transitivity (machine_of w1); [by rewrite Es|].
    transitivity (machine_of w3); [exact (evolves_pair undisturbed _ _ _ _ (undisturbed_db _) E3)|].
    refine (evolves_pair undisturbed _ _ _ _ _ E4). apply undisturbed_site, touch_track.
  - intros ok Hi. assert (images id ok (table w1)) as H1 by (by rewrite Es).
    assert (images id ok (table w3)) as H3.
    { refine (evolves_pair (on_database (on_table (keeps (images id ok)))) _ _ _ _ _ E3 H1).
      apply evolves_on_db. evolve. auto with evolve. }
    refine (evolves_pair (on_database (on_table (keeps (images id ok)))) _ _ _ _ _ E4 H3).
    apply evolves_on_site. exact _.
Qed.

Lemma run_deploy_serves d application c w w' :
  run_deploy Key parseRSAPrivateKey SignPKCS1v15 ∅ None e d application c w = (Ok None, w') ->
  a_Runtime application = "docker" ->
  exists image, serving application image (machine_of w')
    /\ forall ok, In image ok -> images (d_ID d) ok (table w) -> images (d_ID d) ok (table w').
Proof.
  unfold run_deploy. set (application' := if validGitCommit _ then _ else _). intros E Hdocker.
  assert (a_Runtime application' = "docker") as Hdocker' by (unfold application'; by destruct (validGitCommit _)).
  apply bind_run in E as ([release err] & w1 & E1 & E).
  apply bind_run in E as (u & w2 & E2 & E). apply bind_run in E as (u' & w3 & E3 & E).
  apply ret_run in E as [<- ->]. apply tracked_run in E1 as (v & Ev & Hu & Himages).
  exists (rr_Image release). split.
  - assert (serving application' (rr_Image release) (site_host (w_state v))) as Hs.
    { pose proof (deploy_serves sha256_hex Key parseRSAPrivateKey SignPKCS1v15 e application' c
        (part hub_site w) release Hdocker') as Hd. unfold eval, Deploy' in *. rewrite Ev in Hd. exact (Hd eq_refl). }
    assert (serving application (rr_Image release) (site_host (w_state v))) as Hs'.
    { revert Hs. unfold application'. by destruct (validGitCommit _). }
    apply (serving_same _ _ _ _ Hu) in Hs'.
    assert (undisturbed (w_state w1) (w_state w2)) as H12.
    { refine (evolves_pair undisturbed _ _ _ _ _ E2). undisturb. }
    apply (serving_same _ _ _ _ H12) in Hs'. refine (serving_same _ _ _ _ _ Hs').
    refine (evolves_pair undisturbed _ _ _ _ _ E3). undisturb.
  - intros ok Hin Hi. apply Himages in Hi.
    assert (images (d_ID d) ok (table w2)) as H2.
    { refine (evolves_pair (on_database (on_table (keeps (images (d_ID d) ok)))) _ _ _ _ _ E2 Hi).
      destruct (negb _); [|evolve]. evolve_step. apply evolves_on_db. by apply image_images. }
    refine (evolves_pair (on_database (on_table (keeps (images (d_ID d) ok)))) _ _ _ _ _ E3 H2).
    handle. auto with evolve.
Qed.

Abbreviation keeping id ok := (on_database (on_table (keeps (images id ok)))).

Lemma images_finish id ok d action application during err : forallb foreign during = true ->
  evolves (keeping id ok) (finish_job config d action application during err).
Proof.
  intros Hd. unfold finish_job. handle_step; [handle_step; by apply meanwhile_images|].
  handle_step; [apply table_outcome; [exact _|]; auto with evolve|].
  handle_step; [apply durations_step; [exact _|]; auto with evolve|].
  handle_step; [handle; auto with evolve|]. handle_step.
  { intros w. match goal with |- context [notifyDeployment _ _ _ _ ?status ?err] =>
      pose proof (notify_stays config application (d_ID d) action status err w) as Hn end.
    unfold on_database, on_table in *. rewrite Hn. reflexivity. }
  handle_step; [|by handle]. destruct (_ && _); [|by handle].
  unfold queueDeployment, queueDeploymentRef, print. handle; try auto with evolve.
  unfold Application. evolve.
Qed.

(** An error of the executor is the error of the job. *)
Lemma finish_ok d action application during err w w' :
  finish_job config d action application during err w = (Ok tt, w') -> err = None.
Proof.
  rewrite finish_job_parts. intros (lost & w1 & _ & E)%bind_run. apply bind_run in E as (status & w2 & _ & E).
  pose proof (close_result config d action application status (lost_lease err lost) w2) as Hr.
  unfold eval in Hr. rewrite E in Hr. by destruct err.
Qed.

(** C8: a deploy job that ends without error serves.  Whatever failed on the way and
    whatever other requests did meanwhile, when the worker returns no error for a claimed
    deploy of a Docker application, Caddy dials a container of one image, under the durable
    name of the application, and the only image the deployment can have recorded is that one
    (or still the one it had). *)
Theorem successful_job_serves during w w' :
  db_inv (hub_db (w_state w)) -> forallb foreign during = true ->
  run_next during w = (Ok tt, w') ->
  exists r application,
    In r (table w) /\ queued r = true
    /\ In application (t_applications (hub_db (w_state w))) /\ a_ID application = r_application_id r
    /\ (r_action r = "deploy" -> a_Runtime application = "docker" ->
        exists image, serving application image (machine_of w')
          /\ forall r', In r' (table w') -> r_id r' = r_id r -> r_image r' = image \/ r_image r' = r_image r).
Proof.
  intros (Hs & _) Hd. unfold runNextDeployment. intros (d & w1 & E1 & E)%bind_run.
  apply bind_run in E as (application & w2 & E2%abandon_ok & E).
  destruct (claim_application w d w1 w2 application E1 E2) as (r & Hr & Hq & Hid & Hact & Happ & Hown).
  exists r, application. split_and!; try done. intros Hdeploy Hdocker. rewrite Hdeploy in Hact.
  apply bind_run in E as (u3 & w3 & E3 & E). apply bind_run in E as (configured & w4 & E4 & E).
  rewrite Hact in E. change ("deploy" =? "retry")%string with false in E. cbv iota in E.
  assert (exists configured' w5, (open_job d w4 = (Ok tt, w5)) /\ configured' = configured
    /\ (err ← match configured' with
              | Ok configuration => run_action Key parseRSAPrivateKey SignPKCS1v15 ∅ None e "deploy" d application configuration
              | Err err => mret (Some err)
              end; finish_job config d "deploy" application during err) w5 = (Ok tt, w')) as (? & w5 & E5 & -> & E6).
  { destruct configured as [c|err]; apply bind_run in E as ([action c'] & w5 & E5 & E); injection E5 as <- <- <-;
      apply bind_run in E as ([] & w6 & E6 & E); eauto. }
  apply bind_run in E6 as (err & w6 & E6 & E7). pose proof (finish_ok _ _ _ _ _ _ _ E7) as ->.
  destruct configured as [c|err]; [|done].
  apply run_deploy_serves in E6 as (image & Hserves & Himages); [|done]. exists image. split.
  - refine (serving_same _ _ _ _ _ Hserves). exact (evolves_pair undisturbed _ _ _ _ (undisturbed_finish _ _ _ _ _) E7).
  - assert (images (r_id r) [image; r_image r] (table w)) as Hi.
    { split; [by exists r|]. intros x Hx Ex. rewrite (rowids_sorted_inj r_id _ x r Hs Hx Hr Ex). right. by left. }
    rewrite Hid in Himages. set (ok := [image; r_image r]) in *.
    assert (forall A (m : AM H A) a v v', m v = (Ok a, v') -> evolves (keeping (r_id r) ok) m ->
      images (r_id r) ok (table v) -> images (r_id r) ok (table v')) as Hstep.
    { intros A m a v v' Em Hm. exact (evolves_pair _ _ _ _ _ Hm Em). }
    apply (Hstep _ _ _ _ _ E1) in Hi; [|handle; auto with evolve].
    apply (Hstep _ _ _ _ _ E2) in Hi; [|handle; unfold Application; evolve].
    apply (Hstep _ _ _ _ _ E3) in Hi; [|unfold abandon; handle; auto with evolve].
    apply attempt_run in E4. apply (evolves_pair (keeping (r_id r) ok)) in E4; [|apply table_configuration; exact _].
    apply E4 in Hi. apply (Hstep _ _ _ _ _ E5) in Hi; [|apply table_open; exact _].
    apply Himages in Hi; [|by left].
    apply (Hstep _ _ _ _ _ E7) in Hi; [|by apply images_finish].
    intros r' Hr' Er'. destruct Hi as [_ Hi]. destruct (Hi r' Hr' Er') as [->|[->|[]]]; auto.
Qed.
End serving.

(** ** A job on the simulated machine *)

Definition job_db (action : string) : database := database0
  <| t_applications := [docker_app <| a_AutoRollback := true |>] |>
  <| t_deployments := [(fresh_row 1 7 "queued" "" "/logs/1" 5) <| r_action := action |>] |>.
Definition job_world (m : machine) (db : database) : world (hub machine) :=
  World (Hub db (Site m [] None) "" ∅ cache0) [] 63900000000000000000 [].
Definition job_config : Config := LoadConfig (fun key =>
  if (key =? "MINIDOCK_NOTIFICATION_WEBHOOK")%string then "http://hooks.example.com/minidock" else "").
Abbreviation run_demo := (runNextDeployment (H := machine) unit no_key no_signature ∅ None job_config demo).

(** An event is no route document. *)
Lemma event_no_route payload : route_identity (json_of_map payload) = None.
Proof.
  assert (forall kvs, decode_field "handle" (decode_list ("", []) decode_handler) []
    (map (fun kv => (kv.1, JStr kv.2)) kvs) = Some [] \/ decode_field "handle" (decode_list ("", []) decode_handler) []
    (map (fun kv : string * string => (kv.1, JStr kv.2)) kvs) = None) as Hd.
  { intros kvs. induction kvs as [|[k v] kvs IH]; [by left|]. simpl. destruct (equal_fold k "handle"); [by right|done]. }
  unfold route_identity, json_of_map. simpl.
  destruct (decode_field "@id" _ _ _) as [id|]; [|done]. simpl.
  unfold decode_route. simpl. destruct (Hd (sorted_pairs payload)) as [-> | ->]; done.
Qed.

Lemma sim_event_quiet payload (h : machine) : routes (snd (host_http (Request "POST"
  (Config.NotificationWebhook job_config) "" [("Content-Type", "application/json")]
  (Some (json_of_map payload))) h)) = routes h.
Proof. cbn [host_http machine_host]. unfold sim_http. cbn [rq_body]. by rewrite event_no_route. Qed.

Definition demo_start : world (hub machine) := job_world (serving_blog []) (job_db "deploy").
Abbreviation demo_end := (snd (run_demo [Tick] demo_start)).

Lemma job_db_inv action : db_inv (job_db action).
Proof. split; [split; repeat constructor|split; reflexivity]. Qed.

Lemma demo_job_ok : eval (run_demo [Tick]) demo_start = Ok tt.
Proof. vm_compute. reflexivity. Qed.

Lemma successful_job_serves_witness :
  exists r image, In r (t_deployments (job_db "deploy"))
    /\ serving docker_app image (site_host (hub_site (w_state demo_end)))
    /\ forall r', In r' (t_deployments (hub_db (w_state demo_end))) -> r_id r' = r_id r ->
         r_image r' = image \/ r_image r' = r_image r.
Proof.
  destruct (successful_job_serves unit no_key no_signature job_config demo sim_event_quiet [Tick] demo_start demo_end
    (job_db_inv "deploy") eq_refl (eval_run _ _ _ demo_job_ok)) as (r & application & Hr & Hq & Ha & Hid & Hserves).
  destruct Hr as [<-|[]]. destruct Ha as [<-|[]]. destruct (Hserves eq_refl eq_refl) as (image & Hs & Hi).
  eexists _, image. split; [by left|]. split; [exact Hs|exact Hi].
Defined.

(** The candidate of blog:2 never becomes healthy: the job fails and queues its rollback. *)
Definition broken_end := run_demo [] (job_world (serving_blog ["minidock/blog:1764403200"]) (job_db "deploy")).
Example broken_job_queues_rollback :
  map (fun r => (r_action r, r_status r)) (t_deployments (hub_db (w_state (snd broken_end))))
  = [("deploy", "failed"); ("auto_rollback", "queued")].
Proof. vm_compute. reflexivity. Qed.

(** A job in its last steps. *)
Definition closing_db : database := (job_db "deploy")
  <| t_deployments := [(fresh_row 1 7 "running" "" "/logs/1" 5) <| r_lease_expires_at := Some 40 |>] |>.
Definition closing : world (hub machine) := job_world (serving_blog []) closing_db.
Definition closing_job : Deployment := Deployment0 <| d_ID := 1 |>.

Lemma every_job_is_closed_witness :
  exists r, In r (t_deployments (hub_db (w_state (snd
    (finish_job job_config closing_job "deploy" docker_app [Other (OpCancel 7 1)] None closing)))))
    /\ r_status r = "cancelled".
Proof.
  pose proof (every_job_is_closed job_config closing_job "deploy" docker_app [Other (OpCancel 7 1)] None closing
    eq_refl) as Hc.
  assert (db_inv (hub_db (w_state closing))) as Hi by (split; [split; repeat constructor|split; reflexivity]).
  assert (has_row 1 (t_deployments closing_db)) as Hrow by (eexists; split; [by left|reflexivity]).
  specialize (Hc Hi Hrow eq_refl).
  assert (forall r, In r (t_deployments (hub_db (w_state (snd
    (finish_job job_config closing_job "deploy" docker_app [Other (OpCancel 7 1)] None closing))))) ->
    is_Some (r_cancellation_requested_at r)) as Hr.
  { apply List.Forall_forall. vm_compute. repeat constructor. by eexists. }
  destruct (finish_job _ _ _ _ _ _ _) as [res w'].
  destruct Hc as [(r & Hin & _ & Hs) _]. exists r. split; [exact Hin|].
  destruct (Hr r Hin) as [t Ht]. rewrite Ht in Hs. exact Hs.
Defined.
