(* ===== verification/CloudflareFacts.v ===== *)
(** * Zones and routes of the tunnel

    The loop of [cloudflareZoneForDomain] against its specification, the longest zone that
    holds the domain; the routes a tunnel is given; what counts as a public domain; and the
    redaction of Docker's messages. *)

From S2P Require Import Prelude GoStrings Json Net Base64 Host StoreTypes Executor Cloudflare Connector.

(** ** The longest matching zone *)

Definition zone_size (z : CloudflareZone) : nat := String.length (z_Name z).

(** Zones as the API lists them: a normalised name and an identifier. *)
Definition zone_ok (z : CloudflareZone) : bool :=
  (cloudflareHostname (z_Name z) =? z_Name z)%string && negb (z_Name z =? "")%string
  && negb (z_ID z =? "")%string.

Definition zones_of (zones : list CloudflareZone) (host : string) : list CloudflareZone :=
  List.filter (fun z => in_zone host (z_Name z)) zones.

Definition longest_zone (zones : list CloudflareZone) (host : string) : option CloudflareZone :=
  let matching := zones_of zones host in
  List.find (fun z => forallb (fun z' => zone_size z' <=? zone_size z)%nat matching) matching.

Definition longer (selected zone : CloudflareZone) : CloudflareZone :=
  if (zone_size selected <? zone_size zone)%nat then zone else selected.

Lemma better_zones host zones selected :
  forallb zone_ok zones = true ->
  foldl (better_zone host) selected zones = foldl longer selected (zones_of zones host).
Proof.
  unfold zones_of. revert selected. induction zones as [|z zones IH]; intros selected Hok; [done|].
  cbn [forallb] in Hok. apply andb_prop in Hok as [Hz Hok]. unfold zone_ok in Hz. bools.
  assert (better_zone host selected z
          = if in_zone host (z_Name z) then longer selected z else selected) as E.
  { unfold better_zone. match goal with H : cloudflareHostname _ = _ |- _ => rewrite H end.
    by destruct (in_zone host (z_Name z)). }
  cbn [foldl List.filter]. rewrite E. destruct (in_zone host (z_Name z)); by apply IH.
Qed.

Lemma longer_spec l selected :
  let r := foldl longer selected l in
  (r = selected /\ forall z, In z l -> (zone_size z <= zone_size selected)%nat)
  \/ exists l1 l2, l = l1 ++ r :: l2 /\ (zone_size selected < zone_size r)%nat
       /\ (forall z, In z l1 -> (zone_size z < zone_size r)%nat)
       /\ forall z, In z l2 -> (zone_size z <= zone_size r)%nat.
Proof.
  cbv zeta. revert selected. induction l as [|z l IH]; intros selected; [by left|].
  simpl. unfold longer at 2 4 6 8 10. destruct (Nat.ltb_spec (zone_size selected) (zone_size z)) as [Hlt|Hge].
  - right. destruct (IH z) as [[-> Hall]|(l1 & l2 & E & Hr & H1 & H2)].
    + exists [], l. repeat split; [done|by intros ? []|done].
    + exists (z :: l1), l2. rewrite E at 1. repeat split; [lia| |done]. intros x [<-|Hx]; [done|auto].
  - destruct (IH selected) as [[-> Hall]|(l1 & l2 & E & Hr & H1 & H2)].
    + left. split; [done|]. intros x [<-|Hx]; [done|auto].
    + right. exists (z :: l1), l2. rewrite E at 1. repeat split; [done| |done]. intros x [<-|Hx]; [lia|auto].
Qed.

Lemma find_split {A} (p : A -> bool) l1 x l2 :
  (forall y, In y l1 -> p y = false) -> p x = true -> List.find p (l1 ++ x :: l2) = Some x.
Proof.
  intros H1 Hx. induction l1 as [|y l1 IH]; simpl; [by rewrite Hx|].
  rewrite (H1 y (or_introl eq_refl)). apply IH. intros z Hz. apply H1. by right.
Qed.

Lemma longest_of l :
  (forall z, In z l -> (0 < zone_size z)%nat) ->
  List.find (fun z => forallb (fun z' => zone_size z' <=? zone_size z)%nat l) l
  = match l with [] => None | _ => Some (foldl longer CloudflareZone0 l) end.
Proof.
  intros Hpos. destruct (longer_spec l CloudflareZone0) as [[_ Hall]|(l1 & l2 & E & _ & H1 & H2)].
  - destruct l as [|z l]; [done|]. specialize (Hall z (or_introl eq_refl)).
    specialize (Hpos z (or_introl eq_refl)). change (zone_size CloudflareZone0) with 0%nat in Hall. lia.
  - set (r := foldl longer CloudflareZone0 l) in *. set (p := fun z => forallb _ l).
    assert (List.find p l = Some r) as ->; [|by destruct l; [destruct l1|]]. rewrite E. subst p.
    apply find_split.
    + intros y Hy. apply not_true_iff_false. rewrite forallb_forall. intros Hf. specialize (Hf r).
      rewrite Nat.leb_le in Hf. specialize (H1 y Hy). enough (zone_size r <= zone_size y)%nat by lia.
      apply Hf. rewrite E. apply in_or_app. right. by left.
    + apply forallb_forall. intros y Hy. apply Nat.leb_le. rewrite E in Hy.
      apply in_app_or in Hy as [Hy|[<-|Hy]]; [apply H1 in Hy; lia|done|auto].
Qed.

(** C24: the zone a record is written to is the first of the longest zones that hold the
    host, and there is none exactly when no zone of the token holds it. *)
Theorem zone_is_longest_match zones domain :
  forallb zone_ok zones = true ->
  cloudflareZoneForDomain zones domain
  = match longest_zone zones (cloudflareHostname domain) with
    | Some z => (z, true)
    | None => (CloudflareZone0, false)
    end.
Proof.
  intros Hok. unfold cloudflareZoneForDomain, longest_zone. cbv zeta.
  rewrite better_zones by done. set (l := zones_of zones _).
  assert (forall z, In z l -> zone_ok z = true) as Hl.
  { intros z [Hz _]%filter_In. rewrite forallb_forall in Hok. auto. }
  assert (forall z, In z l -> (0 < zone_size z)%nat) as Hpos.
  { intros z Hz. specialize (Hl z Hz). unfold zone_ok, zone_size in *. bools.
    by destruct (z_Name z); [|simpl; lia]. }
  rewrite longest_of by done. destruct (longer_spec l CloudflareZone0) as [[E Hall]|(l1 & l2 & E & _)].
  - destruct l as [|z l]; [done|]. specialize (Hall z (or_introl eq_refl)).
    specialize (Hpos z (or_introl eq_refl)). change (zone_size CloudflareZone0) with 0%nat in Hall. lia.
  - set (r := foldl longer CloudflareZone0 l) in *. destruct l as [|z l]; [by destruct l1|].
    assert (zone_ok r = true) as Hr by (apply Hl; rewrite E; apply in_or_app; right; by left).
    unfold zone_ok in Hr. apply andb_prop in Hr as [_ Hr]. by rewrite Hr.
Qed.

Definition sample_zones : list CloudflareZone :=
  [MkZone "a1" "example.com" "active"; MkZone "b2" "eu.example.com" "active"; MkZone "c3" "com" "active"].

Lemma zone_is_longest_match_witness :
  cloudflareZoneForDomain sample_zones "Web.EU.example.com." = (MkZone "b2" "eu.example.com" "active", true).
Proof.
  rewrite (zone_is_longest_match sample_zones "Web.EU.example.com."); [vm_compute; reflexivity|].
  vm_compute. reflexivity.
Defined.

(** ** The routes of a tunnel *)

Lemma ingress_hosts_spec hostnames seen h :
  h ∈ ingress_hosts seen hostnames
  <-> h ∉ seen /\ isPublicCloudflareDomain h = true
      /\ (exists d, In d hostnames /\ cloudflareHostname d = h).
Proof.
  revert seen. induction hostnames as [|d ds IH]; intros seen.
  - simpl. split; [by intros ?%elem_of_nil|by intros (_ & _ & d & [] & _)].
  - assert ((exists d', In d' (d :: ds) /\ cloudflareHostname d' = h)
      <-> cloudflareHostname d = h \/ exists d', In d' ds /\ cloudflareHostname d' = h) as Hor.
    { simpl. naive_solver. }
    rewrite Hor. clear Hor. cbn [ingress_hosts]. cbv zeta. set (x := cloudflareHostname d).
    destruct (isPublicCloudflareDomain x) eqn:Ex; cbn [negb orb].
    + case_bool_decide as Hseen.
      * rewrite IH. split; [tauto|]. intros (Hn & Hp & [->|Hin]); [done|tauto].
      * rewrite !elem_of_cons, IH, elem_of_cons. destruct (decide (h = x)) as [->|Hne]; [tauto|].
        split; [tauto|]. intros (Hn & Hp & [E|Hin]); [by destruct Hne|tauto].
    + rewrite IH. split; [tauto|]. intros (Hn & Hp & [E|Hin]); [congruence|tauto].
Qed.

Lemma ingress_hosts_nodup hostnames seen : NoDup (ingress_hosts seen hostnames).
Proof.
  revert seen. induction hostnames as [|d ds IH]; intros seen; [constructor|].
  cbn [ingress_hosts]. cbv zeta. destruct (_ || _); [apply IH|].
  apply NoDup_cons. split; [|apply IH]. rewrite ingress_hosts_spec, elem_of_cons. tauto.
Qed.

(** A tunnel routes exactly the public host names it is given, each once, to the proxy;
    every other request ends in the last rule, a 404. *)
Theorem tunnel_routes_exact hostnames :
  exists hosts,
    ingress_rules hostnames
    = JArr (map (fun h => JObj [("hostname", JStr h); ("service", JStr "http://caddy:80")]) hosts
            ++ [JObj [("service", JStr "http_status:404")]])
    /\ NoDup hosts
    /\ forall h, h ∈ hosts <-> isPublicCloudflareDomain h = true
                              /\ exists d, In d hostnames /\ cloudflareHostname d = h.
Proof.
  exists (ingress_hosts [] hostnames). split; [done|]. split; [apply ingress_hosts_nodup|].
  intros h. rewrite ingress_hosts_spec. split; [by intros (_ & H)|].
  intros H. split; [by intros ?%elem_of_nil|done].
Qed.

(** The domain that an application gets by default counts as public, so it is offered to
    the tunnel and to DNS. *)
Example default_domain_is_public : isPublicCloudflareDomain "my-web.localhost" = true.
Proof. reflexivity. Qed.

(** ** Redaction *)

Section redaction.
Context (old : string) (Hold : old <> "").
Context (mid : string) (Hmid : contains mid old = false).

Definition free_of (b : ascii) : bool := all_string (fun c => negb (Ascii.eqb c b)) old.
Context (Hopen : free_of "[" = true) (Hclose : free_of "]" = true).

Lemma prefix_before b (u t q : string) :
  all_string (fun c => negb (Ascii.eqb c b)) q = true ->
  has_prefix (u +:+ String b t) q = true -> has_prefix u q = true.
Proof.
  revert u. induction q as [|a q IH]; intros u Hq; [done|]. cbn [all_string] in Hq. bools.
  destruct u as [|c u]; cbn [String.append has_prefix].
  - intros [E _]%andb_prop. rewrite E in *. done.
  - intros [E Hp]%andb_prop. rewrite E. simpl. by apply IH.
Qed.

(** An occurrence does not reach over a byte that it does not have. *)
Lemma contains_apart b (u t : string) :
  free_of b = true -> contains u old = false -> contains t old = false ->
  contains (u +:+ String b t) old = false.
Proof.
  intros Hb Hu Ht. apply not_true_iff_false. induction u as [|c u IH].
  - cbn [String.append]. rewrite contains_cons, Ht, orb_false_r. intros Hp.
    change (String b t) with ("" +:+ String b t)%string in Hp. apply prefix_before in Hp; [|done].
    by destruct old.
  - rewrite contains_cons in Hu. apply orb_false_elim in Hu as [Hp Hu].
    cbn [String.append]. rewrite contains_cons. intros [H|H]%orb_prop; [|by apply IH].
    apply (prefix_before b (String c u) t) in H; [congruence|done].
Qed.

Local Abbreviation mark := (String "[" (mid +:+ "]")).

Lemma replace_skip k s : replace_from k s old mark = replace_from 0 (drop_string k s) old mark.
Proof. revert k. induction s as [|c s IH]; intros [|k]; try done. apply IH. Qed.

(** The bytes before the first mark are bytes of the text. *)
Lemma prefix_replaced q s :
  all_string (fun c => negb (Ascii.eqb c "[")) q = true ->
  has_prefix (replace_all s old mark) q = true -> has_prefix s q = true.
Proof.
  unfold replace_all. revert s. induction q as [|a q IH]; intros s Hq; [done|].
  cbn [all_string] in Hq. apply andb_prop in Hq as [Ha Hq]. destruct s as [|c s]; [done|].
  cbn [replace_from]. destruct (has_prefix (String c s) old).
  - cbn [String.append has_prefix]. by destruct (Ascii.eqb a "[").
  - cbn [has_prefix]. intros [-> Hp]%andb_prop. simpl. by apply IH.
Qed.

Lemma replaced_free n s : (String.length s <= n)%nat -> contains (replace_all s old mark) old = false.
Proof.
  revert s. induction n as [|n IH]; intros [|c s] Hn; try (simpl in Hn; lia); try by destruct old.
  unfold replace_all. cbn [replace_from]. destruct (has_prefix (String c s) old) eqn:Hp.
  - rewrite replace_skip. cbn [String.append].
    change (String "[" ((mid +:+ "]") +:+ ?t)) with ("" +:+ String "[" ((mid +:+ "]") +:+ t))%string.
    apply contains_apart; [done|by destruct old|]. rewrite <- append_assoc. apply contains_apart; [done|done|].
    apply IH. simpl in Hn. rewrite length_drop_string. lia.
  - rewrite contains_cons. apply orb_false_intro; [|apply IH; simpl in Hn; lia].
    apply not_true_iff_false. intros H. enough (has_prefix (String c s) old = true) by congruence.
    apply prefix_replaced; [exact Hopen|]. unfold replace_all. cbn [replace_from]. by rewrite Hp.
Qed.
End redaction.

Lemma contains_take n (s sub : string) : contains (take_string n s) sub = true -> contains s sub = true.
Proof.
  intros (a & b & E)%contains_spec. apply contains_spec. exists a, (b +:+ drop_string n s).
  rewrite <- (take_drop_string n s) at 1. rewrite E. by rewrite !append_assoc.
Qed.

(** What is shown of a command run with a secret never contains it, when the error text of the
    command itself does not. *)
Lemma redacted_free output err secret :
  secret <> "" -> free_of secret "[" = true -> free_of secret "]" = true ->
  contains "REDACTADO" secret = false -> contains err secret = false ->
  contains (safeDockerError output err [secret]) secret = false.
Proof.
  intros Hs Ho Hc Hm He. unfold safeDockerError. cbv zeta. destruct (trim_space output =? "")%string; [done|].
  cbn [fold_left]. rewrite (proj2 (String.eqb_neq _ _) Hs). apply not_true_iff_false.
  intros H%contains_take.
  pose proof (replaced_free secret Hs "REDACTADO" Hm Ho Hc _ (trim_space output) (le_n _)) as Hf.
  simpl in Hf. congruence.
Qed.
