(* ===== verification/ConnectorFacts.v ===== *)
(** * The tunnel token stays out of the messages

    The connector is created with the tunnel token in its environment.  Every error that
    [DockerCloudflaredConnector.Reconcile] reports to the panel quotes what Docker printed;
    none of them shows the token. *)

From S2P Require Import Prelude GoStrings Security Host StoreTypes Executor BlueGreen Engine BlueGreenFacts.
From S2P Require Import Connector CloudflareFacts.

(** ** Texts without the token *)

Lemma trim_right_solid p t : all_string (fun c => negb (p c)) t = true -> trim_right p t = t.
Proof.
  induction t as [|c t IH]; [done|]. cbn [all_string]. intros [Hc Ht]%andb_prop. cbn [trim_right].
  rewrite (IH Ht). destruct t; [|done]. by destruct (p c).
Qed.

Lemma trim_solid p t : all_string (fun c => negb (p c)) t = true -> trim p t = t.
Proof.
  intros Ht. unfold trim. assert (trim_left p t = t) as ->; [|by apply trim_right_solid].
  destruct t as [|c t]; [done|]. simpl in *. by destruct (p c).
Qed.

Section token.
Context (token : string).

Definition clean (s : string) : Prop := contains s token = false.
Definition clean_opt (e : option string) : Prop := match e with None => True | Some e => clean e end.

(** A tunnel token is base64 of a JSON document: some 180 bytes, no blank, no bracket. *)
Definition token_like : bool :=
  (100 <=? String.length token)%nat
  && all_string (fun c => negb (is_space c) && negb (Ascii.eqb c "[") && negb (Ascii.eqb c "]")) token.

Context (Htoken : token_like = true).

Lemma token_long : (100 <= String.length token)%nat.
Proof using Htoken. unfold token_like in Htoken. apply andb_prop in Htoken as [Hl _]. by apply Nat.leb_le in Hl. Qed.

Lemma token_without b : is_space b = true \/ b = "["%char \/ b = "]"%char -> free_of token b = true.
Proof using Htoken.
  intros Hb. unfold token_like in Htoken. apply andb_prop in Htoken as [_ Ht]. unfold free_of.
  refine (all_string_impl _ _ _ _ Ht). intros c Hc. destruct (Ascii.eqb_spec c b) as [->|]; [|done].
  destruct Hb as [Hb|[->| ->]]; [rewrite Hb in Hc|..]; revert Hc; simpl; rewrite ?andb_false_r; done.
Qed.

Lemma token_some : token <> "".
Proof using Htoken. intros E. pose proof token_long as Hl. rewrite E in Hl. simpl in Hl. lia. Qed.

(** A text shorter than the token. *)
Lemma clean_short s : (String.length s <? 100)%nat = true -> clean s.
Proof using Htoken.
  intros Hs. apply Nat.ltb_lt in Hs. unfold clean. apply not_true_iff_false. intros (a & b & ->)%contains_spec.
  rewrite !length_append in Hs. pose proof token_long. lia.
Qed.

Lemma clean_part a s b : clean (a +:+ s +:+ b) -> clean s.
Proof.
  unfold clean. rewrite <- !not_true_iff_false. intros Hn (x & y & ->)%contains_spec. apply Hn.
  apply contains_spec. exists (a +:+ x), (y +:+ b). by rewrite !append_assoc.
Qed.

Lemma trim_left_part p s : exists a, s = a +:+ trim_left p s.
Proof.
  induction s as [|c s [a IH]]; [by exists ""|]. simpl. destruct (p c); [|by exists ""].
  exists (String c a). simpl. by rewrite <- IH.
Qed.

Lemma trim_right_part p s : exists b, s = trim_right p s +:+ b.
Proof.
  induction s as [|c s [b IH]]; [by exists ""|]. simpl. destruct (trim_right p s) as [|d t] eqn:E.
  - destruct (p c); [by exists (String c s)|]. exists s. by simpl.
  - exists b. simpl in *. by rewrite <- IH.
Qed.

Lemma clean_trim s : clean s -> clean (trim_space s).
Proof.
  unfold trim_space, trim. intros Hs. destruct (trim_left_part is_space s) as [a Ea].
  destruct (trim_right_part is_space (trim_left is_space s)) as [b Eb].
  apply (clean_part a _ b). by rewrite <- Eb, <- Ea.
Qed.

(** The first field of a text that does not begin with a blank begins it. *)
Lemma first_field s : forall x xs, match s with "" => True | String d _ => is_space d = false end ->
  fields s = x :: xs -> exists b, s = x +:+ b.
Proof.
  induction s as [|c s IH]; intros x xs Hd E; [done|]. cbn [fields] in E. rewrite Hd in E.
  destruct s as [|d s]; [injection E as <- _; by exists ""|].
  destruct (is_space d) eqn:Ed; [injection E as <- _; by exists (String d s)|].
  destruct (fields (String d s)) as [|y ys] eqn:Ey; [injection E as <- _; by exists (String d s)|].
  injection E as <- _. destruct (IH y ys eq_refl eq_refl) as [b Eb]. exists b. simpl. by rewrite Eb.
Qed.

Lemma field_part s f : In f (fields s) -> exists a b, s = a +:+ f +:+ b.
Proof.
  revert f. induction s as [|c s IH]; intros f Hf; [done|]. cbn [fields] in Hf.
  assert (In f (fields s) -> exists a b, String c s = a +:+ f +:+ b) as Hrest.
  { intros (a & b & E)%IH. exists (String c a), b. simpl. by rewrite <- E. }
  destruct (is_space c); [auto|]. destruct s as [|d s]; [destruct Hf as [<-|[]]; by exists "", ""|].
  destruct (is_space d) eqn:Ed; [destruct Hf as [<-|Hf]; [by exists "", (String d s)|auto]|].
  destruct (fields (String d s)) as [|x xs] eqn:E; [destruct Hf as [<-|[]]; by exists "", (String d s)|].
  destruct Hf as [<-|Hf]; [|apply Hrest; by right].
  exists "". destruct (first_field (String d s) x xs Ed E) as [b Eb]. exists b. simpl. by rewrite Eb.
Qed.

Lemma clean_field s f : clean s -> In f (fields s) -> clean f.
Proof. intros Hs (a & b & E)%field_part. apply (clean_part a f b). by rewrite <- E. Qed.

(** The form of every message: a fixed text and a detail. *)
Lemma clean_message text d : (String.length text <? 99)%nat = true -> clean d -> clean (text +:+ ": " +:+ d).
Proof using Htoken.
  intros Hl Hd. apply Nat.ltb_lt in Hl.
  assert (text +:+ ": " +:+ d = (text +:+ ":") +:+ String " " d) as -> by (by rewrite <- append_assoc).
  apply (contains_apart token token_some "REDACTADO"); [by apply clean_short|by apply token_without; left| |exact Hd].
  apply clean_short, Nat.ltb_lt. rewrite length_append. simpl. lia.
Qed.

Lemma clean_detail output err : clean output -> clean err -> clean (safeDockerError output err []).
Proof.
  intros Ho He. unfold safeDockerError. cbv zeta. destruct (trim_space output =? "")%string; [done|]. cbn [fold_left].
  apply not_true_iff_false. intros Ht%contains_take. apply clean_trim in Ho. unfold clean in Ho. congruence.
Qed.

Lemma clean_redacted output err : clean err -> clean (safeDockerError output err [token]).
Proof using Htoken.
  intros He. apply redacted_free; [exact token_some|apply token_without; auto..| |exact He].
  by apply clean_short.
Qed.

(** ** Commands *)

(** What a command leaves for the message: its output and its error. *)
Definition says_nothing (r : result finished) : Prop :=
  match r with
  | Ok f => clean (fin_output f) /\ clean_opt (fin_error f)
  | Err err => clean (error_message err)
  end.

(** The commands of the connector that are run without the token. *)
Inductive plain_command (Image : string) : list string -> Prop :=
  | plain_info : plain_command Image docker_info
  | plain_inspect : plain_command Image ["container"; "inspect"; "--format"; inspect_format; cloudflaredContainerName]
  | plain_project self : plain_command Image ["container"; "inspect"; "--format";
      raw "{{index .Config.Labels `com.docker.compose.project`}}"; self]
  | plain_list project : clean project -> plain_command Image ["container"; "ls"; "--all"; "--quiet";
      "--filter"; "label=com.docker.compose.project=" +:+ project;
      "--filter"; "label=com.docker.compose.service=cloudflared"]
  | plain_remove name : clean name -> plain_command Image ["container"; "rm"; "--force"; name]
  | plain_start : plain_command Image start_connector
  | plain_image : plain_command Image ["image"; "inspect"; Image]
  | plain_pull : plain_command Image ["pull"; Image].

Definition clean_fault (f : fault) : Prop :=
  match f with NoFault => True | FailBefore m | FailAfter m => clean m end.

Section connector.
Context {H : Type} `{!Host H, !Crypto} (Image Network : string).
Context (Hplain : forall args h, plain_command Image args ->
  says_nothing (fst (host_exec (Command "docker" [] args) h))).
Context (Hcreate : forall args h, match fst (host_exec (Command "docker" [("TUNNEL_TOKEN", token)] args) h) with
  | Ok f => clean_opt (fin_error f)
  | Err err => clean (error_message err)
  end).

(** [m] leaves no fault with the token, its errors do not show it, its results satisfy [Q]. *)
Definition hushed {A} (Q : A -> Prop) (m : EM H A) : Prop :=
  forall w, Forall clean_fault (w_faults w) ->
    Forall clean_fault (w_faults (snd (m w)))
    /\ match fst (m w) with Ok a => Q a | Err err => clean (error_message err) end.

Lemma hushed_ret {A} (Q : A -> Prop) a : Q a -> hushed Q (mret a).
Proof. by intros HQ w Hw. Qed.
Lemma hushed_fail {A} (Q : A -> Prop) err : clean (error_message err) -> hushed Q (fail err).
Proof. by intros HQ w Hw. Qed.
Lemma hushed_bind {A B} (P : A -> Prop) (Q : B -> Prop) (m : EM H A) (f : A -> EM H B) :
  hushed P m -> (forall a, P a -> hushed Q (f a)) -> hushed Q (m ≫= f).
Proof.
  intros Hm Hf w Hw. destruct (Hm w Hw) as [Hw1 HP]. unfold mbind, M_bind.
  destruct (m w) as [[a|err] w1]; simpl in *; [by apply Hf|done].
Qed.
Lemma hushed_host {A} (Q : result A -> Prop) (f : H -> result A * H) :
  (forall h, Q (fst (f h))) -> (forall m, clean m -> Q (Err (ErrEnv m))) ->
  hushed Q (attempt (host_step f)).
Proof.
  intros Hf Hm w Hw. unfold attempt, host_step, step, step_with, next_fault, on_host.
  destruct (w_faults w) as [|x fs] eqn:Ef; cbn [fst snd].
  - specialize (Hf (site_host (w_state w))). destruct (f _) as [r h]. simpl. by rewrite Ef.
  - apply Forall_cons in Hw as [Hx Hfs]. specialize (Hf (site_host (w_state w))).
    destruct x; simpl; [|by split; [|apply Hm]..]. by destruct (f _) as [r h].
Qed.
Lemma hushed_each {A} (xs : list A) (f : A -> EM H unit) :
  (forall x, In x xs -> hushed (fun _ => True) (f x)) -> hushed (fun _ => True) (for_each xs f).
Proof.
  induction xs as [|x xs IH]; intros Hf; [by apply hushed_ret|]. simpl.
  apply (hushed_bind (fun _ => True)); [apply Hf; by left|]. intros _ _. apply IH. intros y Hy. apply Hf. by right.
Qed.

Lemma hushed_command args : plain_command Image args ->
  hushed (fun '(output, err) => clean output /\ clean_opt err) (command_of [] args).
Proof using Hplain Htoken.
  intros Ha. unfold command_of. apply (hushed_bind says_nothing).
  - apply hushed_host; [by intros h; apply Hplain|done].
  - intros [f|err] Hs; apply hushed_ret; [done|]. split; [by apply clean_short|done].
Qed.

Lemma hushed_must args text : plain_command Image args -> (String.length text <? 99)%nat = true ->
  hushed (fun _ => True) (must [] args [] text).
Proof using Hplain Htoken.
  intros Ha Hl. unfold must. eapply hushed_bind; [by apply hushed_command|].
  intros [output [err|]] [Ho He]; [|by apply hushed_ret]. apply hushed_fail. simpl.
  apply clean_message; [done|]. by apply clean_detail.
Qed.

Lemma hushed_inspect : hushed (fun _ => True) (inspect (H := H)).
Proof using Hplain Htoken.
  unfold inspect. eapply hushed_bind; [apply hushed_command, plain_inspect|].
  intros [output [err|]] [Ho He].
  - cbv zeta. destruct (_ || _); [by apply hushed_ret|]. apply hushed_fail.
    exact (clean_message "no se pudo inspeccionar el conector" _ eq_refl (clean_detail _ _ Ho He)).
  - unfold parse_inspection. intros w Hw. split; [done|]. cbn [fst lift].
    destruct (split_on "|" (trim_space output)) as [|? [|? [|? [|? [|? [|? ?]]]]]]; try exact I;
      by apply clean_short.
Qed.

Lemma hushed_daemon text : (String.length text <? 100)%nat = true -> hushed (fun _ => True) (daemon (H := H) text).
Proof using Hplain Htoken.
  intros Hl. unfold daemon. eapply hushed_bind; [apply hushed_command, plain_info|].
  intros [output [err|]] _; [|by apply hushed_ret]. apply hushed_fail. by apply clean_short.
Qed.

Lemma hushed_legacy : hushed (fun _ => True) (removeLegacyComposeConnector (H := H)).
Proof using Hplain Htoken.
  unfold removeLegacyComposeConnector. apply (hushed_bind (fun _ => True)); [by apply hushed_host|].
  intros [self|err] _; [|by apply hushed_ret]. destruct (trim_space self =? "")%string; [by apply hushed_ret|].
  eapply hushed_bind; [apply hushed_command, plain_project|]. intros [output [err|]] [Ho He]; [by apply hushed_ret|].
  cbv zeta. destruct (_ || _); [by apply hushed_ret|].
  eapply hushed_bind; [apply hushed_command, plain_list, clean_trim, Ho|].
  intros [listed [err|]] [Hl Hle].
  - apply hushed_fail.
    exact (clean_message "no se pudo comprobar el conector anterior de Compose" _ eq_refl
             (clean_detail _ _ Hl Hle)).
  - apply hushed_each. intros id Hid. apply hushed_must; [|done]. apply plain_remove. by apply (clean_field listed).
Qed.

Lemma clean_name : clean cloudflaredContainerName.
Proof using Htoken. by apply clean_short. Qed.

Lemma hushed_pull : hushed (fun _ => True) (pull_image Image (H := H)).
Proof using Hplain Htoken.
  unfold pull_image. eapply hushed_bind; [apply hushed_command, plain_image|].
  intros [output [err|]] _; [|by apply hushed_ret]. apply hushed_must; [apply plain_pull|done].
Qed.

Lemma hushed_create : hushed (fun _ => True) (create_connector Image Network (H := H) token).
Proof using Hplain Hcreate Htoken.
  unfold create_connector. apply (hushed_bind (fun _ => True)).
  - unfold must, command_of. set (args := create_args _ _ _). clearbody args.
    apply (hushed_bind (fun '(_, err) => clean_opt err)).
    + apply (hushed_bind (fun r => match r with Ok f => clean_opt (fin_error f)
                                   | Err err => clean (error_message err) end)).
      * apply hushed_host; [intros h; apply Hcreate|done].
      * intros [f|err] Hs; by apply hushed_ret.
    + intros [output [err|]] He; [|by apply hushed_ret]. apply hushed_fail.
      apply clean_message; [done|]. by apply clean_redacted.
  - intros _ _. eapply hushed_bind; [apply hushed_command, plain_start|].
    intros [output [err|]] [Ho He]; [|by apply hushed_ret].
    eapply hushed_bind; [apply hushed_command, plain_remove, clean_name|]. intros _ _. apply hushed_fail.
    exact (clean_message "no se pudo iniciar el conector" _ eq_refl (clean_detail _ _ Ho He)).
Qed.

Lemma trim_token : trim_space token = token.
Proof using Htoken.
  pose proof Htoken as Ht. unfold token_like in Ht. apply andb_prop in Ht as [_ Ht].
  refine (trim_solid is_space token (all_string_impl _ _ _ _ Ht)).
  intros c Hc. by destruct (is_space c).
Qed.

Lemma hushed_reconcile : hushed (fun _ => True) (connector_Reconcile Image Network (H := H) token).
Proof using Hplain Hcreate Htoken.
  unfold connector_Reconcile. rewrite trim_token. cbv zeta.
  rewrite (proj2 (String.eqb_neq _ _) token_some).
  apply (hushed_bind (fun _ => True)); [by apply hushed_daemon|]. intros _ _.
  apply (hushed_bind (fun _ => True)); [apply hushed_legacy|]. intros _ _.
  apply (hushed_bind (fun _ => True)); [apply hushed_inspect|]. intros found _.
  destruct (_ && negb _); [apply hushed_fail; by apply clean_short|].
  destruct (_ && _ && _).
  { destruct (_ =? _)%string; [by apply hushed_ret|]. apply hushed_must; [apply plain_start|done]. }
  apply (hushed_bind (fun _ => True)); [apply hushed_pull|]. intros _ _.
  apply (hushed_bind (fun _ => True)); [|intros _ _; apply hushed_create].
  destruct (in_exists found); [|by apply hushed_ret].
  apply hushed_must; [apply plain_remove, clean_name|done].
Qed.
End connector.
End token.

(** C36: an error of the connector never shows the tunnel token.  The token is given to one command
    only, the creation of the container, and what that command prints may contain it, any number of
    times; the other commands are not given it, so they print nothing with it, and the error text of
    a command (its exit status) does not have it.  Then, whatever fails, no error of [Reconcile],
    which the panel shows to the operator, contains the token. *)
Theorem connector_hides_token {H} `{!Host H, !Crypto} Image Network token (w : world (site H)) err :
  token_like token = true ->
  Forall (clean_fault token) (w_faults w) ->
  (forall args h, plain_command token Image args ->
     says_nothing token (fst (host_exec (Command "docker" [] args) h))) ->
  (forall args h, match fst (host_exec (Command "docker" [("TUNNEL_TOKEN", token)] args) h) with
                  | Ok f => clean_opt token (fin_error f)
                  | Err e => clean token (error_message e)
                  end) ->
  eval (connector_Reconcile Image Network token) w = Err err ->
  contains (error_message err) token = false.
Proof.
  intros Ht Hw Hplain Hcreate E. unfold eval in E.
  destruct (hushed_reconcile token Ht Image Network Hplain Hcreate w Hw) as [_ Hr]. by rewrite E in Hr.
Qed.

(** ** A daemon that prints the environment of a container it refuses to create *)

Definition exec_by (f : command -> machine -> result finished * machine) : Host machine := {|
  host_exec := f; host_look_path := host_look_path; host_getenv := host_getenv; host_http := host_http;
  host_stat := host_stat; host_is_socket := host_is_socket; host_read_dir := host_read_dir;
  host_eval_symlinks := host_eval_symlinks; host_mkdir_all := host_mkdir_all; host_read_tree := host_read_tree;
  host_read_file := host_read_file; host_chmod := host_chmod; host_close := host_close; host_size := host_size;
  host_write_file := host_write_file; host_create_temp := host_create_temp; host_remove := host_remove;
  host_mkdir_temp := host_mkdir_temp; host_remove_all := host_remove_all; host_open_append := host_open_append;
  host_open := host_open; host_statfs := host_statfs; host_mkdir := host_mkdir; host_entries := host_entries;
  host_is_dir := host_is_dir; host_certificates := host_certificates; host_hostname := host_hostname;
  host_getwd := host_getwd; host_lookup_cname := host_lookup_cname |}.

Definition shown_environment (environment : list (string * string)) : string :=
  foldr (fun kv text => kv.1 +:+ "=" +:+ kv.2 +:+ " " +:+ text) "" environment.

Definition verbose_daemon (c : command) (m : machine) : result finished * machine :=
  match cmd_env c, cmd_args c with
  | [], ["container"; "inspect"; "--format"; _; name] => (Ok (Finished "" (Some "not found")), m)
  | [], _ => (done_with "", m)
  | environment, _ =>
    (Ok (Finished ("invalid environment: " +:+ shown_environment environment) (Some "exit status 125")), m)
  end.

Definition demo_token : string :=
  "eyJhIjoiYWNjb3VudC10YWctMDAwMDAwMDAwMDAwMDAwMCIsInQiOiJ0dW5uZWwtaWQtMDAwMC0wMDAwLTAwMDAiLCJzIjoiYzJWamNtVjAwMDAwMDAwIn0=".

Lemma connector_hides_token_witness :
  exists err, eval (connector_Reconcile (H := machine) (Host0 := exec_by verbose_daemon)
                      "cloudflare/cloudflared" "minidock-edge" demo_token) (run_on (serving_blog []) []) = Err err
    /\ contains (error_message err) "TUNNEL_TOKEN=[REDACTADO]" = true
    /\ contains (error_message err) demo_token = false.
Proof.
  eexists. split; [vm_compute; reflexivity|]. split; [vm_compute; reflexivity|].
  refine (@connector_hides_token machine (exec_by verbose_daemon) _ "cloudflare/cloudflared" "minidock-edge"
    demo_token (run_on (serving_blog []) []) _ _ _ _ _ _).
  - vm_compute; reflexivity.
  - constructor.
  - intros args h Hp. destruct Hp; split; vm_compute; exact I || reflexivity.
  - intros args h. vm_compute. reflexivity.
  - vm_compute; reflexivity.
Defined.
