(* ===== verification/ReadOnly.v ===== *)
(** * What a page reads

    A page asks the database and the machine and changes neither the process nor its sessions:
    the traversal of the routes that are not POST requests. *)

From S2P Require Import Prelude GoStrings GoTime Json Net Base64 Security BackupFormat Host Templates.
From S2P Require Import StoreTypes Executor Proxy BlueGreen Release Config Views Hub Preflight Operations Session.
From S2P Require Import StoreSettings StoreApplications StoreAccess StoreDeployments CICD Handlers.
From S2P Require Import Cloudflare Connector CloudflareHandlers Repositories Pages PageHandlers Server.
From S2P Require Import Engine BlueGreenFacts WebhookFacts SessionFacts.

(** ** Reading *)

(** The database, the key, the sessions and the collected status are the same; what a page
    asks the machine goes through the machine's own state. *)
Definition same_process {H} (a b : hub H) : Prop :=
  hub_db b = hub_db a /\ hub_key b = hub_key a /\ hub_sessions b = hub_sessions a
  /\ hub_cache b = hub_cache a.
#[export] Instance same_process_preorder {H} : PreOrder (same_process (H := H)).
Proof.
  split; unfold same_process; [done|]. intros a b c (-> & -> & -> & ->) (-> & -> & -> & ->). done.
Qed.

Lemma reads_on_db {H A} (m : DB A) : evolves (=) m -> evolves same_process (on_db (H := H) m).
Proof.
  intros Hm. apply (evolves_weaken (=)); [by intros a b ->|]. by apply eq_on_db.
Qed.
Lemma reads_on_site {H A} (m : EM H A) : evolves same_process (on_site m).
Proof. apply (evolves_zoom _ _ (fun _ _ => True)); [|done]. by intros s t _. Qed.
Lemma reads_peek {H A} (f : hub H -> A) : evolves same_process (peek f).
Proof. by intros w. Qed.
Lemma reads_or_reply {H A} (m : AM H A) r k :
  evolves same_process m -> (forall a, evolves same_process (k a)) -> evolves same_process (or_reply m r k).
Proof.
  intros Hm Hk. unfold or_reply. apply evolves_bind; [exact _|by apply evolves_attempt|].
  intros [a|err]; [apply Hk|]. apply evolves_ret. exact _.
Qed.

Ltac reads_step :=
  lazymatch goal with
  | |- evolves same_process (on_db _) => refine (reads_on_db _ _)
  | |- evolves same_process (on_site _) => refine (reads_on_site _)
  | |- evolves same_process (peek _) => refine (reads_peek _)
  | |- evolves same_process (or_reply _ _ _) => refine (reads_or_reply _ _ _ _ _); [|intros ?]
  | H : evolves same_process ?m |- evolves same_process ?m => exact H
  | H : context [evolves same_process _] |- evolves same_process _ => first [solve [apply H] | evolve_step]
  | |- _ => evolve_step
  end.
Ltac reads := repeat first [reads_step | solve [eauto 1 with reading] | open_head].

Create HintDb reading.

Section reading.
Context {H : Type} `{!Host H} `{!Crypto}.
Context (adapterOverride : gmap string (RuntimeAdapter H)) (proxyOverride : option (ProxyAdapter H)).
Context (serialize : database -> result string)
  (s3_put_object : S3Config -> s3_put -> H -> result unit * H).
Context (client : CloudflareAPI H) (cloudflared : CloudflaredConnector H).
Context (static : string -> option string) (patience : nat).
Context (zone : Duration) (config : Config) (e : Executor).
Abbreviation reading := (evolves (same_process (H := H))).

Lemma reads_log_events ticks id n : forall last, reading (log_events config ticks id n last).
Proof. induction ticks as [|ticks IH]; intros last; simpl; reads. Qed.
Lemma reads_merge cached : forall active, reading (merge_alerts cached active).
Proof. induction cached as [|[severity message] cached IH]; intros active; simpl; reads. Qed.
Lemma reads_rows k applications : reading (operation_rows k applications).
Proof. induction applications as [|a applications IH]; simpl; reads. Qed.
Lemma reads_candidates a candidates : forall p, reading (preview_candidates config a candidates p).
Proof. induction candidates as [|c candidates IH]; intros p; simpl; reads. Qed.
#[local] Hint Resolve reads_candidates : reading.
Lemma reads_preview before applications : forall p, reading (preview_applications config before applications p).
Proof. induction applications as [|a applications IH]; intros p; simpl; reads. Qed.
#[local] Hint Resolve reads_log_events reads_merge reads_rows reads_preview : reading.

Lemma reads_get_mux r :
  reading (get_mux adapterOverride proxyOverride client cloudflared static patience config e r).
Proof. unfold get_mux. reads. Qed.
End reading.
