(* ===== verification/ServerFacts.v ===== *)
(** * What a request can do *)

From S2P Require Import Prelude GoStrings GoTime Json Net Base64 Security BackupFormat Host Templates.
From S2P Require Import StoreTypes Executor Proxy BlueGreen Release Config Views Hub Preflight Operations Session.
From S2P Require Import StoreSettings StoreApplications StoreAccess StoreDeployments StoreQueueFacts CICD.
From S2P Require Import Handlers Cloudflare Connector CloudflareHandlers Repositories Pages PageHandlers Server.
From S2P Require Import Engine BlueGreenFacts WebhookFacts SessionFacts ReadOnly.

(** ** Routes outside the CSRF check *)

Section server.
Context {H : Type} `{!Host H} `{!Crypto}.
Context (adapterOverride : gmap string (RuntimeAdapter H)) (proxyOverride : option (ProxyAdapter H)).
Context (serialize : database -> result string)
  (s3_put_object : S3Config -> s3_put -> H -> result unit * H).
Context (client : CloudflareAPI H) (cloudflared : CloudflaredConnector H).
Context (static : string -> option string) (patience : nat).
Context (zone : Duration) (config : Config) (e : Executor).
Abbreviation mux' := (mux adapterOverride proxyOverride serialize s3_put_object client cloudflared static patience zone config e).
Abbreviation serve' := (serve adapterOverride proxyOverride serialize s3_put_object client cloudflared static patience zone config e).

Lemma unchecked_routes random r : q_Method r = "POST" -> csrf_checked r = false ->
  (exists id, q_Segments r = ["webhooks"; "github"; id] /\ mux' random r = githubWebhook config (hook_of r id))
  \/ (q_Segments r = ["setup"] /\ mux' random r = setup (entropy_of random) r)
  \/ (q_Segments r = ["unlock"] /\ mux' random r = unlock zone (entropy_of random) r)
  \/ mux' random r = mret method_not_allowed.
Proof.
  intros Hm. unfold csrf_checked, q_Path, mux, post_mux. rewrite Hm. cbn [String.eqb Ascii.eqb Bool.eqb negb andb orb].
  destruct (existsb _ _); [by auto|].
  destruct (q_Segments r) as [|a [|b [|c [|d [|f [|]]]]]]; auto 10.
  - destruct (String.eqb_spec a "applications") as [->|]; [done|].
    destruct (String.eqb_spec a "setup") as [->|]; [by auto|].
    destruct (String.eqb_spec a "unlock") as [->|]; [by auto|].
    destruct (String.eqb_spec a "lock") as [->|]; [done|by auto].
  - destruct (String.eqb_spec a "operations") as [->|]; [done|].
    destruct (String.eqb_spec a "repositories") as [->|]; [done|].
    destruct (String.eqb_spec a "cloudflare") as [->|]; [done|by auto].
  - destruct (String.eqb_spec a "applications") as [->|]; [done|].
    destruct (String.eqb_spec a "webhooks") as [->|]; [|by auto].
    destruct (String.eqb_spec b "github") as [->|]; [|by auto]. intros _. left. by exists c.
  - destruct (String.eqb_spec a "applications") as [->|]; [done|by auto].
  - destruct (String.eqb_spec a "applications") as [->|]; [done|by auto].
Qed.
Lemma setup_effect random r (w : world (hub H)) :
  w_state (snd (setup random r w)) = w_state w
  \/ t_settings (hub_db (w_state w)) !! "security.salt" = None.
Proof.
  set (P := fun a b : hub H => b = a \/ t_settings (hub_db a) !! "security.salt" = None).
  assert (forall a b : hub H, a = b -> P a b) as HQP by (intros a b ->; by left).
  change (P (w_state w) (w_state (snd (setup random r w)))). unfold setup.
  apply (arrives_or_reply (=) _ HQP); [apply eq_on_db, eq_query|done|].
  intros initialized w1 E Hs. apply on_db_run in E as (v & E & _). apply query_run in E as [[= E] _].
  destruct initialized; [by left|]. right. simpl in E. apply eq_None_not_Some.
  by case_bool_decide.
Qed.

(** ** Credentials *)

(** Why a POST request was allowed to change the process: an open session with the token
    that belongs to it under the master key, a signed webhook, the first setup, or an attempt
    to unlock, whose changes are bounded.  The test environment alone does not ask for the
    token, nor for a session when the request locks the process. *)
Inductive credential (r : HTTPRequest) (w : world (hub H)) (s' : hub H) : Prop :=
  | OpenSession cookie expires t w1 :
      q_Cookie r = Some cookie -> hub_key (w_state w) <> "" ->
      hub_sessions (w_state w) !! cookie = Some expires -> now w = (Ok t, w1) -> t < expires ->
      (csrf_bypass config r = false ->
       csrf_actual r = RawURLEncoding (hmac_sha256 (hub_key (w_state w)) cookie)) ->
      credential r w s'
  | SignedPush id body :
      q_Segments r = ["webhooks"; "github"; id] -> WebhookSecret config <> "" -> q_Body r = Ok body ->
      validGitHubSignature (WebhookSecret config) body (HeaderGet (q_Header r) "X-Hub-Signature-256") = true ->
      credential r w s'
  | FirstSetup :
      q_Segments r = ["setup"] -> t_settings (hub_db (w_state w)) !! "security.salt" = None ->
      credential r w s'
  | UnlockAttempt :
      q_Segments r = ["unlock"] -> unlocked r (w_state w) s' -> credential r w s'
  | TestLock :
      Environment config = "test" -> HeaderGet (q_Header r) "X-Test-Validate-CSRF" = "" ->
      q_Segments r = ["lock"] -> credential r w s'.

Lemma csrf_guards next r (w : world (hub H)) :
  csrf_checked r = true -> csrf_bypass config r = false ->
  w_state (snd (csrfCheck config next r w)) <> w_state w ->
  exists cookie expires t w1, q_Cookie r = Some cookie /\ hub_key (w_state w) <> ""
    /\ hub_sessions (w_state w) !! cookie = Some expires /\ now w = (Ok t, w1) /\ t < expires
    /\ csrf_actual r = RawURLEncoding (hmac_sha256 (hub_key (w_state w)) cookie).
Proof.
  intros Hc Hb. unfold csrfCheck. rewrite Hc, Hb. unfold mbind at 1, M_bind at 1.
  pose proof (eq_authorized r w) as Hs.
  destruct (authorized r w) as [[[|]|err] w1] eqn:Ea; cbn [negb snd] in *; try by rewrite Hs.
  apply authorized_run in Ea as (cookie & expires & t & w2 & Eq & Hk & Es & En & Ht & Ew).
  rewrite Eq. unfold csrfTokenFor, keyCopy, peek, mbind, M_bind, mret, M_ret.
  cbn [w_state]. rewrite Ew, (proj2 (String.eqb_neq _ _) Hk).
  set (token := RawURLEncoding _).
  destruct (token =? "")%string; [by rewrite <- Ew|]. cbn [orb].
  destruct (String.eqb_spec (csrf_actual r) token) as [Et|]; cbn [negb]; [|by rewrite <- Ew].
  intros _. by exists cookie, expires, t, w2.
Qed.

(** A handler that changes the process only for an open session. *)
Definition needs_session (r : HTTPRequest) (m : AM H Reply) : Prop :=
  forall w, w_state (snd (m w)) <> w_state w -> exists w1, authorized r w = (Ok true, w1).

Lemma needs_required r handler : needs_session r (requireAuthorization r handler).
Proof.
  intros w. unfold requireAuthorization, mbind, M_bind. pose proof (eq_authorized r w) as Hs.
  destruct (authorized r w) as [[[|]|err] w1]; simpl in *; [by exists w1|by rewrite Hs..].
Qed.
Lemma needs_refused r reply : needs_session r (mret reply).
Proof. by intros w Hs. Qed.

Ltac needs :=
  repeat lazymatch goal with
  | |- needs_session _ (requireAuthorization _ _) => apply needs_required
  | |- needs_session _ (with_application _ _ _) => apply needs_required
  | |- needs_session _ (mret _) => apply needs_refused
  | |- needs_session _ (if ?b then _ else _) => destruct b
  | |- needs_session _ ?m => let h := head_of m in unfold h
  end.

Lemma application_action_needs random r id action :
  needs_session r (application_action adapterOverride proxyOverride client config e random r id action).
Proof. unfold application_action. needs. Qed.

(** Without the check of the token every handler still asks for the session, but [lock]. *)
Lemma checked_routes random r : q_Method r = "POST" -> csrf_checked r = true ->
  needs_session r (mux' random r) \/ q_Segments r = ["lock"].
Proof.
  intros Hm. unfold csrf_checked, q_Path, mux, post_mux. rewrite Hm. 
  change ("POST" =? "POST")%string with true. cbv iota. cbn [andb].
  destruct (existsb _ _); [left; needs|].
  destruct (q_Segments r) as [|a [|b [|c [|d [|f [|]]]]]]; try (left; needs; fail).
  - destruct (String.eqb_spec a "applications") as [->|]; [left; needs|].
    destruct (String.eqb_spec a "setup") as [->|]; [done|].
    destruct (String.eqb_spec a "unlock") as [->|]; [done|].
    destruct (String.eqb_spec a "lock") as [->|]; [by right|left; needs].
  - destruct (String.eqb_spec a "applications") as [->|]; [left; apply application_action_needs|].
    destruct (String.eqb_spec a "webhooks") as [->|]; [|left; cbn [andb]; needs].
    destruct (String.eqb_spec b "github") as [->|]; [done|left; rewrite andb_false_r; needs].
Qed.

(** C3: nothing changes without a credential.  When a request of any method, in any environment,
    changes the state, then either it is a POST with an open session and, outside the test
    environment, the CSRF token of that session; a signed push; the first setup; an unlock attempt,
    which changes no more than its failed-attempt rows unless its password opens the verifier; or
    the lock of a process in the test environment.  Or it is no POST, and the database, the
    master key, the sessions and the collected status are as they were. *)
Theorem changes_need_credentials random r w :
  let s' := w_state (snd (serve' random r w)) in
  s' <> w_state w ->
  (q_Method r = "POST" /\ credential r w s') \/ (q_Method r <> "POST" /\ same_process (w_state w) s').
Proof.
  cbv zeta. destruct (decide (q_Method r = "POST")) as [Hm|Hm].
  2: { intros _. right. split; [done|]. apply String.eqb_neq in Hm.
       unfold serve, csrfCheck, csrf_checked, mux. rewrite Hm. cbn [andb].
       destruct (is_read r); [apply reads_get_mux|reflexivity]. }
  intros Hs. left. split; [done|]. revert Hs. unfold serve. destruct (csrf_checked r) eqn:Hc.
  - destruct (csrf_bypass config r) eqn:Hb.
    + unfold csrfCheck. rewrite Hc, Hb. destruct (checked_routes random r Hm Hc) as [Hn|Hl].
      * intros (w1 & Ha)%Hn. apply authorized_run in Ha as (cookie & expires & t & w2 & H1 & H2 & H3 & H4 & H5 & _).
        eapply OpenSession; try done. by rewrite Hb.
      * intros _. unfold csrf_bypass in Hb. apply andb_prop in Hb as [He Hh].
        apply String.eqb_eq in He, Hh. by apply TestLock.
    + intros (cookie & expires & t & w1 & H1 & H2 & H3 & H4 & H5 & H6)%csrf_guards; [|done..].
      by eapply OpenSession.
  - unfold csrfCheck. rewrite Hc.
    destruct (unchecked_routes random r Hm Hc) as [(id & Es & ->)|[(Es & ->)|[(Es & ->)| -> ]]].
    + intros (_ & Hsec & body & Hb & _ & Hsig)%webhook_signed. by eapply SignedPush.
    + intros Hs. apply FirstSetup; [done|]. by destruct (setup_effect (entropy_of random) r w).
    + intros _. apply UnlockAttempt; [done|]. apply unlock_effect.
    + done.
Qed.
End server.

(** ** A request with the token of its session *)

Definition lock_request : HTTPRequest :=
  MkHTTPRequest "POST" ["lock"] (Ok tt) [] []
    [("x-csrf-token", RawURLEncoding (hmac_sha256 zero_key "c1"))] (Ok "") (Some "c1") "192.0.2.7:40001" true.
Definition open_world : world (hub machine) :=
  World (Hub hook_db (Site (serving_blog []) [] None) zero_key {["c1" := 2 ^ 70]} cache0)
    [] 63900000000000000000 [].
Definition no_upload (cfg : S3Config) (put : s3_put) (m : machine) : result unit * machine :=
  (Err (ErrMsg "offline"), m).
Definition no_scripts (name : string) : option string := None.
Abbreviation sample_serve := (serve ∅ None (fun _ => Ok "SQLite format 3") no_upload NewCloudflareClient
  (NewDockerCloudflaredConnector "" "") no_scripts 0 0 hook_config (executor_of hook_config) (fun _ => Ok "nonce-123456")).

Lemma changes_need_credentials_witness :
  let s' := w_state (snd (sample_serve lock_request open_world)) in
  hub_key s' = "" /\ credential hook_config lock_request open_world s'.
Proof.
  cbv zeta. split; [vm_compute; reflexivity|].
  destruct (changes_need_credentials ∅ None (fun _ => Ok "SQLite format 3") no_upload NewCloudflareClient
    (NewDockerCloudflaredConnector "" "") no_scripts 0 0 hook_config (executor_of hook_config)
    (fun _ => Ok "nonce-123456") lock_request open_world) as [[_ Hc]|[Hm _]].
  - intros E%(f_equal hub_key). revert E. vm_compute. discriminate.
  - exact Hc.
  - exfalso. exact (Hm eq_refl).
Defined.
