(* ===== verification/ReadFacts.v ===== *)
(** * What a page can do, and what a stranger can see *)

From S2P Require Import Prelude GoStrings GoTime Json Net Base64 Security BackupFormat Host Templates.
From S2P Require Import StoreTypes Executor Proxy BlueGreen Release Config Views Hub Preflight Operations Session.
From S2P Require Import StoreSettings StoreApplications StoreAccess StoreDeployments CICD Handlers.
From S2P Require Import Cloudflare Connector CloudflareHandlers Repositories Pages PageHandlers Server.
From S2P Require Import Engine BlueGreenFacts WebhookFacts SessionFacts ReadOnly ServerFacts.

(** ** Reading *)

Create HintDb blind.

Section reading.
Context {H : Type} `{!Host H} `{!Crypto}.
Context (adapterOverride : gmap string (RuntimeAdapter H)) (proxyOverride : option (ProxyAdapter H)).
Context (serialize : database -> result string)
  (s3_put_object : S3Config -> s3_put -> H -> result unit * H).
Context (client : CloudflareAPI H) (cloudflared : CloudflaredConnector H).
Context (static : string -> option string) (patience : nat).
Context (zone : Duration) (config : Config) (e : Executor).

(** C14: a request that is not a POST leaves the database, the master key, the sessions and
    the collected status as they were, whatever it asks and whatever fails. *)
Theorem reading_changes_nothing random r w : q_Method r <> "POST" ->
  same_process (w_state w) (w_state (snd (serve adapterOverride proxyOverride serialize s3_put_object
    client cloudflared static patience zone config e random r w))).
Proof.
  intros Hm%String.eqb_neq. unfold serve, csrfCheck, csrf_checked, mux. rewrite Hm. cbn [andb].
  destruct (is_read r); [apply reads_get_mux|reflexivity].
Qed.

(** ** Strangers *)

(** Without a session: no cookie, a locked process, or a session that is unknown or over. *)
Definition stranger (r : HTTPRequest) (w : world (hub H)) : Prop :=
  Forall (fun t => 0 <= t) (w_ticks w) /\
  forall cookie, q_Cookie r = Some cookie ->
    hub_key (w_state w) = "" \/
    forall expires, hub_sessions (w_state w) !! cookie = Some expires -> expires <= w_clock w.

Definition initialized (a : hub H) : bool := bool_decide (is_Some (t_settings (hub_db a) !! "security.salt")).

(** Two processes that differ in the database and the collected status; both are set up or
    neither is. *)
Record alike (v w : world (hub H)) : Prop := Alike {
  alike_faults : w_faults v = w_faults w;
  alike_clock : w_clock v = w_clock w;
  alike_ticks : w_ticks v = w_ticks w;
  alike_site : hub_site (w_state v) = hub_site (w_state w);
  alike_key : hub_key (w_state v) = hub_key (w_state w);
  alike_sessions : hub_sessions (w_state v) = hub_sessions (w_state w);
  alike_initialized : initialized (w_state v) = initialized (w_state w) }.

(** A computation that cannot tell them apart. *)
Definition blind {A} (m : AM H A) : Prop := forall v w, alike v w ->
  fst (m v) = fst (m w) /\ alike (snd (m v)) (snd (m w)).

Lemma blind_ret {A} (a : A) : blind (mret a).
Proof. by intros v w Hvw. Qed.
Lemma blind_bind {A B} (m : AM H A) (k : A -> AM H B) : blind m -> (forall a, blind (k a)) -> blind (m ≫= k).
Proof.
  intros Hm Hk v w Hvw. destruct (Hm v w Hvw) as [E Hs]. unfold mbind, M_bind.
  destruct (m v) as [r v'], (m w) as [r' w']. simpl in E, Hs. subst r'. destruct r; [by apply Hk|done].
Qed.
Lemma blind_attempt {A} (m : AM H A) : blind m -> blind (attempt m).
Proof. intros Hm v w (E & Hs)%Hm. rewrite !eval_attempt. simpl. by rewrite E. Qed.
Lemma blind_or_reply {A} (m : AM H A) r k : blind m -> (forall a, blind (k a)) -> blind (or_reply m r k).
Proof.
  intros Hm Hk. apply blind_bind; [by apply blind_attempt|]. intros [a|err]; [apply Hk|apply blind_ret].
Qed.
Lemma blind_now : blind now.
Proof.
  intros [s f c t] [s' f' c' t'] [? ? ? ? ? ? ?]. simpl in *. subst.
  unfold now. simpl. destruct t' as [|t ts]; (split; [done|by constructor]).
Qed.
Lemma blind_on_site {A} (m : EM H A) : blind (on_site m).
Proof.
  intros [s f c t] [s' f' c' t'] [? ? ? Hs ? ? ?]. simpl in *. subst. unfold on_site, zoom, part. simpl.
  rewrite Hs. destruct (m _) as [r u]. simpl. split; [done|]. by constructor.
Qed.
Lemma blind_IsInitialized : blind (on_db IsInitialized).
Proof.
  intros [s f c t] [s' f' c' t'] Hvw. pose proof Hvw as [Ef Ec Et ? ? ? Hi]. simpl in Ef, Ec, Et. subst.
  unfold initialized in Hi. simpl in Hi.
  unfold on_db, zoom, part, IsInitialized, query, step, step_with, next_fault. simpl.
  destruct f' as [|[] f']; simpl; rewrite ?Hi; (split; [done|]); by constructor.
Qed.
Lemma blind_locked : blind is_locked.
Proof. intros v w Hvw. unfold is_locked, peek. simpl. by rewrite (alike_key _ _ Hvw). Qed.
Lemma blind_authorized r : blind (authorized r).
Proof.
  unfold authorized. destruct (q_Cookie r) as [cookie|]; [|apply blind_ret].
  intros v w Hvw. unfold mbind at 1 3 5 7, M_bind at 1 3 5 7, peek, id.
  rewrite (alike_key _ _ Hvw), (alike_sessions _ _ Hvw).
  destruct (_ =? _)%string; [done|]. destruct (_ !! _); [|done].
  apply blind_bind; [apply blind_now|intros t; apply blind_ret|done].
Qed.
#[local] Hint Resolve blind_ret blind_or_reply blind_on_site blind_IsInitialized blind_locked blind_authorized
  blind_bind blind_attempt : blind.

Lemma stranger_refused r w : stranger r w -> exists w', authorized r w = (Ok false, w').
Proof.
  intros [Hf Hs]. unfold authorized. destruct (q_Cookie r) as [cookie|] eqn:Eq; [|by eexists].
  destruct (Hs _ eq_refl) as [Ek|He]; unfold mbind at 1, M_bind at 1, peek, id.
  - rewrite Ek. by eexists.
  - destruct (_ =? _)%string; [by eexists|]. destruct (_ !! _) as [expires|] eqn:Es; [|by eexists].
    specialize (He _ eq_refl). unfold mbind, M_bind, now, mret, M_ret.
    destruct w as [s f c [|t ts]]; cbn [w_ticks w_state w_faults w_clock] in *; eexists; do 2 f_equal;
      apply Z.ltb_ge; [done|]. apply Forall_cons in Hf as [? _]. lia.
Qed.

Lemma stranger_requires r h w : stranger r w -> fst (requireAuthorization r h w) = Ok (SeeOther "/unlock").
Proof.
  intros (w' & E)%stranger_refused. unfold requireAuthorization. by rewrite (bind_ok _ _ _ _ _ E).
Qed.

(** A statement takes no time: the stranger stays one. *)
Lemma stranger_IsInitialized r w : stranger r w -> stranger r (snd (on_db IsInitialized w)).
Proof.
  destruct w as [s f c t]. unfold stranger, on_db, zoom, part, IsInitialized, query, step, step_with, next_fault.
  by destruct f as [|[] f]; destruct s.
Qed.

Lemma stranger_dashboard r v w : alike v w -> stranger r v -> stranger r w ->
  fst (dashboard config r v) = fst (dashboard config r w).
Proof.
  intros Hvw Hv Hw. destruct (blind_IsInitialized v w Hvw) as [E _].
  apply stranger_IsInitialized in Hv, Hw. unfold dashboard, or_reply at 1 4.
  rewrite (bind_ok _ _ _ _ _ (eval_attempt _ v)), (bind_ok _ _ _ _ _ (eval_attempt _ w)), E.
  destruct (fst (on_db IsInitialized w)) as [[|]|err]; [|done..]. cbn [negb].
  apply stranger_refused in Hv as (v' & Ev), Hw as (w' & Ew).
  by rewrite (bind_ok _ _ _ _ _ Ev), (bind_ok _ _ _ _ _ Ew).
Qed.

Lemma alike_stranger r v w : alike v w -> stranger r v -> stranger r w.
Proof. intros [_ Ec Et _ Ek Es _]. unfold stranger. by rewrite Ec, Et, Ek, Es. Qed.

(** A handler behind [requireAuthorization]. *)
Definition guarded (r : HTTPRequest) (m : AM H Reply) : Prop := forall v w, alike v w -> stranger r v -> stranger r w ->
  fst (m v) = fst (m w).
Lemma guarded_blind r m : blind m -> guarded r m.
Proof. intros Hm v w Hvw _ _. by apply Hm. Qed.
Lemma guarded_required r h : guarded r (requireAuthorization r h).
Proof. intros v w _ Hv Hw. by rewrite !stranger_requires. Qed.
Lemma guarded_dashboard r : guarded r (dashboard config r).
Proof. intros v w. apply stranger_dashboard. Qed.
Lemma guarded_nodes r : guarded r (nodesAPI r).
Proof.
  intros v w _ (v' & Ev)%stranger_refused (w' & Ew)%stranger_refused. unfold nodesAPI.
  by rewrite (bind_ok _ _ _ _ _ Ev), (bind_ok _ _ _ _ _ Ew).
Qed.

Lemma blind_ready : blind ready.
Proof. unfold ready. apply blind_or_reply; [auto with blind|]. intros []; simpl; auto with blind. Qed.
Lemma blind_runtime : blind (runtime_ready config).
Proof. unfold runtime_ready. destruct (_ =? _)%string; auto 8 with blind. Qed.
Lemma blind_setupForm : blind setupForm.
Proof. unfold setupForm. auto with blind. Qed.
Lemma blind_unlockForm r : blind (unlockForm r).
Proof.
  apply blind_bind; [auto with blind|]. intros [[|]|]; auto with blind.
Qed.
Ltac refuse :=
  first
  [ match goal with |- guarded _ (if ?b then _ else _) => destruct b end; refuse
  | apply guarded_dashboard
  | apply guarded_nodes
  | apply guarded_blind; first [apply blind_ret | apply blind_ready | apply blind_runtime | apply blind_setupForm
                                | apply blind_unlockForm]
  | apply guarded_required ].

Lemma guarded_get_mux r :
  guarded r (get_mux adapterOverride proxyOverride client cloudflared static patience config e r).
Proof.
  unfold get_mux, application_page, deployment_page, staticScript. cbv zeta.
  destruct (existsb _ _); [apply guarded_dashboard|].
  destruct (q_Segments r) as [|a [|b [|c [|d [|f [|]]]]]]; refuse.
Qed.

(** C5: what a stranger sees does not depend on the data.  Two processes that agree on the
    key, the sessions, the machine and on whether the password is set answer every page, and
    outside the test environment every action behind the CSRF check, with the same reply,
    whatever their databases and their collected status hold; only the first setup, the
    unlocking and the signed webhooks, which do not ask for a session, are outside. *)
Theorem strangers_see_nothing random r v w :
  q_Method r <> "POST" \/ csrf_checked r = true /\ Environment config <> "test" ->
  alike v w -> stranger r v ->
  fst (serve adapterOverride proxyOverride serialize s3_put_object client cloudflared static patience
         zone config e random r v)
  = fst (serve adapterOverride proxyOverride serialize s3_put_object client cloudflared static patience
         zone config e random r w).
Proof.
  intros Hr Hvw Hv. pose proof (alike_stranger _ _ _ Hvw Hv) as Hw. unfold serve, csrfCheck, csrf_bypass.
  destruct Hr as [Hm%String.eqb_neq|[Hc Henv%String.eqb_neq]].
  - unfold csrf_checked, mux. rewrite Hm. cbn [andb].
    destruct (is_read r); [by apply guarded_get_mux|by apply blind_ret].
  - rewrite Hc, Henv. cbn [andb].
    apply stranger_refused in Hv as (v' & Ev), Hw as (w' & Ew).
    by rewrite (bind_ok _ _ _ _ _ Ev), (bind_ok _ _ _ _ _ Ew).
Qed.
End reading.

(** ** A page with and without a session *)

Definition page_request (cookie : option string) : HTTPRequest :=
  MkHTTPRequest "GET" ["applications"; "1"] (Ok tt) [] [] [] (Ok "") cookie "192.0.2.7:40001" true.
Definition answered (out : result Reply * world (hub machine)) (code : Z) : Prop :=
  exists r, fst out = Ok r /\ reply_code r = code.
Definition emptied_world : world (hub machine) :=
  set_state ((w_state open_world) <| hub_db := (hub_db (w_state open_world)) <| t_applications := [] |> |>) open_world.

Lemma reading_changes_nothing_witness :
  answered (sample_serve (page_request (Some "c1")) open_world) 200
  /\ same_process (w_state open_world) (w_state (snd (sample_serve (page_request (Some "c1")) open_world))).
Proof.
  split; [eexists; vm_compute; split; reflexivity|].
  apply (reading_changes_nothing ∅ None (fun _ => Ok "SQLite format 3") no_upload NewCloudflareClient
    (NewDockerCloudflaredConnector "" "") no_scripts 0 0 hook_config (executor_of hook_config)
    (fun _ => Ok "nonce-123456") (page_request (Some "c1")) open_world).
  discriminate.
Defined.

(** With the session the two worlds answer differently. *)
Lemma strangers_see_nothing_witness :
  answered (sample_serve (page_request (Some "c1")) open_world) 200
  /\ answered (sample_serve (page_request (Some "c1")) emptied_world) 404
  /\ fst (sample_serve (page_request (Some "c2")) open_world)
      = fst (sample_serve (page_request (Some "c2")) emptied_world).
Proof.
  split; [eexists; vm_compute; split; reflexivity|]. split; [eexists; vm_compute; split; reflexivity|].
  apply (strangers_see_nothing ∅ None (fun _ => Ok "SQLite format 3") no_upload NewCloudflareClient
    (NewDockerCloudflaredConnector "" "") no_scripts 0 0 hook_config (executor_of hook_config)
    (fun _ => Ok "nonce-123456") (page_request (Some "c2")) open_world emptied_world).
  - left. discriminate.
  - constructor; reflexivity.
  - split; [constructor|]. intros cookie [= <-]. right. intros expires E. exfalso. revert E. vm_compute. discriminate.
Defined.
