(* ===== verification/PreviewFacts.v ===== *)
(** * The preview of a cleanup announces what the cleanup deletes *)

From S2P Require Import Prelude GoStrings GoTime Json Net Base64 Security BackupFormat Host Templates.
From S2P Require Import StoreTypes Executor Proxy BlueGreen Release Config Views Hub Preflight Operations Session.
From S2P Require Import StoreSettings StoreApplications StoreAccess StoreDeployments StoreQueueFacts.
From S2P Require Import CICD Handlers Pages PageHandlers.
From S2P Require Import Engine WebhookFacts SessionFacts JobFacts ReadOnly ServerFacts ReadFacts OperationsFacts.

(** ** Candidates of a shorter history, and of another day *)

Lemma loop_sublist before n l1 l2 d : sublist l1 l2 -> forall s s', s <= s' ->
  In d (retention_loop before n s l1) -> In d (retention_loop before n s' l2).
Proof.
  induction 1 as [|x l1 l2 _ IH|x l1 l2 _ IH]; intros s s' Hs Hd; cbn [retention_loop] in *; [done| |].
  - destruct (_ || negb (d_FinishedAt x <? before)).
    + eapply IH; [|exact Hd]. destruct (d_Status x =? "successful")%string; lia.
    + destruct (d_Status x =? "successful")%string; simpl in *.
      * destruct (Z.leb_spec (s + 1) n), (Z.leb_spec (s' + 1) n); try lia;
          try (eapply IH; [|exact Hd]; lia); try (right; eapply IH; [|exact Hd]; lia).
        destruct Hd as [->|Hd]; [by left|right; eapply IH; [|exact Hd]; lia].
      * destruct Hd as [->|Hd]; [by left|right; eapply IH; [|exact Hd]; lia].
  - destruct (_ || negb (d_FinishedAt x <? before)).
    + eapply IH; [|exact Hd]. destruct (d_Status x =? "successful")%string; lia.
    + destruct (d_Status x =? "successful")%string; simpl.
      * destruct (s' + 1 <=? n); [|right]; (eapply IH; [|exact Hd]; lia).
      * right. eapply IH; [|exact Hd]; lia.
Qed.

Lemma loop_earlier before before' n d l : forall s,
  In d (retention_loop before n s l) -> In d (retention_loop before' n s l) \/ before' <= d_FinishedAt d.
Proof.
  induction l as [|x l IH]; intros s Hd; [by left|]. cbn [retention_loop] in *.
  destruct (_ || IsZero (d_FinishedAt x)); cbn [orb] in *; [by apply IH|].
  set (s1 := if (d_Status x =? "successful")%string then s + 1 else s) in *.
  destruct (Z.ltb_spec (d_FinishedAt x) before), (Z.ltb_spec (d_FinishedAt x) before'); cbn [negb] in *;
    try destruct (_ && (s1 <=? n)); try (by apply IH).
  - destruct Hd as [->|Hd]; [left; by left|]. apply IH in Hd as [Hd|Hd]; [left; by right|by right].
  - destruct Hd as [->|Hd]; [by right|]. by apply IH.
  - apply IH in Hd as [Hd|Hd]; [left; by right|by right].
Qed.

Lemma sublist_rev {A} (l1 l2 : list A) : sublist l1 l2 -> sublist (rev l1) (rev l2).
Proof. induction 1; simpl; [constructor|by apply sublist_app|]. by apply sublist_inserts_r. Qed.
Lemma sublist_map {A B} (f : A -> B) (l1 l2 : list A) : sublist l1 l2 -> sublist (map f l1) (map f l2).
Proof. induction 1; simpl; by constructor. Qed.
Lemma sublist_select {A} (p q : A -> bool) l : sublist (select_where q (delete_where p l)) (select_where q l).
Proof.
  unfold select_where, delete_where. induction l as [|x l IH]; [constructor|]. simpl.
  destruct (p x); simpl; destruct (q x); first [exact IH|by constructor].
Qed.

(** ** What a cleanup deletes *)

(** A candidate of one of the applications, on a given day. *)
Definition doomed (before : Time) (n : Z) (apps : list StoreTypes.Application) (db : database)
    (r : deployment_row) : Prop :=
  exists a, In a apps /\ a_ID a = r_application_id r
    /\ In (scan_deployment r) (retention_loop before n 0 (history (a_ID a) db)).

(** Only candidates go. *)
Definition sheds before n apps : relation database := fun a b =>
  db_inv a -> db_inv b /\ exists p, t_deployments b = delete_where p (t_deployments a)
    /\ forall r, In r (t_deployments a) -> p r = true -> doomed before n apps a r.

Lemma doomed_before before n apps a b p r :
  t_deployments b = delete_where p (t_deployments a) -> doomed before n apps b r -> doomed before n apps a r.
Proof.
  intros E (app & Ha & Eid & Hd). exists app. split; [done|]. split; [done|].
  unfold history in *. rewrite E in Hd. eapply loop_sublist; [|reflexivity|exact Hd].
  apply sublist_map, sublist_rev, sublist_select.
Qed.

#[export] Instance sheds_preorder before n apps : PreOrder (sheds before n apps).
Proof.
  split.
  - intros db Hi. split; [done|]. exists (fun _ => false). split; [|done].
    symmetry. by apply delete_where_none.
  - intros a b c H1 H2 Hi. specialize (H1 Hi) as (Hb & p & E1 & Hp). specialize (H2 Hb) as (Hc & q & E2 & Hq).
    split; [done|]. exists (fun r => p r || q r). split; [by rewrite E2, E1, delete_delete|].
    intros r Hr. destruct (p r) eqn:Ep; [by intros _; apply Hp|]. intros Hqr.
    apply (doomed_before _ _ _ a b p); [done|]. apply Hq; [|done].
    rewrite E1. apply filter_In. by rewrite Ep.
Qed.

Lemma loop_subset before n l d : forall s, In d (retention_loop before n s l) -> In d l.
Proof.
  induction l as [|x l IH]; intros s Hd; [done|]. cbn [retention_loop] in Hd.
  destruct (_ || _); [right; by eapply IH|]. destruct (_ && _); [right; by eapply IH|].
  destruct Hd as [->|Hd]; [by left|right; by eapply IH].
Qed.

Lemma delete_sheds before n apps app db ids :
  In app apps ->
  (forall i, In i ids -> exists d, In d (retention_loop before n 0 (history (a_ID app) db)) /\ d_ID d = i) ->
  hoare (fun a => a = db) (DeleteDeployments (a_ID app) ids) (fun _ a => sheds before n apps db a).
Proof.
  intros Happ Hids. unfold DeleteDeployments. destruct ids as [|i ids]; [apply hoare_ret; by intros a ->|].
  apply hoare_update. intros a ->.
  match goal with |- sheds _ _ _ _ ?b /\ _ => assert (sheds before n apps db b) as Hc end; [|by split].
  intros Hi. split; [by apply table_inv_delete|]. eexists. split; [reflexivity|]. intros r Hr Hg.
  cbv beta in Hg. apply andb_prop in Hg as [Ha%Z.eqb_eq Hid%bool_decide_eq_true].
  destruct (Hids (r_id r)) as (d & Hd & Eid); [by apply list_elem_of_In|].
  exists app. split; [done|]. split; [done|].
  pose proof (loop_subset _ _ _ _ _ Hd) as (r' & <- & [Hr' _]%in_rev%select_where_In)%in_map_iff.
  assert (r = r') as -> by (apply (rowids_sorted_inj r_id (t_deployments db)); by destruct Hi). done.
Qed.

Section preview.
Context {H : Type} `{!Host H} `{!Crypto}.
Context (adapterOverride : gmap string (RuntimeAdapter H)) (proxyOverride : option (ProxyAdapter H)).
Context (config : Config) (e : Executor).

Lemma evolves_for_each_in {A} (R : relation (hub H)) `{!PreOrder R} (xs : list A) (f : A -> AM H unit) :
  (forall x, In x xs -> evolves R (f x)) -> evolves R (for_each xs f).
Proof.
  intros Hf. induction xs as [|x xs IH]; simpl; [apply evolves_ret; exact _|].
  apply evolves_bind; [exact _|apply Hf; by left|]. intros _. apply IH. intros y Hy. apply Hf. by right.
Qed.

Lemma retain_sheds before apps app : In app apps ->
  evolves (on_database (sheds before (retainedImages config) apps))
    (retain_application adapterOverride proxyOverride config e before app).
Proof.
  intros Happ w. set (n := retainedImages config). unfold retain_application.
  assert (forall a b : hub H, on_database eq a b -> on_database (sheds before n apps) a b) as HQP
    by (unfold on_database; intros a b ->; reflexivity).
  apply (arrives_bind (on_database eq) (on_database (sheds before n apps)) HQP);
    [refine (evolves_on_db _ _ _); unfold RetentionCandidates, Deployments; evolve|done|].
  intros cs w1 (v & Hcs & _)%on_db_run E1.
  apply (arrives_bind (on_database eq) (on_database (sheds before n apps)) HQP);
    [by refine (evolves_on_site _ _)|done|].
  intros ids w2 (v2 & Hids & _)%on_site_run E2.
  assert (hoare (fun a : hub H => hub_db a = hub_db (w_state w)) (on_db (DeleteDeployments (a_ID app) ids))
            (fun _ a => sheds before n apps (hub_db (w_state w)) (hub_db a))) as Hd; [|by apply Hd].
  apply hoare_zoom. intros a ->. apply delete_sheds; [done|].
  intros i Hi. destruct (remove_candidates_sub _ _ _ _ _ _ _ _ _ Hids i Hi) as (d & Hd & Eid). exists d.
  split; [|done]. unfold RetentionCandidates, Deployments in Hcs.
  apply bind_run in Hcs as (l & w3 & [[= <-] _]%query_run & [-> _]%ret_run). exact Hd.
Qed.

(** The applications as the store lists them. *)
Definition listed (db : database) : list StoreTypes.Application := order_by_name a_Name (t_applications db).

Lemma retention_sheds w : exists t, sheds (t - retentionDays config * day) (retainedImages config)
  (listed (hub_db (w_state w))) (hub_db (w_state w))
  (hub_db (exec (runRetention adapterOverride proxyOverride config e) w)).
Proof.
  assert (evolves (on_database eq) (on_db (H := H) Applications)) as Hl
    by (refine (evolves_on_db _ _ _); unfold Applications; evolve).
  specialize (Hl w). unfold on_database in Hl. unfold runRetention, exec, mbind at 1, M_bind at 1.
  destruct (on_db Applications w) as [[apps|err] w1] eqn:Ea; cbn [snd] in *; [|exists 0; rewrite Hl; reflexivity].
  apply on_db_run in Ea as (v & [[= <-] _]%query_run & _).
  destruct (now_ok w1) as (t & w2 & Et & Es & _). exists t. rewrite (bind_ok _ _ _ _ _ Et), Hl, <- Es.
  apply (evolves_for_each_in (on_database (sheds (t - retentionDays config * day) (retainedImages config) _))).
  intros app Happ. by apply retain_sheds.
Qed.

(** ** What a preview announces *)

Definition announces (a : StoreTypes.Application) (d : Deployment) (c : CleanupCandidateInfo) : Prop :=
  cc_ApplicationName c = a_Name a /\ cc_DeploymentID c = d_ID d /\ cc_Image c = d_Image d
  /\ cc_LogPath c = d_LogPath d.

Lemma previewed_candidates a cs : forall p (w : world (hub H)) p' w',
  preview_candidates config a cs p w = (Ok p', w') ->
  (forall c, In c (pv_candidates p) -> In c (pv_candidates p'))
  /\ forall d, In d cs -> exists c, In c (pv_candidates p') /\ announces a d c.
Proof.
  induction cs as [|d cs IH]; intros p w p' w' Hp; cbn [preview_candidates] in Hp.
  { by apply ret_run in Hp as [-> _]. }
  apply bind_run in Hp as (p1 & w1 & H1 & (Hin & Hall)%IH). unfold preview_candidate in H1.
  apply bind_run in H1 as (size & w2 & _ & (t & w3 & _ & [-> _]%ret_run)%bind_run). cbn [pv_candidates] in Hin.
  split; [intros c Hc; apply Hin, in_or_app; by left|]. intros d' [<-|Hd]; [|by apply Hall].
  eexists. split; [apply Hin, in_or_app; right; by left|]. by repeat split.
Qed.

Lemma faultless_preview a cs : forall p, faultless (preview_candidates (H := H) config a cs p).
Proof.
  induction cs as [|d cs IH]; intros p; cbn [preview_candidates preview_candidate]; [apply faultless_ret|].
  apply faultless_bind; [|done]. unfold preview_candidate, log_size, deploymentLogPath. faultless.
Qed.

Lemma candidates_read app before n (w : world (hub H)) : w_faults w = [] ->
  exists w1, on_db (RetentionCandidates app before n) w
      = (Ok (retention_loop before n 0 (history app (hub_db (w_state w)))), w1)
    /\ w_state w1 = w_state w /\ w_faults w1 = [].
Proof.
  destruct w as [s f c t]. intros Hf. simpl in Hf. subst f. eexists. split; [reflexivity|].
  split; [by destruct s|done].
Qed.

Lemma previewed_applications before apps : forall p (w : world (hub H)) p' w',
  w_faults w = [] -> preview_applications config before apps p w = (Ok p', w') ->
  (forall c, In c (pv_candidates p) -> In c (pv_candidates p'))
  /\ forall a d, In a apps ->
      In d (retention_loop before (retainedImages config) 0 (history (a_ID a) (hub_db (w_state w)))) ->
      exists c, In c (pv_candidates p') /\ announces a d c.
Proof.
  induction apps as [|a apps IH]; intros p w p' w' Hf Hp; cbn [preview_applications] in Hp.
  { by apply ret_run in Hp as [-> _]. }
  destruct (candidates_read (a_ID a) before (retainedImages config) w Hf) as (w1 & Ec & Es & Hf1).
  unfold or_default in Hp at 1. apply bind_run in Hp as (cs & w2 & Hc & Hp).
  apply bind_run in Hc as (cs' & w3 & Hc%attempt_run & [-> ->]%ret_run). rewrite Ec in Hc. injection Hc as <- <-.
  apply bind_run in Hp as (p1 & w4 & H1 & H2).
  pose proof (faultless_pair _ _ _ _ (faultless_preview _ _ _) H1 Hf1) as Hf4.
  assert (hub_db (w_state w4) = hub_db (w_state w)) as Ed.
  { rewrite <- Es. assert (same_process (w_state w1) (w_state w4)) as (Hr & _); [|exact Hr].
    change w4 with (snd (Ok p1, w4)). rewrite <- H1. apply reads_candidates. }
  apply previewed_candidates in H1 as [Hin1 Hall1].
  apply (IH _ _ _ _ Hf4) in H2 as [Hin2 Hall2]. rewrite Ed in Hall2.
  split; [by auto|]. intros a' d [<-|Ha] Hd; [|by apply (Hall2 a')].
  destruct (Hall1 d Hd) as (c & Hc & Hann). exists c. auto.
Qed.
(** Who is signed in is read, and the clock that stands still stays. *)
Lemma authorized_frozen r (w : world (hub H)) : w_ticks w = [] -> snd (authorized r w) = w.
Proof.
  destruct w as [s f c ts]. simpl. intros ->. unfold authorized. destruct (q_Cookie r) as [cookie|]; [|done].
  unfold mbind, M_bind, peek, id. cbn [w_state]. destruct (_ =? _)%string; [done|].
  by destruct (hub_sessions s !! cookie).
Qed.

(** The run of a preview that answers. *)
Lemma preview_run r code data (w : world (hub H)) : w_faults w = [] -> w_ticks w = [] ->
  fst (retentionPreview config r w) = Ok (Render code (OperationsCleanupPreviewView data)) ->
  exists p w1 w2, hub_db (w_state w1) = hub_db (w_state w) /\ cp_Candidates data = pv_candidates p
    /\ w_faults w1 = []
    /\ preview_applications config (w_clock w - retentionDays config * day)
         (listed (hub_db (w_state w))) (Preview [] 0 0) w1 = (Ok p, w2).
Proof.
  intros Hf Ht. pose proof (authorized_frozen r w Ht) as Ha.
  destruct (retentionPreview config r w) as [res w'] eqn:E. cbn [fst]. intros ->.
  apply bind_run in E as (ok & w1 & Ea & E). rewrite Ea in Ha. cbn [snd] in Ha. subst w1.
  destruct ok; [|done].
  assert (exists w1, on_db Applications w = (Ok (listed (hub_db (w_state w))), w1)
      /\ hub_db (w_state w1) = hub_db (w_state w) /\ w_faults w1 = [] /\ w_clock w1 = w_clock w
      /\ w_ticks w1 = []) as (w1 & Eapps & Hdb & Hf1 & Hc & Ht1).
  { destruct w as [s f c ts]. simpl in Hf, Ht. subst. eexists. by split; [reflexivity|]. }
  rewrite (or_reply_ok _ _ _ _ _ _ Eapps) in E. apply bind_run in E as (t & w2 & Et & E).
  assert (t = w_clock w /\ w2 = w1) as [-> ->].
  { unfold now in Et. rewrite Ht1, Hc in Et. by injection Et as <- <-. }
  apply bind_run in E as (p & w3 & Ep & (token & w4 & _ & [Er _]%ret_run)%bind_run).
  injection Er as _ Edata. exists p, w1, w3. by rewrite Edata.
Qed.

(** C21: a cleanup only deletes what its preview announced.  The page of the preview was read
    without faults, while its clock stood still, and the cleanup finds the same database: no
    deployment was recorded in between.  Then, whenever the cleanup runs and whatever fails in it,
    a deployment that is gone was listed with its application, its image and its log, or had not
    reached the age of the retention at the time of the preview. *)
Theorem cleanup_was_announced r code data row (w w' : world (hub H)) :
  db_inv (hub_db (w_state w)) -> w_faults w = [] -> w_ticks w = [] ->
  fst (retentionPreview config r w) = Ok (Render code (OperationsCleanupPreviewView data)) ->
  hub_db (w_state w') = hub_db (w_state w) ->
  In row (t_deployments (hub_db (w_state w))) ->
  ~ In row (t_deployments (hub_db (exec (runRetention adapterOverride proxyOverride config e) w'))) ->
  (exists a c, In a (t_applications (hub_db (w_state w))) /\ a_ID a = r_application_id row
     /\ In c (cp_Candidates data) /\ announces a (scan_deployment row) c)
  \/ w_clock w - retentionDays config * day <= d_FinishedAt (scan_deployment row).
Proof.
  intros Hi Hf Ht Hp Hdb Hrow Hgone.
  assert (doomed_at : exists before, doomed before (retainedImages config) (listed (hub_db (w_state w)))
                      (hub_db (w_state w)) row).
  { destruct (retention_sheds w') as (t & Hs). rewrite Hdb in Hs. destruct (Hs Hi) as (_ & p & E & Hall).
    exists (t - retentionDays config * day). apply Hall; [done|].
    rewrite E in Hgone. destruct (p row) eqn:Hp'; [done|]. destruct Hgone. apply filter_In. by rewrite Hp'. }
  destruct doomed_at as (before & a & Ha & Eid & Hd).
  apply (loop_earlier _ (w_clock w - retentionDays config * day)) in Hd as [Hd|Hd]; [left|by right].
  destruct (preview_run _ _ _ _ Hf Ht Hp) as (p & w1 & w2 & E1 & Hc & Hf1 & Hr).
  rewrite <- E1 in Hd. destruct (previewed_applications _ _ _ _ _ _ Hf1 Hr) as [_ Hall].
  destruct (Hall a _ Ha Hd) as (c & Hin & Hann). exists a, c. rewrite Hc. split; [|done].
  unfold listed, order_by_name in Ha. by rewrite merge_sort_Permutation in Ha.
Qed.
End preview.

(** Five old releases, a session that opens the preview, and a cleanup afterwards. *)
Definition preview_world : world (hub machine) :=
  set_state ((w_state open_world) <| hub_db := old_db |>) open_world.
Definition previewed : result Reply :=
  fst (retentionPreview hook_config (page_request (Some "c1")) preview_world).
Definition previewed_data : OperationsCleanupPreviewData :=
  match previewed with
  | Ok (Render _ (OperationsCleanupPreviewView data)) => data
  | _ => MkCleanupPreview [] "" 0 0 0 ""
  end.

Lemma cleanup_was_announced_witness :
  exists c, In c (cp_Candidates previewed_data) /\ cc_DeploymentID c = 1.
Proof.
  destruct (cleanup_was_announced ∅ None hook_config (executor_of hook_config) (page_request (Some "c1"))
    200 previewed_data (old_release 1) preview_world cleanup_world) as [(a & c & _ & _ & Hc & _ & Hid & _)|Hold].
  - apply old_db_inv.
  - reflexivity.
  - reflexivity.
  - vm_compute. reflexivity.
  - reflexivity.
  - by left.
  - vm_compute. intuition discriminate.
  - exists c. split; [exact Hc|exact Hid].
  - by vm_compute in Hold.
Defined.
