(* ===== verification/PagesFacts.v ===== *)
(** * What the page of an application shows *)

From S2P Require Import Prelude GoStrings GoTime Json Net Host Templates StoreTypes.
From S2P Require Import Executor Proxy BlueGreen Release Config Views Hub Preflight Operations Pages.





