(* ===== verification/FormFacts.v ===== *)
(** * The forms of the panel and the CSRF check

    A page carries the token of the session that asked for it, so the form it shows is accepted
    when the same session sends it. *)

From S2P Require Import Prelude GoStrings GoTime Json Net Base64 Security BackupFormat Host Templates.
From S2P Require Import StoreTypes Executor Proxy BlueGreen Release Config Views Hub Preflight Operations Session.
From S2P Require Import StoreSettings StoreApplications StoreAccess StoreDeployments CICD Handlers.
From S2P Require Import Cloudflare Connector CloudflareHandlers Repositories Pages PageHandlers Server.
From S2P Require Import Engine BlueGreenFacts WebhookFacts SessionFacts ReadOnly ServerFacts ReadFacts Html Components.

Section forms.
Context {H : Type} `{!Host H} `{!Crypto}.
Context (adapterOverride : gmap string (RuntimeAdapter H)) (proxyOverride : option (ProxyAdapter H)).
Context (serialize : database -> result string)
  (s3_put_object : S3Config -> s3_put -> H -> result unit * H).
Context (client : CloudflareAPI H) (cloudflared : CloudflaredConnector H).
Context (static : string -> option string) (patience : nat).
Context (zone : Duration) (config : Config) (e : Executor).

(** The token of the session of a request under a master key. *)
Definition token_for (key : string) (r : HTTPRequest) : string :=
  match q_Cookie r with
  | None => ""
  | Some cookie => if (key =? "")%string then "" else RawURLEncoding (hmac_sha256 key cookie)
  end.

Lemma csrfToken_run r (w : world (hub H)) : csrfToken r w = (Ok (token_for (hub_key (w_state w)) r), w).
Proof.
  unfold csrfToken, token_for. destruct (q_Cookie r) as [cookie|]; [|done].
  unfold csrfTokenFor, keyCopy, peek, mbind, M_bind. by destruct (_ =? _)%string.
Qed.

(** The component a reply renders. *)
Fixpoint rendered (reply : Reply) : option Component :=
  match reply with
  | Render _ c => Some c
  | WithCookie _ _ _ reply | WithoutCookie _ reply => rendered reply
  | _ => None
  end.

(** What a computation returns from any state. *)
Definition answers {S A} (P : A -> Prop) (m : M S A) : Prop :=
  forall w, match fst (m w) with Ok a => P a | Err _ => True end.
Lemma answers_ret {S A} (P : A -> Prop) a : P a -> answers (S := S) P (mret a).
Proof. by intros Ha w. Qed.
Lemma answers_bind {S A B} (P : B -> Prop) (m : M S A) (k : A -> M S B) :
  (forall a, answers P (k a)) -> answers P (m ≫= k).
Proof. intros Hk w. unfold mbind, M_bind. destruct (m w) as [[a|err] w1]; [apply Hk|done]. Qed.

Section offers.
Context (key : string).

(** What a computation returns under the master key. *)
Definition offers {A} (P : A -> Prop) (m : AM H A) : Prop :=
  forall w, hub_key (w_state w) = key -> match fst (m w) with Ok a => P a | Err _ => True end.

Lemma offers_ret {A} (P : A -> Prop) a : P a -> offers P (mret a).
Proof. by intros Ha w _. Qed.
Lemma offers_bind {A B} (P : B -> Prop) (m : AM H A) (k : A -> AM H B) :
  evolves same_process m -> (forall a, offers P (k a)) -> offers P (m ≫= k).
Proof.
  intros Hm Hk w Hw. destruct (Hm w) as (_ & Ek & _). unfold mbind, M_bind.
  destruct (m w) as [[a|err] w1]; [|done]. apply Hk. simpl in Ek. by rewrite Ek.
Qed.
Lemma offers_token {A} (P : A -> Prop) r (k : string -> AM H A) :
  offers P (k (token_for key r)) -> offers P (csrfToken r ≫= k).
Proof. intros Hk w <-. unfold mbind, M_bind. rewrite csrfToken_run. by apply Hk. Qed.
Lemma offers_attempt {A B} (Q : A -> Prop) (P : B -> Prop) (m : AM H A) (k : result A -> AM H B) :
  offers Q m -> evolves same_process m -> (forall a, Q a -> offers P (k (Ok a))) ->
  (forall err, offers P (k (Err err))) -> offers P (attempt m ≫= k).
Proof.
  intros Hm Hs Hk He w Hw. destruct (Hs w) as (_ & Ek & _). specialize (Hm w Hw).
  unfold mbind, M_bind. rewrite eval_attempt. destruct (m w) as [[a|err] w1]; simpl in Ek, Hm |- *.
  - apply Hk; [done|]. by rewrite Ek.
  - apply He. by rewrite Ek.
Qed.
Lemma offers_on_site {A} (P : A -> Prop) (m : EM H A) : answers P m -> offers P (on_site m).
Proof.
  intros Hm w _. unfold on_site, zoom, part. specialize (Hm (World (hub_site (w_state w)) (w_faults w) (w_clock w) (w_ticks w))).
  by destruct (m _) as [[a|err] w1].
Qed.
End offers.

Definition carries (key : string) (r : HTTPRequest) (reply : Reply) : Prop :=
  forall c t, rendered reply = Some c -> csrf_of c = Some t -> t = token_for key r.

Lemma carries_none key r reply : rendered reply = None -> carries key r reply.
Proof. by intros E c t; rewrite E. Qed.
Lemma carries_render key r code c : csrf_of c = Some (token_for key r) -> carries key r (Render code c).
Proof. intros E c' t [= <-] Ht. by simplify_eq. Qed.
Lemma carries_before key r code c : csrf_of c = None -> carries key r (Render code c).
Proof. intros E c' t [= <-] Ht. by simplify_eq. Qed.

Create HintDb offering.
Ltac carry := first
  [ apply carries_none; reflexivity
  | apply carries_render; reflexivity
  | apply carries_before; reflexivity
  | match goal with |- carries _ _ (match ?x with _ => _ end) => destruct x end; carry ].
Ltac return_step :=
  lazymatch goal with
  | |- answers _ (mret _) => apply answers_ret; carry
  | |- answers _ (_ ≫= _) => apply answers_bind; intros ?
  | |- answers _ (match ?x with _ => _ end) => destruct x
  | |- answers _ ?m => let h := head_of m in unfold h
  end.
Ltac offer_step :=
  lazymatch goal with
  | |- offers _ _ (mret _) => apply offers_ret; first [carry | reflexivity]
  | |- offers _ _ (csrfToken _ ≫= _) => apply offers_token
  | |- offers _ _ (on_site _) => apply offers_on_site; repeat return_step
  | |- offers _ _ (_ ≫= _) => apply offers_bind; [solve [reads]|intros ?]
  | |- offers _ _ (match ?x with _ => _ end) => destruct x
  | |- offers _ _ (let _ := _ in _) => cbv zeta
  | |- offers _ _ ?m => let h := head_of m in unfold h
  end.
Ltac offer := repeat offer_step.

#[local] Hint Resolve reads_log_events reads_merge reads_rows reads_preview : reading.

Lemma offers_cloudflare_page key r :
  offers key (fun data => cd_CSRFToken data = token_for key r) (cloudflare_page client cloudflared r).
Proof. offer. Qed.
Lemma offers_cloudflare key r : offers key (carries key r) (renderCloudflareDashboard client cloudflared r).
Proof.
  unfold renderCloudflareDashboard, requireAuthorization.
  apply offers_bind; [solve [reads]|intros []; [|apply offers_ret; carry]].
  apply (offers_attempt key _ _ _ _ (offers_cloudflare_page key r)); [solve [reads]|intros a Ha|intros err].
  - apply offers_ret, carries_render. simpl. by rewrite Ha.
  - apply offers_ret. carry.
Qed.
#[local] Hint Resolve offers_cloudflare : offering.

Lemma offers_get_mux key r : offers key (carries key r)
  (get_mux adapterOverride proxyOverride client cloudflared static patience config e r).
Proof. unfold get_mux. repeat first [solve [eauto 1 with offering nocore] | offer_step]. Qed.
(** A page that is rendered shows the token of the session that asked for it. *)
Lemma rendered_tokens random r w code c t : q_Method r <> "POST" ->
  fst (serve adapterOverride proxyOverride serialize s3_put_object client cloudflared static patience
    zone config e random r w) = Ok (Render code c) ->
  In t (tokens_of (page_of c)) -> t = token_for (hub_key (w_state w)) r.
Proof.
  intros Hm%String.eqb_neq Hr Ht.
  pose proof (proj1 (List.Forall_forall _ _) (page_tokens c) t Ht) as Hc. simpl in Hc.
  revert Hr. unfold serve, csrfCheck, csrf_checked, mux. rewrite Hm. cbn [andb].
  destruct (is_read r); [|by intros [= ]]. intros Hr.
  pose proof (offers_get_mux _ r w eq_refl) as Ho. rewrite Hr in Ho. by apply (Ho c t).
Qed.

Lemma authorized_keeps r w w1 ok : authorized (H := H) r w = (ok, w1) -> w_state w1 = w_state w.
Proof.
  intros E. pose proof (eq_authorized r w) as Hs. by rewrite E in Hs.
Qed.

(** C6: the forms of the panel work.  A form that a page rendered for a session, sent by the same
    session while it lasts and the master key is the same, passes the CSRF check and reaches its
    handler. *)
Theorem rendered_forms_are_accepted random random' r r' w w' w1 code c t :
  q_Method r <> "POST" ->
  fst (serve adapterOverride proxyOverride serialize s3_put_object client cloudflared static patience
    zone config e random r w) = Ok (Render code c) ->
  In t (tokens_of (page_of c)) -> t <> "" ->
  q_Cookie r' = q_Cookie r -> hub_key (w_state w') = hub_key (w_state w) ->
  FormValue r' "csrf_token" = t -> authorized r' w' = (Ok true, w1) ->
  csrf_checked r' = true -> csrf_bypass config r' = false ->
  serve adapterOverride proxyOverride serialize s3_put_object client cloudflared static patience
    zone config e random' r' w'
  = mux adapterOverride proxyOverride serialize s3_put_object client cloudflared static patience
    zone config e random' r' w1.
Proof.
  intros Hm Hr Ht Hn Hc Hk Hf Ha Hck Hb. pose proof (rendered_tokens _ _ _ _ _ _ Hm Hr Ht) as Et.
  unfold serve, csrfCheck. rewrite Hck, Hb, (bind_ok _ _ _ _ _ Ha). cbn [negb].
  unfold token_for in Et. rewrite <- Hc in Et. destruct (q_Cookie r') as [cookie|]; [|done].
  unfold csrfTokenFor, keyCopy, peek, mbind, M_bind, csrf_actual. rewrite (authorized_keeps _ _ _ _ Ha), Hk, Hf.
  destruct (hub_key (w_state w) =? "")%string; [done|]. cbn [mret M_ret]. rewrite <- Et.
  apply String.eqb_neq in Hn. by rewrite Hn, String.eqb_refl.
Qed.
End forms.

(** ** The page of an application and its forms *)

Definition blog_token : string := RawURLEncoding (hmac_sha256 zero_key "c1").
Definition lock_form : HTTPRequest :=
  MkHTTPRequest "POST" ["lock"] (Ok tt) [("csrf_token", blog_token)] [] [] (Ok "") (Some "c1") "192.0.2.7:40001" true.

Definition shows_token (out : result Reply) (t : string) : bool :=
  match out with Ok (Render _ c) => existsb (String.eqb t) (tokens_of (page_of c)) | _ => false end.
Lemma shows_token_spec out t : shows_token out t = true ->
  exists code c, out = Ok (Render code c) /\ In t (tokens_of (page_of c)).
Proof.
  destruct out as [[]|]; try done. intros (t' & Ht & ->%String.eqb_eq)%existsb_exists. by do 2 eexists.
Qed.

Lemma rendered_forms_are_accepted_witness :
  sample_serve lock_form open_world
  = mux ∅ None (fun _ => Ok "SQLite format 3") no_upload NewCloudflareClient
      (NewDockerCloudflaredConnector "" "") no_scripts 0 0 hook_config (executor_of hook_config)
      (fun _ => Ok "nonce-123456") lock_form open_world.
Proof.
  assert (shows_token (fst (sample_serve (page_request (Some "c1")) open_world)) blog_token = true) as E
    by (vm_compute; reflexivity).
  apply shows_token_spec in E as (code & c & E & Ht).
  apply (rendered_forms_are_accepted ∅ None (fun _ => Ok "SQLite format 3") no_upload NewCloudflareClient
    (NewDockerCloudflaredConnector "" "") no_scripts 0 0 hook_config (executor_of hook_config)
    (fun _ => Ok "nonce-123456") (fun _ => Ok "nonce-123456") (page_request (Some "c1")) lock_form
    open_world open_world open_world code c blog_token);
    [discriminate|exact E|exact Ht|vm_compute; discriminate|reflexivity|reflexivity|reflexivity
    |vm_compute; reflexivity|reflexivity|vm_compute; reflexivity].
Defined.
