(* ===== verification/ApplicationFacts.v ===== *)
(** * The registered applications stay well formed *)

From S2P Require Import Prelude GoStrings GoTime Json Net Base64 Security BackupFormat Host Templates.
From S2P Require Import StoreTypes Executor Proxy BlueGreen Release Config Views Hub Preflight Operations Session.
From S2P Require Import StoreSettings StoreApplications StoreAccess StoreDeployments StoreQueueFacts CICD.
From S2P Require Import AccessFacts Handlers.

Section applications.
Context {H : Type} `{!Host H} `{!Crypto}.
Context (adapterOverride : gmap string (RuntimeAdapter H)) (proxyOverride : option (ProxyAdapter H)).
Context (config : Config).

(** ** Well-formed applications *)

(** What the queue, the builder and the proxy rely on: the name names containers, the domain
    is not the panel's, the port is a TCP port, the type has a template or a Dockerfile, and
    a push never skips a confirmation. *)
Definition well_formed (a : StoreTypes.Application) : bool :=
  appNameRegex (a_Name a) && negb (a_Repository a =? "")%string
  && valid_fields adapterOverride proxyOverride a
  && negb (a_Domain a =? Config.AdminDomain config)%string
  && negb (a_DeployOnPush a && a_RequireConfirmation a).

Definition apps_ok (db : database) : Prop :=
  Forall (fun a => well_formed a = true) (t_applications db).

Lemma keeps_update id f :
  (forall a, well_formed a = true -> well_formed (f a) = true) ->
  evolves (keeps apps_ok) (update_application id f).
Proof.
  intros Hf. refine (evolves_step _ _ _). intros db Hok.
  cbv beta zeta. destruct (unique_applications _); [|done]. destruct (Nat.eqb _ 0); [done|].
  unfold apps_ok in *. simpl. apply List.Forall_map. eapply Forall_impl; [exact Hok|].
  intros a Ha. simpl. destruct (a_ID a =? id); [by apply Hf|done].
Qed.

Lemma well_formed_parts a : well_formed a = true <->
  appNameRegex (a_Name a) = true /\ (a_Repository a =? "")%string = false
  /\ valid_fields adapterOverride proxyOverride a = true
  /\ (a_Domain a =? Config.AdminDomain config)%string = false
  /\ a_DeployOnPush a && a_RequireConfirmation a = false.
Proof.
  unfold well_formed. rewrite !andb_true_iff, !negb_true_iff. tauto.
Qed.

Lemma keeps_create a :
  appNameRegex (a_Name a) = true -> (a_Repository a =? "")%string = false ->
  valid_fields adapterOverride proxyOverride a = true ->
  (a_Domain a =? Config.AdminDomain config)%string = false ->
  evolves (keeps apps_ok) (CreateApplication a).
Proof.
  intros Hn Hr Hv Hd. unfold CreateApplication, push_and_confirm.
  destruct (_ && _) eqn:Hp; [evolve|]. apply evolves_bind; [exact _|evolve|]. intros t.
  apply evolves_bind; [exact _| |intros; evolve]. apply evolves_step; [exact _|]. intros db Hok.
  cbv beta zeta. destruct (unique_applications _); [|done]. unfold apps_ok in *. simpl.
  apply Forall_app. split; [done|]. apply Forall_singleton. by apply well_formed_parts.
Qed.

Lemma keeps_automation id push confirm rollback :
  evolves (keeps apps_ok) (UpdateApplicationAutomation id push confirm rollback).
Proof.
  unfold UpdateApplicationAutomation, push_and_confirm. destruct (push && confirm) eqn:Hp; [evolve|].
  apply keeps_update. intros a (Hn & Hr & Hv & Hd & _)%well_formed_parts. by apply well_formed_parts.
Qed.

Lemma keeps_domain id domain :
  domainRegex domain = true -> (domain =? Config.AdminDomain config)%string = false ->
  evolves (keeps apps_ok) (UpdateApplicationDomain id domain).
Proof.
  intros Hd Ha. apply keeps_update. intros a (Hn & Hr & Hv & _ & Hp)%well_formed_parts.
  apply well_formed_parts. split_and!; try done. revert Hv. unfold valid_fields.
  rewrite !andb_true_iff. simpl. tauto.
Qed.

(** What the validation of the form has checked. *)
Lemma valid_application_run port a (w : world (site H)) w' :
  valid_application adapterOverride proxyOverride config port a w = (Ok true, w') ->
  appNameRegex (a_Name a) = true /\ (a_Repository a =? "")%string = false
  /\ valid_fields adapterOverride proxyOverride a = true.
Proof.
  unfold valid_application. destruct (_ || _) eqn:E; [done|]. bools.
  intros (git & w1 & _ & E')%bind_run. destruct (git && _); [done|].
  destruct (valid_fields adapterOverride proxyOverride a) eqn:Hv; [|done].
  split; [done|]. split; [by apply String.eqb_neq|done].
Qed.

End applications.
