(* ===== verification/SystemFacts.v ===== *)
(** * The invariant of the running system

    Whatever happens to a process, in whatever order and whatever fails on the way, the queue,
    the registered applications and the variables of its database stay well formed. *)

From S2P Require Import Prelude GoStrings GoTime Json Net Base64 Security BackupFormat Host Templates.
From S2P Require Import StoreTypes Executor Proxy BlueGreen Release Config Views Hub Preflight Operations Session.
From S2P Require Import StoreSettings StoreApplications StoreAccess AccessFacts StoreDeployments StoreQueueFacts JobSpec.
From S2P Require Import CICD Agent Handlers Cloudflare Connector CloudflareHandlers Repositories Pages PageHandlers Server Startup Process.
From S2P Require Import Engine BlueGreenFacts WebhookFacts SessionFacts ReadOnly ServerFacts ReadFacts ApplicationFacts.

Lemma evolves_ignored {S A} (R : relation S) (m : M S A) : evolves R (ignore m) -> evolves R m.
Proof. intros Hm w. specialize (Hm w). unfold ignore in Hm. by destruct (m w). Qed.

Lemma evolves_and {S A} (P Q : S -> Prop) (m : M S A) :
  evolves (keeps P) m -> evolves (keeps Q) m -> evolves (keeps (fun s => P s /\ Q s)) m.
Proof. intros HP HQ w [Hp Hq]. split; [by apply HP|by apply HQ]. Qed.

(** A relation of databases on the state of an agent's stream. *)
Definition on_plane (R : relation database) : relation control := fun a b => R (ct_db a) (ct_db b).
#[export] Instance on_plane_preorder R `{!PreOrder R} : PreOrder (on_plane R).
Proof. split; unfold on_plane; [intros x; reflexivity|intros x y z; apply transitivity]. Qed.

Section plane.
Context (R : relation database) `{!PreOrder R}.
Lemma plane_on_store {A} (m : DB A) : evolves R m -> evolves (on_plane R) (on_store m).
Proof. by apply evolves_zoom. Qed.
Lemma evolves_Send m : evolves (on_plane R) (Send m).
Proof. apply evolves_update; [exact _|]. intros s. unfold on_plane. simpl. reflexivity. Qed.
Lemma evolves_on_control {T A} (m : CM A) : evolves (on_plane R) m -> evolves (on_database (H := T) R) (on_control m).
Proof. by apply evolves_zoom. Qed.
Context `{!Crypto} (Hnode : forall node, evolves R (UpsertNode node)).
Lemma evolves_heartbeats first identity incoming : evolves (on_plane R) (heartbeats first identity incoming).
Proof.
  assert (forall m identity, evolves (on_plane R) (upsert m identity)) as Hu.
  { intros m identity'. by apply plane_on_store. }
  induction incoming as [|data incoming IH]; simpl; unfold Recv; evolve; done.
Qed.
Lemma evolves_Connect {T} p peer incoming : evolves (on_database (H := T) R) (on_control (Connect p peer incoming)).
Proof.
  apply evolves_on_control. unfold Connect, upsert, Recv.
  repeat first [evolve_step | apply evolves_Send | apply evolves_heartbeats | apply plane_on_store, Hnode].
Qed.
End plane.

(** ** The interface

    What the store must promise about an invariant of the database for every process to keep
    it: its writes of the queue and of the variables, the secrets of Cloudflare, a new
    application that passed the form, and the two changes of an application.  Every other
    statement leaves these tables alone. *)

Definition same_tables (a b : database) : Prop :=
  t_deployments b = t_deployments a /\ t_applications b = t_applications a
  /\ t_secrets b = t_secrets a /\ t_configuration b = t_configuration a.

Section interface.
Context {H : Type} `{!Host H}.
Context (adapterOverride : gmap string (RuntimeAdapter H)) (proxyOverride : option (ProxyAdapter H)).
Context (config : Config).

(** What the form of a new application has checked. *)
Definition acceptable (a : StoreTypes.Application) : Prop :=
  appNameRegex (a_Name a) = true /\ (a_Repository a =? "")%string = false
  /\ valid_fields adapterOverride proxyOverride a = true
  /\ (a_Domain a =? Config.AdminDomain config)%string = false.

Class Preserved (I : database -> Prop) : Prop := {
  pr_other : forall a b, same_tables a b -> I a -> I b;
  pr_deployment : forall op, evolves (keeps I) (run_op op);
  pr_setting : forall op, evolves (keeps I) (run_setting op);
  pr_cloudflare : forall name nonce c, evolves (keeps I) (PutSecret cloudflare_scope name nonce c);
  pr_create : forall a, acceptable a -> evolves (keeps I) (CreateApplication a);
  pr_automation : forall id push confirm rollback,
    evolves (keeps I) (UpdateApplicationAutomation id push confirm rollback);
  pr_domain : forall id domain,
    domainRegex domain = true -> (domain =? Config.AdminDomain config)%string = false ->
    evolves (keeps I) (UpdateApplicationDomain id domain) }.

#[export] Instance preserved_and (P Q : database -> Prop) `{!Preserved P, !Preserved Q} :
  Preserved (fun db => P db /\ Q db).
Proof.
  split; intros; try (apply evolves_and).
  - destruct H1 as [Hp Hq]. split; by eapply pr_other.
  - apply pr_deployment.
  - apply pr_deployment.
  - apply pr_setting.
  - apply pr_setting.
  - apply pr_cloudflare.
  - apply pr_cloudflare.
  - by apply pr_create.
  - by apply pr_create.
  - apply pr_automation.
  - apply pr_automation.
  - by apply pr_domain.
  - by apply pr_domain.
Qed.
End interface.
Arguments pr_other {H _ adapterOverride proxyOverride config I _} _ _ _ _.
Arguments pr_deployment {H _ adapterOverride proxyOverride config I _} _.
Arguments pr_setting {H _ adapterOverride proxyOverride config I _} _.
Arguments pr_cloudflare {H _ adapterOverride proxyOverride config I _} _ _ _.
Arguments pr_create {H _ adapterOverride proxyOverride config I _} _ _.
Arguments pr_automation {H _ adapterOverride proxyOverride config I _} _ _ _ _.
Arguments pr_domain {H _ adapterOverride proxyOverride config I _} _ _ _ _.

(** ** Traversal

    The statements of the interface are taken from the hint database; the others do not write
    its tables. *)

Create HintDb sound discriminated.
#[export] Hint Constants Opaque : sound.

Ltac other_tables :=
  lazymatch goal with
  | |- evolves _ _ => fail
  | |- keeps _ _ _ =>
    simpl; repeat case_match; simplify_eq; first [done | by intros ? | refine (pr_other _ _ _); split_and!; done]
  end.
Ltac sound_step := first [handle_step | solve [eauto 2 with sound] | other_tables | open_head].
Ltac sound := repeat sound_step.

Section system.
Context {H : Type} `{!Host H} `{!Crypto}.
Context (Key : Type) (parseRSAPrivateKey : string -> result Key) (SignPKCS1v15 : Key -> string -> result string).
Context (adapterOverride : gmap string (RuntimeAdapter H)) (proxyOverride : option (ProxyAdapter H)).
Context (serialize : database -> result string)
  (s3_put_object : S3Config -> s3_put -> H -> result unit * H).
Context (client : CloudflareAPI H) (cloudflared : CloudflaredConnector H).
Context (static : string -> option string) (patience : nat).
Context (zone : Duration) (config : Config) (e : Executor) (plane : ControlPlane).
Context (I : database -> Prop) `{HI : !Preserved adapterOverride proxyOverride config I}.
Abbreviation kept := (evolves (on_database (H := H) (keeps I))).
Abbreviation kept_by_store := (evolves (keeps I)).

(** *** The statements of the interface *)

Lemma sound_op op : kept_by_store (run_op op).
Proof. apply pr_deployment. Qed.
Lemma sound_queue app action log : kept_by_store (QueueDeployment app action log).
Proof. exact (evolves_ignored _ _ (sound_op (OpQueue app action log))). Qed.
Lemma sound_next : kept_by_store NextQueuedDeployment.
Proof. exact (evolves_ignored _ _ (sound_op OpNext)). Qed.
Lemma sound_heartbeat id : kept_by_store (HeartbeatDeployment id).
Proof. exact (evolves_ignored _ _ (sound_op (OpHeartbeat id))). Qed.
Lemma sound_cancel app id : kept_by_store (CancelDeployment app id).
Proof. exact (evolves_ignored _ _ (sound_op (OpCancel app id))). Qed.
Lemma sound_recover : kept_by_store RecoverInterruptedDeployments.
Proof. exact (evolves_ignored _ _ (sound_op OpRecover)). Qed.
Lemma sound_finish id s : kept_by_store (FinishDeployment id (final_text s)).
Proof. exact (evolves_ignored _ _ (sound_op (OpFinish id s))). Qed.
Lemma sound_finish_failed id : kept_by_store (FinishDeployment id "failed").
Proof. exact (sound_finish id Failed). Qed.
Lemma sound_image id image : kept_by_store (SetDeploymentImage id image).
Proof. exact (evolves_ignored _ _ (sound_op (OpImage id image))). Qed.
Lemma sound_metadata id m : kept_by_store (SetDeploymentReleaseMetadata id m).
Proof. exact (evolves_ignored _ _ (sound_op (OpMetadata id m))). Qed.
Lemma sound_failure id st c d : kept_by_store (SetDeploymentFailure id st c d).
Proof. exact (evolves_ignored _ _ (sound_op (OpFailure id st c d))). Qed.
Lemma sound_stage id st : kept_by_store (SetDeploymentStage id st).
Proof. exact (evolves_ignored _ _ (sound_op (OpStage id st))). Qed.
Lemma sound_durations id q s b st h r : kept_by_store (SetDeploymentStageDurations id q s b st h r).
Proof. exact (evolves_ignored _ _ (sound_op (OpDurations id q s b st h r))). Qed.
Lemma sound_event id st k m : kept_by_store (AddDeploymentEvent id st k m).
Proof. exact (evolves_ignored _ _ (sound_op (OpEvent id st k m))). Qed.
Lemma sound_delete app ids : kept_by_store (DeleteDeployments app ids).
Proof. exact (evolves_ignored _ _ (sound_op (OpDelete app ids))). Qed.
Lemma sound_put_secret a env t n nonce c : kept_by_store (PutApplicationSecret a env t n nonce c).
Proof. exact (evolves_ignored _ _ (pr_setting (OpPutSecret a env t n nonce c))). Qed.
Lemma sound_delete_secret a env t n : kept_by_store (DeleteApplicationSecret a env t n).
Proof. exact (evolves_ignored _ _ (pr_setting (OpDeleteSecret a env t n))). Qed.
Lemma sound_use_secrets a env t names : kept_by_store (RecordSecretUse a env t names).
Proof. exact (evolves_ignored _ _ (pr_setting (OpUseSecrets a env t names))). Qed.
Lemma sound_put_configuration a env t n v : kept_by_store (PutApplicationConfiguration a env t n v).
Proof. exact (evolves_ignored _ _ (pr_setting (OpPutConfiguration a env t n v))). Qed.
Lemma sound_delete_configuration a env t n : kept_by_store (DeleteApplicationConfiguration a env t n).
Proof. exact (evolves_ignored _ _ (pr_setting (OpDeleteConfiguration a env t n))). Qed.
Lemma sound_cloudflare_secret name nonce c : kept_by_store (PutSecret cloudflare_scope name nonce c).
Proof. apply pr_cloudflare. Qed.
Lemma sound_automation id push confirm rollback :
  kept_by_store (UpdateApplicationAutomation id push confirm rollback).
Proof. apply pr_automation. Qed.
#[local] Hint Resolve sound_op sound_queue sound_next sound_heartbeat sound_cancel sound_recover
  sound_finish sound_finish_failed sound_image sound_metadata sound_failure sound_stage sound_durations
  sound_event sound_delete sound_put_secret sound_delete_secret sound_use_secrets sound_put_configuration
  sound_delete_configuration sound_cloudflare_secret sound_automation : sound.

(** *** Jobs *)

Lemma sound_meanwhile id during : forall alive, kept_by_store (meanwhile id alive during).
Proof. induction during as [|[|op] during IH]; intros alive; simpl; sound. Qed.
#[local] Hint Resolve sound_meanwhile : sound.

Lemma sound_decrypt id environment target key metadata : forall values,
  kept (decrypt_all id environment target key metadata values).
Proof. induction metadata as [|secret metadata IH]; intros values; simpl; sound. Qed.
#[local] Hint Resolve sound_decrypt : sound.
Lemma sound_configuration id environment : kept (deploymentConfiguration id environment).
Proof. sound. Qed.
#[local] Hint Resolve sound_configuration : sound.

Lemma outcome_final id action err (w : world (hub H)) status w' :
  outcome id action err w = (Ok status, w') -> exists f, status = final_text f.
Proof.
  unfold outcome. intros (cancelled & w1 & _ & (? & w2 & _ & E)%bind_run)%bind_run.
  destruct cancelled as [[|]|], err; apply ret_run in E as [-> _] || (apply bind_run in E as (? & ? & _ & [-> _]%ret_run));
    solve [by exists Cancelled | by exists Failed | by exists Successful].
Qed.

Lemma sound_outcome id action err : kept (outcome id action err).
Proof. sound. Qed.
Lemma sound_queueDeployment id action : kept (queueDeployment config id action).
Proof. sound. Qed.
#[local] Hint Resolve sound_outcome sound_queueDeployment : sound.

Lemma sound_finish_job d action application during err : kept (finish_job config d action application during err).
Proof.
  unfold finish_job. apply evolves_bind; [exact _|sound|]. intros lost. cbv zeta.
  apply evolves_bind_value; [exact _|sound|]. intros status (w & w' & [f ->]%outcome_final). sound.
Qed.
#[local] Hint Resolve sound_finish_job : sound.

Lemma sound_tracked id m : kept (tracked id m).
Proof. sound. Qed.
#[local] Hint Resolve sound_tracked : sound.
Lemma sound_run_deploy d application configuration : kept (run_deploy Key parseRSAPrivateKey SignPKCS1v15
  adapterOverride proxyOverride e d application configuration).
Proof. unfold run_deploy. cbv zeta. apply evolves_bind; [exact _|apply sound_tracked|]. intros [release err]. sound. Qed.
Lemma sound_run_rollback d application configuration (target : DB Deployment) : kept_by_store target ->
  kept (run_rollback adapterOverride proxyOverride e d application configuration target).
Proof.
  intros Ht. unfold run_rollback. apply evolves_bind; [exact _| |].
  - apply evolves_attempt, evolves_bind; [exact _|by apply evolves_on_db|]. intros previous. sound.
  - intros [[previous configuration']|err]; [|sound]. cbv zeta. sound.
Qed.
#[local] Hint Resolve sound_run_deploy : sound.
Lemma sound_run_action action d application configuration : kept (run_action Key parseRSAPrivateKey SignPKCS1v15
  adapterOverride proxyOverride e action d application configuration).
Proof. unfold run_action. repeat case_match; [sound|apply sound_run_rollback; sound|apply sound_run_rollback; sound|sound]. Qed.
#[local] Hint Resolve sound_run_action : sound.
Lemma sound_reuse id configuration : kept (reuse_failed id configuration).
Proof. sound. Qed.
#[local] Hint Resolve sound_reuse : sound.
Lemma sound_run_next during : kept (runNextDeployment Key parseRSAPrivateKey SignPKCS1v15 adapterOverride
  proxyOverride config e during).
Proof. sound. Qed.

Lemma sound_retention : kept (runRetention adapterOverride proxyOverride config e).
Proof. sound. Qed.
#[local] Hint Resolve sound_retention : sound.
Lemma sound_cleanup last t : kept (cleanup_tick adapterOverride proxyOverride config e last t).
Proof. sound. Qed.
Lemma sound_backup random : kept (runBackup serialize s3_put_object config random).
Proof. sound. Qed.
Lemma sound_collect_all applications : forall c, kept (collect_all adapterOverride proxyOverride config e applications c).
Proof. induction applications as [|a applications IH]; intros c; simpl; sound. Qed.
#[local] Hint Resolve sound_collect_all : sound.
Lemma sound_collection : kept (runCollection adapterOverride proxyOverride config e).
Proof. sound. Qed.
#[local] Hint Resolve sound_collection : sound.
Lemma sound_queue_start : kept (StartQueue adapterOverride proxyOverride config e).
Proof. sound. Qed.
Lemma sound_connect peer incoming : kept (on_control (Connect plane peer incoming)).
Proof. apply evolves_Connect; [exact _|]. intros node. sound. Qed.

(** *** Requests *)

Lemma sound_required r h : kept h -> kept (requireAuthorization r h).
Proof. intros Hh. unfold requireAuthorization. apply evolves_bind; [exact _|sound|]. by intros [|]; [|sound]. Qed.

Lemma sound_createApplication r : kept (createApplication adapterOverride proxyOverride config r).
Proof.
  apply sound_required, evolves_or_reply; [exact _|sound|]. intros []. cbv zeta. set (a := apply_template _ _).
  apply evolves_bind_value; [exact _|sound|]. intros valid (w & w' & E). destruct valid; cbn [negb]; [|sound].
  apply on_site_run in E as (v & E & _). apply valid_application_run in E as (Hn & Hr & Hv).
  destruct (a_Domain a =? Config.AdminDomain config)%string eqn:Hd; [sound|].
  apply evolves_bind; [exact _|by apply evolves_attempt, evolves_on_db, pr_create|]. intros registered. sound.
Qed.

Lemma sound_updateDomain r id : kept (updateApplicationDomain client config r id).
Proof.
  apply sound_required. destruct (parse_int id) as [n|]; [|sound].
  apply evolves_or_reply; [exact _|sound|]. intros []. cbv zeta. set (domain := trim_space _).
  destruct (negb (domainRegex domain) || (domain =? Config.AdminDomain config)%string) eqn:Hd; [sound|]. bools.
  apply evolves_or_reply; [exact _|apply evolves_on_db, pr_domain; [done|by apply String.eqb_neq]|]. intros []. sound.
Qed.
#[local] Hint Resolve sound_createApplication sound_updateDomain : sound.

Lemma sound_post_mux random r : kept (post_mux adapterOverride proxyOverride serialize s3_put_object
  client cloudflared zone config e random r).
Proof. sound. Qed.

Lemma sound_mux random r : kept (mux adapterOverride proxyOverride serialize s3_put_object client
  cloudflared static patience zone config e random r).
Proof.
  unfold mux. destruct (q_Method r =? "POST")%string; [apply sound_post_mux|].
  destruct (is_read r); [|sound]. apply (evolves_weaken same_process); [|apply reads_get_mux].
  intros x y [E _]. unfold on_database, keeps. by rewrite E.
Qed.
#[local] Hint Resolve sound_mux : sound.

Lemma sound_serve random r : kept (serve adapterOverride proxyOverride serialize s3_put_object client
  cloudflared static patience zone config e random r).
Proof. sound. Qed.
End system.

(** *** The life of a process *)

Section process.
Context {H : Type} `{!Host H} `{!Crypto}.
Context (Key : Type) (parseRSAPrivateKey : string -> result Key) (SignPKCS1v15 : Key -> string -> result string).
Context {Pair Pool : Type} (LoadX509KeyPair : string -> string -> H -> result Pair * H)
  (AppendCertsFromPEM : string -> option Pool) (net_Listen : string -> H -> result unit * H).
Context (adapterOverride : gmap string (RuntimeAdapter H)) (proxyOverride : option (ProxyAdapter H)).
Context (serialize : database -> result string)
  (s3_put_object : S3Config -> s3_put -> H -> result unit * H).
Context (client : CloudflareAPI H) (cloudflared : CloudflaredConnector H).
Context (static : string -> option string) (patience : nat).
Context (zone : Duration) (config : Config) (plane : ControlPlane).
Context (I : database -> Prop) `{HI : !Preserved adapterOverride proxyOverride config I}.
Abbreviation kept := (evolves (on_database (H := H) (keeps I))).
Abbreviation booted := (boot LoadX509KeyPair AppendCertsFromPEM net_Listen adapterOverride proxyOverride config).
Abbreviation happens := (happen Key parseRSAPrivateKey SignPKCS1v15 LoadX509KeyPair AppendCertsFromPEM net_Listen
  adapterOverride proxyOverride serialize s3_put_object client cloudflared static patience zone config plane).

(** The defaults do not change what the interface asks for. *)
#[local] Instance preserved_configured : Preserved adapterOverride proxyOverride (configured config) I.
Proof.
  assert (Config.AdminDomain (configured config) = Config.AdminDomain config) as E
    by (unfold configured; by repeat case_match).
  split; [exact pr_other|exact pr_deployment|exact pr_setting|exact pr_cloudflare| |exact pr_automation|].
  - intros a Ha. apply pr_create. unfold acceptable in *. by rewrite <- E.
  - intros id domain Hd Ha. apply pr_domain; [done|]. by rewrite <- E.
Qed.

Lemma New_run (w : world (hub H)) c e w' : New config w = (Ok (c, e), w') -> c = configured config.
Proof. unfold New. by intros (? & w1 & _ & [= <- _ _])%bind_run. Qed.

Lemma evolves_fatal {A} what (m : AM H A) : kept m -> kept (fatal what m).
Proof. intros Hm. unfold fatal. by sound. Qed.

Lemma sound_boot : kept booted.
Proof.
  unfold boot. apply evolves_bind; [exact _|sound|]. intros _.
  apply evolves_bind_value; [exact _|apply evolves_fatal; sound|]. intros [c e] (w & w' & E).
  apply catch_cases in E as [([c' e'] & ->%New_run & [= -> _])|(err & w0 & _ & E)]; [|done].
  apply evolves_bind; [exact _|sound|]. intros agents.
  apply evolves_bind; [exact _|apply evolves_fatal, sound_queue_start; exact _|]. intros n.
  apply evolves_bind; [exact _|apply sound_collection; exact _|]. intros _. sound.
Qed.

(** A process that runs has the configuration of its start. *)
Definition started (p : option (running (Pair := Pair) (Pool := Pool))) : Prop :=
  forall q, p = Some q -> rn_config q = configured config.

Lemma boot_config w p w' : booted w = (Ok p, w') -> rn_config p = configured config.
Proof.
  intros (u & w1 & _ & ([c e] & w2 & E & E')%bind_run)%bind_run.
  apply catch_cases in E as [([c' e'] & ->%New_run & [= -> _])|(err & w0 & _ & E)]; [|done].
  apply bind_run in E' as (agents & w3 & _ & (n & w4 & _ & (u1 & w5 & _ & (u2 & w6 & _ & [= <- _])%bind_run)%bind_run)%bind_run).
  done.
Qed.

Lemma happen_started ev p w p' w' : started p -> happens ev p w = (Ok p', w') -> started p'.
Proof.
  assert (Hstart : forall w p' w', start LoadX509KeyPair AppendCertsFromPEM net_Listen adapterOverride
                     proxyOverride config w = (Ok p', w') -> started p').
  { intros v q v' (r & w1 & Hr%attempt_run & [= <- _])%bind_run x. destruct r as [r|err]; [|done].
    intros [= <-]. by eapply boot_config. }
  intros Hp E. destruct p as [p|]; simpl in E.
  - destruct ev; simpl in E; try by eapply Hstart.
    all: apply bind_run in E as (? & ? & _ & [= <- _]); try done.
    intros q [= <-]. by apply (Hp p).
  - destruct ev; try (by injection E as <- _). by eapply Hstart.
Qed.

Lemma sound_happen ev p : started p -> kept (happens ev p).
Proof.
  assert (kept (start LoadX509KeyPair AppendCertsFromPEM net_Listen adapterOverride proxyOverride config)) as Hs
    by (apply evolves_bind; [exact _|apply evolves_attempt, sound_boot|intros r; sound]).
  intros Hp. destruct p as [p|]; simpl; [|destruct ev; sound; exact Hs].
  specialize (Hp p eq_refl). destruct ev; simpl; [exact Hs|..]; rewrite ?Hp.
  all: apply evolves_bind; [exact _| |intros ?; sound].
  - sound.
  - apply evolves_ignore, sound_serve. exact _.
  - destruct (rn_agents p); [|sound]. eapply evolves_ignore, sound_connect. exact preserved_configured.
  - apply evolves_ignore, sound_run_next. exact _.
  - apply sound_cleanup. exact _.
  - eapply evolves_ignore, sound_backup. exact preserved_configured.
  - apply evolves_ignore, sound_collection. exact _.
Qed.

Lemma sound_life events : forall p, started p -> kept (life Key parseRSAPrivateKey SignPKCS1v15 LoadX509KeyPair
  AppendCertsFromPEM net_Listen adapterOverride proxyOverride serialize s3_put_object client cloudflared static
  patience zone config plane events p).
Proof.
  induction events as [|ev events IH]; intros p Hp; [sound|]. simpl.
  apply evolves_bind_value; [exact _|by apply sound_happen|]. intros p' (w & w' & E).
  apply IH. by eapply happen_started.
Qed.
End process.

(** ** The invariants *)

(** What the statements on the deployments write. *)
Section deployments.
Context (R : relation database) `{!PreOrder R} (HR : forall db t, R db (db <| t_deployments := t |>)).

Lemma writes_update p f : evolves R (update_deployments p f).
Proof.
  apply evolves_step; [exact _|]. intros db. unfold write_deployments.
  destruct (one_active_index _); simpl; [apply HR|reflexivity].
Qed.

Lemma writes_insert row : evolves R (insert_deployment row).
Proof.
  apply evolves_step; [exact _|]. intros db. unfold write_deployments.
  destruct (one_active_index _); simpl; [|reflexivity].
  destruct (has_application _ _); simpl; [apply HR|reflexivity].
Qed.
End deployments.

(** A statement that does not write what an invariant reads. *)
Ltac same_table :=
  lazymatch goal with
  | |- evolves _ _ => fail
  | |- keeps _ _ _ => simpl; repeat case_match; simplify_eq; intros Hkept; exact Hkept
  end.
Ltac untouched_step :=
  lazymatch goal with
  | |- evolves _ (update_deployments _ _) => refine (writes_update _ _ _ _); intros ? ? Hkept; exact Hkept
  | |- evolves _ (insert_deployment _) => refine (writes_insert _ _ _); intros ? ? Hkept; exact Hkept
  | |- _ => first [evolve_step | same_table | open_head]
  end.
Ltac untouched := repeat untouched_step.

Section invariants.
Context {H : Type} `{!Host H} `{!Crypto}.
Context (adapterOverride : gmap string (RuntimeAdapter H)) (proxyOverride : option (ProxyAdapter H)).
Context (config : Config).
Abbreviation preserved := (Preserved adapterOverride proxyOverride config).

#[export] Instance queue_preserved : preserved db_inv.
Proof.
  split.
  - intros a b (E & _). unfold db_inv. by rewrite E.
  - intros op. exact (run_op_keeps_inv op).
  - intros op. destruct op; untouched.
  - intros. untouched.
  - intros. untouched.
  - intros. untouched.
  - intros. untouched.
Qed.

#[export] Instance names_preserved : preserved disjoint_names.
Proof.
  split.
  - intros a b (_ & _ & Es & Ec). unfold disjoint_names. by rewrite Es, Ec.
  - intros op. destruct op; untouched.
  - intros op. apply run_setting_disjoint.
  - intros name nonce c. unfold PutSecret. evolve. intros Hd app env target key v Hv.
    destruct (Hd _ _ _ _ _ Hv) as [Hvalid Hs]. split; [done|]. cbn.
    rewrite lookup_insert_ne; [done|]. intros E%(f_equal fst). discriminate E.
  - intros. untouched.
  - intros. untouched.
  - intros. untouched.
Qed.

#[export] Instance apps_preserved : preserved (apps_ok adapterOverride proxyOverride config).
Proof.
  split.
  - intros a b (_ & E & _). unfold apps_ok. by rewrite E.
  - intros op. destruct op; untouched.
  - intros op. destruct op; untouched.
  - intros. untouched.
  - intros a (Hn & Hr & Hv & Hd). by apply keeps_create.
  - intros. apply keeps_automation.
  - intros. by apply keeps_domain.
Qed.

(** What every part of the system relies on. *)
Definition system_ok (db : database) : Prop :=
  db_inv db /\ disjoint_names db /\ apps_ok adapterOverride proxyOverride config db.
End invariants.

(** C1: the invariant of the system.  Whatever sequence of starts, ends, requests, agent streams and
    ticks of the queue, cleanup, backup and collection loops the panel goes through, whatever a
    request asks, whatever other workers do during a job and whatever fails on the way: job ids
    grow, an application has at most one active job and a job a lease exactly while it runs; no
    variable is both a secret and a public value; and every registered application keeps a name
    that names containers, a valid domain other than the panel's, a TCP port, a type that can be
    built, and never deploys on push while it asks for confirmation. *)
Theorem system_invariant {H} `{!Host H} `{!Crypto} (Key : Type) parseRSAPrivateKey
    (SignPKCS1v15 : Key -> string -> result string) {Pair Pool : Type}
    (LoadX509KeyPair : string -> string -> H -> result Pair * H) (AppendCertsFromPEM : string -> option Pool)
    net_Listen adapterOverride proxyOverride serialize s3_put_object client cloudflared static patience zone
    config plane events (w : world (hub H)) :
  system_ok adapterOverride proxyOverride config (hub_db (w_state w)) ->
  system_ok adapterOverride proxyOverride config (hub_db (exec (life Key parseRSAPrivateKey SignPKCS1v15
    LoadX509KeyPair AppendCertsFromPEM net_Listen adapterOverride proxyOverride serialize s3_put_object client
    cloudflared static patience zone config plane events None) w)).
Proof. by apply (sound_life _ _ _ _ _ _ _ _ _ _ _ _ _ _ _ _ _ (system_ok adapterOverride proxyOverride config)). Qed.

(** ** A first start and setup, a registration from a repository alone, a day and a restart *)

Definition listens (address : string) (m : machine) : result unit * machine := (Ok tt, m).
Definition no_pair (certificate key : string) (m : machine) : result unit * machine := (Err (ErrMsg "no pair"), m).
Definition no_pool (pem : string) : option unit := None.
Definition no_key (text : string) : result unit := Err (ErrMsg "no key").
Definition no_signature (key : unit) (text : string) : result string := Err (ErrMsg "no key").
Abbreviation sample_life := (life unit no_key no_signature no_pair no_pool listens ∅ None
  (fun _ => Ok "SQLite format 3") no_upload NewCloudflareClient (NewDockerCloudflaredConnector "" "") no_scripts 0 0
  hook_config (MkControlPlane true 0)).

Definition vacant_world : world (hub machine) :=
  World (Hub database0 (Site (serving_blog []) [] None) "" ∅ cache0) [] 63900000000000000000 [].
Definition sample_random (n : nat) : result string :=
  Ok (match n with 0%nat => "0123456789abcdef" | 1%nat => "nonce-123456" | _ => "session-bytes" end).
Definition first_events : list event := [Restart; Request sample_random setup_request].
Definition sample_session : string := RawURLEncoding "session-bytes".
Definition sample_token : string :=
  RawURLEncoding (hmac_sha256 (hub_key (exec (sample_life first_events None) vacant_world)) sample_session).
Definition register_request : HTTPRequest :=
  MkHTTPRequest "POST" ["applications"] (Ok tt)
    [("csrf_token", sample_token); ("repository", "https://github.com/Acme/My_Web.git")] [] [] (Ok "")
    (Some sample_session) "192.0.2.7:40001" true.
Definition sample_events : list event :=
  first_events ++ [Request sample_random register_request; CollectTick; BackupTick (Ok "nonce-123456");
   CleanupTick 63900003600000000000; QueueTick [Tick]; Shutdown; CollectTick; Restart].
Abbreviation lived := (hub_db (exec (sample_life sample_events None) vacant_world)).

Lemma system_invariant_witness :
  map a_Name (t_applications lived) = ["my-web"]
  /\ map a_Domain (t_applications lived) = ["my-web.localhost"]
  /\ system_ok ∅ None hook_config lived.
Proof.
  split; [vm_compute; reflexivity|]. split; [vm_compute; reflexivity|].
  apply (system_invariant unit no_key no_signature no_pair no_pool listens ∅ None (fun _ => Ok "SQLite format 3")
    no_upload NewCloudflareClient (NewDockerCloudflaredConnector "" "") no_scripts 0 0 hook_config
    (MkControlPlane true 0) sample_events vacant_world).
  split_and!; [repeat split; constructor| |constructor]. intros a e t n v. vm_compute. discriminate.
Defined.
